(* ===== verification/_CoqProject ===== *)
-Q . S2P
Prelude.v
Json.v
Topic.v
Frame.v
WebSocket.v
Props.v
Packets.v
PacketFacts.v
Subscriptions.v
Delivery.v
Storage.v
Offline.v
OfflineFacts.v
Sessions.v
Retain.v
Wills.v
Doubles.v
Breaker.v
Interceptors.v
Broker.v
BrokerFacts.v
Hooks.v
Lifecycle.v
Connections.v
Migration.v
Ring.v
RemoteSubs.v
Takeover.v
Cluster.v
RateLimit.v
Peers.v
Rules.v
Tenants.v
Access.v
Secured.v
Isolation.v
Nodes.v
Settings.v
AuditLog.v
HttpApi.v
Routes.v
AdminLocales.v
AdminApi.v
AdminViews.v
AdminPages.v
AdminTemplates.v
AdminSite.v
