(* ===== verification/Prelude.v ===== *)
(** * A model of the dmqtt broker

    dmqtt is an MQTT broker in Go ([internal/], [cmd/], [config/]) with a TypeScript admin
    interface ([web/admin/src]). A connection is served by a goroutine that reads packets with the
    codec and calls a handler for each; the handlers share the broker's stores (subscriptions,
    sessions, offline queues, retained messages, wills, duplicates), which are mirrored in a
    key-value store and loaded again at start. The HTTP API reads the broker and the cluster, and
    the admin pages poll the HTTP API.

    ** Files

    - [Prelude]: results of Go functions ([res]: a value, an error, a panic, or the fuel of a
      model loop used up), slices that panic out of range, strings as bytes, machine integers as
      [Z] with their wrap-around written out, tactics, the hint database [dmqtt].
    - [Topic]: [broker/topic_matcher.go]. [Frame]: [codec/fixed_header.go], [reader.go],
      [packets.go], [ping.go]. [Props]: [codec/properties.go]. [Packets]: the other files of
      [codec/], one definition per encoder and decoder; [PacketFacts] has their theorems.
      [WebSocket]: [transport/ws.go], the connection as a stream of packets, and its listener.
    - [Subscriptions]: [broker/subscription.go]. [Delivery]: [packet_id.go], [inflight.go],
      [dedup.go]. [Storage]: the interface of [storage/store.go] as the class [Store] with its laws,
      and [pebble.go] over the Pebble library as the class [Pebble].
    - [Offline] and [OfflineFacts]: [broker/offline.go]. [Sessions]: [session.go],
      [session_reaper.go]. [Retain]: [retain.go]. [Wills]: [will.go], [will_persist.go].
    - [Broker]: [broker.go] and [client.go]: the state of the broker with every connection, one
      definition per handler; [BrokerFacts] has the runs of the broker and their theorems, [Hooks] what
      a handler does to the state of the interceptors, what a message can change, and the life of a broker
      that [Serve] has loaded, with what other nodes replicate and what is read again. [Lifecycle]:
      [Serve], [Stop] and [GracefulStop], as events around the handlers.
    - [Connections]: [cluster/connections.go]. [Migration]: [cluster/migration.go] and
      [migration_executor.go], against the interface that the broker implements. [Ring]: [node.go],
      [ring.go], [diff.go], over the hash ring library as the class [HashRing]. [RemoteSubs]:
      [remote_subs.go] and the messages of [gossip_broadcast.go]. [Takeover]: [conflict.go] and
      [takeover.go]. [Cluster]: [cluster.go], [replicator.go] and [membership.go]: the rounds of the
      event loop, the broadcasts, rebalancing and replication, composed of the former, and the events of
      the membership. [Nodes]: the brokers of several nodes with what is under way between them.
      [Peers]: [peer_transport.go] and [Cluster.Forward]: any number of nodes with the streams between
      them, as a system of steps.
    - [Doubles]: IEEE doubles with the operations the code uses. [RateLimit]: [ratelimit/], over the
      token buckets of [golang.org/x/time/rate] as a class. [Breaker]: [circuitbreaker/].
      [Interceptors]: [plugin/interceptor.go], [executor.go], [chain.go], each hook guarded by a
      breaker. [Rules]: [rule/], the rule engine, over the cel-go library as the class [Cel].
      [Tenants]: [tenant/], the tenant interceptor and its manager. [Access]: [auth/], users and
      access rules. [Secured]: the broker with the credentials and the limiter behind its interfaces;
      [Isolation]: with the tenants behind them as well.
      [Settings]: [config/config.go], [cmd/dmqtt/env.go] and [main.go]: the start of
      the broker, the reloading and the order of closing.
      [AuditLog]: [plugin/audit/audit.go] and [plugin/loader.go].
    - [Json]: JSON values, JavaScript property access, shapes of TypeScript interfaces.
      [HttpApi]: the handlers of [httpapi/server.go], and [embed.go]; [Routes]: the server with its
      routes and its API key. [AdminLocales], [AdminApi], [AdminViews], [AdminTemplates],
      [AdminPages], [AdminSite]: the texts, the fetching functions, the state of the pages, what
      their templates show and offer, the polled pages with their composables and requests, and the
      pages served by and calling the HTTP API, of [web/admin/src].

    ** Modelling choices

    A mutex-protected operation is one step. The handlers of one connection run one packet at a
    time and handlers of different connections interleave, each as one step; [Client.close] is two steps
    because it waits in between. Where handlers that overlap meet in what no lock protects, a step model of
    its own shows what happens: the subscriptions of a session that is taken over
    ([BrokerFacts.resume_race_fatal]), the quota and the prefix of a tenant ([Tenants], [Isolation]), the
    channel of a takeover ([Takeover]). Loops whose goroutines run on get the state that others leave as an
    argument ([Cluster.schedule]). The outgoing channel of a client is its list of packets, bounded by 256 and
    with a send on a closed channel as a panic. Times are nanoseconds passed to the operation that
    reads the clock. A Go map is a [gmap]; where the code ranges over one, the model takes the
    order of [map_to_list] and the theorems are stated so that no order matters. Code outside
    the repository is a parameter: Pebble, [encoding/json] (classes with the round trip the code
    relies on), bcrypt, the hash ring, token buckets, peers of the HTTP API and of migrations. The
    broker's handlers are proved against the interfaces of authentication, authorization, rate
    limiter, interceptors and cluster (class [Env]); the state of the limiter, of the interceptors and
    of what the cluster knows is part of the broker's, and [Secured], [Isolation] and [Nodes] put the
    modelled parts in their place. The URL parsers of the browser and of Go are the class [Addresses] of
    [AdminSite]. Each such class has an instance at which the theorems are applied.

    The state of a run: a broker is run by a list of actions ([BrokerFacts.bstep]), loaded from its database
    and with what comes from outside by a list of happenings ([Hooks.served], [Hooks.happen]), with its start
    and stop around them by a list of events ([Lifecycle.step]), and several brokers by events of nodes
    and of messages that arrive in any order, again, or never ([Nodes.step]).

    Fuel: the codec's loops take the length of their input, which they shorten in each round;
    [Migration.batches] takes the number of devices; the theorems prove that the fuel is never
    used up ([decoders_total], [ReadPacket_stream], [Execute_exact]). A read of a WebSocket connection
    takes two rounds for every message and two more ([Read_spec]); a duration of [Settings] takes the
    length of its text ([duration_loop_fuel]).

    ** What is proved

    - Codec: every decoder returns a packet or an error on every input; encoders and decoders are
      inverse to each other, for the property section, for PUBLISH frames and for the variable
      length integers; a stream is cut into exactly the packets written to it; CONNECT, SUBSCRIBE
      and UNSUBSCRIBE packets are decoded to what they encode.
    - Routing: topic matching is the matching of levels with wildcards; the index answers with
      each subscriber once at its best QoS and refines the map of subscriptions; a routed message
      reaches exactly the matching clients, or their offline queues, as far as windows, channels and
      queues have room; QoS 2 duplicates are only acknowledged, in any run until they are released.
    - Safety: no sequence of packets, connections and completed closes makes the broker panic
      ([close_race_panics] and [resume_race_fatal] show the windows in which it does). [GracefulStop] closes
      no connection before its deadline, ends when the clients are gone or the deadline is over, and accepts
      nothing but what waited in the queue of a WebSocket listener.
    - Stores: bounds, order and eviction of the offline queues; expiry; and for sessions, queues,
      retained messages and wills, that loading the store after any run gives the state back (for
      identifiers and topics that JSON keeps, and stores that do not fail).
    - Cluster: a message published on a node reaches the subscribers of all nodes as it would on one
      broker, once the announcements have arrived and as long as nobody unsubscribes (the lemmas after
      [cluster_delivers] and [unsubscribe_hides_others] show what happens otherwise); the connection index and the remote subscriptions refine plain relations; a key has one
      owner and a change of the members moves only the keys it must; a migration deletes what it sent
      without an error and nothing else; of
      the two connections of a client one survives a takeover; what a node's leave and a rebalancing
      change, exactly; in every run of the nodes no goroutine panics, and a message whose sending returned
      without an error was read by the node it was sent to, and goes to its handler if it has one (the
      handler of the migrations is set by nothing, [migration_acked_unhandled]).
    - Limits: in any run, the publishes that the limiter lets through, in all, of a client and on a
      topic, keep to their rates; the breaker is its three-state specification and recovers; the
      chain of interceptors calls exactly the hooks whose breakers allow it; however evaluations,
      actions and reloads interleave, the rule engine attempts exactly the actions of the matching
      rules, starts each exactly when a worker is free, and makes one publish or one request of each.
    - Tenants and access: what a client of a tenant publishes changes, in any life of the broker, only
      connections and queues of clients that asked for the topic as clients of that tenant, or past it, or
      whose stored session did, and the lemmas after [tenants_isolated] are the ways past it; quotas hold; who may
      connect, publish and subscribe is decided by the rules; in every life of the broker behind
      the credentials a client id is matched only by filters that a user who may subscribe to them asked for
      with it, or that its stored session holds; which documents are credentials.
    - Start-up and audit: from which environments a broker starts, the reading of its database included, and
      with what; each audit entry is logged in order, or, when the buffer was full at that moment, backed up
      or counted as dropped.
    - HTTP and pages: the API key guards every route of the API; pages partition the devices, what the cluster list holds, which devices can
      be disconnected from their page (through the address, the routes and the key), which replies keep the
      declared interfaces, polling and timers, the chart
      buffer, completeness of both languages over every key a template or a message asks for, the actions
      that each state of a page offers, and the navigation between the pages.

    ** Not modelled

    What an overlap of two handlers does beyond the step models above; what JSON makes of strings that are
    not UTF-8; JSON documents with a field twice or in another case; retries of requests inside
    [net/http]. The TCP and TLS listeners, QUIC and the memberlist library, the start and stop of the cluster and of
    the HTTP server, metrics, logging, the benchmark and the password tool; the styles of the pages, and
    the bundles under [httpapi/admin/assets], which are the compiled form of [web/admin/src]. *)
From Stdlib Require Export Ascii.
From stdpp Require Export gmap strings list fin_maps sorting pretty.
From Stdlib Require Export ZArith Lia.
#[global] Open Scope Z_scope.

(** ** Results of Go functions *)

Inductive go_error : Type :=
  | ErrMalformedPacket (reason : string)
  | ErrEOF
  | ErrUnexpectedEOF
  | ErrText (message : string)
  | ErrWrap (context : string) (cause : go_error).

#[global] Instance go_error_eq_dec : EqDecision go_error.
Proof. solve_decision. Defined.

Inductive res (A : Type) : Type :=
  | Ok (a : A)
  | Err (e : go_error)
  | Panic
  | NoFuel.
Arguments Ok {A} a.
Arguments Err {A} e.
Arguments Panic {A}.
Arguments NoFuel {A}.

#[global] Instance res_ret : MRet res := λ A a, Ok a.
#[global] Instance res_bind : MBind res := λ A B f m,
  match m with Ok a => f a | Err e => Err e | Panic => Panic | NoFuel => NoFuel end.

Definition wrap_err {A} (ctx : string) (m : res A) : res A :=
  match m with Err e => Err (ErrWrap ctx e) | _ => m end.

(** [safe m]: the computation neither panics nor runs out of fuel. *)
Definition safe {A} (m : res A) : Prop := m ≠ Panic ∧ m ≠ NoFuel.

Definition is_ok {A} (m : res A) : bool :=
  match m with Ok _ => true | _ => false end.

Lemma bind_Ok {A B} (m : res A) (f : A → res B) b :
  m ≫= f = Ok b ↔ ∃ a, m = Ok a ∧ f a = Ok b.
Proof. destruct m; simpl; split; [by eauto|intros (?&[= <-]&?); done|..];
  (done || intros (?&?&?); done). Qed.

Lemma safe_Ok {A} (a : A) : safe (Ok a).
Proof. done. Qed.
Lemma safe_Err {A} e : safe (Err (A:=A) e).
Proof. done. Qed.
Lemma safe_bind {A B} (m : res A) (f : A → res B) :
  safe m → (∀ a, m = Ok a → safe (f a)) → safe (m ≫= f).
Proof. intros [H1 H2] Hf. destruct m; try done. by apply Hf. Qed.
Lemma safe_wrap {A} ctx (m : res A) : safe m → safe (wrap_err ctx m).
Proof. intros [??]. by destruct m. Qed.
Lemma wrap_err_Ok {A} ctx (m : res A) a : wrap_err ctx m = Ok a ↔ m = Ok a.
Proof. by destruct m. Qed.

(** ** Bytes, slices and machine integers *)

Definition byte_ok (z : Z) : Prop := 0 ≤ z < 256.
Definition u16_ok (z : Z) : Prop := 0 ≤ z < 65536.
Definition u32_ok (z : Z) : Prop := 0 ≤ z < 4294967296.
Definition u64_ok (z : Z) : Prop := 0 ≤ z < 18446744073709551616.

Definition u8 (z : Z) : Z := z mod 256.
Definition u16 (z : Z) : Z := z mod 65536.
Definition u32 (z : Z) : Z := z mod 4294967296.
Definition u64 (z : Z) : Z := z mod 18446744073709551616.

Definition len {A} (l : list A) : Z := Z.of_nat (length l).

Definition slice (d : list Z) (lo hi : Z) : res (list Z) :=
  if (0 <=? lo) && (lo <=? hi) && (hi <=? len d)
  then Ok (take (Z.to_nat (hi - lo)) (drop (Z.to_nat lo) d)) else Panic.

Definition index (d : list Z) (i : Z) : res Z :=
  if 0 <=? i then match d !! Z.to_nat i with Some b => Ok b | None => Panic end
  else Panic.

Lemma len_nonneg {A} (l : list A) : 0 ≤ len l.
Proof. unfold len. lia. Qed.
Lemma len_app {A} (l k : list A) : len (l ++ k) = len l + len k.
Proof. unfold len. rewrite length_app. lia. Qed.
Lemma len_cons {A} (x : A) l : len (x :: l) = 1 + len l.
Proof. unfold len. simpl. lia. Qed.
Lemma len_nil {A} : len (@nil A) = 0.
Proof. done. Qed.

Lemma u8_ok z : byte_ok (u8 z).
Proof. unfold byte_ok, u8. apply Z.mod_pos_bound. lia. Qed.
Lemma u8_id z : byte_ok z → u8 z = z.
Proof. apply Z.mod_small. Qed.
Lemma u16_ok_u16 z : u16_ok (u16 z).
Proof. unfold u16_ok, u16. apply Z.mod_pos_bound. lia. Qed.
Lemma u16_id z : u16_ok z → u16 z = z.
Proof. apply Z.mod_small. Qed.

Lemma slice_at (pre x post : list Z) lo hi :
  lo = len pre → hi = len pre + len x → slice (pre ++ x ++ post) lo hi = Ok x.
Proof.
  intros -> ->. unfold slice. rewrite !len_app.
  pose proof (len_nonneg pre). pose proof (len_nonneg x). pose proof (len_nonneg post).
  rewrite (proj2 (Z.leb_le 0 (len pre))), (proj2 (Z.leb_le _ (_ + _))), (proj2 (Z.leb_le _ (_ + (_ + _)))) by lia.
  simpl. f_equal. unfold len. rewrite Nat2Z.id, drop_app_length.
  replace (Z.to_nat _) with (length x) by lia. by rewrite take_app_length.
Qed.

Lemma slice_from (pre post : list Z) lo hi :
  lo = len pre → hi = len pre + len post → slice (pre ++ post) lo hi = Ok post.
Proof. intros ??. rewrite <- (app_nil_r post) at 1. by apply slice_at. Qed.

Lemma slice_ok d lo hi :
  0 ≤ lo → lo ≤ hi → hi ≤ len d →
  ∃ x, slice d lo hi = Ok x ∧ len x = hi - lo ∧
       d = take (Z.to_nat lo) d ++ x ++ drop (Z.to_nat hi) d.
Proof.
  intros ???. unfold slice.
  rewrite !(proj2 (Z.leb_le _ _)) by lia. simpl. eexists; split; [done|].
  unfold len in *. split.
  - rewrite length_take, length_drop. lia.
  - rewrite <- (take_drop (Z.to_nat lo) d) at 1. f_equal.
    rewrite <- (take_drop (Z.to_nat (hi - lo)) (drop (Z.to_nat lo) d)) at 1.
    by rewrite drop_drop, <- Z2Nat.inj_add, Zplus_minus by lia.
Qed.

Lemma index_at (pre post : list Z) b i :
  i = len pre → index (pre ++ b :: post) i = Ok b.
Proof.
  intros ->. unfold index. rewrite (proj2 (Z.leb_le _ _)) by apply len_nonneg.
  unfold len. by rewrite Nat2Z.id, lookup_app_r, Nat.sub_diag by lia.
Qed.

Lemma index_0 b (l : list Z) : index (b :: l) 0 = Ok b.
Proof. done. Qed.

Lemma index_ok d i : 0 ≤ i → i < len d → ∃ b, index d i = Ok b ∧ b ∈ d.
Proof.
  intros ??. unfold index, len in *. rewrite (proj2 (Z.leb_le _ _)) by lia.
  destruct (lookup_lt_is_Some_2 d (Z.to_nat i)) as [b Hb]; [lia|].
  rewrite Hb. eauto using list_elem_of_lookup_2.
Qed.

(** [suffix d off rest]: what is left of [d] from offset [off] on is [rest]. *)
Definition suffix (d : list Z) (off : Z) (rest : list Z) : Prop :=
  ∃ pre, d = pre ++ rest ∧ off = len pre.

Lemma suffix_start d : suffix d 0 d.
Proof. by exists []. Qed.

Lemma suffix_app d off x rest : suffix d off (x ++ rest) → suffix d (off + len x) rest.
Proof.
  intros (pre & -> & ->). exists (pre ++ x). rewrite <- app_assoc. split; [done|].
  by rewrite len_app.
Qed.

Lemma suffix_cons d off b rest : suffix d off (b :: rest) → suffix d (off + 1) rest.
Proof. exact (suffix_app d off [b] rest). Qed.

Lemma suffix_len d off rest : suffix d off rest → 0 ≤ off ∧ off + len rest = len d.
Proof. intros (pre & -> & ->). rewrite len_app. split; [apply len_nonneg|done]. Qed.

Lemma suffix_index d off b rest : suffix d off (b :: rest) → index d off = Ok b.
Proof. intros (pre & -> & ->). by apply index_at. Qed.

Lemma suffix_slice d off x rest hi :
  suffix d off (x ++ rest) → hi = off + len x → slice d off hi = Ok x.
Proof. intros (pre & -> & ->) ->. by apply slice_at. Qed.

Lemma suffix_slice_all d off rest : suffix d off rest → slice d off (len d) = Ok rest.
Proof. intros (pre & -> & ->). apply slice_from; [done|]. by rewrite len_app. Qed.

(** ** Go strings are byte sequences *)

Definition bytes_of (s : string) : list Z :=
  (λ c, Z.of_N (Ascii.N_of_ascii c)) <$> String.list_ascii_of_string s.

Definition string_of (b : list Z) : string :=
  String.string_of_list_ascii ((λ z, Ascii.ascii_of_N (Z.to_N z)) <$> b).

Definition slen (s : string) : Z := Z.of_nat (String.length s).

Lemma len_bytes_of s : len (bytes_of s) = slen s.
Proof.
  unfold len, slen, bytes_of. rewrite length_fmap. f_equal.
  induction s; simpl; congruence.
Qed.

Lemma bytes_of_ok s : Forall byte_ok (bytes_of s).
Proof.
  unfold bytes_of. induction s as [|c s IH]; simpl; constructor; [|done].
  pose proof (Ascii.N_ascii_bounded c). unfold byte_ok. lia.
Qed.

Lemma string_of_bytes_of s : string_of (bytes_of s) = s.
Proof.
  unfold string_of, bytes_of. induction s as [|c s IH]; simpl; [done|].
  rewrite N2Z.id, Ascii.ascii_N_embedding. f_equal. exact IH.
Qed.

Lemma bytes_of_string_of b : Forall byte_ok b → bytes_of (string_of b) = b.
Proof.
  unfold string_of, bytes_of. induction 1 as [|z b Hz Hb IH]; simpl; [done|].
  unfold byte_ok in Hz. rewrite Ascii.N_ascii_embedding by lia.
  rewrite Z2N.id by lia. f_equal. exact IH.
Qed.

Lemma bytes_of_inj s t : bytes_of s = bytes_of t → s = t.
Proof. intros H. by rewrite <- (string_of_bytes_of s), H, string_of_bytes_of. Qed.

(** [utf8.ValidString]. *)
Fixpoint utf8_valid (b : list Z) : bool :=
  let cont lo hi x := (lo <=? x) && (x <=? hi) in
  match b with
  | [] => true
  | x :: b =>
      if x <=? 0x7F then utf8_valid b
      else match b with
      | y :: b =>
          if cont 0xC2 0xDF x then cont 0x80 0xBF y && utf8_valid b
          else match b with
          | z :: b =>
              if x =? 0xE0 then cont 0xA0 0xBF y && cont 0x80 0xBF z && utf8_valid b
              else if x =? 0xED then cont 0x80 0x9F y && cont 0x80 0xBF z && utf8_valid b
              else if cont 0xE1 0xEF x then cont 0x80 0xBF y && cont 0x80 0xBF z && utf8_valid b
              else match b with
              | w :: b =>
                  (if x =? 0xF0 then cont 0x90 0xBF y
                   else if x =? 0xF4 then cont 0x80 0x8F y
                   else cont 0xF1 0xF3 x && cont 0x80 0xBF y) &&
                  cont 0x80 0xBF z && cont 0x80 0xBF w && utf8_valid b
              | [] => false
              end
          | [] => false
          end
      | [] => false
      end
  end.

(** ** Time *)

(** A [time.Time] is its number of nanoseconds since the Unix epoch; the zero value is
    midnight of January 1 of the year 1. *)
Definition zeroTime : Z := -62135596800000000000.
Definition IsZero (t : Z) : bool := t =? zeroTime.
Definition Second : Z := 1000000000.

(** ** Big-endian words ([encoding/binary]) *)

Definition be16 (hi lo : Z) : Z := Z.lor (Z.shiftl hi 8) lo.
Definition put16 (v : Z) : list Z := [u8 (Z.shiftr v 8); u8 v].

(** [binary.BigEndian.Uint16]: panics on a short slice, as Go's does. *)
Definition Uint16 (b : list Z) : res Z :=
  match b with hi :: lo :: _ => Ok (be16 hi lo) | _ => Panic end.

Definition be32 (a b c d : Z) : Z := be16 (be16 (be16 a b) c) d.
Definition PutUint32 (v : Z) : list Z :=
  [u8 (Z.shiftr v 24); u8 (Z.shiftr v 16); u8 (Z.shiftr v 8); u8 v].
Definition Uint32 (b : list Z) : res Z :=
  match b with a :: b :: c :: d :: _ => Ok (be32 a b c d) | _ => Panic end.

(** [binary.BigEndian.PutUint64] and [Uint64]. *)
Definition PutUint64 (v : Z) : list Z := PutUint32 (Z.shiftr v 32) ++ PutUint32 v.
Definition Uint64 (b : list Z) : res Z :=
  match b with
  | a :: b :: c :: d :: e :: f :: g :: h :: _ =>
      Ok (Z.lor (Z.shiftl (be32 a b c d) 32) (be32 e f g h))
  | _ => Panic
  end.

Lemma lor_shift_add a b n : 0 ≤ n → 0 ≤ b < 2 ^ n → Z.lor (Z.shiftl a n) b = a * 2 ^ n + b.
Proof.
  intros Hn Hb. pose proof (Z.add_lor_land (Z.shiftl a n) b) as E.
  assert (Z.land (Z.shiftl a n) b = 0) as Hl; [|rewrite Z.shiftl_mul_pow2 in *; lia].
  apply Z.bits_inj'. intros i Hi. rewrite Z.land_spec, Z.bits_0, Z.shiftl_spec by lia.
  destruct (decide (i < n)).
  - by rewrite Z.testbit_neg_r by lia.
  - apply andb_false_intro2. destruct (decide (b = 0)) as [->|]; [apply Z.bits_0|].
    apply Z.bits_above_log2; [lia|]. apply Z.log2_lt_pow2; [lia|].
    apply Z.lt_le_trans with (2 ^ n); [lia|]. apply Z.pow_le_mono_r; lia.
Qed.

Lemma be16_arith hi lo : byte_ok lo → be16 hi lo = hi * 256 + lo.
Proof. unfold byte_ok, be16. intros ?. by rewrite (lor_shift_add hi lo 8) by lia. Qed.

Lemma be16_ok hi lo : byte_ok hi → byte_ok lo → u16_ok (be16 hi lo).
Proof. intros ??. rewrite be16_arith by done. unfold byte_ok, u16_ok in *. lia. Qed.

Lemma be32_ok a b c d :
  byte_ok a → byte_ok b → byte_ok c → byte_ok d → u32_ok (be32 a b c d).
Proof.
  intros ????. unfold be32. rewrite !be16_arith by done.
  unfold byte_ok, u32_ok in *. lia.
Qed.

Lemma be16_put16 v : u16_ok v → be16 (u8 (Z.shiftr v 8)) (u8 v) = v.
Proof.
  intros Hv. rewrite be16_arith by apply u8_ok. unfold u16_ok, u8 in *.
  rewrite Z.shiftr_div_pow2 by lia. change (2 ^ 8) with 256. rewrite (Z.mod_small (v / 256)).
  - pose proof (Z.div_mod v 256). lia.
  - split; [apply Z.div_pos; lia|apply Z.div_lt_upper_bound; lia].
Qed.

Lemma be32_PutUint32 v : u32_ok v →
  be32 (u8 (Z.shiftr v 24)) (u8 (Z.shiftr v 16)) (u8 (Z.shiftr v 8)) (u8 v) = v.
Proof.
  intros Hv. unfold be32. rewrite !be16_arith by apply u8_ok. unfold u32_ok, u8 in *.
  rewrite !Z.shiftr_div_pow2 by lia.
  change (2 ^ 24) with (256 * (256 * 256)). change (2 ^ 16) with (256 * 256). change (2 ^ 8) with 256.
  rewrite <- !Z.div_div by lia.
  rewrite (Z.mod_small (v / 256 / 256 / 256)).
  - pose proof (Z.div_mod v 256). pose proof (Z.div_mod (v / 256) 256).
    pose proof (Z.div_mod (v / 256 / 256) 256). lia.
  - rewrite !Z.div_div by lia. split; [apply Z.div_pos; lia|apply Z.div_lt_upper_bound; lia].
Qed.

Lemma len_put16 v : len (put16 v) = 2.
Proof. done. Qed.
Lemma len_PutUint32 v : len (PutUint32 v) = 4.
Proof. done. Qed.
Lemma put16_bytes v : Forall byte_ok (put16 v).
Proof. repeat constructor; apply u8_ok. Qed.
Lemma PutUint32_bytes v : Forall byte_ok (PutUint32 v).
Proof. repeat constructor; apply u8_ok. Qed.
Lemma Uint16_put16 v : u16_ok v → Uint16 (put16 v) = Ok v.
Proof. intros. unfold Uint16, put16. by rewrite be16_put16. Qed.
Lemma Uint32_PutUint32 v : u32_ok v → Uint32 (PutUint32 v) = Ok v.
Proof. intros. unfold Uint32, PutUint32. by rewrite be32_PutUint32. Qed.

Lemma Uint16_slice_safe d lo : 0 ≤ lo → lo + 2 ≤ len d →
  ∃ v, (slice d lo (lo + 2) ≫= Uint16) = Ok v ∧ (Forall byte_ok d → u16_ok v).
Proof.
  intros H1 H2. destruct (slice_ok d lo (lo + 2)) as (x & -> & Hx & Hd); [lia..|].
  destruct x as [|a [|b [|c x]]]; unfold len in Hx; simpl in Hx; try lia.
  simpl. eexists; split; [done|]. intros Hall. rewrite Hd in Hall.
  apply Forall_app in Hall as [_ Hall]. apply Forall_app in Hall as [Hall _].
  inversion Hall as [|??? Hall']; inversion Hall'; subst. by apply be16_ok.
Qed.

Lemma Uint32_slice_safe d lo : 0 ≤ lo → lo + 4 ≤ len d →
  ∃ v, (slice d lo (lo + 4) ≫= Uint32) = Ok v ∧ (Forall byte_ok d → u32_ok v).
Proof.
  intros H1 H2. destruct (slice_ok d lo (lo + 4)) as (x & -> & Hx & Hd); [lia..|].
  destruct x as [|a [|b [|c [|e [|f x]]]]]; unfold len in Hx; simpl in Hx; try lia.
  simpl. eexists; split; [done|]. intros Hall. rewrite Hd in Hall.
  apply Forall_app in Hall as [_ Hall]. apply Forall_app in Hall as [Hall _].
  decompose_Forall_hyps. by apply be32_ok.
Qed.

(** ** Package [strings] *)

(** [strings.Split(s, sep)] for a one-byte separator: always at least one part. *)
Fixpoint Split (c : Ascii.ascii) (s : string) : list string :=
  match s with
  | EmptyString => [EmptyString]
  | String a s' =>
      if Ascii.eqb a c then EmptyString :: Split c s'
      else match Split c s' with
           | h :: t => String a h :: t
           | [] => [String a EmptyString]
           end
  end.

(** [strings.Join]-style inverse of [Split]. *)
Fixpoint Join (c : Ascii.ascii) (l : list string) : string :=
  match l with
  | [] => EmptyString
  | [h] => h
  | h :: t => (h +:+ String c (Join c t))
  end.

(** [strings.Contains(s, c)] for a one-byte needle. *)
Fixpoint Contains (s : string) (c : Ascii.ascii) : bool :=
  match s with
  | EmptyString => false
  | String a s' => Ascii.eqb a c || Contains s' c
  end.

(** [strings.HasPrefix] and [strings.TrimPrefix]. *)
Fixpoint HasPrefix (s p : string) : bool :=
  match p, s with
  | EmptyString, _ => true
  | String b p', String a s' => Ascii.eqb a b && HasPrefix s' p'
  | String _ _, EmptyString => false
  end.

Fixpoint sdrop (n : nat) (s : string) : string :=
  match n, s with
  | S n, String _ s' => sdrop n s'
  | _, _ => s
  end.

Definition TrimPrefix (s p : string) : string :=
  if HasPrefix s p then sdrop (String.length p) s else s.

(** [strings.SplitN(s, sep, 2)] for a one-byte separator. *)
Fixpoint SplitN2 (c : Ascii.ascii) (s : string) : list string :=
  match s with
  | EmptyString => [EmptyString]
  | String a s' =>
      if Ascii.eqb a c then [EmptyString; s']
      else match SplitN2 c s' with
           | h :: t => String a h :: t
           | [] => [String a EmptyString]
           end
  end.

Lemma Split_nonempty c s : Split c s ≠ [].
Proof. destruct s; simpl; [done|]. case_match; [done|]. by case_match. Qed.

Lemma Join_Split c s : Join c (Split c s) = s.
Proof.
  induction s as [|a s IH]; simpl; [done|].
  destruct (Ascii.eqb_spec a c) as [->|Hne].
  - pose proof (Split_nonempty c s). destruct (Split c s) eqn:E; [done|].
    simpl in *. by rewrite IH.
  - pose proof (Split_nonempty c s). destruct (Split c s) as [|h [|h' t]] eqn:E; [done|..];
      simpl in *; by rewrite <- IH.
Qed.

Lemma Split_inj c s t : Split c s = Split c t → s = t.
Proof. intros H. by rewrite <- (Join_Split c s), H, Join_Split. Qed.

Lemma Split_no_sep c s : Forall (λ p, Contains p c = false) (Split c s).
Proof.
  induction s as [|a s IH]; simpl; [by repeat constructor|].
  destruct (Ascii.eqb_spec a c) as [->|Hne]; [by constructor|].
  destruct (Split c s) as [|h t]; inversion IH; subst; constructor; simpl;
    try done; destruct (Ascii.eqb_spec a c); try done.
Qed.

Lemma Split_Contains c s : Contains s c = false → Split c s = [s].
Proof.
  induction s as [|a s IH]; simpl; [done|]. intros [-> H]%orb_false_iff.
  by rewrite IH.
Qed.

Lemma Split_app c s t : Contains s c = false → Split c (s +:+ String c t) = s :: Split c t.
Proof.
  induction s as [|a s IH]; simpl.
  - intros _. by rewrite Ascii.eqb_refl.
  - intros [-> H]%orb_false_iff. by rewrite IH.
Qed.

Lemma Split_Join c l :
  l ≠ [] → Forall (λ p, Contains p c = false) l → Split c (Join c l) = l.
Proof.
  induction l as [|h t IH]; [done|]. intros _ Hall. inversion Hall; subst.
  destruct t as [|h' t]; simpl; [by apply Split_Contains|].
  rewrite Split_app by done. f_equal. by apply IH.
Qed.

Lemma SplitN2_app c s t : Contains s c = false → SplitN2 c (s +:+ String c t) = [s; t].
Proof.
  induction s as [|a s IH]; simpl.
  - intros _. by rewrite Ascii.eqb_refl.
  - intros [-> H]%orb_false_iff. by rewrite IH.
Qed.

Lemma SplitN2_Contains c s : Contains s c = false → SplitN2 c s = [s].
Proof.
  induction s as [|a s IH]; simpl; [done|]. intros [-> H]%orb_false_iff. by rewrite IH.
Qed.

Lemma HasPrefix_app p s : HasPrefix (p +:+ s) p = true.
Proof. induction p as [|a p IH]; simpl; [by destruct s|]. by rewrite Ascii.eqb_refl. Qed.

Lemma TrimPrefix_app p s : TrimPrefix (p +:+ s) p = s.
Proof.
  unfold TrimPrefix. rewrite HasPrefix_app. induction p as [|a p IH]; simpl; [by destruct s|done].
Qed.

Lemma HasPrefix_true s p : HasPrefix s p = true → s = p +:+ TrimPrefix s p.
Proof.
  unfold TrimPrefix. intros H. rewrite H. revert s H.
  induction p as [|b p IH]; intros s H; [by destruct s|].
  destruct s as [|a s]; simpl in *; [done|].
  apply andb_true_iff in H as [->%Ascii.eqb_eq H].
  change (String b s = String b (p +:+ sdrop (String.length p) s)). f_equal. by apply IH.
Qed.

Lemma append_assoc (s t u : string) : (s +:+ t) +:+ u = s +:+ (t +:+ u).
Proof.
  induction s as [|a s IH]; [done|].
  change (String a ((s +:+ t) +:+ u) = String a (s +:+ (t +:+ u))). by rewrite IH.
Qed.

Lemma Contains_app s t c : Contains (s +:+ t) c = Contains s c || Contains t c.
Proof.
  induction s as [|a s IH]; [done|].
  change (Ascii.eqb a c || Contains (s +:+ t) c = (Ascii.eqb a c || Contains s c) || Contains t c).
  by rewrite <- orb_assoc, <- IH.
Qed.

(** Two concatenations around a separator absent from the right parts. *)
Lemma app_sep_inj c s t s' t' : Contains t c = false → Contains t' c = false →
  s +:+ String c t = s' +:+ String c t' → s = s' ∧ t = t'.
Proof.
  intros Ht Ht'. revert s'. induction s as [|a s IH]; intros [|b s'] H.
  - injection H as H. done.
  - injection H as <- ->. change (Contains (s' +:+ String c t') c = false) in Ht.
    rewrite Contains_app in Ht. cbn in Ht. rewrite Ascii.eqb_refl, orb_true_r in Ht. done.
  - injection H as -> <-. change (Contains (s +:+ String c t) c = false) in Ht'.
    rewrite Contains_app in Ht'. cbn in Ht'. rewrite Ascii.eqb_refl, orb_true_r in Ht'. done.
  - injection H as -> H. destruct (IH _ H) as [-> ->]. done.
Qed.

(** ** Automation of the development *)

Create HintDb dmqtt.
#[export] Hint Resolve safe_Ok safe_Err u8_ok bytes_of_ok len_nonneg be16_ok be32_ok : dmqtt.

(** Decide the integer tests of the goal from the context. *)
Ltac ztests :=
  repeat match goal with
  | |- context [Z.leb ?a ?b] => first
      [ rewrite (proj2 (Z.leb_le a b)) by lia | rewrite (proj2 (Z.leb_gt a b)) by lia ]
  | |- context [Z.ltb ?a ?b] => first
      [ rewrite (proj2 (Z.ltb_lt a b)) by lia | rewrite (proj2 (Z.ltb_ge a b)) by lia ]
  | |- context [Z.gtb ?a ?b] => rewrite (Z.gtb_ltb a b)
  | |- context [Z.geb ?a ?b] => rewrite (Z.geb_leb a b)
  | |- context [Z.eqb ?a ?b] => first
      [ rewrite (proj2 (Z.eqb_eq a b)) by lia | rewrite (proj2 (Z.eqb_neq a b)) by lia ]
  end.

(** Split on the first integer test of the goal. *)
Ltac zcase :=
  match goal with
  | |- context [Z.leb ?a ?b] => destruct (Z.leb_spec a b)
  | |- context [Z.ltb ?a ?b] => destruct (Z.ltb_spec a b)
  | |- context [Z.gtb ?a ?b] => rewrite (Z.gtb_ltb a b); destruct (Z.ltb_spec b a)
  | |- context [Z.geb ?a ?b] => rewrite (Z.geb_leb a b); destruct (Z.leb_spec b a)
  | |- context [Z.eqb ?a ?b] => destruct (Z.eqb_spec a b)
  end.

(** Normalise lengths of concatenations. *)
Ltac lens :=
  repeat progress rewrite ?len_app, ?len_cons, ?len_nil, ?len_bytes_of, ?len_put16, ?len_PutUint32 in *.

(** Invert a chain of successful binds. *)
Ltac inv_ok :=
  repeat match goal with
  | H : mbind _ _ = Ok _ |- _ => apply bind_Ok in H as (?&?&?)
  | H : wrap_err _ _ = Ok _ |- _ => apply wrap_err_Ok in H
  | H : Ok _ = Ok _ |- _ => injection H as H
  | H : mret _ = Ok _ |- _ => injection H as H
  | H : Err _ = Ok _ |- _ => discriminate H
  | H : Panic = Ok _ |- _ => discriminate H
  | H : NoFuel = Ok _ |- _ => discriminate H
  | p : (_ * _)%type |- _ => destruct p
  end; simplify_eq/=.
