(* ===== verification/Json.v ===== *)
(** * JSON values

    The values that cross the HTTP interface, as the Go server writes them and as the admin
    pages read them: [js] is a parsed JSON document (numbers are integers, which is all the
    server sends), [prop] and [js_or] are the JavaScript property access and [||] of the pages,
    and [shape] is the structural part of a TypeScript interface. *)
From S2P Require Import Prelude.

Inductive js : Type :=
  | JUndef
  | JNull
  | JBool (b : bool)
  | JNum (n : Z)
  | JStr (s : string)
  | JArr (l : list js)
  | JObj (fields : list (string * js)).

Fixpoint assoc {A} (k : string) (l : list (string * A)) : option A :=
  match l with
  | [] => None
  | (k', v) :: r => if String.eqb k k' then Some v else assoc k r
  end.

(** ** JavaScript *)

Definition truthy (v : js) : bool :=
  match v with
  | JUndef | JNull => false
  | JBool b => b
  | JNum n => negb (n =? 0)
  | JStr s => negb (bool_decide (s = ""))
  | JArr _ | JObj _ => true
  end.

Definition js_or (a b : js) : js := if truthy a then a else b.

(** What an asynchronous function ends with: a value, or an exception that carries the [message]
    of the error object. *)
Inductive outcome (A : Type) : Type :=
  | Resolved (a : A)
  | Rejected (message : string).
Arguments Resolved {A} a.
Arguments Rejected {A} message.

#[global] Instance outcome_ret : MRet outcome := λ A a, Resolved a.
#[global] Instance outcome_bind : MBind outcome := λ A B f m,
  match m with Resolved a => f a | Rejected e => Rejected e end.

(** [v.k]: own properties only, which is what the pages read; reading a property of [null] or
    of [undefined] throws. *)
Definition prop (v : js) (k : string) : outcome js :=
  match v with
  | JUndef => Rejected "Cannot read properties of undefined"
  | JNull => Rejected "Cannot read properties of null"
  | JObj fields => Resolved (default JUndef (assoc k fields))
  | JArr l => Resolved (if bool_decide (k = "length") then JNum (len l) else JUndef)
  | JStr s => Resolved (if bool_decide (k = "length") then JNum (slen s) else JUndef)
  | JBool _ | JNum _ => Resolved JUndef
  end.

(** ** TypeScript interfaces *)

Inductive shape : Type :=
  | SString
  | SNumber
  | SBoolean
  | SArray (s : shape)
  | SRecord (s : shape)
  | SInterface (fields : list (string * bool * shape)).

Definition field (k : string) (s : shape) : string * bool * shape := (k, false, s).
Definition optional (k : string) (s : shape) : string * bool * shape := (k, true, s).

(** A value has the shape of an interface when every field is there (or is optional) with a
    value of its type; more fields than the interface names are allowed. *)
Fixpoint has_shape (s : shape) (v : js) : bool :=
  match s, v with
  | SString, JStr _ | SNumber, JNum _ | SBoolean, JBool _ => true
  | SArray s', JArr l => forallb (has_shape s') l
  | SRecord s', JObj fields => forallb (λ f, has_shape s' f.2) fields
  | SInterface fs, JObj fields =>
      (fix go fs :=
         match fs with
         | [] => true
         | (k, opt, s') :: r =>
             match assoc k fields with Some w => has_shape s' w | None => opt end && go r
         end) fs
  | _, _ => false
  end.

Lemma forallb_fmap {A B} (f : A → B) (p : B → bool) (l : list A) :
  forallb p (f <$> l) = forallb (λ x, p (f x)) l.
Proof. induction l as [|x l IH]; [done|]. cbn. by rewrite <- IH. Qed.

Lemma forallb_all {A} (p : A → bool) (l : list A) : (∀ x, x ∈ l → p x = true) → forallb p l = true.
Proof.
  intros Hp. apply forallb_forall. intros x Hx. apply Hp. by apply list_elem_of_In.
Qed.

Lemma has_shape_array s (l : list js) :
  (∀ x, x ∈ l → has_shape s x = true) → has_shape (SArray s) (JArr l) = true.
Proof. intros Hl. by apply forallb_all. Qed.
