(* ===== verification/Topic.v ===== *)
(** * Topic names and topic filters

    Model of [internal/broker/topic_matcher.go]: [TopicMatch], [TopicValid] and
    [TopicFilterValid], with the wildcard rules of MQTT 3.1.1 (section 4.7) as an
    inductive relation on topic levels that [TopicMatch] is proved to decide on
    the filters [TopicFilterValid] accepts. *)
From S2P Require Import Prelude.

Module TopicMatcher.

(** ** The code *)

Definition first_byte (s : string) : option Ascii.ascii :=
  match s with EmptyString => None | String a _ => Some a end.

(** [len(topic) > 0 && topic[0] == '$'] and the test on the filter's first byte. *)
Definition sys_guard (filter topic : string) : bool :=
  match first_byte topic with
  | Some t => Ascii.eqb t "$"%char &&
      match first_byte filter with
      | Some f => Ascii.eqb f "+"%char || Ascii.eqb f "#"%char
      | None => false
      end
  | None => false
  end.

(** The loop over [filterParts] from index [i]; [fs] is [filterParts[i:]]. *)
Fixpoint match_loop (filterParts topicParts : list string) (i : nat) (fs : list string) : bool :=
  match fs with
  | [] => (length filterParts =? length topicParts)%nat
  | f :: fs' =>
      if String.eqb f "#" then true
      else match topicParts !! i with
           | None => false
           | Some t =>
               if String.eqb f "+" then match_loop filterParts topicParts (S i) fs'
               else if String.eqb f t then match_loop filterParts topicParts (S i) fs'
               else false
           end
  end.

Definition TopicMatch (filter topic : string) : bool :=
  if sys_guard filter topic then false
  else let filterParts := Split "/" filter in
       let topicParts := Split "/" topic in
       match_loop filterParts topicParts 0 filterParts.

Definition TopicValid (topic : string) : bool :=
  if String.eqb topic "" then false
  else negb (Contains topic "+") && negb (Contains topic "#").

(** The loop over [parts] from index [i] of the [n] parts. *)
Fixpoint filter_loop (n i : nat) (parts : list string) : bool :=
  match parts with
  | [] => true
  | part :: parts' =>
      if Contains part "#" && (negb (String.eqb part "#") || negb (i =? n - 1)%nat) then false
      else if Contains part "+" && negb (String.eqb part "+") then false
      else filter_loop n (S i) parts'
  end.

Definition TopicFilterValid (filter : string) : bool :=
  if String.eqb filter "" then false
  else let parts := Split "/" filter in filter_loop (length parts) 0 parts.

(** ** The wildcard rules of the protocol *)

Inductive level_match : list string → list string → Prop :=
  | lm_nil : level_match [] []
  | lm_hash ts : level_match ["#"] ts
  | lm_plus t fs ts : level_match fs ts → level_match ("+" :: fs) (t :: ts)
  | lm_level l fs ts : l ≠ "+" → l ≠ "#" → level_match fs ts → level_match (l :: fs) (l :: ts).

(** Topics that start with [$] are not matched by a filter that starts with a wildcard. *)
Definition dollar_rule (filter topic : string) : Prop :=
  first_byte topic = Some "$"%char →
  first_byte filter ≠ Some "+"%char ∧ first_byte filter ≠ Some "#"%char.

Definition mqtt_match (filter topic : string) : Prop :=
  dollar_rule filter topic ∧ level_match (Split "/" filter) (Split "/" topic).

(** A filter's levels are well formed: [#] only as the whole last level, [+] only as a
    whole level. *)
Definition levels_ok (parts : list string) : Prop :=
  ∀ i part, parts !! i = Some part →
    (Contains part "#" = true → part = "#" ∧ i = (length parts - 1)%nat) ∧
    (Contains part "+" = true → part = "+").

(** ** Lemmas *)

Lemma sys_guard_spec filter topic : sys_guard filter topic = false ↔ dollar_rule filter topic.
Proof.
  unfold sys_guard, dollar_rule.
  destruct (first_byte topic) as [t|]; [|naive_solver].
  destruct (Ascii.eqb_spec t "$"%char) as [->|]; simpl; [|naive_solver].
  destruct (first_byte filter) as [f|]; [|naive_solver].
  destruct (Ascii.eqb_spec f "+"%char), (Ascii.eqb_spec f "#"%char); naive_solver.
Qed.

(** The first level starts as the whole string does. *)
Lemma Split_head s : ∃ h rest, Split "/" s = h :: rest ∧ (h = "" ∨ first_byte h = first_byte s).
Proof.
  destruct s as [|a s]; [by exists "", []; auto|]. cbn. destruct (Ascii.eqb_spec a "/"%char).
  - by eexists "", _; auto.
  - destruct (Split "/" s) as [|h rest]; do 2 eexists; split; eauto.
Qed.

(** The loop, started after the prefixes [fp] and [tp] of equal length, compares the
    remaining levels. *)
Lemma match_loop_suffix fp tp fs ts :
  length fp = length tp →
  match_loop (fp ++ fs) (tp ++ ts) (length tp) fs = match_loop fs ts 0 fs.
Proof.
  assert (∀ fs F T F' T' i, length F' + length T = length F + length T' →
     (length T' ≤ length T)%nat → (∀ k, (T !! (k + (length T - length T')) = T' !! k))%nat →
     (length T - length T' ≤ i)%nat →
     match_loop F T i fs = match_loop F' T' (i - (length T - length T')) fs)%nat as Hgen.
  { clear. induction fs as [|f fs IH]; intros F T F' T' i Hl Hle Hk Hi; simpl.
    - destruct (Nat.eqb_spec (length F) (length T)), (Nat.eqb_spec (length F') (length T'));
        try done; lia.
    - case_match; [done|]. rewrite <- (Hk (i - (length T - length T'))%nat).
      replace (i - (length T - length T') + (length T - length T'))%nat with i by lia.
      case_match; [|done]. rewrite (IH F T F' T' (S i)) by (done || lia).
      by replace (S i - (length T - length T'))%nat with (S (i - (length T - length T'))) by lia. }
  intros Hl. rewrite (Hgen fs (fp ++ fs) (tp ++ ts) fs ts).
  - by replace (length tp - _)%nat with 0%nat by (rewrite length_app; lia).
  - rewrite !length_app. lia.
  - rewrite length_app. lia.
  - intros k. rewrite length_app, lookup_app_r by lia. f_equal. lia.
  - rewrite length_app. lia.
Qed.

Lemma match_loop_cons f fs t ts :
  match_loop (f :: fs) (t :: ts) 0 (f :: fs) =
  if String.eqb f "#" then true
  else if String.eqb f "+" then match_loop fs ts 0 fs
  else if String.eqb f t then match_loop fs ts 0 fs else false.
Proof.
  pose proof (match_loop_suffix [f] [t] fs ts eq_refl) as E. simpl in *.
  case_match; [done|]. by rewrite E.
Qed.

Lemma match_loop_spec fs ts :
  (∀ i, fs !! i = Some "#" → i = (length fs - 1)%nat) →
  match_loop fs ts 0 fs = true ↔ level_match fs ts.
Proof.
  revert ts. induction fs as [|f fs IH]; intros ts Hlast.
  - destruct ts; simpl; split; try done; [constructor|inversion 1].
  - assert (∀ i, fs !! i = Some "#" → i = (length fs - 1)%nat) as Hlast'.
    { intros i Hi. specialize (Hlast (S i) Hi). simpl in Hlast. lia. }
    destruct ts as [|t ts].
    + simpl. destruct (String.eqb_spec f "#") as [->|].
      * specialize (Hlast 0%nat eq_refl). destruct fs; [|simpl in Hlast; lia].
        split; [constructor|done].
      * split; [done|]. inversion 1; congruence.
    + rewrite match_loop_cons. destruct (String.eqb_spec f "#") as [->|].
      { specialize (Hlast 0%nat eq_refl). destruct fs; [|simpl in Hlast; lia].
        split; [constructor|done]. }
      destruct (String.eqb_spec f "+") as [->|].
      { rewrite IH by done. split; [by constructor|]. inversion 1; congruence. }
      destruct (String.eqb_spec f t) as [->|].
      { rewrite IH by done. split; [by constructor|]. inversion 1; congruence. }
      split; [done|]. inversion 1; congruence.
Qed.

(** The two tests of one iteration of [TopicFilterValid]'s loop. *)
Definition part_ok (n i : nat) (part : string) : bool :=
  negb (Contains part "#" && (negb (String.eqb part "#") || negb (i =? n - 1)%nat)) &&
  negb (Contains part "+" && negb (String.eqb part "+")).

Lemma part_ok_spec n i part :
  part_ok n i part = true ↔
  (Contains part "#" = true → part = "#" ∧ i = (n - 1)%nat) ∧
  (Contains part "+" = true → part = "+").
Proof.
  unfold part_ok. destruct (Contains part "#"), (Contains part "+"),
    (String.eqb_spec part "#"), (String.eqb_spec part "+"), (Nat.eqb_spec i (n - 1));
    naive_solver.
Qed.

Lemma filter_loop_cons n i p parts :
  filter_loop n i (p :: parts) = part_ok n i p && filter_loop n (S i) parts.
Proof.
  simpl. unfold part_ok. destruct (Contains p "#" && _); [done|].
  by destruct (Contains p "+" && _).
Qed.

Lemma filter_loop_spec n i parts :
  filter_loop n i parts = true ↔
  ∀ k part, parts !! k = Some part → part_ok n (i + k) part = true.
Proof.
  revert i. induction parts as [|p parts IH]; intros i; [done|].
  rewrite filter_loop_cons, andb_true_iff, IH. split.
  - intros [Hp H] [|k] part; simpl; [intros [= <-]; by rewrite Nat.add_0_r|].
    intros Hk. rewrite <- Nat.add_succ_comm. by apply H.
  - intros H. split; [rewrite <- (Nat.add_0_r i); by apply (H 0%nat)|].
    intros k part Hk. rewrite Nat.add_succ_comm. by apply (H (S k)).
Qed.

Lemma TopicFilterValid_levels filter :
  TopicFilterValid filter = true ↔ filter ≠ "" ∧ levels_ok (Split "/" filter).
Proof.
  unfold TopicFilterValid, levels_ok. destruct (String.eqb_spec filter "") as [->|]; [naive_solver|].
  rewrite filter_loop_spec. setoid_rewrite part_ok_spec. naive_solver.
Qed.

Lemma levels_ok_hash_last fs : levels_ok fs → ∀ i, fs !! i = Some "#" → i = (length fs - 1)%nat.
Proof. intros H i Hi. by apply (H i "#" Hi). Qed.

Lemma level_match_plain fs ts :
  Forall (λ f, Contains f "+" = false ∧ Contains f "#" = false) fs →
  level_match fs ts ↔ fs = ts.
Proof.
  intros Hall. split.
  - intros Hm. induction Hm; inversion Hall as [|?? [Hp Hh]]; subst; try done.
    f_equal. by apply IHHm.
  - intros <-. induction Hall as [|f fs [Hp Hh] _ IH]; constructor; try done;
      intros ->; done.
Qed.

Lemma Contains_Split s c d : Contains s c = false → Forall (λ p, Contains p c = false) (Split d s).
Proof.
  induction s as [|a s IH]; simpl; [by repeat constructor|]. intros [Ha Hs]%orb_false_iff.
  specialize (IH Hs). case_match; [by constructor|].
  destruct (Split d s) as [|h t]; inversion IH; subst; constructor; simpl; rewrite ?Ha; done.
Qed.

Lemma TopicMatch_mqtt filter topic :
  levels_ok (Split "/" filter) → TopicMatch filter topic = true ↔ mqtt_match filter topic.
Proof.
  intros Hok. unfold TopicMatch, mqtt_match.
  rewrite <- sys_guard_spec. destruct (sys_guard filter topic); [naive_solver|].
  rewrite match_loop_spec by by apply levels_ok_hash_last. naive_solver.
Qed.

(** ** Properties *)

(** C1: on every filter the broker accepts ([TopicFilterValid]), [TopicMatch] decides
    exactly the wildcard relation of MQTT 3.1.1 section 4.7: single-level and
    multi-level wildcards on the levels, the parent level included for [#], and no
    leading wildcard against topics that start with [$]. *)
Theorem TopicMatch_correct (filter topic : string) :
  TopicFilterValid filter = true →
  TopicMatch filter topic = true ↔ mqtt_match filter topic.
Proof.
  intros [_ Hok]%TopicFilterValid_levels. by apply TopicMatch_mqtt.
Qed.

Lemma TopicMatch_correct_witness :
  TopicFilterValid "sport/+/player/#" = true ∧
  (TopicMatch "sport/+/player/#" "sport/tennis/player" = true
   ↔ mqtt_match "sport/+/player/#" "sport/tennis/player").
Proof. split; [reflexivity|]. apply TopicMatch_correct. reflexivity. Defined.

(** A topic name valid for PUBLISH is a valid filter, and as a filter it matches
    itself and nothing else. *)
Theorem TopicValid_exact (t topic : string) :
  TopicValid t = true →
  TopicFilterValid t = true ∧ (TopicMatch t topic = true ↔ t = topic).
Proof.
  unfold TopicValid. destruct (String.eqb_spec t "") as [->|Hne]; [done|].
  rewrite andb_true_iff, !negb_true_iff. intros [Hp Hh].
  pose proof (Contains_Split t "+" "/" Hp) as Fp. pose proof (Contains_Split t "#" "/" Hh) as Fh.
  assert (levels_ok (Split "/" t)) as Hok.
  { intros i part Hi. rewrite Forall_lookup in Fp, Fh.
    by rewrite (Fp _ _ Hi), (Fh _ _ Hi). }
  assert (TopicFilterValid t = true) as Hv by by apply TopicFilterValid_levels.
  split; [done|]. rewrite TopicMatch_mqtt by done. unfold mqtt_match.
  rewrite level_match_plain by (apply Forall_and; done). split.
  - intros [_ H]. by apply Split_inj in H.
  - intros <-. split; [|done]. intros Hd. destruct t as [|a t]; [done|].
    simpl in *. simplify_eq. done.
Qed.

Lemma TopicValid_exact_witness :
  TopicValid "a/b" = true ∧
  TopicFilterValid "a/b" = true ∧ (TopicMatch "a/b" "a/c" = true ↔ "a/b" = "a/c").
Proof. split; [reflexivity|]. apply TopicValid_exact. reflexivity. Defined.

End TopicMatcher.
