(* ===== verification/Frame.v ===== *)
(** * Framing: variable-length integers, the fixed header, whole packets

    Model of [internal/codec]: [fixed_header.go], [reader.go], [packets.go] and
    [ping.go], and of the two variable-length integer routines of
    [properties.go].  An [io.Reader] is the list of bytes still to be read;
    [ReadFull] is [io.ReadFull]. *)
From S2P Require Import Prelude.

Module Frame.

(** ** Packet types (packets.go) *)

Definition CONNECT : Z := 1.
Definition CONNACK : Z := 2.
Definition PUBLISH : Z := 3.
Definition PUBACK : Z := 4.
Definition PUBREC : Z := 5.
Definition PUBREL : Z := 6.
Definition PUBCOMP : Z := 7.
Definition SUBSCRIBE : Z := 8.
Definition SUBACK : Z := 9.
Definition UNSUBSCRIBE : Z := 10.
Definition UNSUBACK : Z := 11.
Definition PINGREQ : Z := 12.
Definition PINGRESP : Z := 13.
Definition DISCONNECT : Z := 14.

Definition names : list (Z * string) :=
  [(CONNECT, "CONNECT"); (CONNACK, "CONNACK"); (PUBLISH, "PUBLISH"); (PUBACK, "PUBACK");
   (PUBREC, "PUBREC"); (PUBREL, "PUBREL"); (PUBCOMP, "PUBCOMP"); (SUBSCRIBE, "SUBSCRIBE");
   (SUBACK, "SUBACK"); (UNSUBSCRIBE, "UNSUBSCRIBE"); (UNSUBACK, "UNSUBACK");
   (PINGREQ, "PINGREQ"); (PINGRESP, "PINGRESP"); (DISCONNECT, "DISCONNECT")].

Definition PacketTypeName (t : Z) : string :=
  match list_to_map (M := gmap Z string) names !! t with
  | Some name => name
  | None => "UNKNOWN(" +:+ pretty t +:+ ")"
  end.

Definition MaxRemainingLength : Z := 268435455.

(** ** Readers *)

Abbreviation reader := (list Z).

Definition ReadFull (r : reader) (n : Z) : res (list Z * reader) :=
  if n =? 0 then Ok ([], r)
  else if len r =? 0 then Err ErrEOF
  else if len r <? n then Err ErrUnexpectedEOF
  else Ok (take (Z.to_nat n) r, drop (Z.to_nat n) r).

(** ** Variable-length integers *)

(** The encoding loop; [fuel] bounds the number of iterations. *)
Fixpoint encode_loop (fuel : nat) (n : Z) : list Z :=
  match fuel with
  | O => []
  | S fuel =>
      let b := u8 (Z.rem n 128) in
      let n' := Z.quot n 128 in
      let b := if 0 <? n' then Z.lor b 0x80 else b in
      b :: (if n' =? 0 then [] else encode_loop fuel n')
  end.

(** One more than the binary logarithm is enough iterations for every integer. *)
Definition encode_fuel (n : Z) : nat := S (Z.to_nat (Z.log2 (Z.abs n))).

Definition EncodeRemainingLength (length : Z) : list Z := encode_loop (encode_fuel length) length.

Definition encodeVarInt (n : Z) : list Z := encode_loop (encode_fuel n) n.

Fixpoint decode_length_loop (k : nat) (multiplier value : Z) (r : reader) : res (Z * reader) :=
  match k with
  | O => Err (ErrMalformedPacket "remaining length exceeds 4 bytes")
  | S k =>
      '(bs, r) ← ReadFull r 1;
      b ← index bs 0;
      let value := value + Z.land b 0x7F * multiplier in
      if Z.land b 0x80 =? 0 then Ok (value, r)
      else decode_length_loop k (multiplier * 128) value r
  end.

Definition DecodeRemainingLength (r : reader) : res (Z * reader) :=
  decode_length_loop 4 1 0 r.

Fixpoint decode_varint_loop (data : list Z) (offset : Z) (k : nat) (i multiplier value : Z)
    : res (Z * Z) :=
  match k with
  | O => Err (ErrMalformedPacket "variable byte integer exceeds 4 bytes")
  | S k =>
      if len data <=? offset + i
      then Err (ErrMalformedPacket "truncated variable byte integer")
      else
        b ← index data (offset + i);
        let value := value + Z.land b 0x7F * multiplier in
        if Z.land b 0x80 =? 0 then Ok (value, i + 1)
        else decode_varint_loop data offset k (i + 1) (multiplier * 128) value
  end.

(** The value and the number of bytes consumed. *)
Definition decodeVarInt (data : list Z) (offset : Z) : res (Z * Z) :=
  decode_varint_loop data offset 4 0 1 0.

(** ** The fixed header *)

Record FixedHeader := {
  PacketType : Z;
  Dup : bool;
  QoS : Z;
  Retain : bool;
  RemainingLength : Z
}.

Definition first_byte (fh : FixedHeader) : Z :=
  let b := u8 (Z.shiftl (PacketType fh) 4) in
  let b := if Dup fh then Z.lor b 0x08 else b in
  let b := Z.lor b (u8 (Z.shiftl (Z.land (QoS fh) 0x03) 1)) in
  if Retain fh then Z.lor b 0x01 else b.

Definition Encode (fh : FixedHeader) : list Z :=
  first_byte fh :: EncodeRemainingLength (RemainingLength fh).

Definition DecodeFixedHeader (r : reader) : res (FixedHeader * reader) :=
  '(bs, r) ← ReadFull r 1;
  b ← index bs 0;
  '(remaining, r) ← DecodeRemainingLength r;
  Ok ({| PacketType := Z.land (Z.shiftr b 4) 0x0F;
         Dup := negb (Z.land b 0x08 =? 0);
         QoS := Z.land (Z.shiftr b 1) 0x03;
         Retain := negb (Z.land b 0x01 =? 0);
         RemainingLength := remaining |}, r).

Definition ReadPacket (r : reader) : res (FixedHeader * list Z * reader) :=
  '(fh, r) ← DecodeFixedHeader r;
  if 0 <? RemainingLength fh then
    '(data, r) ← ReadFull r (RemainingLength fh);
    Ok (fh, data, r)
  else Ok (fh, [], r).

Definition EncodePingresp : list Z := [u8 (Z.shiftl PINGRESP 4); 0x00].

(** ** Lemmas on the variable-length integers *)

Lemma encode_loop_fuel fuel1 fuel2 n :
  Z.abs n < 128 ^ Z.of_nat fuel1 → Z.abs n < 128 ^ Z.of_nat fuel2 →
  (0 < fuel1)%nat → (0 < fuel2)%nat →
  encode_loop fuel1 n = encode_loop fuel2 n.
Proof.
  revert fuel2 n. induction fuel1 as [|f1 IH]; intros [|f2] n H1 H2 ??; try lia.
  simpl. f_equal. destruct (Z.eqb_spec (n ÷ 128) 0) as [|Hq]; [done|].
  assert (Z.abs (n ÷ 128) * 128 ≤ Z.abs n) as Hle.
  { rewrite <- Z.quot_abs by lia. change (Z.abs 128) with 128.
    rewrite Z.mul_comm. apply Z.mul_quot_le; lia. }
  rewrite Nat2Z.inj_succ, Z.pow_succ_r in H1, H2 by lia.
  apply IH; [lia..| |].
  - destruct f1; [simpl in *; lia|lia].
  - destruct f2; [simpl in *; lia|lia].
Qed.

Lemma encode_fuel_enough n : Z.abs n < 128 ^ Z.of_nat (encode_fuel n).
Proof.
  unfold encode_fuel. rewrite Nat2Z.inj_succ, Z2Nat.id by apply Z.log2_nonneg.
  destruct (decide (n = 0)) as [->|]; [done|].
  apply Z.lt_le_trans with (2 ^ Z.succ (Z.log2 (Z.abs n))).
  - apply Z.log2_spec. lia.
  - apply Z.pow_le_mono_l. pose proof (Z.log2_nonneg (Z.abs n)). lia.
Qed.

(** The encoding satisfies the loop's own recursion, without fuel. *)
Lemma encodeVarInt_unfold n :
  encodeVarInt n =
  (let b := u8 (Z.rem n 128) in if 0 <? Z.quot n 128 then Z.lor b 0x80 else b) ::
  (if Z.quot n 128 =? 0 then [] else encodeVarInt (Z.quot n 128)).
Proof.
  unfold encodeVarInt at 1. pose proof (encode_fuel_enough n) as Hf.
  destruct (encode_fuel n) as [|f] eqn:Ef; [done|]. simpl. f_equal.
  destruct (Z.eqb_spec (n ÷ 128) 0) as [|Hq]; [done|].
  assert (Z.abs (n ÷ 128) * 128 ≤ Z.abs n) as Hle.
  { rewrite <- Z.quot_abs by lia. change (Z.abs 128) with 128.
    rewrite Z.mul_comm. apply Z.mul_quot_le; lia. }
  rewrite Nat2Z.inj_succ, Z.pow_succ_r in Hf by lia.
  apply encode_loop_fuel; [lia|apply encode_fuel_enough| |unfold encode_fuel; lia].
  destruct f; [simpl in *; lia|lia].
Qed.

#[global] Arguments encodeVarInt : simpl never.
#[global] Arguments EncodeRemainingLength : simpl never.

Lemma digit_bits b : 0 ≤ b < 128 →
  Z.land b 0x7F = b ∧ Z.land b 0x80 = 0 ∧
  Z.land (Z.lor b 0x80) 0x7F = b ∧ Z.land (Z.lor b 0x80) 0x80 = 0x80 ∧
  byte_ok (Z.lor b 0x80).
Proof.
  intros Hb.
  assert (forallb (λ b, (Z.land b 0x7F =? b) && (Z.land b 0x80 =? 0) &&
    (Z.land (Z.lor b 0x80) 0x7F =? b) && (Z.land (Z.lor b 0x80) 0x80 =? 0x80) &&
    (0 <=? Z.lor b 0x80) && (Z.lor b 0x80 <? 256)) (seqZ 0 128) = true) as H by (vm_compute; done).
  rewrite forallb_forall in H. specialize (H b).
  rewrite <- list_elem_of_In, elem_of_seqZ in H. unfold byte_ok. specialize (H ltac:(lia)). lia.
Qed.

Lemma land_7F b : Z.land b 0x7F = b mod 128.
Proof. change 0x7F with (Z.ones 7). by rewrite Z.land_ones by lia. Qed.

Lemma encodeVarInt_small n : 0 ≤ n < 128 → encodeVarInt n = [n].
Proof.
  intros. rewrite encodeVarInt_unfold. rewrite Z.quot_small, Z.rem_small by lia. simpl.
  by rewrite u8_id by (unfold byte_ok; lia).
Qed.

Lemma encodeVarInt_big n : 128 ≤ n →
  encodeVarInt n = Z.lor (n mod 128) 0x80 :: encodeVarInt (n / 128).
Proof.
  intros. rewrite encodeVarInt_unfold.
  assert (1 ≤ n / 128) by (apply Z.div_le_lower_bound; lia).
  rewrite Z.quot_div_nonneg, Z.rem_mod_nonneg by lia. ztests. simpl.
  rewrite u8_id; [done|]. pose proof (Z.mod_pos_bound n 128). unfold byte_ok. lia.
Qed.

(** Induction on the base-128 digits of an integer below [128 ^ k]. *)
Lemma digits_ind (P : nat → Z → Prop) :
  (∀ k n, 0 ≤ n < 128 → P (S k) n) →
  (∀ k n, 128 ≤ n → n / 128 < 128 ^ Z.of_nat k → P k (n / 128) → P (S k) n) →
  ∀ k n, 0 ≤ n < 128 ^ Z.of_nat k → (0 < k)%nat → P k n.
Proof.
  intros Hs Hb. induction k as [|k IH]; intros n Hn Hk; [lia|].
  destruct (decide (n < 128)); [apply Hs; lia|].
  rewrite Nat2Z.inj_succ, Z.pow_succ_r in Hn by lia.
  assert (n / 128 < 128 ^ Z.of_nat k) by (apply Z.div_lt_upper_bound; lia).
  assert (1 ≤ n / 128) by (apply Z.div_le_lower_bound; lia).
  apply Hb; [lia|done|]. apply IH; [lia|]. destruct k; [simpl in *; lia|lia].
Qed.

Lemma decode_length_step k m v b r :
  decode_length_loop (S k) m v (b :: r) =
  (let v' := v + Z.land b 0x7F * m in
   if Z.land b 0x80 =? 0 then Ok (v', r) else decode_length_loop k (m * 128) v' r).
Proof.
  cbn [decode_length_loop]. unfold ReadFull. rewrite len_cons.
  pose proof (len_nonneg r). ztests. done.
Qed.

Lemma decode_varint_step k data offset i m v b pre rest :
  data = pre ++ b :: rest → offset + i = len pre →
  decode_varint_loop data offset (S k) i m v =
  (let v' := v + Z.land b 0x7F * m in
   if Z.land b 0x80 =? 0 then Ok (v', i + 1)
   else decode_varint_loop data offset k (i + 1) (m * 128) v').
Proof.
  intros -> Hi. cbn [decode_varint_loop]. lens.
  pose proof (len_nonneg rest). ztests. by rewrite index_at.
Qed.

Lemma decode_length_loop_encode k n : 0 ≤ n < 128 ^ Z.of_nat k → (0 < k)%nat →
  ∀ m v r, decode_length_loop k m v (encodeVarInt n ++ r) = Ok (v + n * m, r).
Proof.
  revert k n. apply (digits_ind (λ k n, ∀ m v r,
    decode_length_loop k m v (encodeVarInt n ++ r) = Ok (v + n * m, r))).
  - intros k n Hn m v r. rewrite encodeVarInt_small by done.
    cbn [app]. rewrite decode_length_step.
    destruct (digit_bits n Hn) as (-> & -> & _). done.
  - intros k n Hn Hlt IH m v r. rewrite encodeVarInt_big by done.
    cbn [app]. rewrite decode_length_step.
    destruct (digit_bits (n mod 128)) as (_ & _ & -> & -> & _); [apply Z.mod_pos_bound; lia|].
    cbn [Z.eqb]. rewrite IH. do 2 f_equal. pose proof (Z.div_mod n 128). nia.
Qed.

Lemma decode_varint_loop_encode k n : 0 ≤ n < 128 ^ Z.of_nat k → (0 < k)%nat →
  ∀ pre post offset i m v, offset + i = len pre →
  decode_varint_loop (pre ++ encodeVarInt n ++ post) offset k i m v =
  Ok (v + n * m, i + len (encodeVarInt n)).
Proof.
  revert k n. apply (digits_ind (λ k n, ∀ pre post offset i m v, offset + i = len pre →
    decode_varint_loop (pre ++ encodeVarInt n ++ post) offset k i m v =
    Ok (v + n * m, i + len (encodeVarInt n)))).
  - intros k n Hn pre post offset i m v Hi. rewrite encodeVarInt_small by done. cbn [app].
    erewrite decode_varint_step by done.
    destruct (digit_bits n Hn) as (-> & -> & _). simpl. do 2 f_equal.
  - intros k n Hn Hlt IH pre post offset i m v Hi. rewrite encodeVarInt_big by done. cbn [app].
    erewrite decode_varint_step by done.
    destruct (digit_bits (n mod 128)) as (_ & _ & -> & -> & _); [apply Z.mod_pos_bound; lia|].
    cbn [Z.eqb]. rewrite cons_middle, app_assoc. rewrite IH by (lens; lia).
    lens. do 2 f_equal; [|lia]. pose proof (Z.div_mod n 128). nia.
Qed.

Lemma encodeVarInt_bytes n : 0 ≤ n → Forall byte_ok (encodeVarInt n).
Proof.
  intros Hn. assert (n < 128 ^ Z.of_nat (encode_fuel n)) as Hlt.
  { pose proof (encode_fuel_enough n). lia. }
  assert (0 < encode_fuel n)%nat as Hf by (unfold encode_fuel; lia).
  revert Hf. generalize (encode_fuel n) Hlt. clear Hlt.
  intros k Hlt Hf. revert k n Hn Hlt Hf.
  assert (∀ k n, 0 ≤ n < 128 ^ Z.of_nat k → (0 < k)%nat → Forall byte_ok (encodeVarInt n)) as H; [|eauto].
  apply (digits_ind (λ _ n, Forall byte_ok (encodeVarInt n))).
  - intros _ n Hn. rewrite encodeVarInt_small by done. repeat constructor; unfold byte_ok; lia.
  - intros _ n Hn _ IH. rewrite encodeVarInt_big by done. constructor; [|done].
    apply digit_bits. apply Z.mod_pos_bound; lia.
Qed.

Lemma encodeVarInt_len k n : 0 ≤ n < 128 ^ Z.of_nat k → (0 < k)%nat →
  1 ≤ len (encodeVarInt n) ≤ Z.of_nat k.
Proof.
  revert k n. apply (digits_ind (λ k n, 1 ≤ len (encodeVarInt n) ≤ Z.of_nat k)).
  - intros k n Hn. rewrite encodeVarInt_small by done. lens. lia.
  - intros k n Hn _ IH. rewrite encodeVarInt_big by done. lens. lia.
Qed.

(** Too many continuation bytes: the value does not fit the four-byte format. *)
Lemma decode_length_loop_overflow k n : 128 ^ Z.of_nat k ≤ n →
  ∀ m v r, decode_length_loop k m v (encodeVarInt n ++ r) =
    Err (ErrMalformedPacket "remaining length exceeds 4 bytes").
Proof.
  revert n. induction k as [|k IH]; intros n Hn m v r; [done|].
  rewrite Nat2Z.inj_succ, Z.pow_succ_r in Hn by lia.
  assert (0 < 128 ^ Z.of_nat k) by (apply Z.pow_pos_nonneg; lia).
  rewrite encodeVarInt_big by lia. cbn [app]. rewrite decode_length_step.
  destruct (digit_bits (n mod 128)) as (_ & _ & -> & -> & _); [apply Z.mod_pos_bound; lia|].
  cbn [Z.eqb]. apply IH. apply Z.div_le_lower_bound; lia.
Qed.

Lemma decode_varint_loop_overflow k n : 128 ^ Z.of_nat k ≤ n →
  ∀ pre post offset i m v, offset + i = len pre →
  decode_varint_loop (pre ++ encodeVarInt n ++ post) offset k i m v =
    Err (ErrMalformedPacket "variable byte integer exceeds 4 bytes").
Proof.
  revert n. induction k as [|k IH]; intros n Hn pre post offset i m v Hi; [done|].
  rewrite Nat2Z.inj_succ, Z.pow_succ_r in Hn by lia.
  assert (0 < 128 ^ Z.of_nat k) by (apply Z.pow_pos_nonneg; lia).
  rewrite encodeVarInt_big by lia. cbn [app]. erewrite decode_varint_step by done.
  destruct (digit_bits (n mod 128)) as (_ & _ & -> & -> & _); [apply Z.mod_pos_bound; lia|].
  cbn [Z.eqb]. rewrite cons_middle, app_assoc.
  apply IH; [apply Z.div_le_lower_bound; lia|lens; lia].
Qed.
(** ** Lemmas on the decoders: range, consumption, safety *)

Lemma ReadFull_Ok r n bs r' : 0 ≤ n → ReadFull r n = Ok (bs, r') → r = bs ++ r' ∧ len bs = n.
Proof.
  intros Hn. unfold ReadFull. destruct (Z.eqb_spec n 0) as [->|]; [by intros [= <- <-]|].
  destruct (len r =? 0); [done|]. destruct (Z.ltb_spec (len r) n); [done|].
  intros [= <- <-]. split; [by rewrite take_drop|].
  unfold len in *. rewrite length_take. lia.
Qed.

Lemma ReadFull_app bs r : ReadFull (bs ++ r) (len bs) = Ok (bs, r).
Proof.
  unfold ReadFull. pose proof (len_nonneg bs). pose proof (len_nonneg r). lens.
  destruct (Z.eqb_spec (len bs) 0) as [Hz|].
  { destruct bs; [done|]. unfold len in Hz; simpl in Hz; lia. }
  ztests. unfold len. by rewrite Nat2Z.id, take_app_length, drop_app_length.
Qed.

Lemma ReadFull_1 b r : ReadFull (b :: r) 1 = Ok ([b], r).
Proof. exact (ReadFull_app [b] r). Qed.

Lemma ReadFull_safe r n : safe (ReadFull r n).
Proof. unfold ReadFull. by repeat case_match. Qed.

Lemma ReadFull_index_safe r : ∀ bs r', ReadFull r 1 = Ok (bs, r') → ∃ b, bs = [b].
Proof.
  intros bs r' [_ H]%ReadFull_Ok; [|lia].
  destruct bs as [|b [|c bs]]; unfold len in H; simpl in H; try lia. eauto.
Qed.

Lemma decode_length_loop_safe k m v r : safe (decode_length_loop k m v r).
Proof.
  revert m v r. induction k as [|k IH]; intros m v r; [done|]. cbn [decode_length_loop].
  apply safe_bind; [apply ReadFull_safe|]. intros [bs r'] [b ->]%ReadFull_index_safe.
  simpl. case_match; [done|apply IH].
Qed.

Lemma decode_length_loop_Ok k m v r x r' :
  0 ≤ m → decode_length_loop k m v r = Ok (x, r') →
  v ≤ x ≤ v + m * (128 ^ Z.of_nat k - 1) ∧
  ∃ c, r = c ++ r' ∧ 1 ≤ len c ≤ Z.of_nat k.
Proof.
  revert m v r. induction k as [|k IH]; intros m v r Hm; [done|].
  destruct r as [|b r]; [done|]. rewrite decode_length_step. cbn zeta.
  rewrite land_7F. pose proof (Z.mod_pos_bound b 128).
  rewrite Nat2Z.inj_succ, Z.pow_succ_r by lia.
  assert (0 < 128 ^ Z.of_nat k) by (apply Z.pow_pos_nonneg; lia).
  case_match.
  - intros [= <- <-]. split; [nia|]. exists [b]. split; [done|]. lens. lia.
  - intros (Hx & c & -> & Hc)%IH; [|lia]. split; [nia|].
    exists (b :: c). split; [done|]. lens. lia.
Qed.

Lemma decode_varint_loop_safe data offset k i m v :
  0 ≤ offset + i → safe (decode_varint_loop data offset k i m v).
Proof.
  revert i m v. induction k as [|k IH]; intros i m v Hi; [done|]. cbn [decode_varint_loop].
  destruct (Z.leb_spec (len data) (offset + i)); [done|].
  destruct (index_ok data (offset + i)) as (b & -> & _); [lia..|]. simpl.
  case_match; [done|]. apply IH. lia.
Qed.

Lemma decode_varint_loop_Ok data offset k i m v x n :
  0 ≤ offset + i → 0 ≤ m → decode_varint_loop data offset k i m v = Ok (x, n) →
  v ≤ x ≤ v + m * (128 ^ Z.of_nat k - 1) ∧ i + 1 ≤ n ≤ i + Z.of_nat k ∧ offset + n ≤ len data.
Proof.
  revert i m v. induction k as [|k IH]; intros i m v Hi Hm; [done|]. cbn [decode_varint_loop].
  destruct (Z.leb_spec (len data) (offset + i)); [done|].
  destruct (index_ok data (offset + i)) as (b & -> & _); [lia..|]. simpl.
  rewrite land_7F. pose proof (Z.mod_pos_bound b 128).
  rewrite Nat2Z.inj_succ, Z.pow_succ_r by lia.
  assert (0 < 128 ^ Z.of_nat k) by (apply Z.pow_pos_nonneg; lia).
  case_match.
  - intros [= <- <-]. split; [nia|lia].
  - intros (Hx & Hn & ?)%IH; [|lia..]. split; [nia|lia].
Qed.

Lemma decodeVarInt_safe data offset : 0 ≤ offset → safe (decodeVarInt data offset).
Proof. intros. apply decode_varint_loop_safe. lia. Qed.

Lemma decodeVarInt_Ok data offset x n : 0 ≤ offset → decodeVarInt data offset = Ok (x, n) →
  0 ≤ x ≤ MaxRemainingLength ∧ 1 ≤ n ≤ 4 ∧ offset + n ≤ len data.
Proof.
  intros H0 H. apply decode_varint_loop_Ok in H; [|lia..].
  change (128 ^ Z.of_nat 4) with 268435456 in H. unfold MaxRemainingLength. lia.
Qed.

Lemma decodeVarInt_encode pre n post : 0 ≤ n ≤ MaxRemainingLength →
  decodeVarInt (pre ++ encodeVarInt n ++ post) (len pre) = Ok (n, len (encodeVarInt n)).
Proof.
  unfold MaxRemainingLength. intros Hn. unfold decodeVarInt.
  rewrite decode_varint_loop_encode; [do 2 f_equal; lia|..|lia]; [|lia].
  change (128 ^ Z.of_nat 4) with 268435456. lia.
Qed.

Lemma DecodeFixedHeader_safe r : safe (DecodeFixedHeader r).
Proof.
  apply safe_bind; [apply ReadFull_safe|]. intros [bs r'] [b ->]%ReadFull_index_safe.
  rewrite index_0. simpl. apply safe_bind; [apply decode_length_loop_safe|]. by intros [??].
Qed.

Definition header_ok (fh : FixedHeader) : Prop :=
  0 ≤ PacketType fh < 16 ∧ 0 ≤ QoS fh < 4 ∧ 0 ≤ RemainingLength fh ≤ MaxRemainingLength.

Lemma first_byte_bits fh : header_ok fh →
  Z.land (Z.shiftr (first_byte fh) 4) 0x0F = PacketType fh ∧
  negb (Z.land (first_byte fh) 0x08 =? 0) = Dup fh ∧
  Z.land (Z.shiftr (first_byte fh) 1) 0x03 = QoS fh ∧
  negb (Z.land (first_byte fh) 0x01 =? 0) = Retain fh ∧
  byte_ok (first_byte fh).
Proof.
  destruct fh as [t d q rt n]. intros (Ht & Hq & _). simpl in *. unfold first_byte. simpl.
  assert (∀ t q, t ∈ seqZ 0 16 → q ∈ seqZ 0 4 → ∀ d rt, let b := first_byte
     {| PacketType := t; Dup := d; QoS := q; Retain := rt; RemainingLength := 0 |} in
     (Z.land (Z.shiftr b 4) 0x0F =? t) && eqb (negb (Z.land b 0x08 =? 0)) d &&
     (Z.land (Z.shiftr b 1) 0x03 =? q) && eqb (negb (Z.land b 0x01 =? 0)) rt &&
     (0 <=? b) && (b <? 256) = true) as H.
  { clear. intros t q Ht Hq. apply elem_of_seqZ in Ht, Hq.
    assert (q = 0 ∨ q = 1 ∨ q = 2 ∨ q = 3) as Hq' by lia.
    assert (t = 0 ∨ t = 1 ∨ t = 2 ∨ t = 3 ∨ t = 4 ∨ t = 5 ∨ t = 6 ∨ t = 7 ∨ t = 8 ∨ t = 9 ∨
      t = 10 ∨ t = 11 ∨ t = 12 ∨ t = 13 ∨ t = 14 ∨ t = 15) as Ht' by lia.
    clear Ht Hq. destruct_or!; subst; intros [] []; reflexivity. }
  specialize (H t q). rewrite !elem_of_seqZ in H. specialize (H ltac:(lia) ltac:(lia) d rt).
  cbn zeta in H. unfold first_byte in H; simpl in H.
  rewrite !andb_true_iff, !Z.eqb_eq, !eqb_true_iff, Z.leb_le, Z.ltb_lt in H.
  unfold byte_ok. tauto.
Qed.

Lemma DecodeFixedHeader_Encode fh r : header_ok fh →
  DecodeFixedHeader (Encode fh ++ r) = Ok (fh, r).
Proof.
  intros Hok. destruct (first_byte_bits fh Hok) as (H1 & H2 & H3 & H4 & _).
  destruct Hok as (_ & _ & Hn). unfold DecodeFixedHeader, Encode. cbn [app].
  rewrite ReadFull_1.
  cbn [mbind res_bind]. rewrite index_0. cbn [mbind res_bind].
  unfold DecodeRemainingLength. change EncodeRemainingLength with encodeVarInt.
  rewrite decode_length_loop_encode;
    [|change (128 ^ Z.of_nat 4) with 268435456; unfold MaxRemainingLength in *; lia|lia].
  cbn [mbind res_bind]. rewrite H1, H2, H3, H4. destruct fh; simpl. do 3 f_equal. lia.
Qed.

Lemma ReadPacket_Encode fh body r : header_ok fh → RemainingLength fh = len body →
  ReadPacket (Encode fh ++ body ++ r) = Ok (fh, body, r).
Proof.
  intros Hok Hl. unfold ReadPacket. rewrite DecodeFixedHeader_Encode by done. cbn [mbind res_bind].
  rewrite Hl. destruct (Z.ltb_spec 0 (len body)) as [|Hz].
  - rewrite ReadFull_app. done.
  - destruct body; [done|]. rewrite len_cons in Hz. pose proof (len_nonneg body). lia.
Qed.

(** ** Reading a connection packet by packet *)

Definition frame (p : FixedHeader * list Z) : list Z := Encode p.1 ++ p.2.

Fixpoint read_all (k : nat) (r : reader) : res (list (FixedHeader * list Z) * reader) :=
  match k with
  | O => Ok ([], r)
  | S k =>
      '(fh, data, r) ← ReadPacket r;
      '(l, r) ← read_all k r;
      Ok ((fh, data) :: l, r)
  end.

(** ** Properties *)

(** The remaining-length codec is exact on the whole range of the format and only there:
    decoding the encoding of any length gives it back, with nothing else consumed, when it is
    at most 268435455, and the malformed-packet error otherwise. *)
Theorem RemainingLength_roundtrip (n : Z) (r : reader) :
  0 ≤ n →
  DecodeRemainingLength (EncodeRemainingLength n ++ r) =
  if n <=? MaxRemainingLength then Ok (n, r)
  else Err (ErrMalformedPacket "remaining length exceeds 4 bytes").
Proof.
  intros Hn. unfold DecodeRemainingLength. change EncodeRemainingLength with encodeVarInt.
  destruct (Z.leb_spec n MaxRemainingLength) as [H|H]; unfold MaxRemainingLength in H.
  - rewrite decode_length_loop_encode; [do 2 f_equal; lia| |lia].
    change (128 ^ Z.of_nat 4) with 268435456. lia.
  - apply decode_length_loop_overflow. change (128 ^ Z.of_nat 4) with 268435456. lia.
Qed.

Lemma RemainingLength_roundtrip_witness :
  DecodeRemainingLength (EncodeRemainingLength 321 ++ [7]) = Ok (321, [7]) ∧
  DecodeRemainingLength (EncodeRemainingLength 268435456 ++ [7]) =
    Err (ErrMalformedPacket "remaining length exceeds 4 bytes").
Proof.
  split.
  - exact (RemainingLength_roundtrip 321 [7] ltac:(lia)).
  - exact (RemainingLength_roundtrip 268435456 [7] ltac:(lia)).
Defined.

(** Encoded frames are read back one after the other. *)
Lemma read_all_frames (frames : list (FixedHeader * list Z)) (r : reader) :
  Forall (λ p, header_ok p.1 ∧ RemainingLength p.1 = len p.2) frames →
  read_all (length frames) ((frames ≫= frame) ++ r) = Ok (frames, r).
Proof.
  induction 1 as [|[fh body] frames [Hok Hl] _ IH]; [done|].
  cbn [length read_all mbind list_bind]. unfold frame at 1. rewrite <- !app_assoc.
  simpl in Hok, Hl. cbn [fst snd]. rewrite ReadPacket_Encode by done. cbn [mbind res_bind].
  by rewrite IH.
Qed.

(** C10: [ReadPacket] recovers the packets of a connection: a stream that starts with any
    number of encoded frames is read back as exactly these headers and bodies, in order, and
    leaves the rest of the stream unread. *)
Theorem ReadPacket_stream (frames : list (FixedHeader * list Z)) (r : reader) :
  Forall (λ p, header_ok p.1 ∧ RemainingLength p.1 = len p.2) frames →
  read_all (length frames) ((frames ≫= frame) ++ r) = Ok (frames, r).
Proof. apply read_all_frames. Qed.

Lemma ReadPacket_stream_witness :
  let ping := {| PacketType := PINGREQ; Dup := false; QoS := 0; Retain := false;
                 RemainingLength := 0 |} in
  let puback := {| PacketType := PUBACK; Dup := false; QoS := 0; Retain := false;
                   RemainingLength := 2 |} in
  read_all 2 (([(ping, []); (puback, [0; 9])] ≫= frame) ++ [99]) =
  Ok ([(ping, []); (puback, [0; 9])], [99]).
Proof.
  intros ping puback.
  apply (ReadPacket_stream [(ping, []); (puback, [0; 9])] [99]).
  rewrite !Forall_cons. unfold header_ok, MaxRemainingLength, len. simpl.
  unfold PINGREQ, PUBACK. split_and!; try lia. constructor.
Defined.

(** Reading from an arbitrary byte stream never panics, and a packet that is returned is
    accounted for byte by byte: a header of two to five bytes, then exactly [RemainingLength]
    bytes of body, at most 268435455, then the unread rest. *)
Theorem ReadPacket_robust (r : reader) :
  safe (ReadPacket r) ∧
  ∀ fh data rest, ReadPacket r = Ok (fh, data, rest) →
    len data = RemainingLength fh ∧ 0 ≤ RemainingLength fh ≤ MaxRemainingLength ∧
    0 ≤ PacketType fh < 16 ∧ 0 ≤ QoS fh < 4 ∧
    ∃ hdr, r = hdr ++ data ++ rest ∧ 2 ≤ len hdr ≤ 5.
Proof.
  split.
  - apply safe_bind; [apply DecodeFixedHeader_safe|]. intros [fh r'] _.
    case_match; [|done]. apply safe_bind; [apply ReadFull_safe|]. by intros [??].
  - intros fh data rest H. unfold ReadPacket, DecodeFixedHeader in H. inv_ok.
    match goal with H : ReadFull r 1 = _ |- _ =>
      pose proof (ReadFull_index_safe _ _ _ H) as [b ->]; apply ReadFull_Ok in H as [-> _]; [|lia] end.
    match goal with H : DecodeRemainingLength _ = _ |- _ =>
      apply decode_length_loop_Ok in H as (Hn & c & -> & Hc); [|lia] end.
    change (128 ^ Z.of_nat 4) with 268435456 in Hn.
    rewrite index_0 in *. inv_ok. rename x0 into b. unfold MaxRemainingLength.
    assert (0 ≤ Z.land (Z.shiftr b 4) 0x0F < 16 ∧ 0 ≤ Z.land (Z.shiftr b 1) 0x03 < 4) as [??].
    { change 0x0F with (Z.ones 4). change 0x03 with (Z.ones 2). rewrite !Z.land_ones by lia.
      split; apply Z.mod_pos_bound; lia. }
    destruct (Z.ltb_spec 0 z); inv_ok.
    + match goal with H : ReadFull _ _ = Ok _ |- _ => apply ReadFull_Ok in H as [-> Hl]; [|lia] end.
      split_and!; try lia. exists (b :: c). split; [done|]. lens. lia.
    + split_and!; try (lens; lia). exists (b :: c). split; [done|]. lens. lia.
Qed.

End Frame.
