(* ===== verification/WebSocket.v ===== *)
(** * MQTT over WebSocket

    Model of [internal/transport/ws.go]: the connection that turns WebSocket messages into a stream of
    bytes, and the listener with its checks and its queue of connections. The WebSocket library is the
    list of the messages that a peer has sent (a message that is not binary is skipped), with the sizes of
    the pieces that the reader of a message hands out; [url.Parse] is a parameter. The reading of packets
    is the code of [codec] over any reader. *)
From S2P Require Import Prelude Frame.
Import Frame.

Module WebSocket.

(** ** The connection *)

Inductive ws_message := Binary (data : list Z) | Other (data : list Z).

(** [c_pieces] are what the library decides at each read of a message: how many bytes it has at hand, and
    whether it reports the end together with the last of them. *)
Record wsConn := mkWS { c_in : list ws_message; c_reader : option (list Z); c_pieces : list (nat * bool) }.
Definition newWSConn (l : list ws_message) (pieces : list (nat * bool)) : wsConn := mkWS l None pieces.

(** [Read] of the reader of a message, for a buffer of [n] bytes: the bytes, what is left, and whether the
    end was reported. A read gives at least one byte as long as there is one. *)
Definition message_Read (piece : nat * bool) (rd : list Z) (n : nat) : list Z * list Z * bool :=
  match rd with
  | [] => ([], [], true)
  | _ =>
      match n with
      | O => ([], rd, false)
      | _ =>
          let m := Nat.max 1 (Nat.min piece.1 (Nat.min n (length rd))) in
          (take m rd, drop m rd, piece.2 && bool_decide (drop m rd = []))
      end
  end.

Definition closed_error : go_error := ErrText "websocket: close".

(** [Read]. Two rounds for every message and two more are enough. *)
Fixpoint read_loop (fuel n : nat) (c : wsConn) : res (list Z * wsConn) :=
  match fuel with
  | O => NoFuel
  | S fuel =>
      match c_reader c with
      | Some rd =>
          let '(bs, rest, eof) := message_Read (default (length rd, false) (head (c_pieces c))) rd n in
          let pieces := tail (c_pieces c) in
          if eof then
            if bool_decide (bs = []) then read_loop fuel n (mkWS (c_in c) None pieces) else Ok (bs, mkWS (c_in c) None pieces)
          else Ok (bs, mkWS (c_in c) (Some rest) pieces)
      | None =>
          match c_in c with
          | [] => Err closed_error
          | Binary d :: l => read_loop fuel n (mkWS l (Some d) (c_pieces c))
          | Other _ :: l => read_loop fuel n (mkWS l None (c_pieces c))
          end
      end
  end.
Definition Read (n : nat) (c : wsConn) : res (list Z * wsConn) := read_loop (2 * length (c_in c) + 2) n c.

(** A write is a binary message. *)
Definition Write (p : list Z) : ws_message := Binary p.

(** ** Reading packets from any reader *)

Section Reader.
Context {R : Type} (full : R → Z → res (list Z * R)).

Fixpoint gen_length_loop (k : nat) (multiplier value : Z) (r : R) : res (Z * R) :=
  match k with
  | O => Err (ErrMalformedPacket "remaining length exceeds 4 bytes")
  | S k =>
      '(bs, r) ← full r 1;
      b ← index bs 0;
      let value := value + Z.land b 0x7F * multiplier in
      if Z.land b 0x80 =? 0 then Ok (value, r)
      else gen_length_loop k (multiplier * 128) value r
  end.
Definition gen_DecodeFixedHeader (r : R) : res (FixedHeader * R) :=
  '(bs, r) ← full r 1;
  b ← index bs 0;
  '(remaining, r) ← gen_length_loop 4 1 0 r;
  Ok ({| PacketType := Z.land (Z.shiftr b 4) 0x0F;
         Dup := negb (Z.land b 0x08 =? 0);
         QoS := Z.land (Z.shiftr b 1) 0x03;
         Retain := negb (Z.land b 0x01 =? 0);
         RemainingLength := remaining |}, r).
Definition gen_ReadPacket (r : R) : res (FixedHeader * list Z * R) :=
  '(fh, r) ← gen_DecodeFixedHeader r;
  if 0 <? RemainingLength fh then
    '(data, r) ← full r (RemainingLength fh);
    Ok (fh, data, r)
  else Ok (fh, [], r).
Fixpoint gen_read_all (k : nat) (r : R) : res (list (FixedHeader * list Z) * R) :=
  match k with
  | O => Ok ([], r)
  | S k => '(fh, data, r) ← gen_ReadPacket r; '(l, r) ← gen_read_all k r; Ok ((fh, data) :: l, r)
  end.
End Reader.

(** [io.ReadFull] on the connection: reads until the buffer is full; every read gives a byte. *)
Fixpoint at_least (fuel need : nat) (acc : list Z) (c : wsConn) : res (list Z * wsConn) :=
  match need, fuel with
  | O, _ => Ok (acc, c)
  | _, O => NoFuel
  | _, S fuel => '(bs, c) ← Read need c; at_least fuel (need - length bs) (acc ++ bs) c
  end.
Definition ws_ReadFull (c : wsConn) (n : Z) : res (list Z * wsConn) := at_least (Z.to_nat n) (Z.to_nat n) [] c.

(** ** The listener *)

Record WSListener := mkListener { connCh : list nat; l_done : bool }.     (* connections by number *)
Definition queue_size : nat := 256.

(** [CheckOrigin], with the host that [url.Parse] finds. *)
Definition CheckOrigin (parse_host : string → option string) (origin host : string) : bool :=
  if bool_decide (origin = "") then true
  else match parse_host origin with None => false | Some h => bool_decide (h = host) end.

Inductive ws_outcome := Refused (status : Z) | Failed | Queued | ClosedConn | Blocked.

(** [handleWebSocket]: the subprotocols that the client asks for, its origin, whether the rest of the
    handshake succeeds, and the choice of [select] when both cases are ready. *)
Definition handleWebSocket (parse_host : string → option string) (l : WSListener) (conn : nat) (protocols : list string)
    (origin host : string) (upgrades pick_send : bool) : ws_outcome * WSListener :=
  if negb (bool_decide ("mqtt" ∈ protocols)) then (Refused 400, l)
  else if negb (CheckOrigin parse_host origin host) then (Refused 403, l)
  else if negb upgrades then (Failed, l)
  else
    let room := (length (connCh l) <? queue_size)%nat in
    if room && (pick_send || negb (l_done l)) then (Queued, mkListener (connCh l ++ [conn]) (l_done l))
    else if l_done l then (ClosedConn, l) else (Blocked, l).

(** [Accept]: a connection, [net.ErrClosed], or nothing yet. *)
Inductive accepted := Conn (conn : nat) | ErrListenerClosed | NothingYet.
Definition Accept (l : WSListener) (pick_conn : bool) : accepted * WSListener :=
  match connCh l with
  | c :: rest => if pick_conn || negb (l_done l) then (Conn c, mkListener rest (l_done l)) else (ErrListenerClosed, l)
  | [] => (if l_done l then ErrListenerClosed else NothingYet, l)
  end.
Definition Close (l : WSListener) : WSListener := mkListener (connCh l) true.

(** ** What is read *)

(** The bytes that are still to be read. *)
Definition payload (m : ws_message) : list Z := match m with Binary d => d | Other _ => [] end.
Definition stream (c : wsConn) : list Z := default [] (c_reader c) ++ (c_in c ≫= payload).

Lemma message_Read_spec piece rd n : (0 < n)%nat →
  let '(bs, rest, eof) := message_Read piece rd n in
  rd = bs ++ rest ∧ (length bs ≤ n)%nat ∧ (eof = true → rest = []) ∧ (bs = [] → eof = true ∧ rd = []).
Proof.
  intros Hn. unfold message_Read. destruct rd as [|x rd]; [naive_solver lia|]. destruct n as [|n]; [lia|].
  set (m := Nat.max 1 _). assert (Hm : (1 ≤ m ≤ S n)%nat) by (unfold m; lia). split_and!.
  - by rewrite take_drop.
  - rewrite length_take. lia.
  - rewrite andb_true_iff, bool_decide_eq_true. by intros [_ ?].
  - destruct m; [lia|]. done.
Qed.

Lemma read_loop_spec fuel n : ∀ c, (0 < n)%nat → (2 * length (c_in c) + (if c_reader c then 2 else 1) ≤ fuel)%nat →
  match read_loop fuel n c with
  | Ok (bs, c') => stream c = bs ++ stream c' ∧ (1 ≤ length bs ≤ n)%nat
  | Err _ => stream c = []
  | _ => False
  end.
Proof.
  induction fuel as [|fuel IH]; intros c Hn Hf; [destruct (c_reader c); lia|]. destruct c as [l [rd|] pieces]; cbn [read_loop c_reader c_in c_pieces].
  - pose proof (message_Read_spec (default (length rd, false) (head pieces)) rd n Hn) as Hm.
    destruct (message_Read _ rd n) as [[bs rest] eof]. destruct Hm as (-> & Hle & Heof & Hnil). cbn in Hf. destruct eof.
    + rewrite (Heof eq_refl), app_nil_r. case_bool_decide as Hb.
      * subst bs. cbn -[Nat.mul]. specialize (IH (mkWS l None (tail pieces)) Hn). cbn in IH. apply IH. lia.
      * cbn. split; [done|]. destruct bs; [done|]. cbn in *. lia.
    + unfold stream. cbn. split; [by rewrite app_assoc|]. destruct bs; [by destruct (Hnil eq_refl)|]. cbn in *. lia.
  - destruct l as [|[d|d] l]; [done| |].
    + cbn in Hf. specialize (IH (mkWS l (Some d) pieces) Hn). cbn in IH. unfold stream in *. cbn. apply IH. lia.
    + cbn in Hf. specialize (IH (mkWS l None pieces) Hn). cbn in IH. unfold stream in *. cbn. apply IH. lia.
Qed.

Lemma Read_spec n c : (0 < n)%nat →
  match Read n c with
  | Ok (bs, c') => stream c = bs ++ stream c' ∧ (1 ≤ length bs ≤ n)%nat
  | Err _ => stream c = []
  | _ => False
  end.
Proof. intros Hn. apply read_loop_spec; [done|]. destruct (c_reader c); lia. Qed.

Lemma at_least_spec fuel : ∀ need acc c, (need ≤ fuel)%nat →
  match at_least fuel need acc c with
  | Ok (bs, c') => ∃ new, bs = acc ++ new ∧ length new = need ∧ stream c = new ++ stream c'
  | Err _ => (length (stream c) < need)%nat
  | _ => False
  end.
Proof.
  induction fuel as [|fuel IH]; intros need acc c Hle; (destruct need as [|need]; [cbn; exists []; by rewrite app_nil_r|]); [lia|].
  cbn [at_least]. pose proof (Read_spec (S need) c ltac:(lia)) as Hr. destruct (Read (S need) c) as [[bs c1]|e| |]; cbn [mbind res_bind]; [|by rewrite Hr; cbn; lia|done..].
  destruct Hr as [Hs Hl]. specialize (IH (S need - length bs)%nat (acc ++ bs) c1 ltac:(lia)).
  destruct (at_least fuel _ _ c1) as [[out c2]|e| |]; [|rewrite Hs, length_app; lia|done..].
  destruct IH as (new & -> & Hn & Hs1). exists (bs ++ new). rewrite app_assoc, length_app, Hs, Hs1, app_assoc. split_and!; [done|lia|done].
Qed.

(** Two runs of the same code over the connection and over its bytes. *)
Definition agree {A} (x : res (A * wsConn)) (y : res (A * reader)) : Prop :=
  match x, y with
  | Ok (a, c), Ok (b, r) => a = b ∧ r = stream c
  | Err _, Err _ | Panic, Panic | NoFuel, NoFuel => True
  | _, _ => False
  end.

Lemma agree_bind {A B} x y (f : A * wsConn → res (B * wsConn)) (g : A * reader → res (B * reader)) :
  agree x y → (∀ a c, agree (f (a, c)) (g (a, stream c))) → agree (x ≫= f) (y ≫= g).
Proof. intros Ha Hf. destruct x as [[a c]|e| |], y as [[b r]|e'| |]; try done. destruct Ha as [<- ->]. apply Hf. Qed.
Lemma agree_same {A B} (m : res A) (f : A → res (B * wsConn)) g : (∀ a, agree (f a) (g a)) → agree (m ≫= f) (m ≫= g).
Proof. intros Hf. by destruct m; cbn. Qed.

(** [io.ReadFull] gives the bytes of the messages, however they are cut. *)
Lemma ws_ReadFull_agree c n : 0 ≤ n → agree (ws_ReadFull c n) (ReadFull (stream c) n).
Proof.
  intros Hn. unfold ws_ReadFull. pose proof (at_least_spec (Z.to_nat n) (Z.to_nat n) [] c ltac:(done)) as Hs.
  destruct (at_least _ _ [] c) as [[bs c1]|e| |]; [| |done..].
  - destruct Hs as (new & -> & Hl & Hs). cbn [app]. replace n with (len new) by (unfold len; lia). rewrite Hs, ReadFull_app. done.
  - unfold ReadFull, len in *. destruct (Z.eqb_spec n 0); [lia|]. destruct (Z.eqb_spec (Z.of_nat (length (stream c))) 0); [done|].
    destruct (Z.ltb_spec (Z.of_nat (length (stream c))) n); [done|lia].
Qed.

Lemma gen_length_loop_agree k : ∀ m v c, agree (gen_length_loop ws_ReadFull k m v c) (decode_length_loop k m v (stream c)).
Proof.
  induction k as [|k IH]; intros m v c; [done|]. apply (agree_bind (ws_ReadFull c 1) (ReadFull (stream c) 1)); [apply ws_ReadFull_agree; lia|].
  intros bs c1. apply agree_same. intros b. cbn zeta. destruct (Z.land b 128 =? 0); [done|apply IH].
Qed.

Lemma gen_ReadPacket_agree c : agree (gen_ReadPacket ws_ReadFull c) (ReadPacket (stream c)).
Proof.
  unfold gen_ReadPacket, ReadPacket. apply (agree_bind _ _ _ _).
  - unfold gen_DecodeFixedHeader, DecodeFixedHeader.
    apply (agree_bind (ws_ReadFull c 1) (ReadFull (stream c) 1)); [apply ws_ReadFull_agree; lia|].
    intros bs c1. apply agree_same. intros b. apply (agree_bind (gen_length_loop ws_ReadFull 4 1 0 c1)); [apply gen_length_loop_agree|]. done.
  - intros fh c1. destruct (Z.ltb_spec 0 (RemainingLength fh)); [|done].
    apply (agree_bind (ws_ReadFull c1 (RemainingLength fh))); [apply ws_ReadFull_agree; lia|]. done.
Qed.

Lemma gen_read_all_agree k : ∀ c, agree (gen_read_all ws_ReadFull k c) (read_all k (stream c)).
Proof.
  induction k as [|k IH]; intros c; [done|]. apply (agree_bind (gen_ReadPacket ws_ReadFull c) (ReadPacket (stream c))); [apply gen_ReadPacket_agree|].
  intros [fh data] c1. apply (agree_bind (gen_read_all ws_ReadFull k c1)); [apply IH|]. done.
Qed.

(** The generic code over a list of bytes is [codec.ReadPacket]. *)
Lemma gen_ReadPacket_list r : gen_ReadPacket ReadFull r = ReadPacket r.
Proof. done. Qed.

(** C13: MQTT over WebSocket is MQTT. Reading a packet from a WebSocket connection gives what reading it
    from the bytes of its binary messages gives, and fails when that fails; so the packets that a client
    has sent are read in order, however it and the network have cut them into messages and pieces, and
    whatever messages that are not binary are in between. *)
Theorem websocket_packets (c : wsConn) :
  (∀ fh data r, ReadPacket (stream c) = Ok (fh, data, r) →
     ∃ c', gen_ReadPacket ws_ReadFull c = Ok (fh, data, c') ∧ stream c' = r) ∧
  (∀ e, ReadPacket (stream c) = Err e → ∃ e', gen_ReadPacket ws_ReadFull c = Err e') ∧
  (∀ frames r, Forall (λ p, header_ok p.1 ∧ RemainingLength p.1 = len p.2) frames → stream c = (frames ≫= frame) ++ r →
     ∃ c', gen_read_all ws_ReadFull (length frames) c = Ok (frames, c') ∧ stream c' = r).
Proof.
  pose proof (gen_ReadPacket_agree c) as Ha. split_and!.
  - intros fh data r E. rewrite E in Ha. destruct (gen_ReadPacket ws_ReadFull c) as [[x c']| | |]; try done. destruct Ha as [-> ->]. eauto.
  - intros e E. rewrite E in Ha. destruct (gen_ReadPacket ws_ReadFull c) as [[x c']| | |]; try done. eauto.
  - intros frames r Hok E. pose proof (gen_read_all_agree (length frames) c) as Hall. rewrite E, read_all_frames in Hall by done.
    destruct (gen_read_all ws_ReadFull _ c) as [[x c']| | |]; try done. destruct Hall as [-> ->]. eauto.
Qed.

Lemma websocket_packets_witness :
  let c := newWSConn [Binary [192]; Other [1; 2]; Binary [0; 64]; Binary []; Binary [2; 0; 9; 77]] [(1%nat, true); (1%nat, false)] in
  let ping := {| PacketType := PINGREQ; Dup := false; QoS := 0; Retain := false; RemainingLength := 0 |} in
  let puback := {| PacketType := PUBACK; Dup := false; QoS := 0; Retain := false; RemainingLength := 2 |} in
  ∃ c', gen_read_all ws_ReadFull 2 c = Ok ([(ping, []); (puback, [0; 9])], c') ∧ stream c' = [77].
Proof.
  intros c ping puback. destruct (websocket_packets c) as (_ & _ & Hall). apply (Hall [(ping, []); (puback, [0; 9])] [77]); [|reflexivity].
  rewrite !Forall_cons. unfold header_ok, MaxRemainingLength, len. simpl. unfold PINGREQ, PUBACK. split_and!; try lia. constructor.
Defined.

(** ** The listener *)

(** A client is let in only with the subprotocol, and from a page only if the page is of the same host. *)
Lemma websocket_admits parse_host l conn protocols origin host upgrades pick l' :
  handleWebSocket parse_host l conn protocols origin host upgrades pick = (Queued, l') →
  "mqtt" ∈ protocols ∧ (origin ≠ "" → parse_host origin = Some host) ∧ connCh l' = connCh l ++ [conn] ∧ (length (connCh l') ≤ queue_size)%nat.
Proof.
  unfold handleWebSocket, CheckOrigin. intros H.
  destruct (decide ("mqtt" ∈ protocols)) as [Hp|Hp]; [rewrite bool_decide_true in H by done|by rewrite bool_decide_false in H].
  assert (Ho : origin ≠ "" → parse_host origin = Some host).
  { intros Hne. rewrite (bool_decide_false (origin = "")) in H by done. destruct (parse_host origin) as [h|]; [|done].
    destruct (decide (h = host)) as [->|Hh]; [done|]. by rewrite (bool_decide_false (h = host)) in H. }
  split; [done|]. split; [done|]. revert H. cbn [negb]. destruct (negb (if bool_decide (origin = "") then _ else _)); [done|].
  destruct upgrades; cbn [negb]; [|done]. destruct (Nat.ltb_spec (length (connCh l)) queue_size) as [Hl|Hl]; cbn [andb].
  - destruct (pick || negb (l_done l)); [|by destruct (l_done l)]. intros [= <-]. cbn [connCh]. rewrite length_app. cbn [length]. split; [done|lia].
  - by destruct (l_done l).
Qed.

(** A connection that waits in the queue when the listener closes can be neither accepted nor closed: [Accept]
    is free to see [done] first. *)
Lemma close_leaks_connections l c rest : connCh l = c :: rest →
  Accept (Close l) false = (ErrListenerClosed, Close l) ∧ connCh (Close l) = c :: rest.
Proof. intros E. unfold Accept, Close. cbn. rewrite E. done. Qed.

End WebSocket.
