(* ===== verification/Props.v ===== *)
(** * MQTT 5.0 properties

    Model of [internal/codec/properties.go]: the [Properties] struct (a pointer field is an
    [option], a [[]byte] field whose [nil] the encoder tests is an [option] of a list), its
    encoder and [DecodeProperties] with their helpers.  A value format is a [wire] record: an
    encoder, the reader the decoder uses for it, the values it can carry, and the law that the
    reader inverts the encoder anywhere in a buffer.  Every property is proved to round-trip
    through the law of its format. *)
From S2P Require Import Prelude Frame.
Import Frame.

Module Props.

(** ** Property identifiers *)

Definition PropSessionExpiryInterval : Z := 0x11.
Definition PropReceiveMaximum : Z := 0x21.
Definition PropMaximumQoS : Z := 0x24.
Definition PropRetainAvailable : Z := 0x25.
Definition PropMaximumPacketSize : Z := 0x27.
Definition PropAssignedClientIdentifier : Z := 0x12.
Definition PropTopicAliasMaximum : Z := 0x22.
Definition PropReasonString : Z := 0x1F.
Definition PropWildcardSubAvailable : Z := 0x28.
Definition PropSubIdentifierAvailable : Z := 0x29.
Definition PropSharedSubAvailable : Z := 0x2A.
Definition PropServerKeepAlive : Z := 0x13.
Definition PropServerReference : Z := 0x1C.
Definition PropResponseInformation : Z := 0x1A.
Definition PropPayloadFormatIndicator : Z := 0x01.
Definition PropMessageExpiryInterval : Z := 0x02.
Definition PropTopicAlias : Z := 0x23.
Definition PropResponseTopic : Z := 0x08.
Definition PropCorrelationData : Z := 0x09.
Definition PropContentType : Z := 0x03.
Definition PropSubscriptionIdentifier : Z := 0x0B.
Definition PropWillDelayInterval : Z := 0x18.
Definition PropAuthenticationMethod : Z := 0x15.
Definition PropAuthenticationData : Z := 0x16.
Definition PropRequestProblemInfo : Z := 0x17.
Definition PropRequestResponseInfo : Z := 0x19.
Definition PropUserProperty : Z := 0x26.

(** ** The data *)

Record UserProperty := mkUser { Key : string; Value : string }.

Record Properties := mkProps {
  SessionExpiryInterval : option Z;
  ReceiveMaximum : option Z;
  MaximumQoS : option Z;
  RetainAvailable : option Z;
  MaximumPacketSize : option Z;
  AssignedClientIdentifier : option string;
  TopicAliasMaximum : option Z;
  ReasonString : option string;
  WildcardSubAvailable : option Z;
  SubIdentifierAvailable : option Z;
  SharedSubAvailable : option Z;
  ServerKeepAlive : option Z;
  ServerReference : option string;
  ResponseInformation : option string;
  PayloadFormatIndicator : option Z;
  MessageExpiryInterval : option Z;
  TopicAlias : option Z;
  ResponseTopic : option string;
  CorrelationData : option (list Z);
  ContentType : option string;
  SubscriptionIdentifier : option Z;
  WillDelayInterval : option Z;
  AuthenticationMethod : option string;
  AuthenticationData : option (list Z);
  RequestProblemInfo : option Z;
  RequestResponseInfo : option Z;
  UserProperties : list UserProperty
}.

(** [Properties{}]: nothing set. *)
Definition emptyProps : Properties :=
  mkProps None None None None None None None None None None None None None None None None None None None None None None None None None None [].

(** The field assignments of [DecodeProperties]. *)
Definition set_SessionExpiryInterval (v : option Z) (p : Properties) : Properties :=
  let '(mkProps _ a2 a3 a4 a5 a6 a7 a8 a9 a10 a11 a12 a13 a14 a15 a16 a17 a18 a19 a20 a21 a22 a23 a24 a25 a26 a27) := p in
  mkProps v a2 a3 a4 a5 a6 a7 a8 a9 a10 a11 a12 a13 a14 a15 a16 a17 a18 a19 a20 a21 a22 a23 a24 a25 a26 a27.
Definition set_ReceiveMaximum (v : option Z) (p : Properties) : Properties :=
  let '(mkProps a1 _ a3 a4 a5 a6 a7 a8 a9 a10 a11 a12 a13 a14 a15 a16 a17 a18 a19 a20 a21 a22 a23 a24 a25 a26 a27) := p in
  mkProps a1 v a3 a4 a5 a6 a7 a8 a9 a10 a11 a12 a13 a14 a15 a16 a17 a18 a19 a20 a21 a22 a23 a24 a25 a26 a27.
Definition set_MaximumQoS (v : option Z) (p : Properties) : Properties :=
  let '(mkProps a1 a2 _ a4 a5 a6 a7 a8 a9 a10 a11 a12 a13 a14 a15 a16 a17 a18 a19 a20 a21 a22 a23 a24 a25 a26 a27) := p in
  mkProps a1 a2 v a4 a5 a6 a7 a8 a9 a10 a11 a12 a13 a14 a15 a16 a17 a18 a19 a20 a21 a22 a23 a24 a25 a26 a27.
Definition set_RetainAvailable (v : option Z) (p : Properties) : Properties :=
  let '(mkProps a1 a2 a3 _ a5 a6 a7 a8 a9 a10 a11 a12 a13 a14 a15 a16 a17 a18 a19 a20 a21 a22 a23 a24 a25 a26 a27) := p in
  mkProps a1 a2 a3 v a5 a6 a7 a8 a9 a10 a11 a12 a13 a14 a15 a16 a17 a18 a19 a20 a21 a22 a23 a24 a25 a26 a27.
Definition set_MaximumPacketSize (v : option Z) (p : Properties) : Properties :=
  let '(mkProps a1 a2 a3 a4 _ a6 a7 a8 a9 a10 a11 a12 a13 a14 a15 a16 a17 a18 a19 a20 a21 a22 a23 a24 a25 a26 a27) := p in
  mkProps a1 a2 a3 a4 v a6 a7 a8 a9 a10 a11 a12 a13 a14 a15 a16 a17 a18 a19 a20 a21 a22 a23 a24 a25 a26 a27.
Definition set_AssignedClientIdentifier (v : option string) (p : Properties) : Properties :=
  let '(mkProps a1 a2 a3 a4 a5 _ a7 a8 a9 a10 a11 a12 a13 a14 a15 a16 a17 a18 a19 a20 a21 a22 a23 a24 a25 a26 a27) := p in
  mkProps a1 a2 a3 a4 a5 v a7 a8 a9 a10 a11 a12 a13 a14 a15 a16 a17 a18 a19 a20 a21 a22 a23 a24 a25 a26 a27.
Definition set_TopicAliasMaximum (v : option Z) (p : Properties) : Properties :=
  let '(mkProps a1 a2 a3 a4 a5 a6 _ a8 a9 a10 a11 a12 a13 a14 a15 a16 a17 a18 a19 a20 a21 a22 a23 a24 a25 a26 a27) := p in
  mkProps a1 a2 a3 a4 a5 a6 v a8 a9 a10 a11 a12 a13 a14 a15 a16 a17 a18 a19 a20 a21 a22 a23 a24 a25 a26 a27.
Definition set_ReasonString (v : option string) (p : Properties) : Properties :=
  let '(mkProps a1 a2 a3 a4 a5 a6 a7 _ a9 a10 a11 a12 a13 a14 a15 a16 a17 a18 a19 a20 a21 a22 a23 a24 a25 a26 a27) := p in
  mkProps a1 a2 a3 a4 a5 a6 a7 v a9 a10 a11 a12 a13 a14 a15 a16 a17 a18 a19 a20 a21 a22 a23 a24 a25 a26 a27.
Definition set_WildcardSubAvailable (v : option Z) (p : Properties) : Properties :=
  let '(mkProps a1 a2 a3 a4 a5 a6 a7 a8 _ a10 a11 a12 a13 a14 a15 a16 a17 a18 a19 a20 a21 a22 a23 a24 a25 a26 a27) := p in
  mkProps a1 a2 a3 a4 a5 a6 a7 a8 v a10 a11 a12 a13 a14 a15 a16 a17 a18 a19 a20 a21 a22 a23 a24 a25 a26 a27.
Definition set_SubIdentifierAvailable (v : option Z) (p : Properties) : Properties :=
  let '(mkProps a1 a2 a3 a4 a5 a6 a7 a8 a9 _ a11 a12 a13 a14 a15 a16 a17 a18 a19 a20 a21 a22 a23 a24 a25 a26 a27) := p in
  mkProps a1 a2 a3 a4 a5 a6 a7 a8 a9 v a11 a12 a13 a14 a15 a16 a17 a18 a19 a20 a21 a22 a23 a24 a25 a26 a27.
Definition set_SharedSubAvailable (v : option Z) (p : Properties) : Properties :=
  let '(mkProps a1 a2 a3 a4 a5 a6 a7 a8 a9 a10 _ a12 a13 a14 a15 a16 a17 a18 a19 a20 a21 a22 a23 a24 a25 a26 a27) := p in
  mkProps a1 a2 a3 a4 a5 a6 a7 a8 a9 a10 v a12 a13 a14 a15 a16 a17 a18 a19 a20 a21 a22 a23 a24 a25 a26 a27.
Definition set_ServerKeepAlive (v : option Z) (p : Properties) : Properties :=
  let '(mkProps a1 a2 a3 a4 a5 a6 a7 a8 a9 a10 a11 _ a13 a14 a15 a16 a17 a18 a19 a20 a21 a22 a23 a24 a25 a26 a27) := p in
  mkProps a1 a2 a3 a4 a5 a6 a7 a8 a9 a10 a11 v a13 a14 a15 a16 a17 a18 a19 a20 a21 a22 a23 a24 a25 a26 a27.
Definition set_ServerReference (v : option string) (p : Properties) : Properties :=
  let '(mkProps a1 a2 a3 a4 a5 a6 a7 a8 a9 a10 a11 a12 _ a14 a15 a16 a17 a18 a19 a20 a21 a22 a23 a24 a25 a26 a27) := p in
  mkProps a1 a2 a3 a4 a5 a6 a7 a8 a9 a10 a11 a12 v a14 a15 a16 a17 a18 a19 a20 a21 a22 a23 a24 a25 a26 a27.
Definition set_ResponseInformation (v : option string) (p : Properties) : Properties :=
  let '(mkProps a1 a2 a3 a4 a5 a6 a7 a8 a9 a10 a11 a12 a13 _ a15 a16 a17 a18 a19 a20 a21 a22 a23 a24 a25 a26 a27) := p in
  mkProps a1 a2 a3 a4 a5 a6 a7 a8 a9 a10 a11 a12 a13 v a15 a16 a17 a18 a19 a20 a21 a22 a23 a24 a25 a26 a27.
Definition set_PayloadFormatIndicator (v : option Z) (p : Properties) : Properties :=
  let '(mkProps a1 a2 a3 a4 a5 a6 a7 a8 a9 a10 a11 a12 a13 a14 _ a16 a17 a18 a19 a20 a21 a22 a23 a24 a25 a26 a27) := p in
  mkProps a1 a2 a3 a4 a5 a6 a7 a8 a9 a10 a11 a12 a13 a14 v a16 a17 a18 a19 a20 a21 a22 a23 a24 a25 a26 a27.
Definition set_MessageExpiryInterval (v : option Z) (p : Properties) : Properties :=
  let '(mkProps a1 a2 a3 a4 a5 a6 a7 a8 a9 a10 a11 a12 a13 a14 a15 _ a17 a18 a19 a20 a21 a22 a23 a24 a25 a26 a27) := p in
  mkProps a1 a2 a3 a4 a5 a6 a7 a8 a9 a10 a11 a12 a13 a14 a15 v a17 a18 a19 a20 a21 a22 a23 a24 a25 a26 a27.
Definition set_TopicAlias (v : option Z) (p : Properties) : Properties :=
  let '(mkProps a1 a2 a3 a4 a5 a6 a7 a8 a9 a10 a11 a12 a13 a14 a15 a16 _ a18 a19 a20 a21 a22 a23 a24 a25 a26 a27) := p in
  mkProps a1 a2 a3 a4 a5 a6 a7 a8 a9 a10 a11 a12 a13 a14 a15 a16 v a18 a19 a20 a21 a22 a23 a24 a25 a26 a27.
Definition set_ResponseTopic (v : option string) (p : Properties) : Properties :=
  let '(mkProps a1 a2 a3 a4 a5 a6 a7 a8 a9 a10 a11 a12 a13 a14 a15 a16 a17 _ a19 a20 a21 a22 a23 a24 a25 a26 a27) := p in
  mkProps a1 a2 a3 a4 a5 a6 a7 a8 a9 a10 a11 a12 a13 a14 a15 a16 a17 v a19 a20 a21 a22 a23 a24 a25 a26 a27.
Definition set_CorrelationData (v : option (list Z)) (p : Properties) : Properties :=
  let '(mkProps a1 a2 a3 a4 a5 a6 a7 a8 a9 a10 a11 a12 a13 a14 a15 a16 a17 a18 _ a20 a21 a22 a23 a24 a25 a26 a27) := p in
  mkProps a1 a2 a3 a4 a5 a6 a7 a8 a9 a10 a11 a12 a13 a14 a15 a16 a17 a18 v a20 a21 a22 a23 a24 a25 a26 a27.
Definition set_ContentType (v : option string) (p : Properties) : Properties :=
  let '(mkProps a1 a2 a3 a4 a5 a6 a7 a8 a9 a10 a11 a12 a13 a14 a15 a16 a17 a18 a19 _ a21 a22 a23 a24 a25 a26 a27) := p in
  mkProps a1 a2 a3 a4 a5 a6 a7 a8 a9 a10 a11 a12 a13 a14 a15 a16 a17 a18 a19 v a21 a22 a23 a24 a25 a26 a27.
Definition set_SubscriptionIdentifier (v : option Z) (p : Properties) : Properties :=
  let '(mkProps a1 a2 a3 a4 a5 a6 a7 a8 a9 a10 a11 a12 a13 a14 a15 a16 a17 a18 a19 a20 _ a22 a23 a24 a25 a26 a27) := p in
  mkProps a1 a2 a3 a4 a5 a6 a7 a8 a9 a10 a11 a12 a13 a14 a15 a16 a17 a18 a19 a20 v a22 a23 a24 a25 a26 a27.
Definition set_WillDelayInterval (v : option Z) (p : Properties) : Properties :=
  let '(mkProps a1 a2 a3 a4 a5 a6 a7 a8 a9 a10 a11 a12 a13 a14 a15 a16 a17 a18 a19 a20 a21 _ a23 a24 a25 a26 a27) := p in
  mkProps a1 a2 a3 a4 a5 a6 a7 a8 a9 a10 a11 a12 a13 a14 a15 a16 a17 a18 a19 a20 a21 v a23 a24 a25 a26 a27.
Definition set_AuthenticationMethod (v : option string) (p : Properties) : Properties :=
  let '(mkProps a1 a2 a3 a4 a5 a6 a7 a8 a9 a10 a11 a12 a13 a14 a15 a16 a17 a18 a19 a20 a21 a22 _ a24 a25 a26 a27) := p in
  mkProps a1 a2 a3 a4 a5 a6 a7 a8 a9 a10 a11 a12 a13 a14 a15 a16 a17 a18 a19 a20 a21 a22 v a24 a25 a26 a27.
Definition set_AuthenticationData (v : option (list Z)) (p : Properties) : Properties :=
  let '(mkProps a1 a2 a3 a4 a5 a6 a7 a8 a9 a10 a11 a12 a13 a14 a15 a16 a17 a18 a19 a20 a21 a22 a23 _ a25 a26 a27) := p in
  mkProps a1 a2 a3 a4 a5 a6 a7 a8 a9 a10 a11 a12 a13 a14 a15 a16 a17 a18 a19 a20 a21 a22 a23 v a25 a26 a27.
Definition set_RequestProblemInfo (v : option Z) (p : Properties) : Properties :=
  let '(mkProps a1 a2 a3 a4 a5 a6 a7 a8 a9 a10 a11 a12 a13 a14 a15 a16 a17 a18 a19 a20 a21 a22 a23 a24 _ a26 a27) := p in
  mkProps a1 a2 a3 a4 a5 a6 a7 a8 a9 a10 a11 a12 a13 a14 a15 a16 a17 a18 a19 a20 a21 a22 a23 a24 v a26 a27.
Definition set_RequestResponseInfo (v : option Z) (p : Properties) : Properties :=
  let '(mkProps a1 a2 a3 a4 a5 a6 a7 a8 a9 a10 a11 a12 a13 a14 a15 a16 a17 a18 a19 a20 a21 a22 a23 a24 a25 _ a27) := p in
  mkProps a1 a2 a3 a4 a5 a6 a7 a8 a9 a10 a11 a12 a13 a14 a15 a16 a17 a18 a19 a20 a21 a22 a23 a24 a25 v a27.
Definition add_UserProperty (u : UserProperty) (p : Properties) : Properties :=
  let '(mkProps a1 a2 a3 a4 a5 a6 a7 a8 a9 a10 a11 a12 a13 a14 a15 a16 a17 a18 a19 a20 a21 a22 a23 a24 a25 a26 a27) := p in
  mkProps a1 a2 a3 a4 a5 a6 a7 a8 a9 a10 a11 a12 a13 a14 a15 a16 a17 a18 a19 a20 a21 a22 a23 a24 a25 a26 (a27 ++ [u]).

(** ** Encoding helpers *)

Definition appendByteProp (buf : list Z) (id : Z) (val : option Z) : list Z :=
  match val with None => buf | Some v => buf ++ [id; v] end.

Definition appendUint16Prop (buf : list Z) (id : Z) (val : option Z) : list Z :=
  match val with None => buf | Some v => (buf ++ [id]) ++ put16 v end.

Definition appendUint32Prop (buf : list Z) (id : Z) (val : option Z) : list Z :=
  match val with None => buf | Some v => (buf ++ [id]) ++ PutUint32 v end.

Definition appendUTF8 (buf : list Z) (s : string) : list Z :=
  (buf ++ put16 (slen s)) ++ bytes_of s.

Definition appendStringProp (buf : list Z) (id : Z) (val : option string) : list Z :=
  match val with None => buf | Some v => appendUTF8 (buf ++ [id]) v end.

Definition appendBinaryProp (buf : list Z) (id : Z) (val : option (list Z)) : list Z :=
  match val with None => buf | Some v => ((buf ++ [id]) ++ put16 (len v)) ++ v end.

Definition appendUserProperty (buf : list Z) (up : UserProperty) : list Z :=
  appendUTF8 (appendUTF8 (buf ++ [PropUserProperty]) (Key up)) (Value up).

(** ** [Properties.Encode] *)

Definition encode_body (p : Properties) : list Z :=
  let body := [] in
  let body := appendUint32Prop body PropSessionExpiryInterval (SessionExpiryInterval p) in
  let body := appendUint16Prop body PropReceiveMaximum (ReceiveMaximum p) in
  let body := appendByteProp body PropMaximumQoS (MaximumQoS p) in
  let body := appendByteProp body PropRetainAvailable (RetainAvailable p) in
  let body := appendUint32Prop body PropMaximumPacketSize (MaximumPacketSize p) in
  let body := appendStringProp body PropAssignedClientIdentifier (AssignedClientIdentifier p) in
  let body := appendUint16Prop body PropTopicAliasMaximum (TopicAliasMaximum p) in
  let body := appendStringProp body PropReasonString (ReasonString p) in
  let body := appendByteProp body PropWildcardSubAvailable (WildcardSubAvailable p) in
  let body := appendByteProp body PropSubIdentifierAvailable (SubIdentifierAvailable p) in
  let body := appendByteProp body PropSharedSubAvailable (SharedSubAvailable p) in
  let body := appendUint16Prop body PropServerKeepAlive (ServerKeepAlive p) in
  let body := appendStringProp body PropServerReference (ServerReference p) in
  let body := appendStringProp body PropResponseInformation (ResponseInformation p) in
  let body := appendByteProp body PropPayloadFormatIndicator (PayloadFormatIndicator p) in
  let body := appendUint32Prop body PropMessageExpiryInterval (MessageExpiryInterval p) in
  let body := appendUint16Prop body PropTopicAlias (TopicAlias p) in
  let body := appendStringProp body PropResponseTopic (ResponseTopic p) in
  let body := appendBinaryProp body PropCorrelationData (CorrelationData p) in
  let body := appendStringProp body PropContentType (ContentType p) in
  let body := match SubscriptionIdentifier p with
              | Some v => (body ++ [PropSubscriptionIdentifier]) ++ encodeVarInt v
              | None => body
              end in
  let body := appendUint32Prop body PropWillDelayInterval (WillDelayInterval p) in
  let body := appendStringProp body PropAuthenticationMethod (AuthenticationMethod p) in
  let body := appendBinaryProp body PropAuthenticationData (AuthenticationData p) in
  let body := appendByteProp body PropRequestProblemInfo (RequestProblemInfo p) in
  let body := appendByteProp body PropRequestResponseInfo (RequestResponseInfo p) in
  foldl appendUserProperty body (UserProperties p).

(** The receiver may be [nil]. *)
Definition Encode (p : option Properties) : list Z :=
  match p with
  | None => [0x00]
  | Some p => let body := encode_body p in encodeVarInt (len body) ++ body
  end.

(** ** Decoding helpers *)

Definition malformed {A} (reason : string) : res A := Err (ErrMalformedPacket reason).

Definition readByte (data : list Z) (offset stop : Z) : res (Z * Z) :=
  if (stop <=? offset) || (len data <=? offset) then malformed "truncated byte property"
  else b ← index data offset; Ok (b, 1).

Definition readUint16 (data : list Z) (offset stop : Z) : res (Z * Z) :=
  if (stop <? offset + 2) || (len data <? offset + 2) then malformed "truncated uint16 property"
  else v ← slice data offset (offset + 2) ≫= Uint16; Ok (v, 2).

Definition readUint32 (data : list Z) (offset stop : Z) : res (Z * Z) :=
  if (stop <? offset + 4) || (len data <? offset + 4) then malformed "truncated uint32 property"
  else v ← slice data offset (offset + 4) ≫= Uint32; Ok (v, 4).

Definition readPropBinaryData (data : list Z) (offset stop : Z) : res (list Z * Z) :=
  if (stop <? offset + 2) || (len data <? offset + 2) then malformed "truncated binary data length"
  else
    length ← slice data offset (offset + 2) ≫= Uint16;
    if (stop <? offset + 2 + length) || (len data <? offset + 2 + length)
    then malformed "truncated binary data"
    else x ← slice data (offset + 2) (offset + 2 + length); Ok (x, 2 + length).

Definition readPropString (data : list Z) (offset stop : Z) : res (string * Z) :=
  if (stop <? offset + 2) || (len data <? offset + 2) then malformed "truncated string property length"
  else
    length ← slice data offset (offset + 2) ≫= Uint16;
    if (stop <? offset + 2 + length) || (len data <? offset + 2 + length)
    then malformed "truncated string property"
    else x ← slice data (offset + 2) (offset + 2 + length); Ok (string_of x, 2 + length).

(** ** [DecodeProperties] *)

(** The [switch] on the property identifier: the new properties and the new offset. *)
Definition decode_prop (propID : Z) (data : list Z) (offset stop : Z) (p : Properties)
    : res (Properties * Z) :=
  if propID =? PropSessionExpiryInterval then
    '(v, n) ← readUint32 data offset stop; Ok (set_SessionExpiryInterval (Some v) p, offset + n)
  else if propID =? PropReceiveMaximum then
    '(v, n) ← readUint16 data offset stop; Ok (set_ReceiveMaximum (Some v) p, offset + n)
  else if propID =? PropMaximumQoS then
    '(v, n) ← readByte data offset stop; Ok (set_MaximumQoS (Some v) p, offset + n)
  else if propID =? PropRetainAvailable then
    '(v, n) ← readByte data offset stop; Ok (set_RetainAvailable (Some v) p, offset + n)
  else if propID =? PropMaximumPacketSize then
    '(v, n) ← readUint32 data offset stop; Ok (set_MaximumPacketSize (Some v) p, offset + n)
  else if propID =? PropAssignedClientIdentifier then
    '(v, n) ← readPropString data offset stop; Ok (set_AssignedClientIdentifier (Some v) p, offset + n)
  else if propID =? PropTopicAliasMaximum then
    '(v, n) ← readUint16 data offset stop; Ok (set_TopicAliasMaximum (Some v) p, offset + n)
  else if propID =? PropReasonString then
    '(v, n) ← readPropString data offset stop; Ok (set_ReasonString (Some v) p, offset + n)
  else if propID =? PropWildcardSubAvailable then
    '(v, n) ← readByte data offset stop; Ok (set_WildcardSubAvailable (Some v) p, offset + n)
  else if propID =? PropSubIdentifierAvailable then
    '(v, n) ← readByte data offset stop; Ok (set_SubIdentifierAvailable (Some v) p, offset + n)
  else if propID =? PropSharedSubAvailable then
    '(v, n) ← readByte data offset stop; Ok (set_SharedSubAvailable (Some v) p, offset + n)
  else if propID =? PropServerKeepAlive then
    '(v, n) ← readUint16 data offset stop; Ok (set_ServerKeepAlive (Some v) p, offset + n)
  else if propID =? PropServerReference then
    '(v, n) ← readPropString data offset stop; Ok (set_ServerReference (Some v) p, offset + n)
  else if propID =? PropResponseInformation then
    '(v, n) ← readPropString data offset stop; Ok (set_ResponseInformation (Some v) p, offset + n)
  else if propID =? PropPayloadFormatIndicator then
    '(v, n) ← readByte data offset stop; Ok (set_PayloadFormatIndicator (Some v) p, offset + n)
  else if propID =? PropMessageExpiryInterval then
    '(v, n) ← readUint32 data offset stop; Ok (set_MessageExpiryInterval (Some v) p, offset + n)
  else if propID =? PropTopicAlias then
    '(v, n) ← readUint16 data offset stop; Ok (set_TopicAlias (Some v) p, offset + n)
  else if propID =? PropResponseTopic then
    '(v, n) ← readPropString data offset stop; Ok (set_ResponseTopic (Some v) p, offset + n)
  else if propID =? PropCorrelationData then
    '(v, n) ← readPropBinaryData data offset stop; Ok (set_CorrelationData (Some v) p, offset + n)
  else if propID =? PropContentType then
    '(v, n) ← readPropString data offset stop; Ok (set_ContentType (Some v) p, offset + n)
  else if propID =? PropSubscriptionIdentifier then
    '(v, n) ← decodeVarInt data offset; Ok (set_SubscriptionIdentifier (Some (u32 v)) p, offset + n)
  else if propID =? PropWillDelayInterval then
    '(v, n) ← readUint32 data offset stop; Ok (set_WillDelayInterval (Some v) p, offset + n)
  else if propID =? PropAuthenticationMethod then
    '(v, n) ← readPropString data offset stop; Ok (set_AuthenticationMethod (Some v) p, offset + n)
  else if propID =? PropAuthenticationData then
    '(v, n) ← readPropBinaryData data offset stop; Ok (set_AuthenticationData (Some v) p, offset + n)
  else if propID =? PropRequestProblemInfo then
    '(v, n) ← readByte data offset stop; Ok (set_RequestProblemInfo (Some v) p, offset + n)
  else if propID =? PropRequestResponseInfo then
    '(v, n) ← readByte data offset stop; Ok (set_RequestResponseInfo (Some v) p, offset + n)
  else if propID =? PropUserProperty then
    '(key, n1) ← readPropString data offset stop;
    '(value, n2) ← readPropString data (offset + n1) stop;
    Ok (add_UserProperty (mkUser key value) p, offset + (n1 + n2))
  else malformed "unknown property identifier".

(** The [for offset < end] loop; [fuel] bounds the number of properties read. *)
Fixpoint decode_loop (fuel : nat) (data : list Z) (offset stop : Z) (p : Properties)
    : res Properties :=
  match fuel with
  | O => NoFuel
  | S fuel =>
      if offset <? stop then
        if len data <=? offset then malformed "truncated property"
        else
          propID ← index data offset;
          '(p, offset) ← decode_prop propID data (offset + 1) stop p;
          decode_loop fuel data offset stop p
      else Ok p
  end.

(** Every property takes at least its identifier byte, so one iteration per byte of the
    property section and one to leave the loop are enough. *)
Definition loop_fuel (offset stop : Z) : nat := S (Z.to_nat (stop - offset)).

Definition DecodeProperties (data : list Z) (propertyLength : Z) : res Properties :=
  if propertyLength =? 0 then Ok emptyProps
  else if len data <? propertyLength then malformed "property length exceeds available data"
  else decode_loop (loop_fuel 0 propertyLength) data 0 propertyLength emptyProps.

(** ** Value formats *)

Record wire (V : Type) := Wire {
  enc : V → list Z;
  rd : list Z → Z → Z → res (V * Z);
  wf : V → Prop;
  enc_bytes v : wf v → Forall byte_ok (enc v);
  rd_enc pre v post stop : wf v → len pre + len (enc v) ≤ stop →
    rd (pre ++ enc v ++ post) (len pre) stop = Ok (v, len (enc v));
  rd_safe data off stop : Forall byte_ok data → 0 ≤ off → safe (rd data off stop);
  rd_progress data off stop v n : Forall byte_ok data → 0 ≤ off → rd data off stop = Ok (v, n) → 0 ≤ n
}.
Arguments enc {V} w. Arguments rd {V} w. Arguments wf {V} w.
Arguments enc_bytes {V} w. Arguments rd_enc {V} w. Arguments rd_safe {V} w. Arguments rd_progress {V} w.

Ltac reader_bounds :=
  cbn beta in *; lens; repeat match goal with
  | l : list Z |- _ => lazymatch goal with
      | H : 0 ≤ len l |- _ => fail
      | _ => pose proof (len_nonneg l) end
  end; ztests; cbn [orb].

Program Definition wByte : wire Z :=
  {| enc v := [v]; rd := readByte; wf := byte_ok |}.
Next Obligation. intros v Hv. by constructor. Qed.
Next Obligation. intros pre v post stop _ H. unfold readByte. reader_bounds. cbn [app]. rewrite index_at by done. done. Qed.
Next Obligation.
  intros data off stop Hd H. unfold readByte. repeat zcase; try done. simpl.
  by destruct (index_ok data off) as (b & -> & _); [lia..|].
Qed.
Next Obligation.
  intros data off stop v n _ _. unfold readByte. case_match; [done|]. intros. inv_ok. lia.
Qed.

Program Definition wU16 : wire Z :=
  {| enc := put16; rd := readUint16; wf := u16_ok |}.
Next Obligation. intros v Hv. apply put16_bytes. Qed.
Next Obligation.
  intros pre v post stop Hv H. unfold readUint16. reader_bounds.
  rewrite slice_at by (done || lens; lia). cbn [mbind res_bind]. by rewrite Uint16_put16.
Qed.
Next Obligation.
  intros data off stop Hd H. unfold readUint16. repeat zcase; try done. simpl.
  by destruct (Uint16_slice_safe data off) as (v & -> & _); [lia..|].
Qed.
Next Obligation.
  intros data off stop v n _ _. unfold readUint16. case_match; [done|]. intros. inv_ok. lia.
Qed.

Program Definition wU32 : wire Z :=
  {| enc := PutUint32; rd := readUint32; wf := u32_ok |}.
Next Obligation. intros v Hv. apply PutUint32_bytes. Qed.
Next Obligation.
  intros pre v post stop Hv H. unfold readUint32. reader_bounds.
  rewrite slice_at by (done || lens; lia). cbn [mbind res_bind]. by rewrite Uint32_PutUint32.
Qed.
Next Obligation.
  intros data off stop Hd H. unfold readUint32. repeat zcase; try done. simpl.
  by destruct (Uint32_slice_safe data off) as (v & -> & _); [lia..|].
Qed.
Next Obligation.
  intros data off stop v n _ _. unfold readUint32. case_match; [done|]. intros. inv_ok. lia.
Qed.

(** A length-prefixed byte string: the common core of the two string readers. *)
Lemma read_prefixed pre x post : u16_ok (len x) →
  (slice (pre ++ put16 (len x) ++ x ++ post) (len pre) (len pre + 2) ≫= Uint16) = Ok (len x) ∧
  slice (pre ++ put16 (len x) ++ x ++ post) (len pre + 2) (len pre + 2 + len x) = Ok x.
Proof.
  intros Hx. split.
  - rewrite slice_at by (done || lens; lia). cbn [mbind res_bind]. by apply Uint16_put16.
  - rewrite app_assoc. apply slice_at; lens; lia.
Qed.

Lemma readPropBinaryData_safe data off stop :
  Forall byte_ok data → 0 ≤ off → safe (readPropBinaryData data off stop).
Proof.
  intros Hd H. unfold readPropBinaryData. repeat zcase; try done. cbn [orb].
  destruct (Uint16_slice_safe data off) as (v & -> & Hv); [lia..|]. cbn [mbind res_bind].
  specialize (Hv Hd). unfold u16_ok in Hv. repeat zcase; try done. cbn [orb].
  by destruct (slice_ok data (off + 2) (off + 2 + v)) as (x & -> & _); [lia..|].
Qed.

Lemma readPropString_binary data off stop :
  readPropString data off stop =
  match readPropBinaryData data off stop with
  | Ok (x, n) => Ok (string_of x, n)
  | Err (ErrMalformedPacket r) =>
      malformed (if String.eqb r "truncated binary data length" then
                   "truncated string property length" else "truncated string property")
  | Err e => Err e | Panic => Panic | NoFuel => NoFuel
  end.
Proof.
  unfold readPropString, readPropBinaryData. case_match; [done|].
  destruct (slice data off (off + 2) ≫= Uint16) as [v|e| |] eqn:E; cbn [mbind res_bind].
  - case_match; [done|]. unfold slice. by case_match.
  - unfold slice in E. case_match; [|done]. cbn in E. unfold Uint16 in E. by repeat case_match.
  - done.
  - done.
Qed.

Program Definition wBin : wire (list Z) :=
  {| enc v := put16 (len v) ++ v; rd := readPropBinaryData;
     wf v := u16_ok (len v) ∧ Forall byte_ok v |}.
Next Obligation. intros v [_ Hv]. apply Forall_app. split; [apply put16_bytes|done]. Qed.
Next Obligation.
  intros pre v post stop [Hv _] H. unfold readPropBinaryData. rewrite <- !app_assoc.
  destruct (read_prefixed pre v post Hv) as [E1 E2]. reader_bounds.
  rewrite E1. cbn [mbind res_bind]. ztests. cbn [orb]. by rewrite E2.
Qed.
Next Obligation. intros. by apply readPropBinaryData_safe. Qed.
Next Obligation.
  intros data off stop v n Hd H. unfold readPropBinaryData. repeat zcase; try done. cbn [orb].
  destruct (Uint16_slice_safe data off) as (x & -> & Hx); [lia..|]. cbn [mbind res_bind].
  specialize (Hx Hd). unfold u16_ok in Hx. repeat zcase; try done. cbn [orb].
  intros. inv_ok. lia.
Qed.

Program Definition wStr : wire string :=
  {| enc s := put16 (slen s) ++ bytes_of s; rd := readPropString; wf s := u16_ok (slen s) |}.
Next Obligation. intros s _. apply Forall_app. split; [apply put16_bytes|apply bytes_of_ok]. Qed.
Next Obligation.
  intros pre s post stop Hs H. cbn beta in *. rewrite <- len_bytes_of in Hs, H |- *.
  rewrite readPropString_binary.
  pose proof (rd_enc wBin pre (bytes_of s) post stop (conj Hs (bytes_of_ok s)) H) as E. cbn [rd enc wBin] in E.
  rewrite E. by rewrite string_of_bytes_of.
Qed.
Next Obligation.
  intros data off stop Hd H. rewrite readPropString_binary.
  destruct (readPropBinaryData_safe data off stop Hd H).
  destruct (readPropBinaryData data off stop) as [[]|[]| |]; done.
Qed.
Next Obligation.
  intros data off stop v n Hd H. rewrite readPropString_binary.
  destruct (readPropBinaryData data off stop) as [[x k]|[]| |] eqn:E; try done.
  intros [= _ <-]. by eapply (rd_progress wBin).
Qed.

Program Definition wVar : wire Z :=
  {| enc := encodeVarInt; rd data off _ := '(v, n) ← decodeVarInt data off; Ok (u32 v, n);
     wf v := 0 ≤ v ≤ MaxRemainingLength |}.
Next Obligation. intros v Hv. apply encodeVarInt_bytes. cbn beta in Hv. lia. Qed.
Next Obligation.
  intros pre v post stop Hv H. cbn beta in *. rewrite decodeVarInt_encode by done. cbn [mbind res_bind].
  unfold u32, MaxRemainingLength in *. by rewrite Z.mod_small by lia.
Qed.
Next Obligation.
  intros data off stop _ H. cbn beta in *. apply safe_bind; [by apply decodeVarInt_safe|]. by intros [].
Qed.
Next Obligation.
  intros data off stop v n _ H. cbn beta in *. intros. inv_ok.
  match goal with H : decodeVarInt _ _ = _ |- _ => apply decodeVarInt_Ok in H; lia end.
Qed.

(** ** Segments: one encoded property and its effect on the decoder's state *)

Definition seg {V} (w : wire V) (id : Z) (v : option V) : list Z :=
  match v with None => [] | Some x => id :: enc w x end.

Definition opt_wf {V} (w : wire V) (v : option V) : Prop :=
  match v with None => True | Some x => wf w x end.

Definition upd {V} (set : option V → Properties → Properties) (v : option V) (p : Properties)
    : Properties := match v with None => p | Some x => set (Some x) p end.

Lemma upd_eq {V} (set : option V → Properties → Properties) v p :
  set None p = p → upd set v p = set v p.
Proof. by destruct v. Qed.

Lemma appendByteProp_seg buf id v : appendByteProp buf id v = buf ++ seg wByte id v.
Proof. destruct v; simpl; [done|]. by rewrite app_nil_r. Qed.
Lemma appendUint16Prop_seg buf id v : appendUint16Prop buf id v = buf ++ seg wU16 id v.
Proof. destruct v; simpl; [by rewrite <- app_assoc|]. by rewrite app_nil_r. Qed.
Lemma appendUint32Prop_seg buf id v : appendUint32Prop buf id v = buf ++ seg wU32 id v.
Proof. destruct v; simpl; [by rewrite <- app_assoc|]. by rewrite app_nil_r. Qed.
Lemma appendUTF8_enc buf s : appendUTF8 buf s = buf ++ enc wStr s.
Proof. unfold appendUTF8. simpl. by rewrite <- app_assoc. Qed.
Lemma appendStringProp_seg buf id v : appendStringProp buf id v = buf ++ seg wStr id v.
Proof.
  destruct v; simpl; [|by rewrite app_nil_r]. rewrite appendUTF8_enc. by rewrite <- app_assoc.
Qed.
Lemma appendBinaryProp_seg buf id v : appendBinaryProp buf id v = buf ++ seg wBin id v.
Proof. destruct v; simpl; [by rewrite <- !app_assoc|]. by rewrite app_nil_r. Qed.
Lemma appendVarInt_seg buf id v :
  match v with Some x => (buf ++ [id]) ++ encodeVarInt x | None => buf end = buf ++ seg wVar id v.
Proof. destruct v; simpl; [by rewrite <- app_assoc|]. by rewrite app_nil_r. Qed.

(** ** The decoding loop *)

(** Every branch of the [switch] reads one value and assigns one field, except the user
    property, which reads two strings, and the default, which is an error. *)
Inductive prop_branch (data : list Z) (off stop : Z) (p : Properties)
    : res (Properties * Z) → Prop :=
  | branch_field {V} (w : wire V) (set : option V → Properties → Properties) :
      prop_branch data off stop p ('(x, n) ← rd w data off stop; Ok (set (Some x) p, off + n))
  | branch_user :
      prop_branch data off stop p
        ('(key, n1) ← readPropString data off stop;
         '(value, n2) ← readPropString data (off + n1) stop;
         Ok (add_UserProperty (mkUser key value) p, off + (n1 + n2)))
  | branch_unknown : prop_branch data off stop p (malformed "unknown property identifier").

Lemma branch_varint data off stop p :
  prop_branch data off stop p
    ('(v, n) ← decodeVarInt data off; Ok (set_SubscriptionIdentifier (Some (u32 v)) p, off + n)).
Proof.
  pose proof (branch_field data off stop p wVar set_SubscriptionIdentifier) as H.
  cbn [rd wVar] in H. by destruct (decodeVarInt data off) as [[]| | |].
Qed.

Lemma decode_prop_branch id data off stop p : prop_branch data off stop p (decode_prop id data off stop p).
Proof.
  unfold decode_prop.
  repeat (destruct (id =? _); [first
    [ exact (branch_field _ _ _ _ wU32 _) | exact (branch_field _ _ _ _ wU16 _)
    | exact (branch_field _ _ _ _ wByte _) | exact (branch_field _ _ _ _ wStr _)
    | exact (branch_field _ _ _ _ wBin _) | apply branch_varint | apply branch_user ]|]).
  apply branch_unknown.
Qed.

Lemma decode_prop_progress id data off stop p p' off' :
  Forall byte_ok data → 0 ≤ off → decode_prop id data off stop p = Ok (p', off') → off ≤ off'.
Proof.
  intros Hd Ho. destruct (decode_prop_branch id data off stop p); intros; inv_ok.
  - match goal with H : rd _ _ _ _ = _ |- _ => apply rd_progress in H; [lia|done..] end.
  - match goal with H1 : readPropString _ off _ = _, H2 : readPropString _ (_ + _) _ = _ |- _ =>
      apply (rd_progress wStr) in H1; [|done..]; apply (rd_progress wStr) in H2; [lia|done|lia] end.
Qed.

Lemma decode_prop_safe id data off stop p :
  Forall byte_ok data → 0 ≤ off → safe (decode_prop id data off stop p).
Proof.
  intros Hd Ho. destruct (decode_prop_branch id data off stop p); [| |done].
  - apply safe_bind; [by apply rd_safe|]. by intros [].
  - apply safe_bind; [by apply (rd_safe wStr)|]. intros [k n1] H.
    apply (rd_progress wStr) in H; [|done..].
    apply safe_bind; [apply (rd_safe wStr); [done|lia]|]. by intros [].
Qed.

Lemma decode_loop_fuel fuel1 fuel2 data off stop p :
  Forall byte_ok data → 0 ≤ off →
  stop - off < Z.of_nat fuel1 → stop - off < Z.of_nat fuel2 → (0 < fuel1)%nat → (0 < fuel2)%nat →
  decode_loop fuel1 data off stop p = decode_loop fuel2 data off stop p.
Proof.
  intros Hd. revert fuel2 off p. induction fuel1 as [|f1 IH]; intros [|f2] off p Ho H1 H2 ??; try lia.
  cbn [decode_loop]. destruct (Z.ltb_spec off stop); [|done].
  destruct (Z.leb_spec (len data) off); [done|].
  destruct (index_ok data off) as (id & -> & _); [lia..|]. cbn [mbind res_bind].
  destruct (decode_prop id data (off + 1) stop p) as [[p' off']| | |] eqn:E; try done.
  cbn [mbind res_bind]. apply decode_prop_progress in E; [|done|lia]. apply IH; lia.
Qed.

Lemma decode_loop_safe fuel data off stop p :
  Forall byte_ok data → 0 ≤ off → stop - off < Z.of_nat fuel → (0 < fuel)%nat →
  safe (decode_loop fuel data off stop p).
Proof.
  intros Hd. revert off p. induction fuel as [|f IH]; intros off p Ho H1 ?; [lia|].
  cbn [decode_loop]. destruct (Z.ltb_spec off stop); [|done].
  destruct (Z.leb_spec (len data) off); [done|].
  destruct (index_ok data off) as (id & -> & _); [lia..|]. cbn [mbind res_bind].
  apply safe_bind; [apply decode_prop_safe; [done|lia]|]. intros [p' off'] E.
  apply decode_prop_progress in E; [|done|lia]. apply IH; lia.
Qed.

(** The loop with its canonical fuel. *)
Definition run (data : list Z) (off stop : Z) (p : Properties) : res Properties :=
  decode_loop (loop_fuel off stop) data off stop p.

Lemma run_done data stop p : run data stop stop p = Ok p.
Proof. unfold run, loop_fuel. rewrite Z.sub_diag. simpl. by rewrite Z.ltb_irrefl. Qed.

Lemma run_step data off stop p id p' off' :
  Forall byte_ok data → 0 ≤ off < stop → off < len data → index data off = Ok id →
  decode_prop id data (off + 1) stop p = Ok (p', off') →
  run data off stop p = run data off' stop p'.
Proof.
  intros Hd Ho Hl Hi E. unfold run at 1, loop_fuel. cbn [decode_loop]. ztests.
  rewrite Hi. cbn [mbind res_bind]. rewrite E. cbn [mbind res_bind].
  apply decode_prop_progress in E; [|done|lia]. unfold run, loop_fuel.
  apply decode_loop_fuel; try done; lia.
Qed.

(** A field: an encoded segment and the state update that decoding it performs. *)
Record field := mkField { f_seg : list Z; f_upd : Properties → Properties }.

Definition field_ok (f : field) : Prop :=
  Forall byte_ok (f_seg f) ∧
  ∀ pre post stop q, Forall byte_ok pre → Forall byte_ok post →
    len pre + len (f_seg f) ≤ stop → stop ≤ len (pre ++ f_seg f ++ post) →
    run (pre ++ f_seg f ++ post) (len pre) stop q =
    run (pre ++ f_seg f ++ post) (len pre + len (f_seg f)) stop (f_upd f q).

Lemma field_ok_seg {V} (w : wire V) id (set : option V → Properties → Properties) v :
  (∀ data off stop p, decode_prop id data off stop p =
     '(x, n) ← rd w data off stop; Ok (set (Some x) p, off + n)) →
  byte_ok id → opt_wf w v → field_ok (mkField (seg w id v) (upd set v)).
Proof.
  intros Hdec Hid Hwf. assert (Forall byte_ok (seg w id v)) as Hseg.
  { destruct v; simpl in *; [|constructor]. constructor; [done|]. by apply enc_bytes. }
  split; [done|]. intros pre post stop q Hpre Hpost H1 H2. cbn [f_seg f_upd] in *.
  destruct v as [x|]; simpl in *; [|by rewrite Z.add_0_r].
  pose proof (len_nonneg pre). pose proof (len_nonneg (enc w x)). lens.
  inversion Hseg; subst. pose proof (len_nonneg post).
  assert (pre ++ id :: enc w x ++ post = (pre ++ [id]) ++ enc w x ++ post) as E.
  { by rewrite <- app_assoc. }
  eapply (run_step _ _ _ _ id); [| lia | lens; lia | by apply index_at | ].
  - rewrite Forall_app, Forall_cons, Forall_app. done.
  - rewrite Hdec, E. replace (len pre + 1) with (len (pre ++ [id])) by (lens; lia).
    rewrite (rd_enc w) by (done || lens; lia). cbn [mbind res_bind]. do 2 f_equal. lens. lia.
Qed.

Definition user_seg (u : UserProperty) : list Z :=
  PropUserProperty :: enc wStr (Key u) ++ enc wStr (Value u).

Definition user_ok (u : UserProperty) : Prop := wf wStr (Key u) ∧ wf wStr (Value u).

Lemma field_ok_user u : user_ok u → field_ok (mkField (user_seg u) (add_UserProperty u)).
Proof.
  destruct u as [k v]. unfold user_ok, user_seg. cbn [Key Value].
  intros [Hk Hv]. assert (Forall byte_ok (PropUserProperty :: enc wStr k ++ enc wStr v)) as Hseg.
  { constructor; [by unfold byte_ok, PropUserProperty|]. apply Forall_app; split; by apply enc_bytes. }
  split; [done|]. intros pre post stop q Hpre Hpost H1 H2.
  cbn [f_seg f_upd] in *. remember (enc wStr k) as ek eqn:Ek. remember (enc wStr v) as ev eqn:Ev.
  pose proof (len_nonneg pre). pose proof (len_nonneg ek). pose proof (len_nonneg ev). lens.
  pose proof (len_nonneg post). inversion Hseg; subst x l.
  eapply (run_step _ _ _ _ PropUserProperty); [|lia|lens; lia|by apply index_at|].
  - rewrite Forall_app. split; [done|]. by apply Forall_app.
  - change (decode_prop PropUserProperty ?d ?o ?s ?p) with
      ('(key, n1) ← readPropString d o s; '(value, n2) ← readPropString d (o + n1) s;
       Ok (add_UserProperty (mkUser key value) p, o + (n1 + n2))).
    subst ek ev.
    replace (pre ++ (PropUserProperty :: enc wStr k ++ enc wStr v) ++ post) with
      ((pre ++ [PropUserProperty]) ++ enc wStr k ++ enc wStr v ++ post)
      by (by rewrite <- !app_assoc; cbn [app]; rewrite <- !app_assoc).
    replace (len pre + 1) with (len (pre ++ [PropUserProperty])) by (lens; lia).
    pose proof (rd_enc wStr (pre ++ [PropUserProperty]) k (enc wStr v ++ post) stop Hk) as E1.
    cbn [rd wStr] in E1. rewrite E1 by (lens; lia). cbn [mbind res_bind].
    pose proof (rd_enc wStr ((pre ++ [PropUserProperty]) ++ enc wStr k) v post stop Hv) as E2.
    cbn [rd wStr] in E2. rewrite <- (app_assoc (pre ++ [_])) in E2.
    replace (len ((pre ++ [PropUserProperty]) ++ enc wStr k)) with
      (len (pre ++ [PropUserProperty]) + len (enc wStr k)) in E2 by (lens; lia).
    rewrite E2 by (lens; lia). cbn [mbind res_bind]. do 2 f_equal. lens. lia.
Qed.

Lemma fields_bytes fs : Forall field_ok fs → Forall byte_ok (fs ≫= f_seg).
Proof. induction 1 as [|f fs [Hb _] _ IH]; [constructor|]. by apply Forall_app. Qed.

Lemma fields_run fs : Forall field_ok fs →
  ∀ pre post stop q, Forall byte_ok pre → Forall byte_ok post →
    len pre + len (fs ≫= f_seg) ≤ stop → stop ≤ len (pre ++ (fs ≫= f_seg) ++ post) →
    run (pre ++ (fs ≫= f_seg) ++ post) (len pre) stop q =
    run (pre ++ (fs ≫= f_seg) ++ post) (len pre + len (fs ≫= f_seg)) stop
      (foldl (λ q f, f_upd f q) q fs).
Proof.
  induction 1 as [|f fs [Hb Hf] Hfs IH]; intros pre post stop q Hpre Hpost H1 H2.
  { simpl. by rewrite Z.add_0_r. }
  cbn [mbind list_bind foldl] in *. fold (fs ≫= f_seg) in *.
  pose proof (fields_bytes fs Hfs) as Hbs. lens. pose proof (len_nonneg (fs ≫= f_seg)).
  rewrite <- app_assoc.
  rewrite Hf; [|done| |lia|lens; lia].
  - rewrite app_assoc. replace (len pre + len (f_seg f)) with (len (pre ++ f_seg f)) by (lens; lia).
    rewrite IH; [| |done|lens; lia|lens; lia].
    + f_equal. lens. lia.
    + by apply Forall_app.
  - by apply Forall_app.
Qed.

(** The fields of a property set, in encoding order. *)
Definition fields (p : Properties) : list field :=
  [ mkField (seg wU32 PropSessionExpiryInterval (SessionExpiryInterval p)) (upd set_SessionExpiryInterval (SessionExpiryInterval p));
    mkField (seg wU16 PropReceiveMaximum (ReceiveMaximum p)) (upd set_ReceiveMaximum (ReceiveMaximum p));
    mkField (seg wByte PropMaximumQoS (MaximumQoS p)) (upd set_MaximumQoS (MaximumQoS p));
    mkField (seg wByte PropRetainAvailable (RetainAvailable p)) (upd set_RetainAvailable (RetainAvailable p));
    mkField (seg wU32 PropMaximumPacketSize (MaximumPacketSize p)) (upd set_MaximumPacketSize (MaximumPacketSize p));
    mkField (seg wStr PropAssignedClientIdentifier (AssignedClientIdentifier p)) (upd set_AssignedClientIdentifier (AssignedClientIdentifier p));
    mkField (seg wU16 PropTopicAliasMaximum (TopicAliasMaximum p)) (upd set_TopicAliasMaximum (TopicAliasMaximum p));
    mkField (seg wStr PropReasonString (ReasonString p)) (upd set_ReasonString (ReasonString p));
    mkField (seg wByte PropWildcardSubAvailable (WildcardSubAvailable p)) (upd set_WildcardSubAvailable (WildcardSubAvailable p));
    mkField (seg wByte PropSubIdentifierAvailable (SubIdentifierAvailable p)) (upd set_SubIdentifierAvailable (SubIdentifierAvailable p));
    mkField (seg wByte PropSharedSubAvailable (SharedSubAvailable p)) (upd set_SharedSubAvailable (SharedSubAvailable p));
    mkField (seg wU16 PropServerKeepAlive (ServerKeepAlive p)) (upd set_ServerKeepAlive (ServerKeepAlive p));
    mkField (seg wStr PropServerReference (ServerReference p)) (upd set_ServerReference (ServerReference p));
    mkField (seg wStr PropResponseInformation (ResponseInformation p)) (upd set_ResponseInformation (ResponseInformation p));
    mkField (seg wByte PropPayloadFormatIndicator (PayloadFormatIndicator p)) (upd set_PayloadFormatIndicator (PayloadFormatIndicator p));
    mkField (seg wU32 PropMessageExpiryInterval (MessageExpiryInterval p)) (upd set_MessageExpiryInterval (MessageExpiryInterval p));
    mkField (seg wU16 PropTopicAlias (TopicAlias p)) (upd set_TopicAlias (TopicAlias p));
    mkField (seg wStr PropResponseTopic (ResponseTopic p)) (upd set_ResponseTopic (ResponseTopic p));
    mkField (seg wBin PropCorrelationData (CorrelationData p)) (upd set_CorrelationData (CorrelationData p));
    mkField (seg wStr PropContentType (ContentType p)) (upd set_ContentType (ContentType p));
    mkField (seg wVar PropSubscriptionIdentifier (SubscriptionIdentifier p)) (upd set_SubscriptionIdentifier (SubscriptionIdentifier p));
    mkField (seg wU32 PropWillDelayInterval (WillDelayInterval p)) (upd set_WillDelayInterval (WillDelayInterval p));
    mkField (seg wStr PropAuthenticationMethod (AuthenticationMethod p)) (upd set_AuthenticationMethod (AuthenticationMethod p));
    mkField (seg wBin PropAuthenticationData (AuthenticationData p)) (upd set_AuthenticationData (AuthenticationData p));
    mkField (seg wByte PropRequestProblemInfo (RequestProblemInfo p)) (upd set_RequestProblemInfo (RequestProblemInfo p));
    mkField (seg wByte PropRequestResponseInfo (RequestResponseInfo p)) (upd set_RequestResponseInfo (RequestResponseInfo p)) ] ++
  ((λ u, mkField (user_seg u) (add_UserProperty u)) <$> UserProperties p).

(** Every value is in the range of its Go type and of its wire format. *)
Definition props_ok (p : Properties) : Prop :=
  opt_wf wU32 (SessionExpiryInterval p) ∧
  opt_wf wU16 (ReceiveMaximum p) ∧
  opt_wf wByte (MaximumQoS p) ∧
  opt_wf wByte (RetainAvailable p) ∧
  opt_wf wU32 (MaximumPacketSize p) ∧
  opt_wf wStr (AssignedClientIdentifier p) ∧
  opt_wf wU16 (TopicAliasMaximum p) ∧
  opt_wf wStr (ReasonString p) ∧
  opt_wf wByte (WildcardSubAvailable p) ∧
  opt_wf wByte (SubIdentifierAvailable p) ∧
  opt_wf wByte (SharedSubAvailable p) ∧
  opt_wf wU16 (ServerKeepAlive p) ∧
  opt_wf wStr (ServerReference p) ∧
  opt_wf wStr (ResponseInformation p) ∧
  opt_wf wByte (PayloadFormatIndicator p) ∧
  opt_wf wU32 (MessageExpiryInterval p) ∧
  opt_wf wU16 (TopicAlias p) ∧
  opt_wf wStr (ResponseTopic p) ∧
  opt_wf wBin (CorrelationData p) ∧
  opt_wf wStr (ContentType p) ∧
  opt_wf wVar (SubscriptionIdentifier p) ∧
  opt_wf wU32 (WillDelayInterval p) ∧
  opt_wf wStr (AuthenticationMethod p) ∧
  opt_wf wBin (AuthenticationData p) ∧
  opt_wf wByte (RequestProblemInfo p) ∧
  opt_wf wByte (RequestResponseInfo p) ∧
  Forall user_ok (UserProperties p).


Lemma foldl_cons {A B} (g : A → B → A) a b l : foldl g a (b :: l) = foldl g (g a b) l.
Proof. done. Qed.

Lemma users_bytes body us :
  foldl appendUserProperty body us =
  body ++ (((λ u, mkField (user_seg u) (add_UserProperty u)) <$> us) ≫= f_seg).
Proof.
  revert body. induction us as [|u us IH]; intros body; simpl; [by rewrite app_nil_r|].
  rewrite IH. unfold appendUserProperty, user_seg. rewrite !appendUTF8_enc.
  cbn [mbind list_bind f_seg]. by rewrite <- !app_assoc.
Qed.

Lemma encode_body_fields p : encode_body p = fields p ≫= f_seg.
Proof.
  unfold encode_body. rewrite users_bytes.
  rewrite !appendByteProp_seg, !appendUint16Prop_seg, !appendUint32Prop_seg, !appendStringProp_seg,
    !appendBinaryProp_seg, !appendVarInt_seg.
  unfold fields. rewrite bind_app.
  cbn [mbind list_bind f_seg app]. rewrite <- !app_assoc. done.
Qed.

Lemma foldl_users us : ∀ a1 a2 a3 a4 a5 a6 a7 a8 a9 a10 a11 a12 a13 a14 a15 a16 a17 a18 a19 a20 a21 a22 a23 a24 a25 a26 a27,
  foldl (λ q f, f_upd f q) (mkProps a1 a2 a3 a4 a5 a6 a7 a8 a9 a10 a11 a12 a13 a14 a15 a16 a17 a18 a19 a20 a21 a22 a23 a24 a25 a26 a27)
    ((λ u, mkField (user_seg u) (add_UserProperty u)) <$> us) =
  mkProps a1 a2 a3 a4 a5 a6 a7 a8 a9 a10 a11 a12 a13 a14 a15 a16 a17 a18 a19 a20 a21 a22 a23 a24 a25 a26 (a27 ++ us).
Proof.
  induction us as [|u us IH]; intros; simpl; [by rewrite app_nil_r|].
  rewrite IH. by rewrite <- app_assoc.
Qed.

Lemma fields_state p : foldl (λ q f, f_upd f q) emptyProps (fields p) = p.
Proof.
  unfold fields, emptyProps. rewrite foldl_app. destruct p.
  cbn [SessionExpiryInterval ReceiveMaximum MaximumQoS RetainAvailable MaximumPacketSize AssignedClientIdentifier TopicAliasMaximum ReasonString WildcardSubAvailable SubIdentifierAvailable SharedSubAvailable ServerKeepAlive ServerReference ResponseInformation PayloadFormatIndicator MessageExpiryInterval TopicAlias ResponseTopic CorrelationData ContentType SubscriptionIdentifier WillDelayInterval AuthenticationMethod AuthenticationData RequestProblemInfo RequestResponseInfo UserProperties].
  repeat (rewrite foldl_cons; cbn [f_upd]; rewrite upd_eq by reflexivity;
    cbv beta iota delta [set_SessionExpiryInterval set_ReceiveMaximum set_MaximumQoS set_RetainAvailable set_MaximumPacketSize set_AssignedClientIdentifier set_TopicAliasMaximum set_ReasonString set_WildcardSubAvailable set_SubIdentifierAvailable set_SharedSubAvailable set_ServerKeepAlive set_ServerReference set_ResponseInformation set_PayloadFormatIndicator set_MessageExpiryInterval set_TopicAlias set_ResponseTopic set_CorrelationData set_ContentType set_SubscriptionIdentifier set_WillDelayInterval set_AuthenticationMethod set_AuthenticationData set_RequestProblemInfo set_RequestResponseInfo]).
  cbn [foldl]. by rewrite foldl_users.
Qed.

Lemma fields_ok p : props_ok p → Forall field_ok (fields p).
Proof.
  unfold props_ok, fields. intros Hok.
  assert (Forall user_ok (UserProperties p)) as Hus by tauto.
  destruct_and! Hok. apply Forall_app. split.
  - repeat (apply Forall_cons; split; [first
      [ by apply field_ok_seg
      | apply field_ok_seg; [|done|done]; intros data off stop q; cbn [rd wVar];
        change (decode_prop PropSubscriptionIdentifier data off stop q) with
          ('(v, n) ← decodeVarInt data off;
           Ok (set_SubscriptionIdentifier (Some (u32 v)) q, off + n));
        by destruct (decodeVarInt data off) as [[]| | |] ]|]).
    constructor.
  - apply Forall_fmap. eapply Forall_impl; [exact Hus|]. intros u Hu. exact (field_ok_user u Hu).
Qed.

Lemma encode_body_bytes p : props_ok p → Forall byte_ok (encode_body p).
Proof. intros Hok. rewrite encode_body_fields. by apply fields_bytes, fields_ok. Qed.

Lemma DecodeProperties_body p post : props_ok p → Forall byte_ok post →
  DecodeProperties (encode_body p ++ post) (len (encode_body p)) = Ok p.
Proof.
  intros Hok Hpost. unfold DecodeProperties.
  assert (run (encode_body p ++ post) 0 (len (encode_body p)) emptyProps = Ok p) as Hrun.
  { pose proof (fields_run (fields p) (fields_ok p Hok)) as H.
    rewrite encode_body_fields.
    specialize (H [] post (len (fields p ≫= f_seg)) emptyProps).
    cbn [app] in H. change (len (@nil Z)) with 0 in H. rewrite Z.add_0_l in H.
    rewrite H; [|done|done|lia|lens; pose proof (len_nonneg post); lia].
    rewrite fields_state. apply run_done. }
  destruct (Z.eqb_spec (len (encode_body p)) 0) as [Hz|].
  - rewrite <- Hrun, Hz, run_done. done.
  - lens. pose proof (len_nonneg post). ztests. apply Hrun.
Qed.

Lemma DecodeProperties_safe data n : Forall byte_ok data → safe (DecodeProperties data n).
Proof.
  intros Hd. unfold DecodeProperties. case_match; [done|]. case_match; [done|].
  apply decode_loop_safe; unfold loop_fuel; try done; lia.
Qed.

(** ** A property section inside a packet *)

(** The sequence every packet decoder uses: the length prefix, then the section. *)
Definition read_properties (data : list Z) (offset : Z) : res (Properties * Z) :=
  '(propLen, n) ← decodeVarInt data offset;
  let offset := offset + n in
  rest ← slice data offset (len data);
  props ← DecodeProperties rest propLen;
  Ok (props, offset + propLen).

Lemma Encode_bytes p : from_option props_ok True p →
  from_option (λ p, len (encode_body p) ≤ MaxRemainingLength) True p → Forall byte_ok (Encode p).
Proof.
  intros Hok Hl. destruct p as [p|]; cbn [from_option Encode] in *; [|by constructor].
  apply Forall_app. split; [apply encodeVarInt_bytes, len_nonneg|by apply encode_body_bytes].
Qed.

Lemma read_properties_Encode p pre post : Forall byte_ok post →
  from_option props_ok True p →
  from_option (λ p, len (encode_body p) ≤ MaxRemainingLength) True p →
  read_properties (pre ++ Encode p ++ post) (len pre) =
  Ok (default emptyProps p, len pre + len (Encode p)).
Proof.
  intros Hpost Hok Hl. unfold read_properties.
  assert (Encode p = encodeVarInt (len (from_option encode_body [] p)) ++ from_option encode_body [] p)
    as -> by by destruct p.
  set (body := from_option encode_body [] p) in *.
  assert (0 ≤ len body ≤ MaxRemainingLength).
  { split; [apply len_nonneg|]. by destruct p. }
  rewrite <- app_assoc, decodeVarInt_encode by done. cbn [mbind res_bind].
  rewrite (app_assoc pre), slice_from by (lens; lia). cbn [mbind res_bind].
  assert (DecodeProperties (body ++ post) (len body) = Ok (default emptyProps p)) as ->.
  { destruct p as [p|]; [by apply DecodeProperties_body|done]. }
  cbn [mbind res_bind]. do 2 f_equal. lens. lia.
Qed.

Lemma read_properties_safe data offset : Forall byte_ok data → 0 ≤ offset →
  safe (read_properties data offset) ∧
  ∀ p off', read_properties data offset = Ok (p, off') → offset < off' ≤ len data.
Proof.
  intros Hd Ho. unfold read_properties.
  destruct (decodeVarInt_safe data offset Ho) as [S1 S2].
  destruct (decodeVarInt data offset) as [[x n]| | |] eqn:E; try done. cbn [mbind res_bind].
  apply decodeVarInt_Ok in E; [|done].
  destruct (slice_ok data (offset + n) (len data)) as (rest & -> & Hl & Heq); [lia..|].
  cbn [mbind res_bind]. assert (Forall byte_ok rest) as Hr.
  { rewrite Heq in Hd. by apply Forall_app in Hd as [_ [? _]%Forall_app]. }
  split; [apply safe_bind; [by apply DecodeProperties_safe|done]|].
  intros p off' H. inv_ok. unfold DecodeProperties in *.
  destruct (Z.eqb_spec x 0); [lia|]. destruct (Z.ltb_spec (len rest) x); [done|]. lia.
Qed.

(** ** Properties *)

(** C8: every MQTT 5.0 property set whose values are in the range of their types survives the
    wire: anywhere in a packet, decoding the length prefix and the section that [Encode] wrote
    gives back every field, and stops exactly at the end of the section; the [nil] receiver is
    read back as the empty set. *)
Theorem Properties_roundtrip (p : option Properties) (pre post : list Z) :
  Forall byte_ok post →
  from_option props_ok True p →
  from_option (λ p, len (encode_body p) ≤ MaxRemainingLength) True p →
  read_properties (pre ++ Encode p ++ post) (len pre) =
  Ok (default emptyProps p, len pre + len (Encode p)).
Proof. apply read_properties_Encode. Qed.

Definition sample_props : Properties :=
  add_UserProperty (mkUser "k" "v") (add_UserProperty (mkUser "k" "w")
    (set_SubscriptionIdentifier (Some 300) (set_ContentType (Some "json")
      (set_CorrelationData (Some [1; 2]) (set_ReceiveMaximum (Some 65535)
        (set_MaximumQoS (Some 1) (set_SessionExpiryInterval (Some 4294967295) emptyProps))))))).

Lemma sample_props_ok : props_ok sample_props.
Proof.
  unfold props_ok, user_ok, byte_ok, u16_ok, u32_ok, slen, len. simpl.
  unfold MaxRemainingLength. split_and!; try done; repeat constructor; simpl; done.
Qed.

Lemma Properties_roundtrip_witness :
  read_properties ([9; 9] ++ Encode (Some sample_props) ++ [7]) 2 =
  Ok (sample_props, 2 + len (Encode (Some sample_props))).
Proof.
  apply (Properties_roundtrip (Some sample_props) [9; 9] [7]).
  - constructor; [by unfold byte_ok|constructor].
  - apply sample_props_ok.
  - vm_compute. done.
Defined.

(** Decoding a property section of arbitrary bytes, whatever length it declares, neither
    reads out of range nor loops: it returns a property set or a malformed-packet error. *)
Theorem DecodeProperties_total (data : list Z) (propertyLength : Z) :
  Forall byte_ok data →
  (∃ p, DecodeProperties data propertyLength = Ok p) ∨
  (∃ e, DecodeProperties data propertyLength = Err e).
Proof.
  intros Hd. destruct (DecodeProperties_safe data propertyLength Hd) as [H1 H2].
  destruct (DecodeProperties data propertyLength); eauto; done.
Qed.

Lemma DecodeProperties_total_witness :
  (∃ p, DecodeProperties [0x21; 1] 2 = Ok p) ∨ (∃ e, DecodeProperties [0x21; 1] 2 = Err e).
Proof.
  apply DecodeProperties_total. repeat (constructor; [unfold byte_ok; lia|]). constructor.
Defined.

(** The subscription identifier is read without the bound of the property section: a
    section of one byte, the identifier alone, is accepted and its value is taken from the
    bytes that follow the section. *)
Theorem DecodeProperties_overreads (v : Z) (post : list Z) :
  0 ≤ v ≤ MaxRemainingLength →
  DecodeProperties (PropSubscriptionIdentifier :: encodeVarInt v ++ post) 1 =
  Ok (set_SubscriptionIdentifier (Some v) emptyProps).
Proof.
  intros Hv. unfold DecodeProperties. lens. pose proof (len_nonneg (encodeVarInt v)).
  pose proof (len_nonneg post). ztests.
  change (loop_fuel 0 1) with 2%nat. cbn [decode_loop]. lens. ztests.
  rewrite index_0. cbn [mbind res_bind].
  change (decode_prop PropSubscriptionIdentifier ?d ?o ?s ?p) with
    ('(v, n) ← decodeVarInt d o; Ok (set_SubscriptionIdentifier (Some (u32 v)) p, o + n)).
  pose proof (decodeVarInt_encode [PropSubscriptionIdentifier] v post Hv) as E.
  cbn [app] in E. change (len [PropSubscriptionIdentifier]) with (0 + 1) in E. rewrite E.
  cbn [mbind res_bind]. pose proof (encodeVarInt_len 4 v) as Hl.
  change (128 ^ Z.of_nat 4) with 268435456 in Hl. unfold MaxRemainingLength in *. ztests.
  unfold u32. by rewrite Z.mod_small by lia.
Qed.

Lemma DecodeProperties_overreads_witness :
  DecodeProperties [PropSubscriptionIdentifier; 5; 104; 105] 1 =
  Ok (set_SubscriptionIdentifier (Some 5) emptyProps).
Proof.
  exact (DecodeProperties_overreads 5 [104; 105] ltac:(unfold MaxRemainingLength; lia)).
Defined.

End Props.
