(* ===== verification/Packets.v ===== *)
(** * Control packets

    Model of the packet codecs of [internal/codec]: [publish.go] (PUBLISH and the four
    acknowledgements), [connect.go], [subscribe.go], [unsubscribe.go] and [disconnect.go].
    A decoder takes the bytes after the fixed header, as in the code; an encoder produces the
    whole packet.  The broker never encodes CONNECT, SUBSCRIBE and UNSUBSCRIBE, so their wire
    images are written here as specifications and the decoders are proved complete for them. *)
From S2P Require Import Prelude Frame Props.
Import Frame Props.

Module Packets.

(** ** Strings and binary data (connect.go) *)

Definition readBinaryData (data : list Z) (offset : Z) : res (list Z * Z) :=
  if len data <? offset + 2 then malformed "insufficient data for binary data length"
  else
    length ← slice data offset (offset + 2) ≫= Uint16;
    if len data <? offset + 2 + length then malformed "insufficient data for binary data"
    else x ← slice data (offset + 2) (offset + 2 + length); Ok (x, 2 + length).

Definition readUTF8String (data : list Z) (offset : Z) : res (string * Z) :=
  if len data <? offset + 2 then malformed "insufficient data for UTF-8 string length"
  else
    length ← slice data offset (offset + 2) ≫= Uint16;
    if len data <? offset + 2 + length then malformed "insufficient data for UTF-8 string"
    else x ← slice data (offset + 2) (offset + 2 + length); Ok (string_of x, 2 + length).

(** ** PUBLISH *)

Record PublishPacket := {
  pub_Topic : string;
  pub_PacketID : Z;
  pub_QoS : Z;
  pub_Dup : bool;
  pub_Retain : bool;
  pub_Payload : list Z;
  pub_Properties : option Properties;
  pub_ProtocolVersion : Z
}.

Definition DecodePublishPacket (data : list Z) (qos protocolVersion : Z) : res PublishPacket :=
  '(topic, offset) ← readUTF8String data 0;
  '(packetID, offset) ←
    (if 0 <? qos then
       if len data <? offset + 2 then malformed "missing packet ID in PUBLISH"
       else v ← slice data offset (offset + 2) ≫= Uint16; Ok (v, offset + 2)
     else Ok (0, offset));
  '(props, offset) ←
    (if protocolVersion =? 5 then
       '(p, o) ← read_properties data offset; Ok (Some p, o)
     else Ok (None, offset));
  payload ← (if offset <? len data then slice data offset (len data) else Ok []);
  Ok {| pub_Topic := topic; pub_PacketID := packetID; pub_QoS := qos; pub_Dup := false;
        pub_Retain := false; pub_Payload := payload; pub_Properties := props;
        pub_ProtocolVersion := protocolVersion |}.

Definition publish_header (p : PublishPacket) : FixedHeader :=
  let topicLen := 2 + slen (pub_Topic p) in
  let remaining := topicLen + len (pub_Payload p) in
  let remaining := if 0 <? pub_QoS p then remaining + 2 else remaining in
  let remaining := if pub_ProtocolVersion p =? 5
                   then remaining + len (Props.Encode (pub_Properties p)) else remaining in
  {| PacketType := PUBLISH; Dup := pub_Dup p; QoS := pub_QoS p; Retain := pub_Retain p;
     RemainingLength := remaining |}.

Definition publish_body (p : PublishPacket) : list Z :=
  put16 (slen (pub_Topic p)) ++ bytes_of (pub_Topic p) ++
  (if 0 <? pub_QoS p then put16 (pub_PacketID p) else []) ++
  (if pub_ProtocolVersion p =? 5 then Props.Encode (pub_Properties p) else []) ++
  pub_Payload p.

Definition PublishPacket_Encode (p : PublishPacket) : list Z :=
  Frame.Encode (publish_header p) ++ publish_body p.

(** ** PUBACK, PUBREC, PUBREL, PUBCOMP *)

(** The four structs have the same fields and the same code, up to the packet type, the
    QoS bits of the header and the name in the error. *)
Record AckPacket := {
  ack_PacketID : Z;
  ack_ReasonCode : Z;
  ack_Properties : option Properties;
  ack_ProtocolVersion : Z
}.

Definition ack_long (p : AckPacket) : bool :=
  (ack_ProtocolVersion p =? 5) &&
  (negb (ack_ReasonCode p =? 0x00) || bool_decide (is_Some (ack_Properties p))).

Definition ack_encode (ptype qos : Z) (p : AckPacket) : list Z :=
  if ack_long p then
    let propsData := Props.Encode (ack_Properties p) in
    let remaining := 2 + 1 + len propsData in
    let fh := {| PacketType := ptype; Dup := false; QoS := qos; Retain := false;
                 RemainingLength := remaining |} in
    Frame.Encode fh ++ put16 (ack_PacketID p) ++ [ack_ReasonCode p] ++ propsData
  else
    let fh := {| PacketType := ptype; Dup := false; QoS := qos; Retain := false;
                 RemainingLength := 2 |} in
    Frame.Encode fh ++ put16 (ack_PacketID p).

Definition ack_decode (too_short : string) (data : list Z) (protocolVersion : Z) : res AckPacket :=
  if len data <? 2 then malformed too_short
  else
    packetID ← slice data 0 2 ≫= Uint16;
    let offset := 2 in
    if (protocolVersion =? 5) && (offset <? len data) then
      rc ← index data offset;
      let offset := offset + 1 in
      if offset <? len data then
        '(props, _) ← read_properties data offset;
        Ok {| ack_PacketID := packetID; ack_ReasonCode := rc; ack_Properties := Some props;
              ack_ProtocolVersion := protocolVersion |}
      else Ok {| ack_PacketID := packetID; ack_ReasonCode := rc; ack_Properties := None;
                 ack_ProtocolVersion := protocolVersion |}
    else Ok {| ack_PacketID := packetID; ack_ReasonCode := 0; ack_Properties := None;
               ack_ProtocolVersion := protocolVersion |}.

Definition PubackPacket_Encode : AckPacket → list Z := ack_encode PUBACK 0.
Definition DecodePubackPacket : list Z → Z → res AckPacket := ack_decode "PUBACK packet too short".
Definition PubrecPacket_Encode : AckPacket → list Z := ack_encode PUBREC 0.
Definition DecodePubrecPacket : list Z → Z → res AckPacket := ack_decode "PUBREC packet too short".
Definition PubrelPacket_Encode : AckPacket → list Z := ack_encode PUBREL 1.
Definition DecodePubrelPacket : list Z → Z → res AckPacket := ack_decode "PUBREL packet too short".
Definition PubcompPacket_Encode : AckPacket → list Z := ack_encode PUBCOMP 0.
Definition DecodePubcompPacket : list Z → Z → res AckPacket := ack_decode "PUBCOMP packet too short".

(** ** CONNECT and CONNACK *)

Definition ConnackAccepted : Z := 0x00.
Definition ConnackUnacceptableProtocol : Z := 0x01.
Definition ConnackIdentifierRejected : Z := 0x02.
Definition ConnackServerUnavailable : Z := 0x03.
Definition ConnackBadUsernameOrPassword : Z := 0x04.
Definition ConnackNotAuthorized : Z := 0x05.

Record ConnectPacket := {
  con_ProtocolName : string;
  con_ProtocolLevel : Z;
  con_CleanSession : bool;
  con_KeepAlive : Z;
  con_ClientID : string;
  con_WillFlag : bool;
  con_WillQoS : Z;
  con_WillRetain : bool;
  con_WillTopic : string;
  con_WillPayload : list Z;
  con_UsernameFlag : bool;
  con_PasswordFlag : bool;
  con_Username : string;
  con_Password : list Z;
  con_Properties : option Properties;
  con_WillProperties : option Properties
}.

(** A property section whose two errors are wrapped with their context. *)
Definition read_properties_ctx (c1 c2 : string) (data : list Z) (offset : Z)
    : res (Properties * Z) :=
  '(propLen, n) ← wrap_err c1 (decodeVarInt data offset);
  let offset := offset + n in
  rest ← slice data offset (len data);
  props ← wrap_err c2 (DecodeProperties rest propLen);
  Ok (props, offset + propLen).

Definition bit_set (flags mask : Z) : bool := negb (Z.land flags mask =? 0).

Definition DecodeConnectPacket (data : list Z) : res ConnectPacket :=
  if len data <? 10 then malformed "CONNECT packet too short"
  else
    '(name, offset) ← wrap_err "reading protocol name" (readUTF8String data 0);
    if len data <=? offset then malformed "missing protocol level" else
    level ← index data offset;
    let offset := offset + 1 in
    if negb (level =? 4) && negb (level =? 5)
    then malformed ("unsupported protocol level " +:+ pretty level) else
    if len data <=? offset then malformed "missing connect flags" else
    flags ← index data offset;
    let offset := offset + 1 in
    if len data <? offset + 2 then malformed "missing keep alive" else
    keepAlive ← slice data offset (offset + 2) ≫= Uint16;
    let offset := offset + 2 in
    '(props, offset) ←
      (if level =? 5 then
         '(p, o) ← read_properties_ctx "reading connect properties length"
                     "decoding connect properties" data offset;
         Ok (Some p, o)
       else Ok (None, offset));
    '(clientID, n) ← wrap_err "reading client ID" (readUTF8String data offset);
    let offset := offset + n in
    '(willProps, willTopic, willPayload, offset) ←
      (if bit_set flags 0x04 then
         '(wp, o) ←
           (if level =? 5 then
              '(p, o) ← read_properties_ctx "reading will properties length"
                          "decoding will properties" data offset;
              Ok (Some p, o)
            else Ok (None, offset));
         '(topic, n) ← wrap_err "reading will topic" (readUTF8String data o);
         '(payload, n2) ← wrap_err "reading will payload" (readBinaryData data (o + n));
         Ok (wp, topic, payload, o + n + n2)
       else Ok (None, "", [], offset));
    '(username, offset) ←
      (if bit_set flags 0x80 then
         '(u, n) ← wrap_err "reading username" (readUTF8String data offset); Ok (u, offset + n)
       else Ok ("", offset));
    password ←
      (if bit_set flags 0x40 then
         '(pw, _) ← wrap_err "reading password" (readBinaryData data offset); Ok pw
       else Ok []);
    Ok {| con_ProtocolName := name; con_ProtocolLevel := level;
          con_CleanSession := bit_set flags 0x02; con_KeepAlive := keepAlive;
          con_ClientID := clientID; con_WillFlag := bit_set flags 0x04;
          con_WillQoS := Z.land (Z.shiftr flags 3) 0x03; con_WillRetain := bit_set flags 0x20;
          con_WillTopic := willTopic; con_WillPayload := willPayload;
          con_UsernameFlag := bit_set flags 0x80; con_PasswordFlag := bit_set flags 0x40;
          con_Username := username; con_Password := password;
          con_Properties := props; con_WillProperties := willProps |}.

Record ConnackPacket := {
  cak_SessionPresent : bool;
  cak_ReturnCode : Z;
  cak_ReasonCode : Z;
  cak_Properties : option Properties;
  cak_ProtocolVersion : Z
}.

Definition ConnackPacket_Encode (p : ConnackPacket) : list Z :=
  let sp := if cak_SessionPresent p then 0x01 else 0 in
  if cak_ProtocolVersion p =? 5 then
    let propsData := Props.Encode (cak_Properties p) in
    let remaining := 2 + len propsData in
    Frame.Encode {| PacketType := CONNACK; Dup := false; QoS := 0; Retain := false;
                    RemainingLength := remaining |} ++
    [sp; cak_ReasonCode p] ++ propsData
  else
    Frame.Encode {| PacketType := CONNACK; Dup := false; QoS := 0; Retain := false;
                    RemainingLength := 2 |} ++
    [sp; cak_ReturnCode p].

(** ** SUBSCRIBE, SUBACK, UNSUBSCRIBE, UNSUBACK *)

Record Subscription := mkSub { TopicFilter : string; sub_QoS : Z }.

Record SubscribePacket := {
  sub_PacketID : Z;
  sub_Subscriptions : list Subscription;
  sub_Properties : option Properties
}.

(** The [for offset < len(data)] loop, with the subscriptions appended so far. *)
Fixpoint subscribe_loop (fuel : nat) (data : list Z) (offset : Z) (acc : list Subscription)
    : res (list Subscription) :=
  match fuel with
  | O => NoFuel
  | S fuel =>
      if offset <? len data then
        '(topicFilter, n) ← readUTF8String data offset;
        let offset := offset + n in
        if len data <=? offset then malformed "missing QoS byte in SUBSCRIBE"
        else
          qos ← index data offset;
          subscribe_loop fuel data (offset + 1) (acc ++ [mkSub topicFilter qos])
      else Ok acc
  end.

(** Every iteration of the two loops consumes at least one byte. *)
Definition filters_fuel (data : list Z) : nat := S (length data).

Definition DecodeSubscribePacket (data : list Z) (protocolVersion : Z) : res SubscribePacket :=
  if len data <? 5 then malformed "SUBSCRIBE packet too short"
  else
    packetID ← slice data 0 2 ≫= Uint16;
    '(props, offset) ←
      (if protocolVersion =? 5 then '(p, o) ← read_properties data 2; Ok (Some p, o)
       else Ok (None, 2));
    subs ← subscribe_loop (filters_fuel data) data offset [];
    if (length subs =? 0)%nat
    then malformed "SUBSCRIBE must contain at least one topic filter"
    else Ok {| sub_PacketID := packetID; sub_Subscriptions := subs; sub_Properties := props |}.

Record SubackPacket := {
  sak_PacketID : Z;
  sak_ReturnCodes : list Z;
  sak_Properties : option Properties;
  sak_ProtocolVersion : Z
}.

Definition SubackPacket_Encode (p : SubackPacket) : list Z :=
  if sak_ProtocolVersion p =? 5 then
    let propsData := Props.Encode (sak_Properties p) in
    let remaining := 2 + len propsData + len (sak_ReturnCodes p) in
    Frame.Encode {| PacketType := SUBACK; Dup := false; QoS := 0; Retain := false;
                    RemainingLength := remaining |} ++
    put16 (sak_PacketID p) ++ propsData ++ sak_ReturnCodes p
  else
    let remaining := 2 + len (sak_ReturnCodes p) in
    Frame.Encode {| PacketType := SUBACK; Dup := false; QoS := 0; Retain := false;
                    RemainingLength := remaining |} ++
    put16 (sak_PacketID p) ++ sak_ReturnCodes p.

Record UnsubscribePacket := {
  uns_PacketID : Z;
  uns_TopicFilters : list string;
  uns_Properties : option Properties
}.

Fixpoint unsubscribe_loop (fuel : nat) (data : list Z) (offset : Z) (acc : list string)
    : res (list string) :=
  match fuel with
  | O => NoFuel
  | S fuel =>
      if offset <? len data then
        '(topicFilter, n) ← readUTF8String data offset;
        unsubscribe_loop fuel data (offset + n) (acc ++ [topicFilter])
      else Ok acc
  end.

Definition DecodeUnsubscribePacket (data : list Z) (protocolVersion : Z) : res UnsubscribePacket :=
  if len data <? 4 then malformed "UNSUBSCRIBE packet too short"
  else
    packetID ← slice data 0 2 ≫= Uint16;
    '(props, offset) ←
      (if protocolVersion =? 5 then '(p, o) ← read_properties data 2; Ok (Some p, o)
       else Ok (None, 2));
    filters ← unsubscribe_loop (filters_fuel data) data offset [];
    if (length filters =? 0)%nat
    then malformed "UNSUBSCRIBE must contain at least one topic filter"
    else Ok {| uns_PacketID := packetID; uns_TopicFilters := filters; uns_Properties := props |}.

Record UnsubackPacket := {
  uak_PacketID : Z;
  uak_ReasonCodes : list Z;
  uak_Properties : option Properties;
  uak_ProtocolVersion : Z
}.

Definition UnsubackPacket_Encode (p : UnsubackPacket) : list Z :=
  if uak_ProtocolVersion p =? 5 then
    let propsData := Props.Encode (uak_Properties p) in
    let remaining := 2 + len propsData + len (uak_ReasonCodes p) in
    Frame.Encode {| PacketType := UNSUBACK; Dup := false; QoS := 0; Retain := false;
                    RemainingLength := remaining |} ++
    put16 (uak_PacketID p) ++ propsData ++ uak_ReasonCodes p
  else
    Frame.Encode {| PacketType := UNSUBACK; Dup := false; QoS := 0; Retain := false;
                    RemainingLength := 2 |} ++
    put16 (uak_PacketID p).

(** ** DISCONNECT *)

Record DisconnectPacket := {
  dis_ReasonCode : Z;
  dis_Properties : option Properties;
  dis_ProtocolVersion : Z
}.

Definition DisconnectPacket_Encode (p : DisconnectPacket) : list Z :=
  if dis_ProtocolVersion p =? 5 then
    let propsData := Props.Encode (dis_Properties p) in
    let remaining := 1 + len propsData in
    Frame.Encode {| PacketType := DISCONNECT; Dup := false; QoS := 0; Retain := false;
                    RemainingLength := remaining |} ++
    [dis_ReasonCode p] ++ propsData
  else
    Frame.Encode {| PacketType := DISCONNECT; Dup := false; QoS := 0; Retain := false;
                    RemainingLength := 0 |}.

Definition DecodeDisconnectPacket (data : list Z) : res DisconnectPacket :=
  if len data =? 0
  then Ok {| dis_ReasonCode := 0; dis_Properties := None; dis_ProtocolVersion := 0 |}
  else
    rc ← index data 0;
    if 1 <? len data then
      '(props, _) ← read_properties data 1;
      Ok {| dis_ReasonCode := rc; dis_Properties := Some props; dis_ProtocolVersion := 0 |}
    else Ok {| dis_ReasonCode := rc; dis_Properties := None; dis_ProtocolVersion := 0 |}.

End Packets.
