(* ===== verification/PacketFacts.v ===== *)
(** * Correctness of the packet codecs

    Safety of every decoder on arbitrary bytes, the round trips of the packets the broker both
    writes and reads, and completeness of the decoders of the packets only clients write. *)
From S2P Require Import Prelude Frame Props Packets.
Import Frame Props Packets.

(** ** Safety *)

Lemma readBinaryData_safe data off : Forall byte_ok data → 0 ≤ off →
  safe (readBinaryData data off) ∧
  ∀ x n, readBinaryData data off = Ok (x, n) → 2 ≤ n ∧ off + n ≤ len data.
Proof.
  intros Hd Ho. unfold readBinaryData. destruct (Z.ltb_spec (len data) (off + 2)); [done|].
  destruct (Uint16_slice_safe data off) as (v & -> & Hv); [lia..|]. cbn [mbind res_bind].
  specialize (Hv Hd). unfold u16_ok in Hv.
  destruct (Z.ltb_spec (len data) (off + 2 + v)); [done|].
  destruct (slice_ok data (off + 2) (off + 2 + v)) as (x & -> & _); [lia..|].
  cbn [mbind res_bind]. split; [done|]. intros y n [= _ <-]. lia.
Qed.

Lemma readUTF8String_safe data off : Forall byte_ok data → 0 ≤ off →
  safe (readUTF8String data off) ∧
  ∀ s n, readUTF8String data off = Ok (s, n) → 2 ≤ n ∧ off + n ≤ len data.
Proof.
  intros Hd Ho. unfold readUTF8String. destruct (Z.ltb_spec (len data) (off + 2)); [done|].
  destruct (Uint16_slice_safe data off) as (v & -> & Hv); [lia..|]. cbn [mbind res_bind].
  specialize (Hv Hd). unfold u16_ok in Hv.
  destruct (Z.ltb_spec (len data) (off + 2 + v)); [done|].
  destruct (slice_ok data (off + 2) (off + 2 + v)) as (x & -> & _); [lia..|].
  cbn [mbind res_bind]. split; [done|]. intros s n [= _ <-]. lia.
Qed.

Lemma read_properties_ctx_Ok c1 c2 data off r :
  read_properties_ctx c1 c2 data off = Ok r ↔ read_properties data off = Ok r.
Proof.
  unfold read_properties_ctx, read_properties.
  destruct (decodeVarInt data off) as [[x n]| | |]; cbn [wrap_err mbind res_bind]; try done.
  destruct (slice _ _ _); cbn [mbind res_bind]; try done.
  by destruct (DecodeProperties _ _).
Qed.

Lemma read_properties_ctx_safe c1 c2 data off : Forall byte_ok data → 0 ≤ off →
  safe (read_properties_ctx c1 c2 data off) ∧
  ∀ p o, read_properties_ctx c1 c2 data off = Ok (p, o) → off < o ≤ len data.
Proof.
  intros Hd Ho. destruct (read_properties_safe data off Hd Ho) as [[S1 S2] Hb].
  split; [|intros p o H; by apply (Hb p), read_properties_ctx_Ok in H || (apply read_properties_ctx_Ok in H; eauto)].
  revert S1 S2. unfold read_properties_ctx, read_properties.
  destruct (decodeVarInt data off) as [[x n]| | |]; cbn [wrap_err mbind res_bind]; try done.
  destruct (slice _ _ _); cbn [mbind res_bind]; try done.
  by destruct (DecodeProperties _ _).
Qed.

(** The reader lemmas in the form the decoders use them: run the reader, learn the bounds. *)
Tactic Notation "step_safe" open_constr(lem) "as" simple_intropattern(pat) :=
  let S := fresh "S" in let B := fresh "B" in let E := fresh "E" in
  edestruct lem as [S B]; [done|lia|];
  apply safe_bind; [first [exact S | apply safe_wrap; exact S]|];
  intros pat E; try apply wrap_err_Ok in E; apply B in E; clear S B.

(** An optional section, read only under a condition. *)
Lemma optional_props_safe c data off : Forall byte_ok data → 0 ≤ off ≤ len data →
  safe (if c : bool then '(p, o) ← read_properties data off; Ok (Some p, o) else Ok (None, off)) ∧
  ∀ p o, (if c then '(p, o) ← read_properties data off; Ok (Some p, o) else Ok (None, off))
         = Ok (p, o) → off ≤ o ≤ len data.
Proof.
  intros Hd Ho. destruct c; [|split; [done|]; intros p o [= _ <-]; lia].
  destruct (read_properties_safe data off) as [S B]; [done|lia|]. split.
  - apply safe_bind; [done|]. by intros [].
  - intros p o H. inv_ok. match goal with H : read_properties _ _ = _ |- _ => apply B in H end. lia.
Qed.

Lemma optional_props_ctx_safe (c : bool) c1 c2 data off : Forall byte_ok data → 0 ≤ off ≤ len data →
  safe (if c then '(p, o) ← read_properties_ctx c1 c2 data off; Ok (Some p, o) else Ok (None, off)) ∧
  ∀ p o, (if c then '(p, o) ← read_properties_ctx c1 c2 data off; Ok (Some p, o) else Ok (None, off))
         = Ok (p, o) → off ≤ o ≤ len data.
Proof.
  intros Hd Ho. destruct c; [|split; [done|]; intros p o [= _ <-]; lia].
  destruct (read_properties_ctx_safe c1 c2 data off) as [S B]; [done|lia|]. split.
  - apply safe_bind; [done|]. by intros [].
  - intros p o H. inv_ok. match goal with H : read_properties_ctx _ _ _ _ = _ |- _ => apply B in H end. lia.
Qed.

Lemma DecodePublishPacket_safe data qos v : Forall byte_ok data → safe (DecodePublishPacket data qos v).
Proof.
  intros Hd. unfold DecodePublishPacket. step_safe (readUTF8String_safe data 0) as [? z].
  apply safe_bind.
  { case_match; [|done]. destruct (Z.ltb_spec (len data) (z + 2)); [done|].
    by destruct (Uint16_slice_safe data z) as (w & -> & _); [lia..|]. }
  intros [pid o] Hpid. assert (0 ≤ o ≤ len data) as Ho.
  { revert Hpid. case_match; [|intros [= _ <-]; lia].
    destruct (Z.ltb_spec (len data) (z + 2)); [done|]. intros. inv_ok. lia. }
  step_safe (optional_props_safe (v =? 5) data o) as [? z0].
  apply safe_bind; [|done]. destruct (Z.ltb_spec z0 (len data)); [|done].
  by destruct (slice_ok data z0 (len data)) as (x & -> & _); [lia..|].
Qed.

Lemma ack_decode_safe err data v : Forall byte_ok data → safe (ack_decode err data v).
Proof.
  intros Hd. unfold ack_decode. destruct (Z.ltb_spec (len data) 2); [done|].
  destruct (Uint16_slice_safe data 0) as (pid & Hp & _); [lia..|].
  change (0 + 2) with 2 in Hp. rewrite Hp. cbn [mbind res_bind].
  destruct (_ && _) eqn:Hc; [|done]. apply andb_true_iff in Hc as [_ Hc%Z.ltb_lt].
  destruct (index_ok data 2) as (rc & -> & _); [lia..|]. cbn [mbind res_bind].
  case_match; [|done]. step_safe (read_properties_safe data (2 + 1)) as [? z]. done.
Qed.

Lemma DecodeConnectPacket_safe data : Forall byte_ok data → safe (DecodeConnectPacket data).
Proof.
  intros Hd. unfold DecodeConnectPacket. case_match; [done|].
  step_safe (readUTF8String_safe data 0) as [? z].
  destruct (Z.leb_spec (len data) z); [done|].
  destruct (index_ok data z) as (level & -> & _); [lia..|]. cbn [mbind res_bind].
  case_match; [done|]. destruct (Z.leb_spec (len data) (z + 1)); [done|].
  destruct (index_ok data (z + 1)) as (flags & -> & _); [lia..|]. cbn [mbind res_bind].
  destruct (Z.ltb_spec (len data) (z + 1 + 1 + 2)); [done|].
  destruct (Uint16_slice_safe data (z + 1 + 1)) as (ka & -> & _); [lia..|]. cbn [mbind res_bind].
  step_safe (optional_props_ctx_safe (level =? 5) "reading connect properties length"
    "decoding connect properties" data (z + 1 + 1 + 2)) as [? z0].
  step_safe (readUTF8String_safe data z0) as [? z1].
  apply safe_bind.
  { case_match; [|done].
    step_safe (optional_props_ctx_safe (level =? 5) "reading will properties length"
      "decoding will properties" data (z0 + z1)) as [? z2].
    step_safe (readUTF8String_safe data z2) as [? z3]. step_safe (readBinaryData_safe data (z2 + z3)) as [? z4]. done. }
  intros [[[wp wt] wpl] off2] Hw. assert (0 ≤ off2) as Hoff2.
  { revert Hw. case_match; [|intros; inv_ok; lia]. intros Hw. apply bind_Ok in Hw as ([wp' o'] & E' & Hw).
    apply (optional_props_ctx_safe _ _ _ _ _ Hd) in E'; [|lia]. inv_ok.
    match goal with H : readUTF8String _ _ = _ |- _ =>
      apply (readUTF8String_safe _ _ Hd) in H; [|lia] end.
    match goal with H : readBinaryData _ _ = _ |- _ =>
      apply (readBinaryData_safe _ _ Hd) in H; [|lia] end. lia. }
  apply safe_bind.
  { destruct (bit_set flags 128); [|done]. step_safe (readUTF8String_safe data off2) as [? z5]. done. }
  intros [u o'] Hu. assert (0 ≤ o') as Ho'.
  { revert Hu. destruct (bit_set flags 128); intros; inv_ok; [|done].
    match goal with H : readUTF8String _ _ = _ |- _ =>
      apply (readUTF8String_safe _ _ Hd) in H; [|lia] end. lia. }
  apply safe_bind; [|done]. destruct (bit_set flags 64); [|done]. step_safe (readBinaryData_safe data o') as [? z6]. done.
Qed.

Lemma subscribe_loop_safe fuel data off acc : Forall byte_ok data → 0 ≤ off →
  len data - off < Z.of_nat fuel → (0 < fuel)%nat → safe (subscribe_loop fuel data off acc).
Proof.
  intros Hd. revert off acc. induction fuel as [|f IH]; intros off acc Ho Hf ?; [lia|].
  cbn [subscribe_loop]. destruct (Z.ltb_spec off (len data)); [|done].
  step_safe (readUTF8String_safe data off) as [? z]. destruct (Z.leb_spec (len data) (off + z)); [done|].
  destruct (index_ok data (off + z)) as (q & -> & _); [lia..|]. cbn [mbind res_bind].
  apply IH; lia.
Qed.

Lemma unsubscribe_loop_safe fuel data off acc : Forall byte_ok data → 0 ≤ off →
  len data - off < Z.of_nat fuel → (0 < fuel)%nat → safe (unsubscribe_loop fuel data off acc).
Proof.
  intros Hd. revert off acc. induction fuel as [|f IH]; intros off acc Ho Hf ?; [lia|].
  cbn [unsubscribe_loop]. destruct (Z.ltb_spec off (len data)); [|done].
  step_safe (readUTF8String_safe data off) as [? z]. apply IH; lia.
Qed.

Lemma filters_fuel_enough data off : 0 ≤ off →
  len data - off < Z.of_nat (filters_fuel data) ∧ (0 < filters_fuel data)%nat.
Proof. unfold filters_fuel, len. lia. Qed.

Lemma DecodeSubscribePacket_safe data v : Forall byte_ok data → safe (DecodeSubscribePacket data v).
Proof.
  intros Hd. unfold DecodeSubscribePacket. destruct (Z.ltb_spec (len data) 5); [done|].
  destruct (Uint16_slice_safe data 0) as (pid & Hp & _); [lia..|].
  change (0 + 2) with 2 in Hp. rewrite Hp. cbn [mbind res_bind].
  step_safe (optional_props_safe (v =? 5) data 2) as [? z].
  apply safe_bind; [|intros; by case_match].
  destruct (filters_fuel_enough data z); [lia|]. apply subscribe_loop_safe; first [done|lia].
Qed.

Lemma DecodeUnsubscribePacket_safe data v :
  Forall byte_ok data → safe (DecodeUnsubscribePacket data v).
Proof.
  intros Hd. unfold DecodeUnsubscribePacket. destruct (Z.ltb_spec (len data) 4); [done|].
  destruct (Uint16_slice_safe data 0) as (pid & Hp & _); [lia..|].
  change (0 + 2) with 2 in Hp. rewrite Hp. cbn [mbind res_bind].
  step_safe (optional_props_safe (v =? 5) data 2) as [? z].
  apply safe_bind; [|intros; by case_match].
  destruct (filters_fuel_enough data z); [lia|]. apply unsubscribe_loop_safe; first [done|lia].
Qed.

Lemma DecodeDisconnectPacket_safe data : Forall byte_ok data → safe (DecodeDisconnectPacket data).
Proof.
  intros Hd. unfold DecodeDisconnectPacket. destruct (Z.eqb_spec (len data) 0); [done|].
  pose proof (len_nonneg data).
  destruct (index_ok data 0) as (rc & -> & _); [lia..|]. cbn [mbind res_bind].
  case_match; [|done]. step_safe (read_properties_safe data 1) as [? z]. done.
Qed.

(** ** Reading what was written *)

(** The wire image of a length-prefixed string and of length-prefixed bytes. *)
Definition wstr (s : string) : list Z := put16 (slen s) ++ bytes_of s.
Definition wbin (b : list Z) : list Z := put16 (len b) ++ b.

Definition section_ok (p : option Properties) : Prop :=
  from_option props_ok True p ∧
  from_option (λ p, len (encode_body p) ≤ MaxRemainingLength) True p.

Lemma len_wstr s : len (wstr s) = 2 + slen s.
Proof. unfold wstr. by lens. Qed.
Lemma len_wbin b : len (wbin b) = 2 + len b.
Proof. unfold wbin. by lens. Qed.
Lemma slen_nonneg s : 0 ≤ slen s.
Proof. unfold slen. lia. Qed.
Lemma wstr_bytes s : Forall byte_ok (wstr s).
Proof. apply Forall_app. auto using put16_bytes, bytes_of_ok. Qed.
Lemma wbin_bytes b : Forall byte_ok b → Forall byte_ok (wbin b).
Proof. intros. apply Forall_app. auto using put16_bytes. Qed.
Lemma section_bytes p : section_ok p → Forall byte_ok (Props.Encode p).
Proof. intros []. by apply Encode_bytes. Qed.

Lemma read_u16 d off v rest : suffix d off (put16 v ++ rest) → u16_ok v →
  (slice d off (off + 2) ≫= Uint16) = Ok v.
Proof.
  intros Hs Hv. rewrite (suffix_slice d off (put16 v) rest) by done.
  by apply Uint16_put16.
Qed.

Lemma read_wbin d off b rest : suffix d off (wbin b ++ rest) → u16_ok (len b) →
  readBinaryData d off = Ok (b, len (wbin b)).
Proof.
  intros Hs Hb. unfold wbin in Hs. rewrite <- app_assoc in Hs.
  pose proof (suffix_len _ _ _ Hs) as [? Hl]. lens. pose proof (len_nonneg rest).
  pose proof (len_nonneg b). unfold readBinaryData. ztests.
  rewrite (read_u16 _ _ _ _ Hs Hb). cbn [mbind res_bind]. ztests.
  apply suffix_app in Hs. change (len (put16 _)) with 2 in Hs.
  rewrite (suffix_slice _ _ _ _ _ Hs) by done. cbn [mbind res_bind]. by rewrite len_wbin.
Qed.

Lemma read_wstr d off s rest : suffix d off (wstr s ++ rest) → u16_ok (slen s) →
  readUTF8String d off = Ok (s, len (wstr s)).
Proof.
  intros Hs Hb. unfold wstr in Hs. rewrite <- app_assoc in Hs.
  pose proof (suffix_len _ _ _ Hs) as [? Hl]. lens. pose proof (len_nonneg rest).
  pose proof (slen_nonneg s). unfold readUTF8String. ztests.
  rewrite (read_u16 _ _ _ _ Hs Hb). cbn [mbind res_bind]. ztests.
  apply suffix_app in Hs. change (len (put16 _)) with 2 in Hs.
  rewrite (suffix_slice _ _ _ _ _ Hs) by (by rewrite len_bytes_of). cbn [mbind res_bind].
  by rewrite string_of_bytes_of, len_wstr.
Qed.

Lemma read_section d off p rest : suffix d off (Props.Encode p ++ rest) → section_ok p →
  Forall byte_ok rest →
  read_properties d off = Ok (default emptyProps p, off + len (Props.Encode p)).
Proof.
  intros (pre & -> & ->) [Hp Hl] Hr. by apply read_properties_Encode.
Qed.

(** A section that is present only in version 5. *)
Definition section (v : Z) (p : option Properties) : list Z :=
  if v =? 5 then Props.Encode p else [].

Definition received_section (v : Z) (p : option Properties) : option Properties :=
  if v =? 5 then Some (default emptyProps p) else None.

Lemma section_bytes_v v p : section_ok p → Forall byte_ok (section v p).
Proof. intros. unfold section. case_match; [by apply section_bytes|done]. Qed.

Lemma read_optional_section v d off p rest : suffix d off (section v p ++ rest) → section_ok p →
  Forall byte_ok rest →
  (if v =? 5 then '(p, o) ← read_properties d off; Ok (Some p, o) else Ok (None, off)) =
  Ok (received_section v p, off + len (section v p)).
Proof.
  unfold section, received_section. intros Hs Hp Hr. case_match.
  - by rewrite (read_section _ _ _ _ Hs Hp Hr).
  - by rewrite len_nil, Z.add_0_r.
Qed.

Lemma read_optional_section_ctx c1 c2 v d off p rest :
  suffix d off (section v p ++ rest) → section_ok p → Forall byte_ok rest →
  (if v =? 5 then '(p, o) ← read_properties_ctx c1 c2 d off; Ok (Some p, o) else Ok (None, off)) =
  Ok (received_section v p, off + len (section v p)).
Proof.
  unfold section, received_section. intros Hs Hp Hr. case_match.
  - pose proof (read_section _ _ _ _ Hs Hp Hr) as E. by apply (read_properties_ctx_Ok c1 c2) in E as ->.
  - by rewrite len_nil, Z.add_0_r.
Qed.

(** ** PUBLISH *)

Definition publish_ok (p : PublishPacket) : Prop :=
  u16_ok (slen (pub_Topic p)) ∧ u16_ok (pub_PacketID p) ∧ 0 ≤ pub_QoS p < 4 ∧
  Forall byte_ok (pub_Payload p) ∧ section_ok (pub_Properties p) ∧
  len (publish_body p) ≤ MaxRemainingLength.

(** What the receiver's decoder returns: DUP and RETAIN travel in the fixed header only, a
    QoS 0 message has no packet id, an absent property set reads as the empty one. *)
Definition publish_received (p : PublishPacket) : PublishPacket :=
  {| pub_Topic := pub_Topic p;
     pub_PacketID := if 0 <? pub_QoS p then pub_PacketID p else 0;
     pub_QoS := pub_QoS p; pub_Dup := false; pub_Retain := false;
     pub_Payload := pub_Payload p;
     pub_Properties := received_section (pub_ProtocolVersion p) (pub_Properties p);
     pub_ProtocolVersion := pub_ProtocolVersion p |}.

Lemma publish_header_len p : RemainingLength (publish_header p) = len (publish_body p).
Proof.
  unfold publish_body, publish_header. cbn [RemainingLength].
  destruct (0 <? _), (_ =? 5); lens; lia.
Qed.

Lemma DecodePublishPacket_body p : publish_ok p →
  DecodePublishPacket (publish_body p) (pub_QoS p) (pub_ProtocolVersion p) = Ok (publish_received p).
Proof.
  intros (Ht & Hid & Hq & Hpl & Hp & _). unfold publish_body.
  change (if pub_ProtocolVersion p =? 5 then _ else _) with (section (pub_ProtocolVersion p) (pub_Properties p)).
  set (d := put16 _ ++ _). assert (suffix d 0 (wstr (pub_Topic p) ++
    (if 0 <? pub_QoS p then put16 (pub_PacketID p) else []) ++
    section (pub_ProtocolVersion p) (pub_Properties p) ++ pub_Payload p)) as Hs.
  { unfold wstr. rewrite <- app_assoc. apply suffix_start. }
  clearbody d. unfold DecodePublishPacket. rewrite (read_wstr _ _ _ _ Hs Ht). cbn [mbind res_bind].
  apply suffix_app in Hs. rewrite Z.add_0_l in Hs. set (o := len (wstr _)) in *. clearbody o.
  assert (∀ x, (if 0 <? pub_QoS p then
       if len d <? o + 2 then malformed "missing packet ID in PUBLISH"
       else v ← slice d o (o + 2) ≫= Uint16; Ok (v, o + 2)
     else Ok (0, o)) = x →
     ∃ o', x = Ok (pub_PacketID (publish_received p), o') ∧
       suffix d o' (section (pub_ProtocolVersion p) (pub_Properties p) ++ pub_Payload p)) as Hpid.
  { intros x <-. unfold publish_received; cbn [pub_PacketID]. destruct (0 <? pub_QoS p); [|eauto].
    pose proof (suffix_len _ _ _ Hs). lens.
    pose proof (len_nonneg (section (pub_ProtocolVersion p) (pub_Properties p))).
    pose proof (len_nonneg (pub_Payload p)). ztests. rewrite (read_u16 _ _ _ _ Hs Hid).
    apply suffix_app in Hs. eauto. }
  destruct (Hpid _ eq_refl) as (o' & -> & Hs'). cbn [mbind res_bind].
  rewrite (read_optional_section _ _ _ _ _ Hs' Hp Hpl). cbn [mbind res_bind].
  apply suffix_app in Hs'. set (o2 := o' + _) in *. clearbody o2.
  assert ((if o2 <? len d then slice d o2 (len d) else Ok []) = Ok (pub_Payload p)) as ->; [|done].
  rewrite (suffix_slice_all _ _ _ Hs'). apply suffix_len in Hs' as [_ Hl].
  destruct (Z.ltb_spec o2 (len d)); [done|]. destruct (pub_Payload p); [done|].
  rewrite len_cons in Hl. pose proof (len_nonneg l). lia.
Qed.

(** ** The acknowledgements *)

Definition ack_body (p : AckPacket) : list Z :=
  put16 (ack_PacketID p) ++
  (if ack_long p then [ack_ReasonCode p] ++ Props.Encode (ack_Properties p) else []).

Definition ack_header (ptype qos : Z) (p : AckPacket) : FixedHeader :=
  {| PacketType := ptype; Dup := false; QoS := qos; Retain := false;
     RemainingLength := len (ack_body p) |}.

Definition ack_ok (p : AckPacket) : Prop :=
  u16_ok (ack_PacketID p) ∧ byte_ok (ack_ReasonCode p) ∧ section_ok (ack_Properties p) ∧
  len (ack_body p) ≤ MaxRemainingLength.

(** A version 3.1.1 acknowledgement carries the packet id only. *)
Definition ack_received (p : AckPacket) : AckPacket :=
  {| ack_PacketID := ack_PacketID p;
     ack_ReasonCode := if ack_ProtocolVersion p =? 5 then ack_ReasonCode p else 0;
     ack_Properties := if ack_long p then Some (default emptyProps (ack_Properties p)) else None;
     ack_ProtocolVersion := ack_ProtocolVersion p |}.

Lemma ack_encode_frame ptype qos p :
  ack_encode ptype qos p = Frame.Encode (ack_header ptype qos p) ++ ack_body p.
Proof.
  unfold ack_encode, ack_header, ack_body. destruct (ack_long p); [|by rewrite app_nil_r].
  do 3 f_equal. lens. lia.
Qed.

Lemma ack_short p : (ack_ProtocolVersion p =? 5) = true → ack_long p = false → ack_ReasonCode p = 0.
Proof.
  unfold ack_long. intros ->. simpl. intros [H _]%orb_false_iff.
  by apply negb_false_iff, Z.eqb_eq in H.
Qed.

Lemma ack_decode_body err p : ack_ok p →
  ack_decode err (ack_body p) (ack_ProtocolVersion p) = Ok (ack_received p).
Proof.
  intros (Hid & Hrc & Hp & _). unfold ack_decode.
  pose proof (suffix_start (ack_body p)) as Hs. unfold ack_body in Hs at 2.
  pose proof (suffix_len _ _ _ Hs) as [_ Hl]. lens.
  set (t := if ack_long p then _ else _) in *. pose proof (len_nonneg t). ztests.
  rewrite (read_u16 _ _ _ _ Hs Hid : slice (ack_body p) 0 2 ≫= Uint16 = _). cbn [mbind res_bind].
  apply suffix_app in Hs. change (0 + len _) with 2 in Hs. unfold ack_received.
  destruct (ack_ProtocolVersion p =? 5) eqn:Hv; cbn [andb].
  - subst t. destruct (ack_long p) eqn:Hlong.
    + cbn [app] in *. pose proof (len_nonneg (Props.Encode (ack_Properties p))). lens. ztests.
      rewrite (suffix_index _ _ _ _ Hs). cbn [mbind res_bind]. apply suffix_cons in Hs.
      assert (0 < len (Props.Encode (ack_Properties p))).
      { destruct (ack_Properties p) as [q|]; cbn [Props.Encode]; [|done]. lens.
        pose proof (len_nonneg (encode_body q)).
        destruct (encodeVarInt_len 4 (len (encode_body q))); [|lia..].
        destruct Hp as [_ Hp]. simpl in Hp. unfold MaxRemainingLength in Hp.
        change (128 ^ Z.of_nat 4) with 268435456. lia. }
      ztests. rewrite <- (app_nil_r (Props.Encode _)) in Hs.
      rewrite (read_section _ _ _ _ Hs Hp) by constructor. done.
    + rewrite <- Hl. cbn. by rewrite (ack_short p Hv Hlong).
  - unfold ack_long. by rewrite Hv.
Qed.

(** ** CONNECT, as a client writes it *)

Definition connect_flags (p : ConnectPacket) : Z :=
  (if con_CleanSession p then 0x02 else 0) + (if con_WillFlag p then 0x04 else 0) +
  8 * con_WillQoS p + (if con_WillRetain p then 0x20 else 0) +
  (if con_PasswordFlag p then 0x40 else 0) + (if con_UsernameFlag p then 0x80 else 0).

Definition connect_body (p : ConnectPacket) : list Z :=
  wstr (con_ProtocolName p) ++ [con_ProtocolLevel p] ++ [connect_flags p] ++
  put16 (con_KeepAlive p) ++ section (con_ProtocolLevel p) (con_Properties p) ++
  wstr (con_ClientID p) ++
  (if con_WillFlag p
   then section (con_ProtocolLevel p) (con_WillProperties p) ++ wstr (con_WillTopic p) ++
        wbin (con_WillPayload p) else []) ++
  (if con_UsernameFlag p then wstr (con_Username p) else []) ++
  (if con_PasswordFlag p then wbin (con_Password p) else []).

(** The values fit their formats, a field without its flag is empty, and the property sets
    are present exactly where version 5 puts them. *)
Definition connect_ok (p : ConnectPacket) : Prop :=
  (con_ProtocolLevel p = 4 ∨ con_ProtocolLevel p = 5) ∧
  2 ≤ slen (con_ProtocolName p) < 65536 ∧ u16_ok (con_KeepAlive p) ∧ 0 ≤ con_WillQoS p < 4 ∧
  u16_ok (slen (con_ClientID p)) ∧ u16_ok (slen (con_WillTopic p)) ∧
  u16_ok (len (con_WillPayload p)) ∧ Forall byte_ok (con_WillPayload p) ∧
  u16_ok (slen (con_Username p)) ∧ u16_ok (len (con_Password p)) ∧
  Forall byte_ok (con_Password p) ∧ section_ok (con_Properties p) ∧
  section_ok (con_WillProperties p) ∧
  con_Properties p = received_section (con_ProtocolLevel p) (con_Properties p) ∧
  con_WillProperties p =
    (if con_WillFlag p then received_section (con_ProtocolLevel p) (con_WillProperties p) else None) ∧
  (con_WillFlag p = false → con_WillTopic p = "" ∧ con_WillPayload p = []) ∧
  (con_UsernameFlag p = false → con_Username p = "") ∧
  (con_PasswordFlag p = false → con_Password p = []).

Lemma connect_flags_bits p : 0 ≤ con_WillQoS p < 4 →
  bit_set (connect_flags p) 0x02 = con_CleanSession p ∧
  bit_set (connect_flags p) 0x04 = con_WillFlag p ∧
  Z.land (Z.shiftr (connect_flags p) 3) 0x03 = con_WillQoS p ∧
  bit_set (connect_flags p) 0x20 = con_WillRetain p ∧
  bit_set (connect_flags p) 0x40 = con_PasswordFlag p ∧
  bit_set (connect_flags p) 0x80 = con_UsernameFlag p.
Proof.
  intros Hq. unfold connect_flags. generalize dependent (con_WillQoS p). intros q Hq.
  assert (q = 0 ∨ q = 1 ∨ q = 2 ∨ q = 3) as Hq' by lia.
  destruct Hq' as [-> | [-> | [-> | ->]]];
    destruct (con_CleanSession p), (con_WillFlag p), (con_WillRetain p), (con_PasswordFlag p),
      (con_UsernameFlag p); vm_compute; auto 10.
Qed.

Definition will_part (p : ConnectPacket) : list Z :=
  if con_WillFlag p
  then section (con_ProtocolLevel p) (con_WillProperties p) ++ wstr (con_WillTopic p) ++
       wbin (con_WillPayload p) else [].

Lemma read_will p d off rest : connect_ok p → suffix d off (will_part p ++ rest) →
  Forall byte_ok rest →
  (if con_WillFlag p then
     '(wp, o) ←
       (if con_ProtocolLevel p =? 5 then
          '(p, o) ← read_properties_ctx "reading will properties length"
                      "decoding will properties" d off;
          Ok (Some p, o)
        else Ok (None, off));
     '(topic, n) ← wrap_err "reading will topic" (readUTF8String d o);
     '(payload, n2) ← wrap_err "reading will payload" (readBinaryData d (o + n));
     Ok (wp, topic, payload, o + n + n2)
   else Ok (None, "", [], off)) =
  Ok (con_WillProperties p, con_WillTopic p, con_WillPayload p, off + len (will_part p)).
Proof.
  intros (Hl & _ & _ & _ & _ & Hwt & Hwpl & Hwb & _ & _ & _ & _ & Hwp & _ & Ewp & Ew & _) Hs Hr.
  unfold will_part in *. destruct (con_WillFlag p).
  - rewrite <- !app_assoc in Hs.
    rewrite (read_optional_section_ctx _ _ _ _ _ _ _ Hs Hwp)
      by (rewrite !Forall_app; auto using wstr_bytes, wbin_bytes).
    cbn [mbind res_bind]. apply suffix_app in Hs. rewrite (read_wstr _ _ _ _ Hs Hwt).
    cbn [mbind res_bind wrap_err]. apply suffix_app in Hs. rewrite (read_wbin _ _ _ _ Hs Hwpl).
    cbn [mbind res_bind wrap_err]. rewrite <- Ewp. do 2 f_equal. lens. lia.
  - destruct Ew as [-> ->]; [done|]. rewrite Ewp, len_nil, Z.add_0_r. done.
Qed.

Lemma DecodeConnectPacket_body p : connect_ok p → DecodeConnectPacket (connect_body p) = Ok p.
Proof.
  intros Hok. pose proof Hok as (Hl & Hn & Hka & Hq & Hid & _ & _ & Hwb & Hu & Hpw & Hpwb & Hp & Hwp & Ep & _ & _ & Eu & Epw).
  destruct (connect_flags_bits p Hq) as (Fcs & Fw & Fq & Fr & Fp & Fu).
  pose proof (suffix_start (connect_body p)) as Hs. unfold connect_body in Hs at 2.
  change (if con_WillFlag p then _ else _) with (will_part p) in Hs.
  set (upart := if con_UsernameFlag p then _ else _) in Hs.
  set (ppart := if con_PasswordFlag p then _ else _) in Hs.
  assert (Forall byte_ok ppart) by (subst ppart; case_match; auto using wbin_bytes).
  assert (Forall byte_ok upart) by (subst upart; case_match; auto using wstr_bytes).
  assert (Forall byte_ok (will_part p)).
  { unfold will_part. case_match; [|done]. rewrite !Forall_app. auto using section_bytes_v, wstr_bytes, wbin_bytes. }
  set (d := connect_body p) in *. clearbody d.
  pose proof (suffix_len _ _ _ Hs) as [_ Hlen]. rewrite !len_app, !len_wstr in Hlen.
  change (len [_]) with 1 in Hlen. change (len [connect_flags p]) with 1 in Hlen.
  change (len (put16 _)) with 2 in Hlen.
  pose proof (len_nonneg (section (con_ProtocolLevel p) (con_Properties p))).
  pose proof (slen_nonneg (con_ClientID p)). pose proof (len_nonneg (will_part p)).
  pose proof (len_nonneg upart). pose proof (len_nonneg ppart).
  unfold DecodeConnectPacket. ztests. rewrite (read_wstr _ _ _ _ Hs) by (unfold u16_ok; lia).
  cbn [mbind res_bind wrap_err]. apply suffix_app in Hs. rewrite Z.add_0_l in Hs.
  rewrite len_wstr in *. ztests. rewrite (suffix_index _ _ _ _ Hs). cbn [mbind res_bind].
  assert (negb (con_ProtocolLevel p =? 4) && negb (con_ProtocolLevel p =? 5) = false) as ->
    by by destruct Hl as [-> | ->].
  apply suffix_app in Hs. change (len [_]) with 1 in Hs. ztests.
  rewrite (suffix_index _ _ _ _ Hs). cbn [mbind res_bind]. apply suffix_app in Hs.
  change (len [_]) with 1 in Hs. ztests. rewrite (read_u16 _ _ _ _ Hs Hka). cbn [mbind res_bind].
  apply suffix_app in Hs. change (len (put16 _)) with 2 in Hs.
  rewrite (read_optional_section_ctx _ _ _ _ _ _ _ Hs Hp)
    by (rewrite !Forall_app; auto using wstr_bytes).
  cbn [mbind res_bind]. apply suffix_app in Hs. rewrite (read_wstr _ _ _ _ Hs Hid).
  cbn [mbind res_bind wrap_err]. apply suffix_app in Hs. rewrite Fw.
  rewrite (read_will _ _ _ _ Hok Hs) by (rewrite !Forall_app; auto).
  cbn [mbind res_bind]. apply suffix_app in Hs. rewrite Fu, Fp, Fcs, Fq, Fr.
  set (o := (_ + _)%Z) in *. clearbody o.
  assert ((if con_UsernameFlag p then
         '(u, n) ← wrap_err "reading username" (readUTF8String d o); Ok (u, o + n)
       else Ok ("", o)) = Ok (con_Username p, o + len upart)) as ->.
  { subst upart. destruct (con_UsernameFlag p).
    - by rewrite (read_wstr _ _ _ _ Hs Hu).
    - by rewrite Eu, len_nil, Z.add_0_r. }
  cbn [mbind res_bind]. apply suffix_app in Hs.
  assert ((if con_PasswordFlag p then
         '(pw, _) ← wrap_err "reading password" (readBinaryData d (o + len upart)); Ok pw
       else Ok []) = Ok (con_Password p)) as ->.
  { subst ppart. destruct (con_PasswordFlag p).
    - rewrite <- (app_nil_r (wbin _)) in Hs. by rewrite (read_wbin _ _ _ _ Hs Hpw).
    - by rewrite Epw. }
  cbn [mbind res_bind]. rewrite <- Ep. by destruct p.
Qed.

(** ** SUBSCRIBE and UNSUBSCRIBE, as a client writes them *)

Definition sub_wire (s : Subscription) : list Z := wstr (TopicFilter s) ++ [sub_QoS s].
Definition sub_ok (s : Subscription) : Prop := u16_ok (slen (TopicFilter s)) ∧ byte_ok (sub_QoS s).

Definition subscribe_body (v : Z) (p : SubscribePacket) : list Z :=
  put16 (sub_PacketID p) ++ section v (sub_Properties p) ++ (sub_Subscriptions p ≫= sub_wire).

Definition subscribe_ok (v : Z) (p : SubscribePacket) : Prop :=
  u16_ok (sub_PacketID p) ∧ section_ok (sub_Properties p) ∧
  sub_Properties p = received_section v (sub_Properties p) ∧
  sub_Subscriptions p ≠ [] ∧ Forall sub_ok (sub_Subscriptions p).

Lemma filters_bytes subs : Forall sub_ok subs → Forall byte_ok (subs ≫= sub_wire).
Proof.
  intros H. rewrite Forall_bind. eapply Forall_impl; [exact H|]. intros s [_ Hs].
  apply Forall_app. auto using wstr_bytes.
Qed.

Lemma subscribe_loop_wire d : ∀ subs fuel off acc, Forall sub_ok subs →
  suffix d off (subs ≫= sub_wire) → (length subs < fuel)%nat →
  subscribe_loop fuel d off acc = Ok (acc ++ subs).
Proof.
  induction subs as [|s subs IH]; intros fuel off acc Hok Hs Hf; (destruct fuel as [|f]; [lia|]);
    cbn [subscribe_loop mbind list_bind] in *.
  - apply suffix_len in Hs as [_ Hs]. rewrite len_nil in Hs. ztests. by rewrite app_nil_r.
  - inversion Hok as [|?? [Ht Hq] Hok']; subst. unfold sub_wire in Hs at 1. rewrite <- app_assoc in Hs.
    pose proof (suffix_len _ _ _ Hs) as [_ Hl]. rewrite !len_app, len_wstr in Hl.
    change (len [_]) with 1 in Hl. pose proof (slen_nonneg (TopicFilter s)).
    pose proof (len_nonneg (subs ≫= sub_wire)). ztests.
    rewrite (read_wstr _ _ _ _ Hs Ht). cbn [mbind res_bind]. apply suffix_app in Hs.
    rewrite len_wstr in *. ztests. rewrite (suffix_index _ _ _ _ Hs). cbn [mbind res_bind].
    apply suffix_cons in Hs. rewrite (IH f) by (done || simpl in *; lia).
    by rewrite <- app_assoc; destruct s.
Qed.

Lemma length_bind_le {A} (f : A → list Z) l : (∀ x, (1 ≤ length (f x))%nat) →
  (length l ≤ length (l ≫= f))%nat.
Proof.
  intros Hf. induction l as [|x l IH]; cbn; [lia|]. rewrite length_app. specialize (Hf x). lia.
Qed.

Lemma filters_fuel_wire {A} (f : A → list Z) l d off : (∀ x, (1 ≤ length (f x))%nat) →
  suffix d off (l ≫= f) → (length l < filters_fuel d)%nat.
Proof.
  intros Hf Hs%suffix_len. pose proof (length_bind_le f l Hf).
  unfold filters_fuel, len in *. lia.
Qed.

Lemma DecodeSubscribePacket_body v p : subscribe_ok v p →
  DecodeSubscribePacket (subscribe_body v p) v = Ok p.
Proof.
  intros (Hid & Hp & Ep & Hne & Hsubs).
  pose proof (suffix_start (subscribe_body v p)) as Hs. unfold subscribe_body in Hs at 2.
  set (d := subscribe_body v p) in *. clearbody d.
  pose proof (suffix_len _ _ _ Hs) as [_ Hl]. rewrite !len_app in Hl.
  change (len (put16 _)) with 2 in Hl. pose proof (len_nonneg (section v (sub_Properties p))).
  assert (3 ≤ len (sub_Subscriptions p ≫= sub_wire)).
  { destruct (sub_Subscriptions p) as [|s l]; [done|]. cbn [mbind list_bind]. unfold sub_wire at 1.
    rewrite !len_app, len_wstr. pose proof (slen_nonneg (TopicFilter s)).
    pose proof (len_nonneg (l ≫= sub_wire)). change (len [_]) with 1. lia. }
  unfold DecodeSubscribePacket. ztests.
  rewrite (read_u16 _ _ _ _ Hs Hid : slice d 0 2 ≫= Uint16 = _). cbn [mbind res_bind].
  apply suffix_app in Hs. change (0 + len _) with 2 in Hs.
  rewrite (read_optional_section _ _ _ _ _ Hs Hp) by by apply filters_bytes.
  cbn [mbind res_bind]. apply suffix_app in Hs. rewrite (subscribe_loop_wire _ _ _ _ _ Hsubs Hs).
  - cbn [mbind res_bind app]. rewrite <- Ep. destruct p as [? [|??] ?]; [done|reflexivity].
  - eapply filters_fuel_wire; [|exact Hs]. intros x. unfold sub_wire. rewrite length_app. simpl. lia.
Qed.

Definition unsubscribe_body (v : Z) (p : UnsubscribePacket) : list Z :=
  put16 (uns_PacketID p) ++ section v (uns_Properties p) ++ (uns_TopicFilters p ≫= wstr).

Definition unsubscribe_ok (v : Z) (p : UnsubscribePacket) : Prop :=
  u16_ok (uns_PacketID p) ∧ section_ok (uns_Properties p) ∧
  uns_Properties p = received_section v (uns_Properties p) ∧
  uns_TopicFilters p ≠ [] ∧ Forall (λ f, u16_ok (slen f)) (uns_TopicFilters p).

Lemma unsubscribe_loop_wire d : ∀ fs fuel off acc, Forall (λ f, u16_ok (slen f)) fs →
  suffix d off (fs ≫= wstr) → (length fs < fuel)%nat →
  unsubscribe_loop fuel d off acc = Ok (acc ++ fs).
Proof.
  induction fs as [|s fs IH]; intros fuel off acc Hok Hs Hf; (destruct fuel as [|f]; [lia|]);
    cbn [unsubscribe_loop mbind list_bind] in *.
  - apply suffix_len in Hs as [_ Hs]. rewrite len_nil in Hs. ztests. by rewrite app_nil_r.
  - inversion Hok as [|?? Ht Hok']; subst.
    pose proof (suffix_len _ _ _ Hs) as [_ Hl]. rewrite !len_app, len_wstr in Hl.
    pose proof (slen_nonneg s). pose proof (len_nonneg (fs ≫= wstr)). ztests.
    rewrite (read_wstr _ _ _ _ Hs Ht). cbn [mbind res_bind]. apply suffix_app in Hs.
    rewrite (IH f) by (done || simpl in *; lia). by rewrite <- app_assoc.
Qed.

Lemma DecodeUnsubscribePacket_body v p : unsubscribe_ok v p →
  DecodeUnsubscribePacket (unsubscribe_body v p) v = Ok p.
Proof.
  intros (Hid & Hp & Ep & Hne & Hfs).
  pose proof (suffix_start (unsubscribe_body v p)) as Hs. unfold unsubscribe_body in Hs at 2.
  set (d := unsubscribe_body v p) in *. clearbody d.
  pose proof (suffix_len _ _ _ Hs) as [_ Hl]. rewrite !len_app in Hl.
  change (len (put16 _)) with 2 in Hl. pose proof (len_nonneg (section v (uns_Properties p))).
  assert (2 ≤ len (uns_TopicFilters p ≫= wstr)).
  { destruct (uns_TopicFilters p) as [|s l]; [done|]. cbn [mbind list_bind].
    rewrite !len_app, len_wstr. pose proof (slen_nonneg s). pose proof (len_nonneg (l ≫= wstr)). lia. }
  unfold DecodeUnsubscribePacket. ztests.
  rewrite (read_u16 _ _ _ _ Hs Hid : slice d 0 2 ≫= Uint16 = _). cbn [mbind res_bind].
  apply suffix_app in Hs. change (0 + len _) with 2 in Hs.
  rewrite (read_optional_section _ _ _ _ _ Hs Hp)
    by (rewrite Forall_bind; apply Forall_true; auto using wstr_bytes).
  cbn [mbind res_bind]. apply suffix_app in Hs. rewrite (unsubscribe_loop_wire _ _ _ _ _ Hfs Hs).
  - cbn [mbind res_bind app]. rewrite <- Ep. destruct p as [? [|??] ?]; [done|reflexivity].
  - eapply filters_fuel_wire; [|exact Hs]. intros x. unfold wstr. rewrite length_app. simpl. lia.
Qed.

(** ** Framing of the packets only the broker writes *)

Definition one_frame (t : Z) (bytes : list Z) : Prop :=
  ∃ fh body, PacketType fh = t ∧
    ∀ r, ReadPacket (bytes ++ r) = Ok (fh, body, r).

Lemma one_frame_Encode t q body : 0 ≤ t < 16 → 0 ≤ q < 4 → len body ≤ MaxRemainingLength →
  one_frame t (Frame.Encode {| PacketType := t; Dup := false; QoS := q; Retain := false;
                               RemainingLength := len body |} ++ body).
Proof.
  intros Ht Hq Hb. eexists _, body. split; [|intros r; rewrite <- app_assoc; apply ReadPacket_Encode];
    [done| |done]. split; [done|]. split; [done|]. pose proof (len_nonneg body). simpl. lia.
Qed.

Lemma one_frame_eq t q n body bytes : bytes = Frame.Encode {| PacketType := t; Dup := false;
    QoS := q; Retain := false; RemainingLength := n |} ++ body →
  n = len body → 0 ≤ t < 16 → 0 ≤ q < 4 → n ≤ MaxRemainingLength → one_frame t bytes.
Proof. intros -> ->. apply one_frame_Encode. Qed.

(** ** Properties *)

(** C11: no packet decoder crashes the broker or loops: on any bytes after the fixed header,
    with any QoS and protocol version, each one returns a packet or an error. *)
Theorem decoders_total (data : list Z) (qos v : Z) :
  Forall byte_ok data →
  safe (DecodeConnectPacket data) ∧ safe (DecodePublishPacket data qos v) ∧
  safe (DecodePubackPacket data v) ∧ safe (DecodePubrecPacket data v) ∧
  safe (DecodePubrelPacket data v) ∧ safe (DecodePubcompPacket data v) ∧
  safe (DecodeSubscribePacket data v) ∧ safe (DecodeUnsubscribePacket data v) ∧
  safe (DecodeDisconnectPacket data).
Proof.
  intros Hd. split_and!; try apply ack_decode_safe; auto using DecodeConnectPacket_safe, DecodePublishPacket_safe,
    DecodeSubscribePacket_safe, DecodeUnsubscribePacket_safe, DecodeDisconnectPacket_safe.
Qed.

Lemma decoders_total_witness :
  safe (DecodeConnectPacket [0; 4; 77]) ∧ safe (DecodePublishPacket [0; 4; 77] 1 5) ∧
  safe (DecodePubackPacket [0; 4; 77] 5) ∧ safe (DecodePubrecPacket [0; 4; 77] 5) ∧
  safe (DecodePubrelPacket [0; 4; 77] 5) ∧ safe (DecodePubcompPacket [0; 4; 77] 5) ∧
  safe (DecodeSubscribePacket [0; 4; 77] 5) ∧ safe (DecodeUnsubscribePacket [0; 4; 77] 5) ∧
  safe (DecodeDisconnectPacket [0; 4; 77]).
Proof. apply decoders_total. repeat (constructor; [unfold byte_ok; lia|]). constructor. Defined.

(** C9: PUBLISH travels through the wire intact: from the head of any byte stream the frame
    reader cuts out exactly the packet the encoder wrote, with its DUP, QoS and RETAIN flags in
    the fixed header, and the decoder gives back topic, packet id, properties and payload. *)
Theorem publish_frame_roundtrip (p : PublishPacket) (r : reader) :
  publish_ok p →
  ReadPacket (PublishPacket_Encode p ++ r) = Ok (publish_header p, publish_body p, r) ∧
  DecodePublishPacket (publish_body p) (QoS (publish_header p)) (pub_ProtocolVersion p) =
    Ok (publish_received p).
Proof.
  intros Hok. split; [|by apply DecodePublishPacket_body].
  unfold PublishPacket_Encode. rewrite <- app_assoc.
  apply ReadPacket_Encode; [|apply publish_header_len].
  destruct Hok as (_ & _ & Hq & _ & _ & Hl). split; [done|]. split; [done|].
  rewrite publish_header_len. split; [apply len_nonneg|done].
Qed.

Definition sample_publish : PublishPacket :=
  {| pub_Topic := "a/b"; pub_PacketID := 513; pub_QoS := 1; pub_Dup := true; pub_Retain := true;
     pub_Payload := [104; 105]; pub_Properties := Some sample_props; pub_ProtocolVersion := 5 |}.

Lemma sample_section_ok : section_ok (Some sample_props).
Proof. split; [apply sample_props_ok|]. by vm_compute. Qed.

Lemma empty_section_ok : section_ok (Some emptyProps).
Proof.
  split; [|by vm_compute]. cbn [from_option]. unfold props_ok, opt_wf, emptyProps.
  split_and!; by constructor.
Qed.

Lemma publish_frame_roundtrip_witness :
  ReadPacket (PublishPacket_Encode sample_publish ++ [1; 2; 3]) =
    Ok (publish_header sample_publish, publish_body sample_publish, [1; 2; 3]) ∧
  DecodePublishPacket (publish_body sample_publish) 1 5 = Ok (publish_received sample_publish).
Proof.
  apply (publish_frame_roundtrip sample_publish).
  unfold publish_ok, u16_ok, slen. cbn [sample_publish pub_Topic pub_PacketID pub_QoS pub_Payload pub_Properties].
  split_and!; try apply sample_section_ok; try (by vm_compute).
  repeat (constructor; [by unfold byte_ok|]). constructor.
Defined.

(** The four acknowledgements of the QoS 1 and QoS 2 handshakes are read back from the
    stream with their packet id and, in version 5, their reason code and properties. *)
Theorem ack_frame_roundtrip (p : AckPacket) (r : reader) :
  ack_ok p →
  (ReadPacket (PubackPacket_Encode p ++ r) = Ok (ack_header PUBACK 0 p, ack_body p, r) ∧
   DecodePubackPacket (ack_body p) (ack_ProtocolVersion p) = Ok (ack_received p)) ∧
  (ReadPacket (PubrecPacket_Encode p ++ r) = Ok (ack_header PUBREC 0 p, ack_body p, r) ∧
   DecodePubrecPacket (ack_body p) (ack_ProtocolVersion p) = Ok (ack_received p)) ∧
  (ReadPacket (PubrelPacket_Encode p ++ r) = Ok (ack_header PUBREL 1 p, ack_body p, r) ∧
   DecodePubrelPacket (ack_body p) (ack_ProtocolVersion p) = Ok (ack_received p)) ∧
  (ReadPacket (PubcompPacket_Encode p ++ r) = Ok (ack_header PUBCOMP 0 p, ack_body p, r) ∧
   DecodePubcompPacket (ack_body p) (ack_ProtocolVersion p) = Ok (ack_received p)).
Proof.
  intros Hok. unfold PubackPacket_Encode, PubrecPacket_Encode, PubrelPacket_Encode, PubcompPacket_Encode.
  pose proof (len_nonneg (ack_body p)). pose proof Hok as (_ & _ & _ & Hl).
  rewrite !ack_encode_frame, <- !app_assoc.
  split_and!; try (by apply ack_decode_body); (apply ReadPacket_Encode; [|done]);
    unfold header_ok, ack_header; simpl; unfold PUBACK, PUBREC, PUBREL, PUBCOMP; lia.
Qed.

Lemma ack_frame_roundtrip_witness : let p :=
    {| ack_PacketID := 7; ack_ReasonCode := 16; ack_Properties := None; ack_ProtocolVersion := 5 |} in
  (ReadPacket (PubackPacket_Encode p ++ []) = Ok (ack_header PUBACK 0 p, ack_body p, []) ∧
   DecodePubackPacket (ack_body p) 5 = Ok (ack_received p)) ∧
  (ReadPacket (PubrecPacket_Encode p ++ []) = Ok (ack_header PUBREC 0 p, ack_body p, []) ∧
   DecodePubrecPacket (ack_body p) 5 = Ok (ack_received p)) ∧
  (ReadPacket (PubrelPacket_Encode p ++ []) = Ok (ack_header PUBREL 1 p, ack_body p, []) ∧
   DecodePubrelPacket (ack_body p) 5 = Ok (ack_received p)) ∧
  (ReadPacket (PubcompPacket_Encode p ++ []) = Ok (ack_header PUBCOMP 0 p, ack_body p, []) ∧
   DecodePubcompPacket (ack_body p) 5 = Ok (ack_received p)).
Proof.
  intros p. apply (ack_frame_roundtrip p []). unfold ack_ok, u16_ok, byte_ok, section_ok.
  split_and!; by vm_compute.
Defined.

(** The CONNECT decoder is complete for both protocol levels: every well-formed CONNECT,
    in the layout the MQTT standard gives it, is decoded to the fields it was written from,
    for every combination of its flags. *)
Theorem connect_complete (p : ConnectPacket) :
  connect_ok p → DecodeConnectPacket (connect_body p) = Ok p.
Proof. apply DecodeConnectPacket_body. Qed.

Lemma connect_complete_witness : let p :=
    {| con_ProtocolName := "MQTT"; con_ProtocolLevel := 5; con_CleanSession := true;
       con_KeepAlive := 60; con_ClientID := "c1"; con_WillFlag := true; con_WillQoS := 2;
       con_WillRetain := true; con_WillTopic := "w"; con_WillPayload := [1];
       con_UsernameFlag := true; con_PasswordFlag := false; con_Username := "u";
       con_Password := []; con_Properties := Some sample_props;
       con_WillProperties := Some emptyProps |} in
  DecodeConnectPacket (connect_body p) = Ok p.
Proof.
  intros p. apply connect_complete. unfold connect_ok, u16_ok. subst p. cbn.
  split; [by right|]. do 6 (split; [by vm_compute|]).
  split; [by repeat constructor|]. do 2 (split; [by vm_compute|]). split; [constructor|].
  split; [apply sample_section_ok|]. split; [apply empty_section_ok|]. by split_and!.
Defined.

(** The SUBSCRIBE and UNSUBSCRIBE decoders are complete: every packet with at least one
    topic filter is decoded to its packet id, its filters in order (with the requested QoS)
    and, in version 5, its properties. *)
Theorem subscribe_complete (v : Z) (p : SubscribePacket) (q : UnsubscribePacket) :
  subscribe_ok v p → unsubscribe_ok v q →
  DecodeSubscribePacket (subscribe_body v p) v = Ok p ∧
  DecodeUnsubscribePacket (unsubscribe_body v q) v = Ok q.
Proof. auto using DecodeSubscribePacket_body, DecodeUnsubscribePacket_body. Qed.

Lemma subscribe_complete_witness :
  let p := {| sub_PacketID := 10; sub_Subscriptions := [mkSub "a/+" 1; mkSub "#" 2];
              sub_Properties := Some sample_props |} in
  let q := {| uns_PacketID := 11; uns_TopicFilters := ["a/+"; "#"];
              uns_Properties := Some emptyProps |} in
  DecodeSubscribePacket (subscribe_body 5 p) 5 = Ok p ∧
  DecodeUnsubscribePacket (unsubscribe_body 5 q) 5 = Ok q.
Proof.
  intros p q. apply subscribe_complete; subst p q.
  - split; [by vm_compute|]. split; [apply sample_section_ok|]. split; [done|]. split; [done|].
    repeat (constructor; [by vm_compute|]). constructor.
  - split; [by vm_compute|]. split; [apply empty_section_ok|]. split; [done|]. split; [done|].
    repeat (constructor; [by vm_compute|]). constructor.
Defined.

(** The packets only the broker writes are well framed: their header announces exactly
    the bytes that follow, so that a client's next packet starts where this one ends. *)
Theorem broker_packets_framed (ca : ConnackPacket) (sa : SubackPacket) (ua : UnsubackPacket)
    (di : DisconnectPacket) :
  len (Props.Encode (cak_Properties ca)) + 2 ≤ MaxRemainingLength →
  len (Props.Encode (sak_Properties sa)) + len (sak_ReturnCodes sa) + 2 ≤ MaxRemainingLength →
  len (Props.Encode (uak_Properties ua)) + len (uak_ReasonCodes ua) + 2 ≤ MaxRemainingLength →
  len (Props.Encode (dis_Properties di)) + 1 ≤ MaxRemainingLength →
  one_frame CONNACK (ConnackPacket_Encode ca) ∧ one_frame SUBACK (SubackPacket_Encode sa) ∧
  one_frame UNSUBACK (UnsubackPacket_Encode ua) ∧ one_frame DISCONNECT (DisconnectPacket_Encode di) ∧
  one_frame PINGRESP EncodePingresp.
Proof.
  intros H1 H2 H3 H4.
  pose proof (len_nonneg (Props.Encode (sak_Properties sa))).
  pose proof (len_nonneg (sak_ReturnCodes sa)).
  unfold ConnackPacket_Encode, SubackPacket_Encode, UnsubackPacket_Encode, DisconnectPacket_Encode.
  split_and!; try case_match; try (eapply one_frame_eq; [reflexivity|lens; lia|done..|lia || done]).
  - eapply (one_frame_eq _ 0 _ []); [by rewrite app_nil_r|done..].
  - by apply (one_frame_eq PINGRESP 0 0 [] EncodePingresp).
Qed.

Lemma broker_packets_framed_witness :
  one_frame CONNACK (ConnackPacket_Encode {| cak_SessionPresent := true; cak_ReturnCode := 0;
    cak_ReasonCode := 0; cak_Properties := Some sample_props; cak_ProtocolVersion := 5 |}) ∧
  one_frame SUBACK (SubackPacket_Encode {| sak_PacketID := 1; sak_ReturnCodes := [0; 0x80];
    sak_Properties := None; sak_ProtocolVersion := 4 |}) ∧
  one_frame UNSUBACK (UnsubackPacket_Encode {| uak_PacketID := 1; uak_ReasonCodes := [];
    uak_Properties := None; uak_ProtocolVersion := 4 |}) ∧
  one_frame DISCONNECT (DisconnectPacket_Encode {| dis_ReasonCode := 0;
    dis_Properties := None; dis_ProtocolVersion := 5 |}) ∧
  one_frame PINGRESP EncodePingresp.
Proof. apply broker_packets_framed; by vm_compute. Defined.
