(* ===== verification/Subscriptions.v ===== *)
(** * The subscription index

    Model of [internal/broker/subscription.go]: the two maps of [SubscriptionIndex], the entry
    list of a filter and the filters of a client, with every operation that changes them, and
    the refinement of the abstract relation "client [c] subscribes to filter [f] with QoS [q]".
    Go iterates over maps in an unspecified order, so what a range loop computes is stated for
    every order. *)
From S2P Require Import Prelude Topic.
Import TopicMatcher.

Module Subscriptions.

Record SubscriptionMatch := mkMatch { m_ClientID : string; m_QoS : Z }.
Record subscriptionEntry := mkEntry { e_ClientID : string; e_QoS : Z }.

Record SubscriptionIndex := mkIndex {
  filters : gmap string (list subscriptionEntry);
  clients : gmap string (gset string)
}.

Definition NewSubscriptionIndex : SubscriptionIndex := mkIndex ∅ ∅.

(** The loop of [Add]: the first entry of the client gets the new QoS, in place. *)
Fixpoint set_entry_qos (clientID : string) (qos : Z) (entries : list subscriptionEntry)
    : option (list subscriptionEntry) :=
  match entries with
  | [] => None
  | e :: rest =>
      if decide (e_ClientID e = clientID) then Some (mkEntry (e_ClientID e) qos :: rest)
      else (e ::.) <$> set_entry_qos clientID qos rest
  end.

Definition Add (idx : SubscriptionIndex) (clientID filter : string) (qos : Z) : SubscriptionIndex :=
  let entries := default [] (filters idx !! filter) in
  match set_entry_qos clientID qos entries with
  | Some entries' => mkIndex (<[filter := entries']> (filters idx)) (clients idx)
  | None =>
      mkIndex (<[filter := entries ++ [mkEntry clientID qos]]> (filters idx))
              (<[clientID := {[filter]} ∪ default ∅ (clients idx !! clientID)]> (clients idx))
  end.

(** The loop of [Remove] and [RemoveAll]: [append(entries[:i], entries[i+1:]...)] at the first
    entry of the client, or nothing. *)
Fixpoint cut_entry (clientID : string) (entries : list subscriptionEntry)
    : option (list subscriptionEntry) :=
  match entries with
  | [] => None
  | e :: rest =>
      if decide (e_ClientID e = clientID) then Some rest
      else (e ::.) <$> cut_entry clientID rest
  end.

Definition drop_filter (clientID filter : string) (m : gmap string (list subscriptionEntry))
    : gmap string (list subscriptionEntry) :=
  let m := match cut_entry clientID (default [] (m !! filter)) with
           | Some entries' => <[filter := entries']> m
           | None => m
           end in
  if decide (default [] (m !! filter) = []) then delete filter m else m.

Definition Remove (idx : SubscriptionIndex) (clientID filter : string) : SubscriptionIndex :=
  mkIndex (drop_filter clientID filter (filters idx))
    (match clients idx !! clientID with
     | Some clientFilters =>
         let clientFilters := clientFilters ∖ {[filter]} in
         if decide (clientFilters = ∅) then delete clientID (clients idx)
         else <[clientID := clientFilters]> (clients idx)
     | None => clients idx
     end).

Definition RemoveAll (idx : SubscriptionIndex) (clientID : string) : SubscriptionIndex :=
  match clients idx !! clientID with
  | None => idx
  | Some fs =>
      mkIndex (foldr (drop_filter clientID) (filters idx) (elements fs)) (delete clientID (clients idx))
  end.

Definition AllFilters (idx : SubscriptionIndex) : list string := (map_to_list (filters idx)).*1.

Definition ClientFilters (idx : SubscriptionIndex) (clientID : string) : list string :=
  match clients idx !! clientID with Some fs => elements fs | None => [] end.

(** The body of the inner loop of [Match], and the loops, over an order of the entries. *)
Definition best_step (best : gmap string Z) (e : subscriptionEntry) : gmap string Z :=
  match best !! e_ClientID e with
  | Some existing => if existing <? e_QoS e then <[e_ClientID e := e_QoS e]> best else best
  | None => <[e_ClientID e := e_QoS e]> best
  end.

Definition match_step (topic : string) (best : gmap string Z)
    (fe : string * list subscriptionEntry) : gmap string Z :=
  if TopicMatch fe.1 topic then foldl best_step best fe.2 else best.

Definition match_best (order : list (string * list subscriptionEntry)) (topic : string)
    : gmap string Z := foldl (match_step topic) ∅ order.

Definition Match (idx : SubscriptionIndex) (topic : string) : list SubscriptionMatch :=
  (λ cq, mkMatch cq.1 cq.2) <$> map_to_list (match_best (map_to_list (filters idx)) topic).

Definition Count (idx : SubscriptionIndex) : Z :=
  foldr (λ fe count, count + len fe.2) 0 (map_to_list (filters idx)).

(** ** The abstract relation *)

(** The QoS a list of entries gives a client. *)
Fixpoint find_qos (c : string) (entries : list subscriptionEntry) : option Z :=
  match entries with
  | [] => None
  | e :: rest => if decide (e_ClientID e = c) then Some (e_QoS e) else find_qos c rest
  end.

Definition qos_in (m : gmap string (list subscriptionEntry)) (c f : string) : option Z :=
  find_qos c (default [] (m !! f)).

Definition sub_qos (idx : SubscriptionIndex) : string → string → option Z := qos_in (filters idx).

Definition entries_ok (es : list subscriptionEntry) : Prop := NoDup (e_ClientID <$> es).

Definition filters_ok (m : gmap string (list subscriptionEntry)) : Prop :=
  map_Forall (λ _ es, es ≠ [] ∧ entries_ok es) m.

Record index_ok (idx : SubscriptionIndex) : Prop := {
  ok_filters : filters_ok (filters idx);
  ok_clients : map_Forall (λ _ fs, fs ≠ ∅) (clients idx);
  ok_agree : ∀ c f, f ∈ default ∅ (clients idx !! c) ↔ is_Some (sub_qos idx c f)
}.

(** ** Entry lists *)

Lemma find_qos_elem es c q : entries_ok es → find_qos c es = Some q ↔ mkEntry c q ∈ es.
Proof.
  unfold entries_ok. induction es as [|[c' q'] es IH]; cbn; [by split; [|intros ?%not_elem_of_nil]|].
  intros [Hn Hd]%NoDup_cons. rewrite elem_of_cons. case_decide; subst.
  - split; [intros [= ->]; auto|]. intros [[= ->]|Hin]; [done|].
    destruct Hn. change c with (e_ClientID (mkEntry c q)). by apply list_elem_of_fmap_2.
  - rewrite IH by done. naive_solver.
Qed.

Lemma find_qos_None es c : find_qos c es = None ↔ c ∉ e_ClientID <$> es.
Proof.
  induction es as [|e es IH]; cbn; [split; [intros _ ?%not_elem_of_nil|]; done|].
  rewrite not_elem_of_cons. case_decide; [naive_solver|]. rewrite IH. naive_solver.
Qed.

Lemma set_entry_qos_spec c q es :
  match set_entry_qos c q es with
  | Some es' => e_ClientID <$> es' = e_ClientID <$> es ∧ is_Some (find_qos c es) ∧
                ∀ c', find_qos c' es' = if decide (c' = c) then Some q else find_qos c' es
  | None => find_qos c es = None
  end.
Proof.
  induction es as [|[c0 q0] es IH]; cbn; [done|]. case_decide; subst.
  - cbn. split; [done|]. split; [eauto|]. intros c'. repeat case_decide; congruence.
  - destruct (set_entry_qos c q es) as [es'|]; cbn; [|done].
    destruct IH as (-> & ? & Hf). split; [done|]. split; [done|].
    intros c'. rewrite Hf. repeat case_decide; congruence.
Qed.

Lemma cut_entry_spec c es : entries_ok es →
  match cut_entry c es with
  | Some es' => entries_ok es' ∧ is_Some (find_qos c es) ∧
                (∀ c', find_qos c' es' = if decide (c' = c) then None else find_qos c' es)
  | None => find_qos c es = None
  end ∧ (∀ es', cut_entry c es = Some es' → e_ClientID <$> es' ⊆ e_ClientID <$> es).
Proof.
  unfold entries_ok. induction es as [|[c0 q0] es IH]; cbn; [done|].
  intros [Hn Hd]%NoDup_cons. case_decide; subst; cbn.
  - split; [|intros es' [= <-]; set_solver].
    split; [done|]. split; [eauto|]. intros c'. repeat case_decide; subst; try done.
    by apply find_qos_None.
  - destruct IH as [IH Hsub]; [done|]. destruct (cut_entry c es) as [es'|]; cbn; [|done].
    destruct IH as (Hd' & ? & Hf). specialize (Hsub _ eq_refl).
    split; [|intros ? [= <-]; cbn; set_solver]. split; [apply NoDup_cons; split; [set_solver|done]|].
    split; [done|]. intros c'. rewrite Hf. repeat case_decide; congruence.
Qed.

(** ** The maps *)

Lemma default_entries_ok m f : filters_ok m → entries_ok (default [] (m !! f)).
Proof.
  intros Hm. destruct (m !! f) as [es|] eqn:E; [|constructor]. by apply (Hm f es) in E as [_ ?].
Qed.

Lemma qos_in_insert m f es c f' :
  qos_in (<[f := es]> m) c f' = if decide (f' = f) then find_qos c es else qos_in m c f'.
Proof.
  unfold qos_in. case_decide; subst; [by rewrite lookup_insert_eq|]. by rewrite lookup_insert_ne.
Qed.

Lemma drop_filter_ok c f m : filters_ok m → filters_ok (drop_filter c f m).
Proof.
  intros Hm. unfold drop_filter.
  destruct (cut_entry_spec c (default [] (m !! f)) (default_entries_ok m f Hm)) as [Hcut _].
  destruct (cut_entry c _) as [es'|].
  - rewrite lookup_insert_eq. cbn. destruct Hcut as [Hd _]. case_decide.
    + rewrite delete_insert_eq. by apply map_Forall_delete.
    + by apply map_Forall_insert_2.
  - case_decide; [by apply map_Forall_delete|done].
Qed.

Lemma qos_in_delete_nil m f c' f' : default [] (m !! f) = [] →
  qos_in (delete f m) c' f' = qos_in m c' f'.
Proof.
  intros Hn. unfold qos_in. destruct (decide (f' = f)) as [->|];
    [by rewrite lookup_delete_eq, Hn|by rewrite lookup_delete_ne].
Qed.

Lemma qos_in_drop_filter c f m c' f' : filters_ok m →
  qos_in (drop_filter c f m) c' f' =
  if decide (c' = c ∧ f' = f) then None else qos_in m c' f'.
Proof.
  intros Hm. unfold drop_filter.
  destruct (cut_entry_spec c (default [] (m !! f)) (default_entries_ok m f Hm)) as [Hcut _].
  destruct (cut_entry c _) as [es'|].
  - destruct Hcut as (_ & _ & Hf).
    assert (∀ m', qos_in m' c' f' = qos_in (<[f:=es']> m) c' f' →
      qos_in m' c' f' = if decide (c' = c ∧ f' = f) then None else qos_in m c' f') as H.
    { intros m' ->. rewrite qos_in_insert. unfold qos_in. repeat case_decide; subst; try tauto;
      rewrite ?Hf; repeat case_decide; tauto. }
    apply H. destruct (decide (default [] _ = [])); [by apply qos_in_delete_nil|done].
  - assert (∀ m', qos_in m' c' f' = qos_in m c' f' →
      qos_in m' c' f' = if decide (c' = c ∧ f' = f) then None else qos_in m c' f') as H.
    { intros m' ->. case_decide as Hd; [|done]. destruct Hd as [-> ->]. exact Hcut. }
    apply H. destruct (decide (default [] _ = [])); [by apply qos_in_delete_nil|done].
Qed.

Lemma drop_filters_spec c fs m : filters_ok m →
  filters_ok (foldr (drop_filter c) m fs) ∧
  ∀ c' f', qos_in (foldr (drop_filter c) m fs) c' f' =
    if decide (c' = c ∧ f' ∈ fs) then None else qos_in m c' f'.
Proof.
  intros Hm. induction fs as [|f fs [IH1 IH2]]; cbn.
  - split; [done|]. intros c' f'. case_decide as Hd; [|done]. by destruct Hd as [_ ?%not_elem_of_nil].
  - split; [by apply drop_filter_ok|]. intros c' f'. rewrite qos_in_drop_filter, IH2 by done.
    repeat case_decide; set_solver.
Qed.

(** ** Every operation keeps the invariant and updates the relation *)

Lemma index_ok_New : index_ok NewSubscriptionIndex.
Proof. split; [done..|]. intros c f. cbn. split; [set_solver|by intros []]. Qed.

Lemma Add_sub_qos idx c f q c' f' :
  sub_qos (Add idx c f q) c' f' =
  if decide (c' = c ∧ f' = f) then Some q else sub_qos idx c' f'.
Proof.
  unfold Add, sub_qos. pose proof (set_entry_qos_spec c q (default [] (filters idx !! f))) as Hs.
  destruct (set_entry_qos _ _ _) as [es'|]; cbn; rewrite qos_in_insert.
  - destruct Hs as (_ & _ & Hf). rewrite Hf. unfold qos_in.
    repeat case_decide; subst; tauto.
  - unfold qos_in in *. set (es := default [] _) in *.
    assert (∀ c0, find_qos c0 (es ++ [mkEntry c q]) =
      if decide (c0 = c) then Some q else find_qos c0 es) as ->.
    { clear -Hs. intros c0. induction es as [|e es IH]; cbn in *; [repeat case_decide; congruence|].
      repeat case_decide; subst; try done; by apply IH. }
    subst es. repeat case_decide; subst; tauto.
Qed.

Lemma Add_ok idx c f q : index_ok idx → index_ok (Add idx c f q).
Proof.
  intros Hok. pose proof (Add_sub_qos idx c f q) as Hsub. revert Hsub. unfold Add.
  pose proof (set_entry_qos_spec c q (default [] (filters idx !! f))) as Hs.
  pose proof (default_entries_ok _ f (ok_filters _ Hok)) as Hes.
  destruct (set_entry_qos _ _ _) as [es'|]; intros Hsub; split; cbn.
  - destruct Hs as (Hids & [q' Hq] & _). apply map_Forall_insert_2; [|apply Hok].
    split; [|unfold entries_ok; by rewrite Hids]. intros ->. cbn in Hids.
    destruct (default [] (filters idx !! f)); done.
  - apply Hok.
  - intros c' f'. rewrite Hsub, (ok_agree _ Hok). case_decide as Hd; [|done].
    destruct Hd as [-> ->]. split; [eauto|]. intros _. apply Hs.
  - apply map_Forall_insert_2; [|apply Hok]. split; [by destruct (default _ _)|].
    unfold entries_ok. rewrite fmap_app. apply find_qos_None in Hs. apply NoDup_app. cbn.
    split; [done|]. split; [set_solver|]. apply NoDup_singleton.
  - apply map_Forall_insert_2; [set_solver|apply Hok].
  - intros c' f'. rewrite Hsub. pose proof (ok_agree _ Hok c' f') as Ha.
    destruct (decide (c' = c)) as [->|].
    + rewrite lookup_insert_eq. cbn. rewrite elem_of_union, elem_of_singleton, Ha.
      case_decide as Hd; [naive_solver|]. naive_solver.
    + rewrite lookup_insert_ne by done. rewrite Ha. case_decide; naive_solver.
Qed.

Lemma Remove_sub_qos idx c f c' f' : index_ok idx →
  sub_qos (Remove idx c f) c' f' = if decide (c' = c ∧ f' = f) then None else sub_qos idx c' f'.
Proof. intros Hok. apply qos_in_drop_filter, Hok. Qed.

Lemma Remove_ok idx c f : index_ok idx → index_ok (Remove idx c f).
Proof.
  intros Hok. pose proof (λ c' f', Remove_sub_qos idx c f c' f' Hok) as Hsub.
  split; [apply drop_filter_ok, Hok|..].
  - cbn. pose proof (ok_clients _ Hok). destruct (clients idx !! c) as [fs|]; [|done].
    case_decide; [by apply map_Forall_delete|]. by apply map_Forall_insert_2.
  - intros c' f'. rewrite Hsub. pose proof (ok_agree _ Hok c' f') as Ha. cbn.
    assert (default ∅ ((match clients idx !! c with
      | Some fs => if decide (fs ∖ {[f]} = ∅) then delete c (clients idx)
                   else <[c := fs ∖ {[f]}]> (clients idx)
      | None => clients idx end) !! c') ≡
      if decide (c' = c) then default ∅ (clients idx !! c) ∖ {[f]} else default ∅ (clients idx !! c'))
      as ->.
    { case_decide as Hc; subst.
      - destruct (clients idx !! c) as [fs|] eqn:E; cbn; [|rewrite E; set_solver].
        case_decide as He; [rewrite lookup_delete_eq; cbn; by rewrite He|by rewrite lookup_insert_eq].
      - destruct (clients idx !! c) as [fs|] eqn:E; [|done].
        case_decide; [by rewrite lookup_delete_ne|by rewrite lookup_insert_ne]. }
    repeat case_decide; subst; rewrite ?elem_of_difference, ?elem_of_singleton, ?Ha;
      naive_solver.
Qed.

Lemma RemoveAll_sub_qos idx c c' f' : index_ok idx →
  sub_qos (RemoveAll idx c) c' f' = if decide (c' = c) then None else sub_qos idx c' f'.
Proof.
  intros Hok. unfold RemoveAll. pose proof (ok_agree _ Hok c f') as Ha. revert Ha.
  destruct (clients idx !! c) as [fs|] eqn:E; cbn; intros Ha.
  - unfold sub_qos at 1. cbn. rewrite (proj2 (drop_filters_spec c _ _ (ok_filters _ Hok))).
    unfold sub_qos in *. destruct (decide (c' = c)) as [->|].
    + destruct (decide (c = c ∧ _)) as [|Hd]; [done|]. rewrite elem_of_elements in Hd.
      apply eq_None_not_Some. tauto.
    + destruct (decide (c' = c ∧ _)); [tauto|done].
  - case_decide; [subst|done]. apply eq_None_not_Some. set_solver.
Qed.

Lemma RemoveAll_ok idx c : index_ok idx → index_ok (RemoveAll idx c).
Proof.
  intros Hok. pose proof (λ c' f', RemoveAll_sub_qos idx c c' f' Hok) as Hsub. revert Hsub. unfold RemoveAll.
  destruct (clients idx !! c) as [fs|] eqn:E; intros Hsub; [|done]. split; cbn.
  - apply drop_filters_spec, Hok.
  - apply map_Forall_delete, Hok.
  - intros c' f'. rewrite Hsub. destruct (decide (c' = c)) as [->|].
    + rewrite lookup_delete_eq. cbn. split; [set_solver|by intros []].
    + rewrite lookup_delete_ne by done. apply Hok.
Qed.

(** ** Matching *)

Definition max_opt (o : option Z) (q : Z) : option Z :=
  match o with Some e => Some (if e <? q then q else e) | None => Some q end.

Lemma best_step_lookup best e c :
  best_step best e !! c = if decide (e_ClientID e = c) then max_opt (best !! c) (e_QoS e) else best !! c.
Proof.
  unfold best_step, max_opt. case_decide as Hd; [subst|].
  - destruct (best !! e_ClientID e) as [x|] eqn:E; [|by rewrite lookup_insert_eq].
    case_match; [by rewrite lookup_insert_eq|done].
  - destruct (best !! e_ClientID e) as [x|] eqn:E; [|by rewrite lookup_insert_ne].
    case_match; [by rewrite lookup_insert_ne|done].
Qed.

(** [best] holds, for each client, the largest of the values [P] allows. *)
Definition is_best (P : string → Z → Prop) (best : gmap string Z) : Prop :=
  ∀ c, match best !! c with
       | Some q => P c q ∧ ∀ q', P c q' → q' ≤ q
       | None => ∀ q', ¬ P c q'
       end.

Lemma is_best_step P best e : is_best P best →
  is_best (λ c q, P c q ∨ e = mkEntry c q) (best_step best e).
Proof.
  intros H c. specialize (H c). rewrite best_step_lookup. destruct e as [c0 q0]; cbn.
  case_decide; subst; unfold max_opt; destruct (best !! c) as [x|].
  - destruct H as [H1 H2]. destruct (Z.ltb_spec x q0).
    + split; [by right|]. intros q' [Hq'|[= ->]]; [specialize (H2 _ Hq')|]; lia.
    + split; [by left|]. intros q' [Hq'|[= ->]]; [by apply H2|lia].
  - split; [by right|]. intros q' [Hq'|[= ->]]; [by apply H in Hq'|lia].
  - destruct H as [H1 H2]. split; [by left|]. intros q' [Hq'|[= -> ->]]; [by apply H2|done].
  - intros q' [Hq'|[= -> ->]]; [by apply H in Hq'|done].
Qed.

Lemma is_best_ext P Q best : (∀ c q, P c q ↔ Q c q) → is_best P best → is_best Q best.
Proof.
  intros HPQ H c. specialize (H c). destruct (best !! c).
  - destruct H as [H1 H2]. split; [by apply HPQ|]. intros q' ?%HPQ. auto.
  - intros q' ?%HPQ. by eapply H.
Qed.

Lemma is_best_entries es : ∀ P best, is_best P best →
  is_best (λ c q, P c q ∨ mkEntry c q ∈ es) (foldl best_step best es).
Proof.
  induction es as [|e es IH]; intros P best H; cbn.
  - eapply is_best_ext; [|exact H]. intros c q. cbn. split; [auto|]. intros [?|?%not_elem_of_nil]; done.
  - apply is_best_step with (e := e) in H. apply IH in H. eapply is_best_ext; [|exact H].
    intros c q. cbn. rewrite elem_of_cons. naive_solver.
Qed.

Lemma match_best_spec order topic : is_best
  (λ c q, ∃ f es, (f, es) ∈ order ∧ TopicMatch f topic = true ∧ mkEntry c q ∈ es)
  (match_best order topic).
Proof.
  unfold match_best. assert (∀ P best, is_best P best → is_best
    (λ c q, P c q ∨ ∃ f es, (f, es) ∈ order ∧ TopicMatch f topic = true ∧ mkEntry c q ∈ es)
    (foldl (match_step topic) best order)) as H.
  { induction order as [|[f es] order IH]; intros P best HP; cbn [foldl].
    - eapply is_best_ext; [|exact HP]. intros c q. cbn. split; [auto|].
      intros [?|(?&?&?%not_elem_of_nil&_)]; done.
    - assert (is_best (λ c q, P c q ∨ (TopicMatch f topic = true ∧ mkEntry c q ∈ es))
        (match_step topic best (f, es))) as H.
      { unfold match_step. cbn [fst snd]. destruct (TopicMatch f topic).
        - eapply is_best_ext; [|by apply is_best_entries]. naive_solver.
        - eapply is_best_ext; [|exact HP]. naive_solver. }
      apply IH in H. eapply is_best_ext; [|exact H]. intros c q. cbn beta.
      setoid_rewrite elem_of_cons. naive_solver. }
  eapply is_best_ext; [|apply (H (λ _ _, False))].
  - naive_solver.
  - intros c. rewrite lookup_empty. tauto.
Qed.

(** The result does not depend on the order in which Go visits the map. *)
Lemma is_best_unique P b1 b2 : is_best P b1 → is_best P b2 → b1 = b2.
Proof.
  intros H1 H2. apply map_eq. intros c. specialize (H1 c). specialize (H2 c).
  destruct (b1 !! c) as [x|], (b2 !! c) as [y|]; try done.
  - f_equal. apply Z.le_antisymm; [by apply H2, H1|by apply H1, H2].
  - exfalso. by eapply H2, H1.
  - exfalso. by eapply H1, H2.
Qed.

Lemma match_best_order o1 o2 topic : o1 ≡ₚ o2 → match_best o1 topic = match_best o2 topic.
Proof.
  intros Hp. eapply is_best_unique; [apply match_best_spec|].
  eapply is_best_ext; [|apply match_best_spec]. intros c q. cbn. by setoid_rewrite Hp.
Qed.

Lemma Match_elem idx topic c q :
  mkMatch c q ∈ Match idx topic ↔ match_best (map_to_list (filters idx)) topic !! c = Some q.
Proof.
  unfold Match. rewrite list_elem_of_fmap. setoid_rewrite <- elem_of_map_to_list. split.
  - intros ([c' q'] & [= -> ->] & ?). done.
  - intros ?. by exists (c, q).
Qed.

Lemma Match_NoDup idx topic : NoDup (m_ClientID <$> Match idx topic).
Proof.
  unfold Match. rewrite <- list_fmap_compose. apply NoDup_fst_map_to_list.
Qed.

Lemma Match_is_best idx topic : index_ok idx → is_best
  (λ c q, ∃ f, TopicMatch f topic = true ∧ sub_qos idx c f = Some q)
  (match_best (map_to_list (filters idx)) topic).
Proof.
  intros Hok. eapply is_best_ext; [|apply match_best_spec]. intros c q. cbn.
  setoid_rewrite elem_of_map_to_list. unfold sub_qos, qos_in. split.
  - intros (f & es & Hf & Ht & Hin). exists f. split; [done|]. rewrite Hf. cbn.
    apply find_qos_elem; [|done]. by apply (ok_filters _ Hok f es).
  - intros (f & Ht & Hq). destruct (filters idx !! f) as [es|] eqn:E; [|done].
    exists f, es. split_and!; [done..|]. apply find_qos_elem; [|done].
    by apply (ok_filters _ Hok f es).
Qed.

(** ** Histories of the index *)

Inductive op :=
  | OpAdd (clientID filter : string) (qos : Z)
  | OpRemove (clientID filter : string)
  | OpRemoveAll (clientID : string).

Definition step (idx : SubscriptionIndex) (o : op) : SubscriptionIndex :=
  match o with
  | OpAdd c f q => Add idx c f q
  | OpRemove c f => Remove idx c f
  | OpRemoveAll c => RemoveAll idx c
  end.

Definition run (ops : list op) : SubscriptionIndex := foldl step NewSubscriptionIndex ops.

(** The specification: a partial function from (client, filter) to the QoS, updated pointwise. *)
Definition spec_step (s : string → string → option Z) (o : op) : string → string → option Z :=
  λ c f, match o with
         | OpAdd c' f' q => if decide (c = c' ∧ f = f') then Some q else s c f
         | OpRemove c' f' => if decide (c = c' ∧ f = f') then None else s c f
         | OpRemoveAll c' => if decide (c = c') then None else s c f
         end.

Definition spec_run (ops : list op) : string → string → option Z :=
  foldl spec_step (λ _ _, None) ops.

Lemma step_ok idx o : index_ok idx → index_ok (step idx o).
Proof. destruct o; cbn; auto using Add_ok, Remove_ok, RemoveAll_ok. Qed.

Lemma step_refines idx o c f : index_ok idx →
  sub_qos (step idx o) c f = spec_step (sub_qos idx) o c f.
Proof.
  intros Hok. destruct o; cbn [step spec_step];
    [apply Add_sub_qos|by apply Remove_sub_qos|by apply RemoveAll_sub_qos].
Qed.

Lemma run_refines ops : index_ok (run ops) ∧ ∀ c f, sub_qos (run ops) c f = spec_run ops c f.
Proof.
  unfold run, spec_run. induction ops as [|o ops [IH1 IH2]] using rev_ind.
  - split; [apply index_ok_New|done].
  - rewrite !foldl_app. cbn [foldl]. split; [by apply step_ok|]. intros c f.
    rewrite step_refines by done. unfold spec_step. destruct o; by rewrite IH2.
Qed.

(** ** Properties *)

(** C12: after any history of subscribes, unsubscribes and client removals the two maps of the
    index are consistent (no empty filter, no empty client, no client twice under a filter,
    each direction the inverse of the other) and they record exactly the subscriptions that
    the history leaves, with the QoS last asked for. *)
Theorem SubscriptionIndex_refines (ops : list op) :
  index_ok (run ops) ∧
  (∀ c f, sub_qos (run ops) c f = spec_run ops c f) ∧
  (∀ c f, f ∈ ClientFilters (run ops) c ↔ is_Some (spec_run ops c f)) ∧
  (∀ f, f ∈ AllFilters (run ops) ↔ ∃ c, is_Some (spec_run ops c f)).
Proof.
  destruct (run_refines ops) as [Hok Href]. split; [done|]. split; [done|]. split.
  - intros c f. rewrite <- Href, <- (ok_agree _ Hok). unfold ClientFilters.
    destruct (clients (run ops) !! c); cbn; [apply elem_of_elements|].
    split; [by intros ?%not_elem_of_nil|set_solver].
  - intros f. unfold AllFilters. rewrite list_elem_of_fmap. setoid_rewrite <- Href. split.
    + intros ([f' es] & -> & Hin%elem_of_map_to_list). cbn.
      destruct (ok_filters _ Hok _ _ Hin) as [Hne _]. destruct es as [|e es]; [done|].
      exists (e_ClientID e). unfold sub_qos, qos_in. rewrite Hin. cbn. case_decide; [eauto|done].
    + intros (c & q & Hq). unfold sub_qos, qos_in in Hq.
      destruct (filters (run ops) !! f) as [es|] eqn:E; [|done].
      exists (f, es). split; [done|]. by apply elem_of_map_to_list.
Qed.

(** Who a topic is matched with, by the history. *)
Lemma Match_history (ops : list op) (topic c : string) (q : Z) :
  mkMatch c q ∈ Match (run ops) topic ↔
    (∃ f, TopicMatch f topic = true ∧ spec_run ops c f = Some q) ∧
    ∀ f q', TopicMatch f topic = true → spec_run ops c f = Some q' → q' ≤ q.
Proof.
  destruct (run_refines ops) as [Hok Href]. rewrite Match_elem. setoid_rewrite <- Href.
  pose proof (Match_is_best _ topic Hok c) as Hb. destruct (_ !! c) as [x|].
  - destruct Hb as [Hx Hmax]. split; [intros [= ->]; split; [done|naive_solver]|].
    intros [Hq Hq']. destruct Hx as (f & ? & ?). f_equal.
    apply Z.le_antisymm; [by eapply Hq'|naive_solver].
  - split; [done|]. intros [Hq _]. by apply Hb in Hq.
Qed.

(** C2: a publish reaches exactly the clients with a matching subscription, each once, at the
    highest QoS among the client's matching filters, whatever order Go visits the maps in. *)
Theorem Match_correct (ops : list op) (topic : string) (order : list (string * list subscriptionEntry)) :
  order ≡ₚ map_to_list (filters (run ops)) →
  NoDup (m_ClientID <$> Match (run ops) topic) ∧
  match_best order topic = match_best (map_to_list (filters (run ops))) topic ∧
  ∀ c q, mkMatch c q ∈ Match (run ops) topic ↔
    (∃ f, TopicMatch f topic = true ∧ spec_run ops c f = Some q) ∧
    ∀ f q', TopicMatch f topic = true → spec_run ops c f = Some q' → q' ≤ q.
Proof.
  intros Hperm. destruct (run_refines ops) as [Hok _].
  split; [apply Match_NoDup|]. split; [by apply match_best_order|].
  intros c q. apply Match_history.
Qed.

Lemma Match_correct_witness :
  let ops := [OpAdd "c1" "a/+" 0; OpAdd "c1" "a/#" 2; OpAdd "c2" "b" 1; OpRemove "c2" "b"] in
  m_ClientID <$> Match (run ops) "a/x" = ["c1"] ∧ m_QoS <$> Match (run ops) "a/x" = [2] ∧
  NoDup (m_ClientID <$> Match (run ops) "a/x").
Proof.
  intros ops. split; [by vm_compute|]. split; [by vm_compute|].
  apply (Match_correct ops "a/x" (map_to_list (filters (run ops)))). reflexivity.
Defined.

End Subscriptions.
