(* ===== verification/Delivery.v ===== *)
(** * Packet identifiers, messages in flight, QoS 2 deduplication

    Model of [internal/broker/packet_id.go], [inflight.go] and [dedup.go]: the state each client
    connection (the first two) and the broker (the last) keep for QoS 1 and QoS 2.  The clock is
    an argument: [now] is the value [time.Now()] returns, in nanoseconds. *)
From S2P Require Import Prelude.

Module Delivery.

(** ** PacketIDAllocator *)

Record PacketIDAllocator := mkAlloc { counter : Z }.

Definition NewPacketIDAllocator : PacketIDAllocator := mkAlloc 0.

Definition Next (a : PacketIDAllocator) : Z * PacketIDAllocator :=
  let counter := u16 (counter a + 1) in
  let counter := if counter =? 0 then 1 else counter in
  (counter, mkAlloc counter).

(** The first [n] identifiers an allocator hands out, and the state after them. *)
Fixpoint take_ids (n : nat) (a : PacketIDAllocator) : list Z * PacketIDAllocator :=
  match n with
  | O => ([], a)
  | S n => let '(i, a) := Next a in let '(ids, a) := take_ids n a in (i :: ids, a)
  end.

(** ** InflightStore *)

Record InflightMessage := {
  inf_PacketID : Z;
  inf_Topic : string;
  inf_Payload : list Z;
  inf_QoS : Z;
  inf_Timestamp : Z
}.

Record InflightStore := mkInflight { messages : gmap Z InflightMessage; limit : Z }.

Definition NewInflightStore (limit : Z) : InflightStore := mkInflight ∅ limit.

Definition map_len {K A} `{Countable K} (m : gmap K A) : Z := Z.of_nat (size m).

Definition Inflight_Add (s : InflightStore) (msg : InflightMessage) : bool * InflightStore :=
  if limit s <=? map_len (messages s) then (false, s)
  else (true, mkInflight (<[inf_PacketID msg := msg]> (messages s)) (limit s)).

Definition Inflight_Get (s : InflightStore) (packetID : Z) : option InflightMessage :=
  messages s !! packetID.

Definition Inflight_Remove (s : InflightStore) (packetID : Z) : InflightStore :=
  mkInflight (delete packetID (messages s)) (limit s).

Definition Inflight_Count (s : InflightStore) : Z := map_len (messages s).

(** ** DedupStore *)

Record DedupStore := mkDedup { entries : gmap string Z; ttl : Z }.

Definition NewDedupStore (ttl : Z) : DedupStore := mkDedup ∅ ttl.

Definition dedupKey (clientID : string) (packetID : Z) : string :=
  clientID +:+ ":" +:+ pretty packetID.

Definition IsDuplicate (now : Z) (d : DedupStore) (clientID : string) (packetID : Z)
    : bool * DedupStore :=
  let key := dedupKey clientID packetID in
  match entries d !! key with
  | None => (false, d)
  | Some expiresAt =>
      if expiresAt <? now then (false, mkDedup (delete key (entries d)) (ttl d)) else (true, d)
  end.

Definition MarkReceived (now : Z) (d : DedupStore) (clientID : string) (packetID : Z) : DedupStore :=
  mkDedup (<[dedupKey clientID packetID := now + ttl d]> (entries d)) (ttl d).

Definition Dedup_Remove (d : DedupStore) (clientID : string) (packetID : Z) : DedupStore :=
  mkDedup (delete (dedupKey clientID packetID) (entries d)) (ttl d).

(** The ticker of [StartCleanup] runs this between the other operations. *)
Definition cleanup (now : Z) (d : DedupStore) : DedupStore :=
  mkDedup (filter (λ ke, ¬ ke.2 < now) (entries d)) (ttl d).

(** ** The identifiers *)

Definition id_at (k : Z) : Z := k mod 65535 + 1.

Lemma Next_id k : 0 ≤ k → Next (mkAlloc (id_at (k - 1))) = (id_at k, mkAlloc (id_at k)).
Proof.
  intros Hk. unfold Next, id_at, u16. cbn.
  assert (Hm := Z.mod_pos_bound (k - 1) 65535).
  assert ((k - 1) mod 65535 = 65534 ∧ k mod 65535 = 0 ∨
          (k - 1) mod 65535 < 65534 ∧ k mod 65535 = (k - 1) mod 65535 + 1) as [[H1 H2]|[H1 H2]].
  { pose proof (Z.div_mod (k - 1) 65535). destruct (decide ((k - 1) mod 65535 = 65534)).
    - left. split; [done|]. symmetry. apply (Z.mod_unique _ _ ((k - 1) / 65535 + 1)); lia.
    - right. split; [lia|]. symmetry. apply (Z.mod_unique _ _ ((k - 1) / 65535)); lia. }
  - rewrite H1, H2. reflexivity.
  - rewrite H2. rewrite Z.mod_small by lia. ztests. done.
Qed.

Lemma Next_first : Next NewPacketIDAllocator = (id_at 0, mkAlloc (id_at 0)).
Proof. reflexivity. Qed.

Lemma take_ids_from n k : 0 ≤ k →
  take_ids n (mkAlloc (id_at (k - 1))) =
  (id_at <$> seqZ k (Z.of_nat n), mkAlloc (id_at (k + Z.of_nat n - 1))).
Proof.
  revert k. induction n as [|n IH]; intros k Hk; cbn [take_ids].
  - rewrite Z.add_0_r. done.
  - rewrite Next_id by done. pose proof (IH (k + 1) ltac:(lia)) as E.
    replace (k + 1 - 1) with k in E by lia. rewrite E, (seqZ_cons k) by lia.
    cbn [fmap list_fmap]. rewrite Nat2Z.inj_succ, Z.pred_succ, <- Z.add_1_r. do 3 f_equal. lia.
Qed.

Lemma take_ids_New n : (0 < n)%nat → take_ids n NewPacketIDAllocator =
  (id_at <$> seqZ 0 (Z.of_nat n), mkAlloc (id_at (Z.of_nat n - 1))).
Proof.
  destruct n as [|n]; [lia|]. intros _. cbn [take_ids]. rewrite Next_first.
  pose proof (take_ids_from n 1 ltac:(lia)) as E. change (1 - 1) with 0 in E.
  rewrite E, (seqZ_cons 0) by lia. cbn [fmap list_fmap].
  rewrite Nat2Z.inj_succ, Z.pred_succ. do 3 f_equal. lia.
Qed.

(** ** The dedup keys *)

Lemma pretty_N_go_no_colon x s : Contains s ":" = false → Contains (pretty_N_go x s) ":" = false.
Proof.
  revert s. induction (N.lt_wf_0 x) as [x _ IH]; intros s Hs.
  destruct (decide (0 < x)%N).
  - rewrite pretty_N_go_step by done. apply IH; [by apply N.div_lt|].
    cbn [Contains]. rewrite Hs, orb_false_r. unfold pretty_N_char.
    repeat case_match; done.
  - assert (x = 0%N) as -> by lia. by rewrite pretty_N_go_0.
Qed.

Lemma pretty_Z_no_colon (z : Z) : Contains (pretty z) ":" = false.
Proof.
  assert (∀ n : N, Contains (pretty n) ":" = false) as HN.
  { intros n. unfold pretty, pretty_N. case_decide; [done|]. by apply pretty_N_go_no_colon. }
  destruct z; [done|apply HN|]. unfold pretty, pretty_Z. cbn. apply HN.
Qed.

Lemma dedupKey_inj c i c' i' : dedupKey c i = dedupKey c' i' → c = c' ∧ i = i'.
Proof.
  unfold dedupKey. intros H.
  change (c +:+ String ":" (pretty i) = c' +:+ String ":" (pretty i')) in H.
  apply app_sep_inj in H as [-> Hi%(inj pretty)]; auto using pretty_Z_no_colon.
Qed.

(** ** Histories of a dedup store *)

Inductive dop :=
  | DMark (now : Z) (clientID : string) (packetID : Z)
  | DQuery (now : Z) (clientID : string) (packetID : Z)
  | DRemove (clientID : string) (packetID : Z)
  | DCleanup (now : Z).

Definition dstep (d : DedupStore) (o : dop) : DedupStore :=
  match o with
  | DMark now c i => MarkReceived now d c i
  | DQuery now c i => (IsDuplicate now d c i).2
  | DRemove c i => Dedup_Remove d c i
  | DCleanup now => cleanup now d
  end.

(** The times of a history never run backwards past [t]. *)
Definition dop_time (o : dop) : option Z :=
  match o with DMark t _ _ | DQuery t _ _ | DCleanup t => Some t | DRemove _ _ => None end.

(** The specification: when the pair was last marked and not removed since. *)
Definition marked_step (c : string) (i : Z) (m : option Z) (o : dop) : option Z :=
  match o with
  | DMark now c' i' => if decide (c' = c ∧ i' = i) then Some now else m
  | DRemove c' i' => if decide (c' = c ∧ i' = i) then None else m
  | DQuery _ _ _ | DCleanup _ => m
  end.

Definition marked (c : string) (i : Z) (ops : list dop) : option Z := foldl (marked_step c i) None ops.

(** What a query at time [now] answers from the mark. *)
Definition live (ttl now : Z) (m : option Z) : bool :=
  match m with Some t => negb (t + ttl <? now) | None => false end.

(** The entry of a pair is its mark, or has been dropped after it expired. *)
Definition entry_ok (ttl now : Z) (e m : option Z) : Prop :=
  match e with
  | Some x => ∃ t, m = Some t ∧ x = t + ttl
  | None => match m with Some t => t + ttl < now | None => True end
  end.

Lemma entry_ok_mono ttl now now' e m : now ≤ now' → entry_ok ttl now e m → entry_ok ttl now' e m.
Proof. unfold entry_ok. destruct e, m; try done. lia. Qed.

Definition dedup_inv (now : Z) (d : DedupStore) (mark : string → Z → option Z) : Prop :=
  ∀ c i, entry_ok (ttl d) now (entries d !! dedupKey c i) (mark c i).

Lemma decide_key c i c' i' {A} (x y : A) :
  (if decide (dedupKey c i = dedupKey c' i') then x else y) =
  (if decide (c = c' ∧ i = i') then x else y).
Proof.
  repeat case_decide; try done; exfalso.
  - eauto using dedupKey_inj.
  - by destruct_and!; subst.
Qed.

Lemma dedup_step_inv now d o mark : dedup_inv now d mark →
  (∀ t, dop_time o = Some t → t ≤ now) →
  dedup_inv now (dstep d o) (λ c i, marked_step c i (mark c i) o) ∧ ttl (dstep d o) = ttl d.
Proof.
  intros Hinv Ht. destruct o as [t c i|t c i|c i|t]; cbn [dstep marked_step].
  - split; [|done]. intros c' i'. specialize (Hinv c' i'). cbn.
    destruct (decide (c = c' ∧ i = i')) as [[-> ->]|Hne]; [rewrite lookup_insert_eq; cbn; eauto|].
    rewrite lookup_insert_ne; [done|]. intros [-> ->]%dedupKey_inj. by apply Hne.
  - unfold IsDuplicate. destruct (entries d !! dedupKey c i) as [x|] eqn:E; [|done].
    destruct (Z.ltb_spec x t); [|done]. split; [|done]. intros c' i'. cbn. pose proof (Hinv c' i') as H'.
    destruct (decide (dedupKey c' i' = dedupKey c i)) as [Heq|Hne].
    + rewrite Heq, lookup_delete_eq. apply dedupKey_inj in Heq as [-> ->].
      rewrite E in H'. destruct H' as (t0 & Hm & ->). cbn. rewrite Hm.
      specialize (Ht _ eq_refl). lia.
    + by rewrite lookup_delete_ne.
  - split; [|done]. intros c' i'. specialize (Hinv c' i'). cbn.
    destruct (decide (c = c' ∧ i = i')) as [[-> ->]|Hne]; [by rewrite lookup_delete_eq|].
    rewrite lookup_delete_ne; [done|]. intros [-> ->]%dedupKey_inj. by apply Hne.
  - split; [|done]. intros c i. specialize (Hinv c i). cbn. specialize (Ht _ eq_refl).
    destruct (entries d !! dedupKey c i) as [x|] eqn:E.
    + destruct (decide (x < t)) as [Hlt|Hlt].
      * rewrite map_lookup_filter_None_2 
          by (right; intros x' Hx'; rewrite E in Hx'; injection Hx' as <-; cbn; tauto).
        destruct Hinv as (t0 & -> & ->). cbn. lia.
      * rewrite (map_lookup_filter_Some_2 _ _ _ x) by done. done.
    + rewrite map_lookup_filter_None_2 by auto. done.
Qed.

Definition drun (ttl : Z) (ops : list dop) : DedupStore := foldl dstep (NewDedupStore ttl) ops.

Definition times_upto (now : Z) (ops : list dop) : Prop :=
  Forall (λ o, ∀ t, dop_time o = Some t → t ≤ now) ops.

Lemma dedup_run_inv ttl0 now ops : times_upto now ops →
  dedup_inv now (drun ttl0 ops) (λ c i, marked c i ops) ∧ ttl (drun ttl0 ops) = ttl0.
Proof.
  unfold drun, marked. induction ops as [|o ops IH] using rev_ind; intros Ht.
  - split; [|done]. intros c i. cbn. by rewrite lookup_empty.
  - apply Forall_app in Ht as [Ht [Ho _]%Forall_cons]. destruct (IH Ht) as [Hinv Httl].
    rewrite foldl_app. cbn [foldl].
    destruct (dedup_step_inv now _ o _ Hinv Ho) as [H1 H2]. split; [|by rewrite H2].
    intros c i. rewrite foldl_app. apply H1.
Qed.

(** ** The window of messages in flight *)

Inductive iop := IAdd (msg : InflightMessage) | IRemove (packetID : Z).

Definition istep (s : InflightStore) (o : iop) : InflightStore :=
  match o with IAdd m => (Inflight_Add s m).2 | IRemove i => Inflight_Remove s i end.

Definition inflight_ok (s : InflightStore) : Prop := Inflight_Count s ≤ Z.max 0 (limit s).

Lemma size_insert_le (m : gmap Z InflightMessage) i x : (size (<[i := x]> m) ≤ S (size m))%nat.
Proof. rewrite map_size_insert. case_match; cbn; lia. Qed.

Lemma size_delete_le (m : gmap Z InflightMessage) i : (size (delete i m) ≤ size m)%nat.
Proof. rewrite map_size_delete. case_match; cbn; lia. Qed.

Lemma istep_ok s o : inflight_ok s → inflight_ok (istep s o) ∧ limit (istep s o) = limit s.
Proof.
  unfold inflight_ok, Inflight_Count, map_len. destruct o as [m|i]; cbn.
  - unfold Inflight_Add, map_len. destruct (Z.leb_spec (limit s) (Z.of_nat (size (messages s)))); cbn; [done|].
    pose proof (size_insert_le (messages s) (inf_PacketID m) m). lia.
  - pose proof (size_delete_le (messages s) i). lia.
Qed.

Lemma irun_ok l ops : let s := foldl istep (NewInflightStore l) ops in
  inflight_ok s ∧ limit s = l.
Proof.
  cbn zeta. induction ops as [|o ops [IH1 IH2]] using rev_ind.
  - split; [|done]. unfold inflight_ok, Inflight_Count, map_len. cbn [messages limit NewInflightStore foldl]. rewrite map_size_empty. lia.
  - rewrite foldl_app. cbn [foldl]. destruct (istep_ok _ o IH1) as [H1 H2]. by rewrite H2.
Qed.

(** ** Properties *)

(** The packet identifiers of a connection are never zero and repeat only after all
    65535 of them have been used: any 65535 consecutive allocations are distinct, across the
    16-bit wrap-around as well. *)
Theorem packet_ids_distinct (k n : nat) (a : PacketIDAllocator) (used ids : list Z) :
  Z.of_nat n ≤ 65535 →
  take_ids k NewPacketIDAllocator = (used, a) →
  (take_ids n a).1 = ids →
  length ids = n ∧ NoDup ids ∧ Forall (λ i, 1 ≤ i ≤ 65535) ids.
Proof.
  intros Hn Hk Hids. assert (ids = id_at <$> seqZ (Z.of_nat k) (Z.of_nat n)) as ->.
  { destruct k as [|k].
    - injection Hk as <- <-. destruct n; [by subst|]. rewrite take_ids_New in Hids by lia. by subst.
    - rewrite take_ids_New in Hk by lia. injection Hk as <- <-. rewrite take_ids_from in Hids by lia.
      by subst. }
  split_and!.
  - rewrite length_fmap, length_seqZ. lia.
  - apply NoDup_fmap_2_strong; [|apply NoDup_seqZ]. intros x y Hx%elem_of_seqZ Hy%elem_of_seqZ Hxy.
    unfold id_at in Hxy. assert (x mod 65535 = y mod 65535) as Hm by lia.
    pose proof (Z.div_mod x 65535). pose proof (Z.div_mod y 65535). nia.
  - apply Forall_fmap, Forall_true. intros x. cbn. unfold id_at.
    pose proof (Z.mod_pos_bound x 65535). lia.
Qed.

Lemma packet_ids_distinct_witness :
  length ((take_ids 3 (mkAlloc 2)).1) = 3%nat ∧ NoDup (take_ids 3 (mkAlloc 2)).1 ∧
  Forall (λ i, 1 ≤ i ≤ 65535) (take_ids 3 (mkAlloc 2)).1.
Proof.
  apply (packet_ids_distinct 2 3 (mkAlloc 2) [1; 2]); [lia|reflexivity|reflexivity].
Defined.

(** Exactly-once bookkeeping of QoS 2: after any history of receipts, releases, queries
    and cleanups of any clients, a packet id is reported as a duplicate exactly when this
    client sent it, it was not released since, and its time to live has not run out; another
    client's or another id's entry never answers, whatever characters the client ids hold. *)
Theorem IsDuplicate_exact (ttl0 now : Z) (ops : list dop) (c : string) (i : Z) :
  times_upto now ops →
  (IsDuplicate now (drun ttl0 ops) c i).1 = live ttl0 now (marked c i ops).
Proof.
  intros Ht. destruct (dedup_run_inv ttl0 now ops Ht) as [Hinv Httl].
  specialize (Hinv c i). rewrite Httl in Hinv. unfold IsDuplicate.
  destruct (entries _ !! _) as [x|] eqn:E; cbn in Hinv |- *.
  - destruct Hinv as (t & -> & ->). cbn. by destruct (t + ttl0 <? now).
  - destruct (marked c i ops); cbn; [|done]. ztests. done.
Qed.

Lemma IsDuplicate_exact_witness :
  let ops := [DMark 0 "a" 1; DMark 5 "a:1" 1; DQuery 6 "a" 1; DRemove "a" 1; DCleanup 7] in
  (IsDuplicate 8 (drun 10 ops) "a:1" 1).1 = true ∧ (IsDuplicate 8 (drun 10 ops) "a" 1).1 = false.
Proof.
  intros ops. assert (times_upto 8 ops) as Ht.
  { repeat (constructor; [intros t [= <-]; lia || done|]). constructor. }
  split; by rewrite (IsDuplicate_exact 10 8 ops _ _ Ht).
Defined.

(** Flow control: however deliveries and acknowledgements interleave, a connection never
    has more messages in flight than its limit. *)
Theorem inflight_bounded (l : Z) (ops : list iop) :
  Inflight_Count (foldl istep (NewInflightStore l) ops) ≤ Z.max 0 l.
Proof. destruct (irun_ok l ops) as [H1 H2]. unfold inflight_ok in H1. by rewrite H2 in H1. Qed.

End Delivery.
