(* ===== verification/Storage.v ===== *)
(** * Persistent storage

    Model of [internal/storage]: the [Store] interface the broker persists through, and
    [PebbleStore], its implementation over the Pebble database.  Pebble itself is a third-party
    package: it is the parameter [Pebble] with its documented laws [PebbleLaws].  The laws of
    [Store], which the clients of the interface are verified against, are proved for
    [PebbleStore] from those, the prefix scan through the correctness of [prefixUpperBound].
    [mem_db] is a concrete database that satisfies the laws. *)
From S2P Require Import Prelude.

Module Storage.

(** Keys are byte strings; values are bytes. *)
Notation key := string.
Notation value := (list Z).

(** ** Order of keys *)

(** [bytes.Compare(k, l) < 0]. *)
Fixpoint bytes_ltb (k l : list Z) : bool :=
  match k, l with
  | _, [] => false
  | [], _ :: _ => true
  | a :: k, b :: l => (a <? b) || ((a =? b) && bytes_ltb k l)
  end.

Definition key_ltb (k l : key) : bool := bytes_ltb (bytes_of k) (bytes_of l).
Definition key_lt (k l : key) : Prop := key_ltb k l = true.
Definition key_le (k l : key) : Prop := key_ltb l k = false.
#[global] Instance key_lt_dec k l : Decision (key_lt k l) := decide (key_ltb k l = true).
#[global] Instance key_le_dec k l : Decision (key_le k l) := decide (key_ltb l k = false).

(** ** The interface *)

Class Store (db : Type) := {
  Get : db → key → res value;
  Set_ : db → key → value → res db;
  Delete : db → key → res db;
  (** The pairs the callback is given, in order; no callback of the broker stops the scan. *)
  Scan : db → key → res (list (key * value))
}.

Class StoreLaws (db : Type) `{Store db} := {
  contents : db → gmap key value;
  Get_contents d k v : Get d k = Ok v → v = default [] (contents d !! k);
  Set_contents d k v d' : Set_ d k v = Ok d' → contents d' = <[k := v]> (contents d);
  Delete_contents d k d' : Delete d k = Ok d' → contents d' = delete k (contents d);
  Scan_sorted d p l : Scan d p = Ok l → StronglySorted key_lt l.*1;
  Scan_elem d p l k v : Scan d p = Ok l →
    (k, v) ∈ l ↔ HasPrefix k p = true ∧ contents d !! k = Some v
}.

(** A store whose operations do not fail. *)
Class StoreReliable (db : Type) `{Store db} := {
  Get_total d k : ∃ v, Get d k = Ok v;
  Set_total d k v : ∃ d', Set_ d k v = Ok d';
  Delete_total d k : ∃ d', Delete d k = Ok d';
  Scan_total d p : ∃ l, Scan d p = Ok l
}.

(** ** The database underneath *)

Class Pebble (db : Type) := {
  db_Get : db → key → res (option value);   (* [Ok None] is [pebble.ErrNotFound] *)
  db_Set : db → key → value → res db;
  db_Delete : db → key → res db;
  db_Iter : db → key → option key → res (list (key * value))
}.

Class PebbleLaws (db : Type) `{Pebble db} := {
  db_contents : db → gmap key value;
  db_Get_contents d k v : db_Get d k = Ok v → v = db_contents d !! k;
  db_Set_contents d k v d' : db_Set d k v = Ok d' → db_contents d' = <[k := v]> (db_contents d);
  db_Delete_contents d k d' : db_Delete d k = Ok d' → db_contents d' = delete k (db_contents d);
  db_Iter_sorted d lo hi l : db_Iter d lo hi = Ok l → StronglySorted key_lt l.*1;
  db_Iter_elem d lo hi l k v : db_Iter d lo hi = Ok l →
    (k, v) ∈ l ↔ key_le lo k ∧ from_option (key_lt k) True hi ∧ db_contents d !! k = Some v
}.

(** ** PebbleStore *)

(** The loop [for i := len(upper) - 1; i >= 0; i--]; [i] is one more than Go's. *)
Fixpoint upper_loop (i : nat) (upper : list Z) : option (list Z) :=
  match i with
  | O => None
  | S i =>
      match upper !! i with
      | Some b => if b <? 0xFF then Some (take (S i) (<[i := b + 1]> upper)) else upper_loop i upper
      | None => None
      end
  end.

Definition prefixUpperBound (prefix : key) : option key :=
  if slen prefix =? 0 then None
  else let upper := bytes_of prefix in string_of <$> upper_loop (length upper) upper.

#[global] Instance PebbleStore {db} `{Pebble db} : Store db := {|
  Get d k := v ← db_Get d k; Ok (default [] v);
  Set_ d k v := db_Set d k v;
  Delete d k := db_Delete d k;
  Scan d prefix := db_Iter d prefix (prefixUpperBound prefix)
|}.

(** ** The upper bound of a prefix *)

(** The same bound, computed from the front. *)
Fixpoint upper_spec (p : list Z) : option (list Z) :=
  match p with
  | [] => None
  | b :: p => match upper_spec p with
              | Some u => Some (b :: u)
              | None => if b <? 0xFF then Some [b + 1] else None
              end
  end.

Lemma upper_loop_cons b p i : (i ≤ length p)%nat →
  upper_loop (S i) (b :: p) =
  match upper_loop i p with
  | Some u => Some (b :: u)
  | None => if b <? 0xFF then Some [b + 1] else None
  end.
Proof.
  induction i as [|i IH]; intros Hi; [done|].
  destruct (lookup_lt_is_Some_2 p i) as [c Hc]; [lia|].
  change (upper_loop (S (S i)) (b :: p)) with
    (match p !! i with
     | Some c => if c <? 0xFF then Some (b :: take (S i) (<[i := c + 1]> p)) else upper_loop (S i) (b :: p)
     | None => None end).
  cbn [upper_loop]. rewrite Hc. destruct (c <? 255); [done|]. apply IH. lia.
Qed.

Lemma upper_loop_spec p : upper_loop (length p) p = upper_spec p.
Proof.
  induction p as [|b p IH]; [done|]. cbn [length]. rewrite upper_loop_cons, IH by done. done.
Qed.

Lemma upper_spec_bytes p u : Forall byte_ok p → upper_spec p = Some u → Forall byte_ok u.
Proof.
  intros Hp. revert u. induction Hp as [|b p Hb Hp IH]; cbn; intros u; [done|].
  destruct (upper_spec p); [intros [= <-]; auto|]. destruct (Z.ltb_spec b 255); [|done].
  intros [= <-]. constructor; [unfold byte_ok in *; lia|done].
Qed.

Lemma prefix_cons_iff (a b : Z) k l : a :: k `prefix_of` b :: l ↔ a = b ∧ k `prefix_of` l.
Proof.
  split; [eauto using prefix_cons_inv_1, prefix_cons_inv_2|]. intros [-> ?]. by apply prefix_cons.
Qed.

Lemma prefix_range p k : Forall byte_ok p → Forall byte_ok k →
  p `prefix_of` k ↔
  bytes_ltb k p = false ∧ from_option (λ u, bytes_ltb k u = true) True (upper_spec p).
Proof.
  intros Hp. revert k. induction Hp as [|b p Hb Hp IH]; intros k Hk.
  - split; [by destruct k|intros _; apply prefix_nil].
  - destruct k as [|c k]; [split; [by intros ?%prefix_nil_not|by intros [??]]|].
    inversion Hk as [|?? Hc Hk']; subst. rewrite prefix_cons_iff, IH by done.
    cbn [bytes_ltb upper_spec]. rewrite orb_false_iff, andb_false_iff, Z.ltb_ge, Z.eqb_neq.
    unfold byte_ok in *. destruct (upper_spec p) as [u|]; cbn [from_option bytes_ltb].
    + rewrite orb_true_iff, andb_true_iff, Z.ltb_lt, Z.eqb_eq.
      destruct (decide (b = c)) as [->|]; [|lia]. naive_solver lia.
    + destruct (Z.ltb_spec b 255); cbn [from_option bytes_ltb].
      * rewrite orb_true_iff, andb_true_iff, Z.ltb_lt, Z.eqb_eq.
        assert (bytes_ltb k [] = false) as -> by by destruct k.
        destruct (decide (b = c)) as [->|]; naive_solver lia.
      * destruct (decide (b = c)) as [->|]; naive_solver lia.
Qed.

Lemma HasPrefix_prefix k p : HasPrefix k p = true ↔ bytes_of p `prefix_of` bytes_of k.
Proof.
  revert k. induction p as [|a p IH]; intros k; [split; [intros _; apply prefix_nil|by destruct k]|].
  destruct k as [|b k]; [split; [done|by intros ?%prefix_nil_not]|].
  cbn [HasPrefix]. change (bytes_of (String ?x ?y)) with (Z.of_N (Ascii.N_of_ascii x) :: bytes_of y).
  rewrite prefix_cons_iff, andb_true_iff, Ascii.eqb_eq, IH.
  split; intros [H ?]; (split; [|done]); [by subst|].
  apply (f_equal Z.to_N) in H. rewrite !N2Z.id in H.
  by rewrite <- (Ascii.ascii_N_embedding a), H, Ascii.ascii_N_embedding.
Qed.

Lemma prefixUpperBound_range p k :
  HasPrefix k p = true ↔ key_le p k ∧ from_option (key_lt k) True (prefixUpperBound p).
Proof.
  rewrite HasPrefix_prefix, prefix_range by apply bytes_of_ok. unfold key_le, key_lt, key_ltb.
  assert (from_option (λ u, bytes_ltb (bytes_of k) u = true) True (upper_spec (bytes_of p)) ↔
    from_option (λ l, bytes_ltb (bytes_of k) (bytes_of l) = true) True (prefixUpperBound p)) as ->;
    [|done].
  unfold prefixUpperBound. rewrite upper_loop_spec. destruct p as [|a p]; [done|]. cbn [slen].
  assert (slen (String a p) =? 0 = false) as ->. { done. }
  pose proof (upper_spec_bytes (bytes_of (String a p))) as Hb.
  destruct (upper_spec _) as [u|]; cbn; [|done].
  by rewrite bytes_of_string_of by (apply Hb; [apply bytes_of_ok|done]).
Qed.

(** ** PebbleStore satisfies the laws of the interface *)

#[global] Instance PebbleStoreLaws {db} `{PebbleLaws db} : StoreLaws db.
Proof.
  refine {| contents := db_contents |}; cbn.
  - intros d k v Hg. inv_ok. match goal with H : db_Get _ _ = _ |- _ => by rewrite (db_Get_contents _ _ _ H) end.
  - intros d k v d'. apply db_Set_contents.
  - intros d k d'. apply db_Delete_contents.
  - intros d p l. apply db_Iter_sorted.
  - intros d p l k v Hl. rewrite (db_Iter_elem _ _ _ _ _ _ Hl), prefixUpperBound_range. tauto.
Defined.

(** ** The order of keys is strict and total *)

Lemma bytes_ltb_irrefl k : bytes_ltb k k = false.
Proof. induction k as [|a k IH]; cbn; [done|]. by rewrite Z.ltb_irrefl, Z.eqb_refl, IH. Qed.

Lemma bytes_ltb_trans k l m : bytes_ltb k l = true → bytes_ltb l m = true → bytes_ltb k m = true.
Proof.
  revert l m. induction k as [|a k IH]; intros [|b l] [|c m]; cbn; try done.
  rewrite !orb_true_iff, !andb_true_iff, !Z.ltb_lt, !Z.eqb_eq. naive_solver lia.
Qed.

Lemma bytes_ltb_total k l : bytes_ltb k l = true ∨ k = l ∨ bytes_ltb l k = true.
Proof.
  revert l. induction k as [|a k IH]; intros [|b l]; cbn; auto.
  rewrite !orb_true_iff, !andb_true_iff, !Z.ltb_lt, !Z.eqb_eq.
  destruct (Z.lt_trichotomy a b) as [|[->|]]; [auto| |auto]. destruct (IH l) as [|[->|]]; auto.
Qed.

Lemma key_lt_trans k l m : key_lt k l → key_lt l m → key_lt k m.
Proof. apply bytes_ltb_trans. Qed.
Lemma key_lt_irrefl k : ¬ key_lt k k.
Proof. unfold key_lt, key_ltb. by rewrite bytes_ltb_irrefl. Qed.
Lemma key_lt_total k l : key_lt k l ∨ k = l ∨ key_lt l k.
Proof.
  destruct (bytes_ltb_total (bytes_of k) (bytes_of l)) as [|[?%bytes_of_inj|]]; auto.
Qed.
Lemma key_le_lt k l : key_le k l ↔ key_lt k l ∨ k = l.
Proof.
  pose proof (key_lt_total k l) as Ht. unfold key_le. fold (key_lt l k).
  destruct (key_ltb l k) eqn:E.
  - split; [done|]. intros [Hl| ->]; [|by apply key_lt_irrefl in E].
    exfalso. apply (key_lt_irrefl k). by apply key_lt_trans with l.
  - split; [|done]. intros _. unfold key_lt in *. destruct Ht as [|[|Hx]]; auto. congruence.
Qed.

(** ** A map mirrored under a key prefix *)

(** The broker's stores keep a map in memory and each of its entries, encoded, under
    [prefix ++ name].  At startup they scan the prefix and decode. *)
Section Mirror.
Context {A : Type} (p : key) (enc : A → value) (dec : string → value → option A).

Definition mirrors (m : gmap key value) (M : gmap string A) : Prop :=
  ∀ c, m !! (p +:+ c) = enc <$> M !! c.

Definition load_entry (M : gmap string A) (kv : key * value) : gmap string A :=
  let name := TrimPrefix kv.1 p in
  match dec name kv.2 with Some a => <[name := a]> M | None => M end.

Lemma append_inj (s t : string) : p +:+ s = p +:+ t → s = t.
Proof. intros Heq. by rewrite <- (TrimPrefix_app p s), Heq, TrimPrefix_app. Qed.

Lemma mirrors_insert m M c a : mirrors m M → mirrors (<[p +:+ c := enc a]> m) (<[c := a]> M).
Proof.
  intros Hm c'. destruct (decide (c' = c)) as [->|]; [by rewrite !lookup_insert_eq|].
  rewrite !lookup_insert_ne; [apply Hm|done|]. by intros ?%append_inj.
Qed.

Lemma mirrors_delete m M c : mirrors m M → mirrors (delete (p +:+ c) m) (delete c M).
Proof.
  intros Hm c'. destruct (decide (c' = c)) as [->|]; [by rewrite !lookup_delete_eq|].
  rewrite !lookup_delete_ne; [apply Hm|done|]. by intros ?%append_inj.
Qed.

Lemma mirrors_other m m' M : (∀ k, HasPrefix k p = true → m' !! k = m !! k) → mirrors m M → mirrors m' M.
Proof. intros Heq Hm c. rewrite Heq by apply HasPrefix_app. apply Hm. Qed.

Lemma load_lookup l : ∀ M c, NoDup l.*1 → Forall (λ k, HasPrefix k p = true) l.*1 →
  (∀ v a, (p +:+ c, v) ∈ l → dec c v = Some a → foldl load_entry M l !! c = Some a) ∧
  ((∀ v, (p +:+ c, v) ∉ l) → foldl load_entry M l !! c = M !! c).
Proof.
  induction l as [|[k v] l IH]; intros M c; cbn [fmap list_fmap fst].
  { intros _ _. split; [by intros v a ?%not_elem_of_nil|done]. }
  intros [Hn Hd]%NoDup_cons [Hk Hl]%Forall_cons. cbn [foldl].
  destruct (IH (load_entry M (k, v)) c Hd Hl) as [IH1 IH2].
  assert (k = p +:+ TrimPrefix k p) as Hkp by by apply HasPrefix_true.
  split.
  - intros v' a [[= Hk' ->]|Hin]%elem_of_cons Hdec; [|by eapply IH1].
    subst k. rewrite IH2.
    + unfold load_entry. cbn. by rewrite TrimPrefix_app, Hdec, lookup_insert_eq.
    + intros v'' Hin. apply Hn. apply list_elem_of_fmap. by exists (p +:+ c, v'').
  - intros Hnot. rewrite IH2 by (intros v' Hin; apply (Hnot v'); by right).
    unfold load_entry. cbn. destruct (dec _ v); [|done]. apply lookup_insert_ne.
    intros <-. apply (Hnot v). rewrite <- Hkp. by left.
Qed.

Lemma sorted_NoDup (l : list key) : StronglySorted key_lt l → NoDup l.
Proof.
  induction 1 as [|x l Hs IH Hx]; constructor; [|done]. intros Hin.
  rewrite Forall_forall in Hx. by apply (key_lt_irrefl x), Hx.
Qed.

Lemma load_mirrors {db} `{StoreLaws db} (d : db) l M : Scan d p = Ok l → mirrors (contents d) M →
  (∀ c a, M !! c = Some a → dec c (enc a) = Some a) → foldl load_entry ∅ l = M.
Proof.
  intros Hl Hm Hdec. apply map_eq. intros c.
  destruct (load_lookup l ∅ c) as [L1 L2].
  - by eapply sorted_NoDup, Scan_sorted.
  - apply Forall_fmap, Forall_forall. intros [k v] Hin. by apply (Scan_elem _ _ _ _ _ Hl) in Hin as [? _].
  - specialize (Hm c). destruct (M !! c) as [a|] eqn:E; cbn in Hm.
    + eapply L1; [|by apply Hdec]. apply (Scan_elem _ _ _ _ _ Hl). split; [apply HasPrefix_app|done].
    + rewrite L2; [apply lookup_empty|]. intros v Hin. apply (Scan_elem _ _ _ _ _ Hl) in Hin as [_ Hv].
      by rewrite Hm in Hv.
Qed.

End Mirror.

(** ** A concrete database *)

Definition entry_le (x y : key * value) : Prop := key_le x.1 y.1.
#[global] Instance entry_le_dec x y : Decision (entry_le x y).
Proof. unfold entry_le. apply _. Defined.

Lemma entry_le_total x y : entry_le x y ∨ entry_le y x.
Proof.
  unfold entry_le. rewrite !key_le_lt. destruct (key_lt_total x.1 y.1) as [|[|]]; auto.
Qed.

Definition mem_db := gmap key value.

Definition in_range (lo : key) (hi : option key) (kv : key * value) : Prop :=
  key_le lo kv.1 ∧ from_option (key_lt kv.1) True hi.
#[global] Instance in_range_dec lo hi kv : Decision (in_range lo hi kv).
Proof. unfold in_range. destruct hi; apply _. Defined.

#[global] Instance mem_pebble : Pebble mem_db := {|
  db_Get d k := Ok ((d : gmap key value) !! k);
  db_Set d k v := Ok (<[k := v]> (d : gmap key value));
  db_Delete d k := Ok (delete k (d : gmap key value));
  db_Iter d lo hi := Ok (merge_sort entry_le (filter (in_range lo hi) (map_to_list (d : gmap key value))))
|}.

(** A list of pairs sorted by key, with distinct keys, is strictly sorted. *)
Lemma sorted_strict (l : list (key * value)) :
  StronglySorted entry_le l → NoDup l.*1 → StronglySorted key_lt l.*1.
Proof.
  induction 1 as [|x l Hs IH Hx]; cbn; [constructor|]. intros [Hn Hd]%NoDup_cons.
  constructor; [auto|]. rewrite Forall_fmap. rewrite Forall_forall in *. intros y Hy. cbn.
  specialize (Hx y Hy). apply key_le_lt in Hx as [|Heq]; [done|].
  destruct Hn. rewrite Heq. by apply list_elem_of_fmap_2.
Qed.

Lemma NoDup_fst_filter (P : key * value → Prop) `{∀ x, Decision (P x)} (l : list (key * value)) :
  NoDup l.*1 → NoDup (filter P l).*1.
Proof.
  induction l as [|x l IH]; [done|]. rewrite fmap_cons, NoDup_cons. intros [Hn Hd].
  rewrite filter_cons. case_decide; [|auto]. cbn. apply NoDup_cons. split; [|auto].
  intros (y & Hy & Hin)%list_elem_of_fmap. apply Hn. rewrite Hy. apply list_elem_of_fmap_2.
  by apply list_elem_of_filter in Hin as [_ ?].
Qed.

Lemma entry_le_trans x y z : entry_le x y → entry_le y z → entry_le x z.
Proof.
  unfold entry_le. rewrite !key_le_lt. intros [Hxy|Hxy] [Hyz|Hyz];
    rewrite ?Hxy, ?Hyz in *; eauto using key_lt_trans.
Qed.

#[global] Instance mem_pebble_laws : PebbleLaws mem_db.
Proof.
  refine {| db_contents := λ d : mem_db, d |}; cbn.
  - by intros d k v [= <-].
  - by intros d k v d' [= <-].
  - by intros d k d' [= <-].
  - intros d lo hi l [= <-].
    assert (Transitive entry_le) by (intros ???; apply entry_le_trans).
    assert (Total entry_le) by (intros ??; apply entry_le_total).
    apply sorted_strict; [apply Sorted_StronglySorted; [done|]; apply Sorted_merge_sort, _|].
    rewrite merge_sort_Permutation. apply NoDup_fst_filter, NoDup_fst_map_to_list.
  - intros d lo hi l k v [= <-]. rewrite merge_sort_Permutation, list_elem_of_filter, elem_of_map_to_list.
    unfold in_range. cbn. tauto.
Defined.

#[global] Instance mem_reliable : StoreReliable mem_db.
Proof. split; intros; cbn; eauto. Qed.

(** ** Properties *)

(** The upper bound of a prefix scan is exact: for any prefix, the keys between the
    prefix and its bound in byte order are exactly the keys that start with it, also when the
    prefix ends in 0xFF bytes or consists of them. *)
Theorem prefixUpperBound_exact (prefix k : key) :
  HasPrefix k prefix = true ↔
  key_le prefix k ∧ match prefixUpperBound prefix with Some u => key_lt k u | None => True end.
Proof. rewrite prefixUpperBound_range. by destruct (prefixUpperBound prefix). Qed.

(** [PebbleStore] implements the [Store] interface over any database with Pebble's
    documented behaviour: a scan yields exactly the stored pairs whose key has the prefix, in
    byte order and each once, and reads, writes and deletes act on that content. *)
Theorem PebbleStore_Scan_exact {db} `{PebbleLaws db} (d : db) (prefix : key) (l : list (key * value)) :
  Scan d prefix = Ok l →
  StronglySorted key_lt l.*1 ∧
  ∀ k v, (k, v) ∈ l ↔ HasPrefix k prefix = true ∧ db_contents d !! k = Some v.
Proof.
  intros Hl. split; [by eapply Scan_sorted|]. intros k v. exact (Scan_elem d prefix l k v Hl).
Qed.

Lemma PebbleStore_Scan_exact_witness :
  let d : mem_db := {[ "s/b" := [1]; "r/x" := [2]; "s/a" := [3] ]} in
  Scan d "s/" = Ok [("s/a", [3]); ("s/b", [1])] ∧
  StronglySorted key_lt [("s/a", [3]); ("s/b", [1])].*1 ∧
  ∀ k v, (k, v) ∈ [("s/a", [3]); ("s/b", [1])] ↔ HasPrefix k "s/" = true ∧ d !! k = Some v.
Proof.
  intros d. assert (Scan d "s/" = Ok [("s/a", [3]); ("s/b", [1])]) as Hs by (by vm_compute).
  split; [exact Hs|]. exact (PebbleStore_Scan_exact d "s/" _ Hs).
Defined.

End Storage.
