(* ===== verification/Offline.v ===== *)
(** * The offline message queues

    Model of [internal/broker/offline.go]: the queue of messages kept for each disconnected
    client, with expiry, tiered eviction and the mirror of the queues in the store.  [now] is
    the value of [time.Now()] at the call. *)
From S2P Require Import Prelude Storage.
Import Storage.

Module Offline.

Definition PriorityHigh : Z := 0.
Definition PriorityMedium : Z := 1.
Definition PriorityLow : Z := 2.

Record OfflineMessage := mkMsg {
  om_Topic : string;
  om_Payload : list Z;
  om_QoS : Z;
  om_Priority : Z;
  om_CreatedAt : Z;
  om_ExpiresAt : Z
}.

#[global] Instance OfflineMessage_eq_dec : EqDecision OfflineMessage.
Proof. solve_decision. Defined.

Record TierConfig := {
  HighMax : Z; HighTTL : Z;
  MidMax : Z; MidTTL : Z;
  LowMax : Z; LowTTL : Z
}.

(** [encoding/json] on this struct: what is written for a message is read back as that message
    when its topic is valid UTF-8 (other bytes are replaced by U+FFFD on writing). *)
Class MessageJSON := {
  Marshal : OfflineMessage → list Z;
  Unmarshal : list Z → option OfflineMessage;
  Unmarshal_Marshal m : utf8_valid (bytes_of (om_Topic m)) = true → Unmarshal (Marshal m) = Some m
}.

Section Offline.
Context {db : Type} `{Store db} `{MessageJSON}.

Record OfflineStore := mkOffline {
  queues : gmap string (list OfflineMessage);
  maxPerClient : Z;
  defaultTTL : Z;
  tierConfig : option TierConfig;
  store : option db;
  seqNums : gmap string Z
}.

Definition NewOfflineStore (maxPerClient defaultTTL : Z) : OfflineStore :=
  mkOffline ∅ maxPerClient defaultTTL None None ∅.

Definition SetStore (s : OfflineStore) (d : option db) : OfflineStore :=
  mkOffline (queues s) (maxPerClient s) (defaultTTL s) (tierConfig s) d (seqNums s).

Definition SetTierConfig (s : OfflineStore) (cfg : option TierConfig) : OfflineStore :=
  mkOffline (queues s) (maxPerClient s) (defaultTTL s) cfg (store s) (seqNums s).

(** Updates of one field. *)
Definition with_queues (s : OfflineStore) (q : gmap string (list OfflineMessage)) : OfflineStore :=
  mkOffline q (maxPerClient s) (defaultTTL s) (tierConfig s) (store s) (seqNums s).
Definition with_db (s : OfflineStore) (d : db) : OfflineStore := SetStore s (Some d).
Definition with_seqs (s : OfflineStore) (n : gmap string Z) : OfflineStore :=
  mkOffline (queues s) (maxPerClient s) (defaultTTL s) (tierConfig s) (store s) n.

Definition queue_of (s : OfflineStore) (clientID : string) : list OfflineMessage :=
  default [] (queues s !! clientID).

(** ** Persistence *)

(** [fmt.Sprintf("%020d", n)] of a [uint64], which has at most 20 digits. *)
Fixpoint fixed_digits (w : nat) (n : Z) : list Z :=
  match w with
  | O => []
  | S w => fixed_digits w (n / 10) ++ [48 + n mod 10]
  end.

Definition om_prefix (clientID : string) : key := "om/" +:+ clientID +:+ "/".
Definition om_key (clientID : string) (seq : Z) : key :=
  "om/" +:+ clientID +:+ String "/" (string_of (fixed_digits 20 seq)).
Definition seq_key (clientID : string) : key := "om-seq/" +:+ clientID.

(** Errors of the store are logged, and the operation goes on with the store as it was. *)
Definition ignore_err {A} (m : res A) (a : A) : A := match m with Ok a' => a' | _ => a end.

Definition persistMessage (clientID : string) (s : OfflineStore) (msg : OfflineMessage) : OfflineStore :=
  match store s with
  | None => s
  | Some d =>
      let seq := default 0 (seqNums s !! clientID) in
      let s := with_seqs s (<[clientID := u64 (seq + 1)]> (seqNums s)) in
      match Set_ d (om_key clientID seq) (Marshal msg) with
      | Ok d => with_db s (ignore_err (Set_ d (seq_key clientID) (PutUint64 (u64 (seq + 1)))) d)
      | _ => s
      end
  end.

Definition delete_keys (d : db) (keys : list key) : db :=
  foldl (λ d k, ignore_err (Delete d k) d) d keys.

Definition scan_keys (d : db) (prefix : key) : list key :=
  match Scan d prefix with Ok l => l.*1 | _ => [] end.

Definition drop_seq (clientID : string) (s : OfflineStore) (d : db) : OfflineStore :=
  with_db (with_seqs s (delete clientID (seqNums s))) (ignore_err (Delete d (seq_key clientID)) d).

Definition clearPebbleMessages (s : OfflineStore) (clientID : string) : OfflineStore :=
  match store s with
  | None => s
  | Some d =>
      let queue := queue_of s clientID in
      let s := with_db s (delete_keys d (scan_keys d (om_prefix clientID))) in
      let s := with_seqs s (<[clientID := 0]> (seqNums s)) in
      let s := foldl (persistMessage clientID) s queue in
      if decide (queue = []) then
        match store s with Some d => drop_seq clientID s d | None => s end
      else s
  end.

Definition removeAllPebble (s : OfflineStore) (clientID : string) : OfflineStore :=
  match store s with
  | None => s
  | Some d => drop_seq clientID s (delete_keys d (scan_keys d (om_prefix clientID)))
  end.

Definition load_seq (m : gmap string Z) (kv : key * value) : gmap string Z :=
  let clientID := TrimPrefix kv.1 "om-seq/" in
  if len kv.2 =? 8 then match Uint64 kv.2 with Ok n => <[clientID := n]> m | _ => m end else m.

Definition load_message (q : gmap string (list OfflineMessage)) (kv : key * value)
    : gmap string (list OfflineMessage) :=
  match SplitN2 "/" (TrimPrefix kv.1 "om/") with
  | [clientID; _] =>
      match Unmarshal kv.2 with
      | Some msg => <[clientID := default [] (q !! clientID) ++ [msg]]> q
      | None => q
      end
  | _ => q
  end.

Definition LoadFromStore (s : OfflineStore) : res OfflineStore :=
  match store s with
  | None => Ok s
  | Some d =>
      seqs ← wrap_err "loading sequence numbers" (Scan d "om-seq/");
      msgs ← Scan d "om/";
      Ok (with_queues (with_seqs s (foldl load_seq (seqNums s) seqs))
            (foldl load_message (queues s) msgs))
  end.

(** ** Enqueue *)

Definition expired (now : Z) (m : OfflineMessage) : bool :=
  negb (IsZero (om_ExpiresAt m)) && (om_ExpiresAt m <? now).

(** The loop that drops the expired messages. *)
Definition drop_expired (now : Z) (queue : list OfflineMessage) : list OfflineMessage :=
  filter (λ m, expired now m = false) queue.

Definition set_created (now : Z) (m : OfflineMessage) : OfflineMessage :=
  if IsZero (om_CreatedAt m)
  then mkMsg (om_Topic m) (om_Payload m) (om_QoS m) (om_Priority m) now (om_ExpiresAt m) else m.

Definition expire_after (m : OfflineMessage) (ttl : Z) : OfflineMessage :=
  mkMsg (om_Topic m) (om_Payload m) (om_QoS m) (om_Priority m) (om_CreatedAt m) (om_CreatedAt m + ttl).

Definition set_expiry (s : OfflineStore) (m : OfflineMessage) : OfflineMessage :=
  match tierConfig s with
  | Some cfg =>
      if IsZero (om_ExpiresAt m) then
        if om_Priority m =? PriorityHigh then expire_after m (HighTTL cfg)
        else if om_Priority m =? PriorityMedium then expire_after m (MidTTL cfg)
        else if om_Priority m =? PriorityLow then expire_after m (LowTTL cfg)
        else m
      else m
  | None =>
      if IsZero (om_ExpiresAt m) && (0 <? defaultTTL s) then expire_after m (defaultTTL s) else m
  end.

(** [append(queue[:i], queue[i+1:]...)] at the first message of the priority. *)
Fixpoint evict_first (p : Z) (queue : list OfflineMessage) : option (list OfflineMessage) :=
  match queue with
  | [] => None
  | m :: queue => if om_Priority m =? p then Some queue else (m ::.) <$> evict_first p queue
  end.

(** The loop [for p := PriorityLow; p >= msg.Priority; p--]. *)
Fixpoint evict_loop (ps : list Z) (prio : Z) (queue : list OfflineMessage)
    : option (list OfflineMessage) :=
  match ps with
  | [] => None
  | p :: ps =>
      if prio <=? p then
        match evict_first p queue with Some q => Some q | None => evict_loop ps prio queue end
      else None
  end.

Definition evict (prio : Z) (queue : list OfflineMessage) : option (list OfflineMessage) :=
  evict_loop [PriorityLow; PriorityMedium; PriorityHigh] prio queue.

Definition full_error (s : OfflineStore) (clientID : string) : string :=
  "offline queue full for client " +:+ clientID +:+ " (limit: " +:+ pretty (maxPerClient s) +:+ ")".

Definition Enqueue (now : Z) (s : OfflineStore) (clientID : string) (msg : OfflineMessage)
    : option string * OfflineStore :=
  let queue := drop_expired now (queue_of s clientID) in
  let msg := set_expiry s (set_created now msg) in
  let reject := (Some (full_error s clientID), with_queues s (<[clientID := queue]> (queues s))) in
  let accept queue :=
    (None, clearPebbleMessages (with_queues s (<[clientID := queue ++ [msg]]> (queues s))) clientID) in
  if maxPerClient s <=? len queue then
    match tierConfig s with
    | None => reject
    | Some _ => match evict (om_Priority msg) queue with
                | Some queue => accept queue
                | None => reject
                end
    end
  else accept queue.

(** ** Dequeue *)

(** The [less] of [sort.SliceStable]. *)
Definition msg_less (x y : OfflineMessage) : bool :=
  if negb (om_Priority x =? om_Priority y) then om_Priority x <? om_Priority y
  else om_CreatedAt x <? om_CreatedAt y.

(** A stable sort: an element stays before the equal ones that followed it. *)
Fixpoint insert_msg (x : OfflineMessage) (l : list OfflineMessage) : list OfflineMessage :=
  match l with
  | [] => [x]
  | y :: l => if msg_less y x then y :: insert_msg x l else x :: y :: l
  end.

Definition sort_msgs (l : list OfflineMessage) : list OfflineMessage := foldr insert_msg [] l.

Definition Dequeue (now : Z) (s : OfflineStore) (clientID : string) (maxCount : Z)
    : res (list OfflineMessage * OfflineStore) :=
  match queues s !! clientID with
  | None => Ok ([], s)
  | Some queue =>
      let valid := sort_msgs (drop_expired now queue) in
      let count := if len valid <? maxCount then len valid else maxCount in
      if count <? 0 then Panic else
      let result := take (Z.to_nat count) valid in
      let remaining := drop (Z.to_nat count) valid in
      let q := if decide (remaining = []) then delete clientID (queues s)
               else <[clientID := remaining]> (queues s) in
      Ok (result, clearPebbleMessages (with_queues s q) clientID)
  end.

Definition RemoveAll (s : OfflineStore) (clientID : string) : OfflineStore :=
  removeAllPebble (with_queues s (delete clientID (queues s))) clientID.

Definition Count (s : OfflineStore) (clientID : string) : Z := len (queue_of s clientID).

End Offline.
Arguments OfflineStore : clear implicits.

End Offline.
