(* ===== verification/OfflineFacts.v ===== *)
(** * Correctness of the offline queues

    Capacity, eviction and delivery order of the in-memory queues, and the recovery of the
    queues from the store after a restart. *)
From S2P Require Import Prelude Storage Offline.
Import Storage Offline.

Section Memory.
Context {db : Type} `{Store db} `{MessageJSON}.
Notation OfflineStore := (OfflineStore db).
Implicit Types s : OfflineStore.

(** ** What the mirror of the queues leaves alone *)

Definition same_config s s' : Prop :=
  maxPerClient s' = maxPerClient s ∧ defaultTTL s' = defaultTTL s ∧ tierConfig s' = tierConfig s.

Lemma persistMessage_mem c s m :
  queues (persistMessage c s m) = queues s ∧ same_config s (persistMessage c s m).
Proof. unfold persistMessage. repeat case_match; done. Qed.

Lemma persist_loop_mem c q : ∀ s,
  queues (foldl (persistMessage c) s q) = queues s ∧ same_config s (foldl (persistMessage c) s q).
Proof.
  induction q as [|m q IH]; intros s; [done|]. cbn [foldl].
  destruct (IH (persistMessage c s m)) as [-> ?]. destruct (persistMessage_mem c s m) as [-> ?].
  unfold same_config in *. split; [done|]. split_and!; naive_solver congruence.
Qed.

Lemma clearPebbleMessages_mem s c :
  queues (clearPebbleMessages s c) = queues s ∧ same_config s (clearPebbleMessages s c).
Proof.
  unfold clearPebbleMessages. destruct (store s) as [d|]; [|done].
  match goal with |- context [foldl _ ?s0 ?q] => pose proof (persist_loop_mem c q s0) as Hl end.
  case_decide; [|exact Hl]. case_match; exact Hl.
Qed.

Lemma clear_queues s c : queues (clearPebbleMessages s c) = queues s.
Proof. apply clearPebbleMessages_mem. Qed.

Lemma RemoveAll_mem s c : queues (RemoveAll s c) = delete c (queues s) ∧ same_config s (RemoveAll s c).
Proof. unfold RemoveAll, removeAllPebble. cbn. by case_match. Qed.

Lemma queue_of_insert s c q c' :
  default [] (<[c := q]> (queues s) !! c') = if decide (c' = c) then q else queue_of s c'.
Proof.
  unfold queue_of. case_decide; subst; [by rewrite lookup_insert_eq|by rewrite lookup_insert_ne].
Qed.

(** ** Eviction *)

Lemma evict_first_spec p q :
  match evict_first p q with
  | Some q' => ∃ pre m post, q = pre ++ m :: post ∧ q' = pre ++ post ∧ om_Priority m = p ∧
                 Forall (λ x, om_Priority x ≠ p) pre
  | None => Forall (λ x, om_Priority x ≠ p) q
  end.
Proof.
  induction q as [|x q IH]; cbn; [done|]. destruct (Z.eqb_spec (om_Priority x) p) as [Hp|Hp].
  - exists [], x, q. done.
  - destruct (evict_first p q) as [q'|]; cbn; [|by constructor].
    destruct IH as (pre & m & post & -> & -> & ? & ?). exists (x :: pre), m, post.
    split_and!; [done..|by constructor].
Qed.

(** The message evicted for one of priority [prio]: the oldest of the least important kind. *)
Definition evicted (prio : Z) (q q' : list OfflineMessage) : Prop :=
  ∃ pre m post, q = pre ++ m :: post ∧ q' = pre ++ post ∧
    prio ≤ om_Priority m ≤ PriorityLow ∧
    Forall (λ x, om_Priority x ≠ om_Priority m) pre ∧
    Forall (λ x, ¬ om_Priority m < om_Priority x ≤ PriorityLow) q.

Lemma evict_spec prio q : Forall (λ m, 0 ≤ om_Priority m) q →
  match evict prio q with
  | Some q' => evicted prio q q'
  | None => Forall (λ x, ¬ prio ≤ om_Priority x ≤ PriorityLow) q
  end.
Proof.
  intros Hq. unfold evict, evicted, PriorityLow, PriorityMedium, PriorityHigh. cbn [evict_loop].
  pose proof (evict_first_spec 2 q) as H2. pose proof (evict_first_spec 1 q) as H1.
  pose proof (evict_first_spec 0 q) as H0'.
  destruct (Z.leb_spec prio 2); [|eapply Forall_impl; [exact Hq|]; cbn; lia].
  destruct (evict_first 2 q) as [q'|].
  { destruct H2 as (pre & m & post & -> & -> & Hm & ?). exists pre, m, post. rewrite Hm.
    split_and!; try done; try lia. apply Forall_true. intros; lia. }
  destruct (Z.leb_spec prio 1).
  - destruct (evict_first 1 q) as [q'|].
    { destruct H1 as (pre & m & post & -> & -> & Hm & ?). exists pre, m, post. rewrite Hm.
      split_and!; try done; try lia. eapply Forall_impl; [exact H2|]. cbn. lia. }
    destruct (Z.leb_spec prio 0).
    + destruct (evict_first 0 q) as [q'|].
      { destruct H0' as (pre & m & post & -> & -> & Hm & ?). exists pre, m, post. rewrite Hm.
        split_and!; try done; try lia. eapply Forall_impl; [apply Forall_and; split; [exact H2|exact H1]|].
        cbn. lia. }
      rewrite Forall_forall in *. intros x Hx.
      specialize (H2 x Hx); specialize (H1 x Hx); specialize (H0' x Hx); specialize (Hq x Hx); cbn in *. lia.
    + rewrite Forall_forall in *. intros x Hx.
      specialize (H2 x Hx); specialize (H1 x Hx); specialize (Hq x Hx); cbn in *. lia.
  - rewrite Forall_forall in *. intros x Hx. specialize (H2 x Hx); specialize (Hq x Hx); cbn in *. lia.
Qed.

Lemma evicted_len prio q q' : evicted prio q q' → len q = len q' + 1.
Proof. intros (pre & m & post & -> & -> & _). lens. lia. Qed.

(** ** Delivery order *)

(** [a] may stand before [b]. *)
Definition msg_le (a b : OfflineMessage) : Prop := msg_less b a = false.

Definition same_rank (a b : OfflineMessage) : Prop :=
  om_Priority a = om_Priority b ∧ om_CreatedAt a = om_CreatedAt b.
#[local] Instance same_rank_dec a b : Decision (same_rank a b).
Proof. unfold same_rank. apply _. Defined.

Lemma msg_less_iff a b : msg_less a b = true ↔
  om_Priority a < om_Priority b ∨ om_Priority a = om_Priority b ∧ om_CreatedAt a < om_CreatedAt b.
Proof.
  unfold msg_less. destruct (Z.eqb_spec (om_Priority a) (om_Priority b)); cbn; rewrite Z.ltb_lt; lia.
Qed.

Lemma msg_le_iff a b : msg_le a b ↔
  om_Priority a < om_Priority b ∨ om_Priority a = om_Priority b ∧ om_CreatedAt a ≤ om_CreatedAt b.
Proof. unfold msg_le. rewrite <- not_true_iff_false, msg_less_iff. lia. Qed.

Lemma insert_msg_perm x l : insert_msg x l ≡ₚ x :: l.
Proof.
  induction l as [|y l IH]; cbn; [done|]. case_match; [|done]. rewrite IH. apply Permutation_swap.
Qed.

Lemma sort_msgs_perm l : sort_msgs l ≡ₚ l.
Proof. induction l as [|x l IH]; cbn; [done|]. by rewrite insert_msg_perm, IH. Qed.

Lemma insert_msg_sorted x l : StronglySorted msg_le l → StronglySorted msg_le (insert_msg x l).
Proof.
  induction 1 as [|y l Hs IH Hy]; cbn; [by repeat constructor|].
  destruct (msg_less y x) eqn:E.
  - constructor; [done|]. rewrite insert_msg_perm. constructor; [|done].
    apply msg_less_iff in E. apply msg_le_iff. lia.
  - constructor; [by constructor|]. constructor; [done|]. eapply Forall_impl; [exact Hy|].
    intros z. change (msg_le x y) in E. rewrite !msg_le_iff in *. lia.
Qed.

Lemma sort_msgs_sorted l : StronglySorted msg_le (sort_msgs l).
Proof. induction l; cbn; [constructor|by apply insert_msg_sorted]. Qed.

Lemma insert_msg_stable x l a :
  filter (same_rank a) (insert_msg x l) = filter (same_rank a) (x :: l).
Proof.
  induction l as [|y l IH]; cbn [insert_msg]; [done|]. destruct (msg_less y x) eqn:E; [|done].
  rewrite filter_cons, IH, !filter_cons. apply msg_less_iff in E. unfold same_rank in *.
  repeat case_decide; try done. lia.
Qed.

Lemma sort_msgs_stable l a : filter (same_rank a) (sort_msgs l) = filter (same_rank a) l.
Proof.
  induction l as [|x l IH]; [done|]. cbn [sort_msgs foldr]. fold (sort_msgs l).
  by rewrite insert_msg_stable, !filter_cons, IH.
Qed.

(** ** Histories of the in-memory queues *)

Inductive qop :=
  | QEnqueue (now : Z) (clientID : string) (msg : OfflineMessage)
  | QDequeue (now : Z) (clientID : string) (maxCount : Z)
  | QRemoveAll (clientID : string).

Definition qstep s (o : qop) : OfflineStore :=
  match o with
  | QEnqueue now c m => (Enqueue now s c m).2
  | QDequeue now c n => match Dequeue now s c n with Ok (_, s') => s' | _ => s end
  | QRemoveAll c => RemoveAll s c
  end.

Definition within_cap s : Prop := ∀ c, len (queue_of s c) ≤ Z.max 0 (maxPerClient s).

Lemma len_filter_le {A} (P : A → Prop) `{∀ x, Decision (P x)} (l : list A) : len (filter P l) ≤ len l.
Proof. unfold len. pose proof (length_filter P l). lia. Qed.

Lemma drop_expired_le now q : len (drop_expired now q) ≤ len q.
Proof. apply len_filter_le. Qed.

(** What [Enqueue] makes of the queue of its client. *)
Definition enqueued s now c m : list OfflineMessage :=
  let queue := drop_expired now (queue_of s c) in
  let msg := set_expiry s (set_created now m) in
  if maxPerClient s <=? len queue then
    match tierConfig s with
    | None => queue
    | Some _ => match evict (om_Priority msg) queue with Some q => q ++ [msg] | None => queue end
    end
  else queue ++ [msg].

Lemma Enqueue_mem now s c m :
  queues (Enqueue now s c m).2 = <[c := enqueued s now c m]> (queues s) ∧
  same_config s (Enqueue now s c m).2.
Proof.
  unfold Enqueue, enqueued. set (f := λ q, clearPebbleMessages_mem (with_queues s q) c).
  repeat case_match; cbn [snd]; try done;
    match goal with |- context [clearPebbleMessages (with_queues s ?q) c] =>
      destruct (f q) as [-> ?] end; done.
Qed.

Lemma Dequeue_mem now s c n r s' : Dequeue now s c n = Ok (r, s') →
  same_config s s' ∧ queues s' = match queues s !! c with
    | None => queues s
    | Some q =>
        let valid := sort_msgs (drop_expired now q) in
        let rest := drop (Z.to_nat (Z.min n (len valid))) valid in
        if decide (rest = []) then delete c (queues s) else <[c := rest]> (queues s)
    end.
Proof.
  unfold Dequeue. destruct (queues s !! c) as [q|]; [|by intros [= _ <-]]. cbn zeta.
  set (valid := sort_msgs _).
  assert ((if len valid <? n then len valid else n) = Z.min n (len valid)) as -> by (case_match; lia).
  case_match; [done|]. intros [= _ <-].
  match goal with |- context [clearPebbleMessages (with_queues s ?q) c] =>
    destruct (clearPebbleMessages_mem (with_queues s q) c) as [-> ?] end. done.
Qed.

Lemma qstep_cap s o : within_cap s → within_cap (qstep s o) ∧ same_config s (qstep s o).
Proof.
  intros Hcap. destruct o as [now c m|now c n|c]; cbn [qstep].
  - destruct (Enqueue_mem now s c m) as [Hq Hc]. split; [|done]. destruct Hc as [Hmax _].
    intros c'. unfold queue_of. rewrite Hq, Hmax, queue_of_insert. case_decide; [|apply Hcap].
    subst c'. unfold enqueued. pose proof (drop_expired_le now (queue_of s c)). specialize (Hcap c).
    set (q := drop_expired now (queue_of s c)) in *.
    destruct (Z.leb_spec (maxPerClient s) (len q)); [|lens; lia].
    destruct (tierConfig s); [|lia]. destruct (evict _ q) as [q'|] eqn:E; [|lia].
    assert (len q = len q' + 1).
    { revert E. clear. unfold evict. generalize [PriorityLow; PriorityMedium; PriorityHigh].
      induction l as [|p l IH]; cbn [evict_loop]; [done|]. case_match; [|done].
      pose proof (evict_first_spec p q) as Hs. destruct (evict_first p q); [|done].
      intros [= <-]. destruct Hs as (?&?&?&->&->&_). lens. lia. }
    lens. lia.
  - destruct (Dequeue now s c n) as [[r s']| | |] eqn:E; try done.
    apply Dequeue_mem in E as [Hc Hq]. split; [|done]. destruct Hc as [Hmax _]. intros c'.
    unfold queue_of. rewrite Hq, Hmax. specialize (Hcap c') as Hc'. unfold queue_of in Hc'.
    destruct (queues s !! c) as [q|] eqn:Eq; [|done]. cbn zeta. case_decide.
    + destruct (decide (c' = c)) as [->|]; [rewrite lookup_delete_eq; unfold len; cbn; lia|by rewrite lookup_delete_ne].
    + destruct (decide (c' = c)) as [->|]; [rewrite lookup_insert_eq|by rewrite lookup_insert_ne].
      rewrite Eq in Hc'. cbn in *. pose proof (drop_expired_le now q). unfold len in *.
      rewrite length_drop. pose proof (Permutation_length (sort_msgs_perm (drop_expired now q))). lia.
  - destruct (RemoveAll_mem s c) as [Hq Hc]. split; [|done]. destruct Hc as [Hmax _]. intros c'.
    unfold queue_of. rewrite Hq, Hmax. destruct (decide (c' = c)) as [->|].
    + rewrite lookup_delete_eq. unfold len. cbn. lia.
    + rewrite lookup_delete_ne by done. apply Hcap.
Qed.

End Memory.

(** ** Keys of the mirror *)

Definition slash_free (c : string) : Prop := Contains c "/" = false.
#[global] Instance slash_free_dec c : Decision (slash_free c).
Proof. unfold slash_free. apply _. Defined.

Lemma bytes_of_app s t : bytes_of (s +:+ t) = bytes_of s ++ bytes_of t.
Proof.
  induction s as [|a s IH]; [done|].
  change (bytes_of (String a s +:+ t)) with (Z.of_N (Ascii.N_of_ascii a) :: bytes_of (s +:+ t)).
  by rewrite IH.
Qed.

Lemma bytes_ltb_prefix p k l : bytes_ltb (p ++ k) (p ++ l) = bytes_ltb k l.
Proof. induction p as [|a p IH]; cbn; [done|]. by rewrite Z.ltb_irrefl, Z.eqb_refl, IH. Qed.

Lemma bytes_ltb_snoc k l a b : length k = length l →
  bytes_ltb (k ++ [a]) (l ++ [b]) = bytes_ltb k l || (bool_decide (k = l) && (a <? b)).
Proof.
  revert l. induction k as [|x k IH]; intros [|y l] Hl; try done; cbn in *.
  - by rewrite andb_false_r, orb_false_r.
  - injection Hl as Hl. rewrite IH by done. destruct (Z.eqb_spec x y) as [->|Hne].
    + rewrite Z.ltb_irrefl. cbn. repeat case_bool_decide; naive_solver.
    + rewrite (bool_decide_false (x :: k = y :: l)) by congruence. cbn. by rewrite !orb_false_r.
Qed.

Lemma fixed_digits_length w n : length (fixed_digits w n) = w.
Proof. revert n. induction w as [|w IH]; intros n; cbn; [done|]. rewrite length_app, IH. cbn. lia. Qed.

Lemma fixed_digits_bytes w n : Forall byte_ok (fixed_digits w n).
Proof.
  revert n. induction w as [|w IH]; intros n; cbn; [done|]. apply Forall_app. split; [done|].
  constructor; [|done]. unfold byte_ok. pose proof (Z.mod_pos_bound n 10). lia.
Qed.

Lemma fixed_digits_lt w n m : 0 ≤ n → n < m → m < 10 ^ Z.of_nat w →
  bytes_ltb (fixed_digits w n) (fixed_digits w m) = true.
Proof.
  revert n m. induction w as [|w IH]; intros n m H0 Hlt Hm; cbn [fixed_digits]; [cbn in Hm; lia|].
  rewrite bytes_ltb_snoc by by rewrite !fixed_digits_length.
  rewrite Nat2Z.inj_succ, Z.pow_succ_r in Hm by lia.
  pose proof (Z.div_mod n 10). pose proof (Z.div_mod m 10).
  pose proof (Z.mod_pos_bound n 10). pose proof (Z.mod_pos_bound m 10).
  assert (n / 10 ≤ m / 10) by (apply Z.div_le_mono; lia).
  assert (0 ≤ n / 10) by (apply Z.div_pos; lia).
  assert (m / 10 < 10 ^ Z.of_nat w) by (apply Z.div_lt_upper_bound; lia).
  destruct (decide (n / 10 = m / 10)) as [Heq|].
  - rewrite bool_decide_true by by rewrite Heq. rewrite (proj2 (Z.ltb_lt _ _)) by lia. by rewrite orb_true_r.
  - rewrite IH by lia. done.
Qed.

Lemma om_key_bytes c n :
  bytes_of (om_key c n) = bytes_of ("om/" +:+ c +:+ "/") ++ fixed_digits 20 n.
Proof.
  unfold om_key. change (String "/" ?x) with ("/" +:+ x).
  rewrite !bytes_of_app, bytes_of_string_of by apply fixed_digits_bytes.
  by rewrite <- !app_assoc.
Qed.

Lemma om_key_lt c n m : 0 ≤ n → n < m → m < 10 ^ 20 → key_lt (om_key c n) (om_key c m).
Proof.
  intros. unfold key_lt, key_ltb. rewrite !om_key_bytes, bytes_ltb_prefix.
  by apply fixed_digits_lt.
Qed.

Lemma om_key_inj c n m : 0 ≤ n < 10 ^ 20 → 0 ≤ m < 10 ^ 20 → om_key c n = om_key c m → n = m.
Proof.
  intros Hn Hm Heq. destruct (Z.lt_trichotomy n m) as [Hl|[|Hl]]; [|done|]; exfalso.
  - pose proof (om_key_lt c n m) as Hk. rewrite Heq in Hk. apply (key_lt_irrefl (om_key c m)), Hk; lia.
  - pose proof (om_key_lt c m n) as Hk. rewrite Heq in Hk. apply (key_lt_irrefl (om_key c m)), Hk; lia.
Qed.

Lemma om_key_split c n : slash_free c →
  SplitN2 "/" (TrimPrefix (om_key c n) "om/") = [c; string_of (fixed_digits 20 n)].
Proof.
  intros Hc. unfold om_key. rewrite (TrimPrefix_app "om/"). by apply SplitN2_app.
Qed.

Lemma om_key_prefix c n : HasPrefix (om_key c n) "om/" = true.
Proof. apply (HasPrefix_app "om/"). Qed.

Lemma om_prefix_app c t : om_prefix c +:+ t = "om/" +:+ c +:+ String "/" t.
Proof.
  unfold om_prefix. change (String "/" t) with ("/" +:+ t). by rewrite !append_assoc.
Qed.

Lemma om_key_om_prefix c c' n : slash_free c → slash_free c' →
  HasPrefix (om_key c n) (om_prefix c') = true ↔ c = c'.
Proof.
  intros Hc Hc'. split.
  - intros Hp%HasPrefix_true. rewrite om_prefix_app in Hp.
    apply (f_equal (λ k, SplitN2 "/" (TrimPrefix k "om/"))) in Hp.
    rewrite om_key_split in Hp by done. rewrite (TrimPrefix_app "om/"), SplitN2_app in Hp by done.
    by injection Hp.
  - intros <-. unfold om_key. rewrite <- om_prefix_app. apply HasPrefix_app.
Qed.

Lemma om_prefix_om k c : HasPrefix k (om_prefix c) = true → HasPrefix k "om/" = true.
Proof. intros ->%HasPrefix_true. rewrite om_prefix_app. apply (HasPrefix_app "om/"). Qed.

Lemma seq_key_not_om c : HasPrefix (seq_key c) "om/" = false.
Proof. done. Qed.

Section Recovery.
Context {db : Type} `{StoreLaws db} `{!StoreReliable db} `{MessageJSON}.
Notation OfflineStore := (OfflineStore db).
Implicit Types (s : OfflineStore) (d : db).

(** ** Effects on the store *)

Lemma delete_keys_contents ks : ∀ d k,
  contents (delete_keys d ks) !! k = if decide (k ∈ ks) then None else contents d !! k.
Proof.
  induction ks as [|k0 ks IH]; intros d k; cbn [delete_keys foldl].
  - by rewrite decide_False by apply not_elem_of_nil.
  - change (foldl _ ?d ks) with (delete_keys d ks). rewrite IH.
    destruct (Delete_total d k0) as [d' Hd]. rewrite Hd. cbn [ignore_err].
    rewrite (Delete_contents _ _ _ Hd).
    destruct (decide (k ∈ ks)), (decide (k ∈ k0 :: ks)) as [Hin|Hin]; rewrite elem_of_cons in Hin;
      [done|tauto|..].
    + destruct Hin as [->|]; [by rewrite lookup_delete_eq|tauto].
    + rewrite lookup_delete_ne; [done|]. intros ->. tauto.
Qed.

Lemma scan_keys_elem d p k : k ∈ scan_keys d p ↔ HasPrefix k p = true ∧ is_Some (contents d !! k).
Proof.
  unfold scan_keys. destruct (Scan_total d p) as [l Hl]. rewrite Hl, list_elem_of_fmap. split.
  - intros ([k' v] & -> & Hin). apply (Scan_elem _ _ _ _ _ Hl) in Hin as [??]. eauto.
  - intros [Hp [v Hv]]. exists (k, v). split; [done|]. by apply (Scan_elem _ _ _ _ _ Hl).
Qed.

Lemma clear_prefix_contents d p k :
  contents (delete_keys d (scan_keys d p)) !! k = if HasPrefix k p then None else contents d !! k.
Proof.
  rewrite delete_keys_contents. case_decide as Hin; rewrite scan_keys_elem in Hin.
  - destruct Hin as [-> _]. done.
  - destruct (HasPrefix k p) eqn:E; [|done]. apply eq_None_not_Some. tauto.
Qed.

Lemma persist_loop_contents c q : ∀ s d n, store s = Some d → seqNums s !! c = Some n →
  0 ≤ n → n + len q < 2 ^ 64 →
  ∃ d', store (foldl (persistMessage c) s q) = Some d' ∧
    (∀ i m, q !! i = Some m → contents d' !! om_key c (n + Z.of_nat i) = Some (Marshal m)) ∧
    (∀ k, HasPrefix k "om/" = true →
       (∀ i, (i < length q)%nat → k ≠ om_key c (n + Z.of_nat i)) → contents d' !! k = contents d !! k).
Proof.
  induction q as [|m q IH]; intros s d n Hs Hn Hn0 Hlen; cbn [foldl].
  { exists d. split; [done|]. split; [|done]. intros i m Hi. by rewrite lookup_nil in Hi. }
  rewrite len_cons in Hlen. pose proof (len_nonneg q).
  assert (∃ d1, store (persistMessage c s m) = Some d1 ∧ seqNums (persistMessage c s m) !! c = Some (n + 1) ∧
    ∀ k, HasPrefix k "om/" = true → contents d1 !! k = <[om_key c n := Marshal m]> (contents d) !! k)
    as (d1 & Hs1 & Hn1 & Hd1).
  { unfold persistMessage. rewrite Hs, Hn. cbn [default from_option id].
    destruct (Set_total d (om_key c n) (Marshal m)) as [da Ha]. rewrite Ha.
    destruct (Set_total da (seq_key c) (PutUint64 (u64 (n + 1)))) as [dc Hc]. rewrite Hc.
    cbn [ignore_err with_db SetStore with_seqs store seqNums]. exists dc. split; [done|].
    rewrite lookup_insert_eq. split; [f_equal; apply Z.mod_small; lia|].
    intros k Hk. rewrite (Set_contents _ _ _ _ Hc), (Set_contents _ _ _ _ Ha).
    rewrite lookup_insert_ne; [done|]. intros <-. by rewrite seq_key_not_om in Hk. }
  destruct (IH _ _ _ Hs1 Hn1) as (d' & Hs' & Hset & Hkeep); [lia..|].
  exists d'. split; [done|].
  assert (∀ i j, (i < length (m :: q))%nat → (j < length (m :: q))%nat →
    om_key c (n + Z.of_nat i) = om_key c (n + Z.of_nat j) → i = j) as Hinj.
  { intros i j Hi Hj Heq. unfold len in *. cbn in Hi, Hj.
    assert (2 ^ 64 < 10 ^ 20) by done. apply om_key_inj in Heq; lia. }
  split.
  - intros [|i] m' Hi.
    + injection Hi as ->. rewrite Hkeep; [|apply om_key_prefix|].
      * rewrite Hd1 by apply om_key_prefix. rewrite Z.add_0_r. by rewrite lookup_insert_eq.
      * intros i Hi Heq. replace (n + 1 + Z.of_nat i) with (n + Z.of_nat (S i)) in Heq by lia.
        apply Hinj in Heq; cbn; lia.
    + replace (n + Z.of_nat (S i)) with (n + 1 + Z.of_nat i) by lia. by apply Hset.
  - intros k Hk Hne. rewrite Hkeep; [|done|].
    + rewrite Hd1 by done. rewrite lookup_insert_ne; [done|].
      intros Heq. apply (Hne 0%nat); [cbn; lia|]. by rewrite Z.add_0_r.
    + intros i Hi. replace (n + 1 + Z.of_nat i) with (n + Z.of_nat (S i)) by lia. apply Hne. cbn. lia.
Qed.

(** The store holds exactly the messages of [Q], numbered in queue order. *)
Definition mirror (m : gmap key value) (Q : string → list OfflineMessage) : Prop :=
  ∀ k v, HasPrefix k "om/" = true →
    m !! k = Some v ↔ ∃ c i msg, slash_free c ∧ Q c !! i = Some msg ∧
                       k = om_key c (Z.of_nat i) ∧ v = Marshal msg.

Definition upd_queue (Q : string → list OfflineMessage) (c : string) (q : list OfflineMessage)
    : string → list OfflineMessage := λ c', if decide (c' = c) then q else Q c'.

Definition short (Q : string → list OfflineMessage) : Prop := ∀ c, len (Q c) < 2 ^ 64.

Lemma key_index_inj c i j (q1 q2 : list OfflineMessage) m1 m2 : len q1 < 2 ^ 64 → len q2 < 2 ^ 64 →
  q1 !! i = Some m1 → q2 !! j = Some m2 → om_key c (Z.of_nat i) = om_key c (Z.of_nat j) → i = j.
Proof.
  intros ?? Hi%lookup_lt_Some Hj%lookup_lt_Some Heq. unfold len in *.
  assert (2 ^ 64 < 10 ^ 20) by done. apply om_key_inj in Heq; lia.
Qed.

(** Rewriting one client's messages. *)
Lemma mirror_rewrite m m' Q c q : mirror m Q → slash_free c → short Q → len q < 2 ^ 64 →
  (∀ i msg, q !! i = Some msg → m' !! om_key c (Z.of_nat i) = Some (Marshal msg)) →
  (∀ k, HasPrefix k "om/" = true → (∀ i, (i < length q)%nat → k ≠ om_key c (Z.of_nat i)) →
     m' !! k = if HasPrefix k (om_prefix c) then None else m !! k) →
  mirror m' (upd_queue Q c q).
Proof.
  intros Hm Hc Hsh Hq Hset Hkeep k v Hk. unfold upd_queue.
  destruct (decide (Exists (λ i, k = om_key c (Z.of_nat i)) (seq 0 (length q)))) as [Hex|Hex].
  - apply Exists_exists in Hex as (i & Hi%elem_of_seq & ->).
    destruct (lookup_lt_is_Some_2 q i) as [msg Hmsg]; [lia|].
    rewrite (Hset _ _ Hmsg). split.
    + intros [= <-]. exists c, i, msg. rewrite decide_True by done. done.
    + intros (c' & j & msg' & Hc' & Hj & Heq & ->). case_decide as Hcc.
      * subst c'. assert (i = j) as <- by (eapply (key_index_inj c i j q q); eauto).
        by simplify_eq.
      * destruct Hcc. symmetry. apply (om_key_om_prefix c c' (Z.of_nat i)); [done..|].
        rewrite Heq. by apply om_key_om_prefix.
  - assert (∀ i, (i < length q)%nat → k ≠ om_key c (Z.of_nat i)) as Hne.
    { intros i Hi ->. apply Hex, Exists_exists. exists i. split; [|done]. apply elem_of_seq. lia. }
    rewrite (Hkeep k Hk Hne). destruct (HasPrefix k (om_prefix c)) eqn:Hp.
    + split; [done|]. intros (c' & j & msg' & Hc' & Hj & -> & ->).
      apply om_key_om_prefix in Hp; [|done..]. subst c'. rewrite decide_True in Hj by done.
      exfalso. apply (Hne j); [by apply lookup_lt_Some in Hj|done].
    + rewrite (Hm k v Hk). split; intros (c' & j & msg' & Hc' & Hj & -> & ->);
        exists c', j, msg'; (split; [done|]).
      * rewrite decide_False; [done|]. intros ->. rewrite (proj2 (om_key_om_prefix c c _ Hc Hc)) in Hp by done.
        done.
      * case_decide; [subst c'|done].
        by rewrite (proj2 (om_key_om_prefix c c _ Hc Hc)) in Hp.
Qed.

Lemma clear_mirror s d Q c : store s = Some d → mirror (contents d) Q → slash_free c → short Q →
  len (queue_of s c) < 2 ^ 64 →
  ∃ d', store (clearPebbleMessages s c) = Some d' ∧ mirror (contents d') (upd_queue Q c (queue_of s c)).
Proof.
  intros Hs Hm Hc Hsh Hq. unfold clearPebbleMessages. rewrite Hs. cbn zeta.
  set (d1 := delete_keys d (scan_keys d (om_prefix c))).
  set (s1 := with_seqs (with_db s d1) (<[c := 0]> (seqNums (with_db s d1)))).
  destruct (persist_loop_contents c (queue_of s c) s1 d1 0) as (d2 & Hs2 & Hset & Hkeep);
    [done|apply lookup_insert_eq|done|lia|].
  assert (mirror (contents d2) (upd_queue Q c (queue_of s c))) as Hm2.
  { eapply mirror_rewrite; [done..|exact Hset|]. intros k Hk Hne. rewrite (Hkeep k Hk Hne).
    apply clear_prefix_contents. }
  case_decide; [|eauto]. rewrite Hs2. cbn [drop_seq with_db SetStore store]. eexists. split; [done|].
  destruct (Delete_total d2 (seq_key c)) as [d3 Hd3]. rewrite Hd3. cbn [ignore_err].
  intros k v Hk. rewrite (Delete_contents _ _ _ Hd3), lookup_delete_ne; [by apply Hm2|].
  intros <-. by rewrite seq_key_not_om in Hk.
Qed.

Lemma remove_mirror s d Q c : store s = Some d → mirror (contents d) Q → slash_free c → short Q →
  ∃ d', store (removeAllPebble s c) = Some d' ∧ mirror (contents d') (upd_queue Q c []).
Proof.
  intros Hs Hm Hc Hsh. unfold removeAllPebble. rewrite Hs.
  cbn [drop_seq with_db SetStore store]. eexists. split; [done|].
  set (d1 := delete_keys d (scan_keys d (om_prefix c))).
  destruct (Delete_total d1 (seq_key c)) as [d3 Hd3]. rewrite Hd3. cbn [ignore_err].
  assert (mirror (contents d1) (upd_queue Q c [])) as Hm2.
  { eapply mirror_rewrite; [done..|intros i msg Hi; by rewrite lookup_nil in Hi|].
    intros k Hk _. apply clear_prefix_contents. }
  intros k v Hk. rewrite (Delete_contents _ _ _ Hd3), lookup_delete_ne; [by apply Hm2|].
  intros <-. by rewrite seq_key_not_om in Hk.
Qed.

(** ** Loading *)

Definition message_for (c : string) (kv : key * value) : option OfflineMessage :=
  match SplitN2 "/" (TrimPrefix kv.1 "om/") with
  | [c'; _] => if decide (c' = c) then Unmarshal kv.2 else None
  | _ => None
  end.

Lemma load_messages_spec l : ∀ q c,
  default [] (foldl load_message q l !! c) = default [] (q !! c) ++ omap (message_for c) l.
Proof.
  induction l as [|kv l IH]; intros q c; cbn [foldl omap list_omap]; [by rewrite app_nil_r|].
  rewrite IH. unfold load_message at 1, message_for at 2.
  destruct (SplitN2 _ _) as [|c' [|x [|??]]]; try done.
  destruct (Unmarshal kv.2) as [m|]; [|by case_decide].
  destruct (decide (c' = c)) as [->|]; [rewrite lookup_insert_eq|by rewrite lookup_insert_ne].
  cbn. by rewrite <- app_assoc.
Qed.

(** The pairs of client [c] in a scan, in index order. *)
Definition client_pairs (c : string) (q : list OfflineMessage) : list (key * value) :=
  imap (λ i m, (om_key c (Z.of_nat i), Marshal m)) q.

Definition pair_lt (x y : key * value) : Prop := key_lt x.1 y.1.

Lemma pair_sorted_unique l1 l2 : StronglySorted pair_lt l1 → StronglySorted pair_lt l2 →
  (∀ x, x ∈ l1 ↔ x ∈ l2) → l1 = l2.
Proof.
  intros Hs1 Hs2 Hel.
  assert (∀ x y, pair_lt x y → ¬ pair_lt y x) as Hanti.
  { intros x y Hxy Hyx. apply (key_lt_irrefl x.1). by apply key_lt_trans with y.1. }
  assert (∀ l, StronglySorted pair_lt l → NoDup l) as Hnd.
  { induction 1 as [|x l Hs IH Hx]; constructor; [|done]. intros Hin.
    rewrite Forall_forall in Hx. by apply (key_lt_irrefl x.1), (Hx x). }
  assert (AntiSymm (=) pair_lt) by (intros x y Hx Hy; by apply Hanti in Hx).
  eapply (StronglySorted_unique pair_lt); [done..|]. apply NoDup_Permutation; auto.
Qed.

Lemma client_pairs_elem c q k v : (k, v) ∈ client_pairs c q ↔
  ∃ i m, q !! i = Some m ∧ k = om_key c (Z.of_nat i) ∧ v = Marshal m.
Proof.
  unfold client_pairs. rewrite list_elem_of_lookup. setoid_rewrite list_lookup_imap_Some.
  naive_solver.
Qed.

Lemma client_pairs_sorted c q : len q < 2 ^ 64 → StronglySorted pair_lt (client_pairs c q).
Proof.
  intros Hq. unfold client_pairs. assert (∀ j, Z.of_nat j + len q < 2 ^ 64 →
    StronglySorted pair_lt (imap (λ i m, (om_key c (Z.of_nat (j + i)), Marshal m)) q)) as Hg;
    [|by apply (Hg 0%nat)].
  clear Hq. induction q as [|m q IH]; intros j Hj; cbn; [constructor|]. rewrite len_cons in Hj.
  assert (imap ((λ i m, (om_key c (Z.of_nat (j + i)), Marshal m)) ∘ S) q =
    imap (λ i m, (om_key c (Z.of_nat (S j + i)), Marshal m)) q) as Heq.
  { apply imap_ext. intros i x _. cbn. by replace (j + S i)%nat with (S (j + i)) by lia. }
  rewrite Heq. constructor; [apply IH; lia|]. apply Forall_forall. intros [k v] Hin.
  apply list_elem_of_lookup in Hin as (i & Hi).
  apply list_lookup_imap_Some in Hi as (x & Hx & [= -> ->]). unfold pair_lt. cbn [fst].
  apply lookup_lt_Some in Hx. unfold len in Hj. assert (2 ^ 64 < 10 ^ 20) by done.
  apply om_key_lt; lia.
Qed.

Lemma omap_client_pairs c q : slash_free c →
  Forall (λ m, utf8_valid (bytes_of (om_Topic m)) = true) q →
  omap (message_for c) (client_pairs c q) = q.
Proof.
  intros Hc Hq. unfold client_pairs.
  assert (∀ f : nat → Z, omap (message_for c) (imap (λ i m, (om_key c (f i), Marshal m)) q) = q) as Hg;
    [|by apply (Hg Z.of_nat)].
  induction Hq as [|m q Hm Hq IH]; intros f; [done|]. cbn [imap omap list_omap].
  unfold message_for at 1. cbn [fst snd]. rewrite om_key_split by done.
  rewrite decide_True by done. rewrite Unmarshal_Marshal by done. f_equal.
  apply (IH (f ∘ S)).
Qed.

Lemma omap_filter_same c (P : key * value → Prop) `{∀ x, Decision (P x)} (l : list (key * value)) :
  (∀ x, x ∈ l → ¬ P x → message_for c x = None) →
  omap (message_for c) l = omap (message_for c) (filter P l).
Proof.
  induction l as [|x l IH]; intros HP; [done|]. rewrite filter_cons. case_decide as Hx; cbn.
  - rewrite IH by (intros y Hy; apply HP; by right). done.
  - rewrite (HP x) by (done || by left). apply IH. intros y Hy. apply HP. by right.
Qed.

Lemma filter_sorted (P : key * value → Prop) `{∀ x, Decision (P x)} (l : list (key * value)) :
  StronglySorted pair_lt l → StronglySorted pair_lt (filter P l).
Proof.
  induction 1 as [|x l Hs IH Hx]; [constructor|]. rewrite filter_cons. case_decide; [|done].
  constructor; [done|]. rewrite Forall_forall in *. intros y Hy. apply Hx.
  by apply list_elem_of_filter in Hy as [_ ?].
Qed.

Lemma sorted_pairs (l : list (key * value)) : StronglySorted key_lt l.*1 → StronglySorted pair_lt l.
Proof.
  induction l as [|x l IH]; cbn; [constructor|]. inversion 1; subst. constructor; [auto|].
  by rewrite <- (Forall_fmap fst (key_lt x.1)).
Qed.

Definition topics_ok (Q : string → list OfflineMessage) : Prop :=
  ∀ c, Forall (λ m, utf8_valid (bytes_of (om_Topic m)) = true) (Q c).

Lemma scan_client d l Q c : Scan d "om/" = Ok l → mirror (contents d) Q → short Q → topics_ok Q →
  slash_free c → omap (message_for c) l = Q c.
Proof.
  intros Hl Hm Hsh Ht Hc.
  rewrite (omap_filter_same c (λ x, is_Some (message_for c x))) by
    (intros x _ Hx; by apply eq_None_not_Some).
  rewrite <- (omap_client_pairs c (Q c)) by (done || apply Ht). f_equal.
  apply pair_sorted_unique.
  - apply filter_sorted, sorted_pairs. by eapply Scan_sorted.
  - by apply client_pairs_sorted.
  - intros [k v]. rewrite list_elem_of_filter, (Scan_elem _ _ _ _ _ Hl), client_pairs_elem. split.
    + intros (Hfor & Hk & Hv). apply (Hm k v Hk) in Hv as (c' & i & msg & Hc' & Hi & -> & ->).
      unfold message_for in Hfor. cbn [fst] in Hfor. rewrite om_key_split in Hfor by done.
      case_decide; [subst; eauto|by destruct Hfor].
    + intros (i & msg & Hi & -> & ->). split; [|split; [apply om_key_prefix|]].
      * unfold message_for. cbn [fst snd]. rewrite om_key_split, decide_True by done.
        rewrite Unmarshal_Marshal; [eauto|]. specialize (Ht c). rewrite Forall_forall in Ht.
        apply Ht. by eapply list_elem_of_lookup_2.
      * apply Hm; [apply om_key_prefix|]. eauto 10.
Qed.

(** A client id with a slash is never read back from a mirror of slash-free clients. *)
Lemma scan_slashy d l Q c : Scan d "om/" = Ok l → mirror (contents d) Q → ¬ slash_free c →
  omap (message_for c) l = [].
Proof.
  intros Hl Hm Hc. assert (∀ x, x ∈ l → message_for c x = None) as Hn.
  { intros [k v] Hin. apply (Scan_elem _ _ _ _ _ Hl) in Hin as [Hk Hv].
    apply (Hm k v Hk) in Hv as (c' & i & msg & Hc' & _ & -> & ->).
    unfold message_for. cbn [fst]. rewrite om_key_split by done. case_decide; [by subst|done]. }
  clear Hl. induction l as [|x l IH]; [done|]. cbn. rewrite (Hn x) by by left.
  apply IH. intros y Hy. apply Hn. by right.
Qed.

(** ** Histories with a store *)

Definition qop_ok (now : Z) (o : qop) : Prop :=
  match o with
  | QEnqueue t c m => t ≤ now ∧ slash_free c ∧ utf8_valid (bytes_of (om_Topic m)) = true
  | QDequeue t c _ => t ≤ now ∧ slash_free c
  | QRemoveAll c => slash_free c
  end.

(** The store mirrors queues [Q] that agree with the memory on every message not expired. *)
Definition recoverable (now : Z) s : Prop :=
  ∃ d Q, store s = Some d ∧ mirror (contents d) Q ∧ short Q ∧ topics_ok Q ∧
    topics_ok (queue_of s) ∧ (∀ c, ¬ slash_free c → Q c = [] ∧ queue_of s c = []) ∧
    ∀ c t, now ≤ t → drop_expired t (Q c) = drop_expired t (queue_of s c).

Lemma expired_mono t t' m : t ≤ t' → expired t m = true → expired t' m = true.
Proof.
  unfold expired. intros Ht [? Hx%Z.ltb_lt]%andb_true_iff. apply andb_true_iff. split; [done|].
  apply Z.ltb_lt. lia.
Qed.

Lemma drop_expired_again t t' q : t ≤ t' → drop_expired t' (drop_expired t q) = drop_expired t' q.
Proof.
  intros Ht. unfold drop_expired. induction q as [|m q IH]; [done|]. rewrite !filter_cons.
  destruct (expired t m) eqn:E.
  - rewrite (decide_False (P := true = false)) by done. rewrite (expired_mono _ _ _ Ht E).
    by rewrite (decide_False (P := true = false)) by done.
  - rewrite decide_True by done. rewrite filter_cons. case_decide; [by rewrite IH|done].
Qed.

(** Replacing the queue of one client, in memory and in the mirror. *)
Lemma recoverable_upd now s s' c q :
  recoverable now s → slash_free c → len q < 2 ^ 64 →
  Forall (λ m, utf8_valid (bytes_of (om_Topic m)) = true) q →
  (∀ c', queue_of s' c' = upd_queue (queue_of s) c q c') →
  (∀ d Q, store s = Some d → mirror (contents d) Q → short Q →
     ∃ d', store s' = Some d' ∧ mirror (contents d') (upd_queue Q c q)) →
  recoverable now s'.
Proof.
  intros (d & Q & Hs & Hm & Hsh & HQ & HM & Hsl & Hag) Hc Hq Hu Hmem Hst.
  destruct (Hst d Q Hs Hm Hsh) as (d' & Hs' & Hm'). exists d', (upd_queue Q c q).
  split; [done|]. split; [done|]. unfold upd_queue, short, topics_ok in *.
  split; [intros c'; by case_decide|]. split; [intros c'; case_decide; [by subst|apply HQ]|].
  split; [intros c'; rewrite Hmem; case_decide; [by subst|apply HM]|]. split.
  - intros c' Hc'. rewrite Hmem. destruct (decide (c' = c)); [by subst|]. by apply Hsl.
  - intros c' t Ht. rewrite Hmem. case_decide; [done|]. by apply Hag.
Qed.

Lemma set_expiry_topic s now m : om_Topic (set_expiry s (set_created now m)) = om_Topic m.
Proof. unfold set_expiry, set_created. repeat case_match; done. Qed.

Lemma filter_topics (P : OfflineMessage → Prop) `{∀ x, Decision (P x)} (R : OfflineMessage → Prop) q :
  Forall R q → Forall R (filter P q).
Proof.
  rewrite !Forall_forall. intros Hq x Hx. apply list_elem_of_filter in Hx as [_ ?]. auto.
Qed.

Lemma evict_topics (R : OfflineMessage → Prop) prio q q' : evict prio q = Some q' → Forall R q → Forall R q'.
Proof.
  unfold evict. generalize [PriorityLow; PriorityMedium; PriorityHigh].
  induction l as [|p l IH]; cbn [evict_loop]; [done|]. case_match; [|done].
  pose proof (evict_first_spec p q) as Hs. destruct (evict_first p q); [|done].
  intros [= <-] Hq. destruct Hs as (?&?&?&->&->&_). rewrite Forall_app, Forall_cons in Hq.
  apply Forall_app. tauto.
Qed.

Lemma enqueued_topics s now c m : topics_ok (queue_of s) →
  utf8_valid (bytes_of (om_Topic m)) = true →
  Forall (λ m, utf8_valid (bytes_of (om_Topic m)) = true) (enqueued s now c m).
Proof.
  intros Ht Hm. unfold enqueued. pose proof (filter_topics (λ m, expired now m = false) _ _ (Ht c)) as Hq.
  fold (drop_expired now (queue_of s c)) in Hq. set (q := drop_expired now (queue_of s c)) in *.
  assert (∀ q, Forall (λ m, utf8_valid (bytes_of (om_Topic m)) = true) q →
    Forall (λ m, utf8_valid (bytes_of (om_Topic m)) = true) (q ++ [set_expiry s (set_created now m)])) as Hsnoc.
  { intros q0 Hq0. apply Forall_app. split; [done|]. constructor; [|done]. by rewrite set_expiry_topic. }
  case_match; [|auto]. destruct (tierConfig s); [|done].
  destruct (evict _ q) as [q'|] eqn:E; [|done]. eauto using evict_topics.
Qed.

(** On success the new queue is mirrored; on rejection the store keeps the messages that
    memory dropped because they had expired. *)
Lemma Enqueue_recoverable now s t c m : within_cap s → maxPerClient s < 2 ^ 63 →
  t ≤ now → slash_free c → utf8_valid (bytes_of (om_Topic m)) = true →
  recoverable now s → recoverable now (Enqueue t s c m).2.
Proof.
  intros Hcap Hmax Ht Hc Hm Hrec. pose proof (Enqueue_mem t s c m) as [Hqs _].
  pose proof Hrec as (_ & _ & _ & _ & _ & _ & HM & _).
  pose proof (enqueued_topics s t c m HM Hm) as Htop.
  assert (∀ c', queue_of (Enqueue t s c m).2 c' = upd_queue (queue_of s) c (enqueued s t c m) c') as Hmem.
  { intros c'. unfold queue_of at 1. rewrite Hqs. apply queue_of_insert. }
  assert (len (enqueued s t c m) < 2 ^ 64) as Hlen.
  { destruct (qstep_cap s (QEnqueue t c m) Hcap) as [Hcap' [Hmx _]]. specialize (Hcap' c).
    cbn [qstep] in Hcap'. rewrite Hmem in Hcap'. unfold upd_queue in Hcap'.
    rewrite decide_True in Hcap' by done. cbn [qstep] in Hmx. lia. }
  assert (∀ q, enqueued s t c m = q → (Enqueue t s c m).2 =
      clearPebbleMessages (with_queues s (<[c := q]> (queues s))) c → recoverable now (Enqueue t s c m).2) as Hacc.
  { intros q <- He. eapply recoverable_upd; [exact Hrec|done..|]. rewrite He. intros d Q Hs HmQ Hsh.
    set (s1 := with_queues s _).
    assert (queue_of s1 c = enqueued s t c m) as Hq1.
    { unfold queue_of, s1. cbn. by rewrite lookup_insert_eq. }
    rewrite <- Hq1. eapply clear_mirror; [done..|]. by rewrite Hq1. }
  assert (enqueued s t c m = drop_expired t (queue_of s c) →
    store (Enqueue t s c m).2 = store s → recoverable now (Enqueue t s c m).2) as Hrej.
  { intros He Hst. destruct Hrec as (d & Q & Hs & HmQ & Hsh & HQ & _ & Hsl & Hag).
    exists d, Q. rewrite Hst. split_and!; [done..| | |].
    - intros c'. rewrite Hmem. unfold upd_queue. case_decide; [by rewrite He in *|apply HM].
    - intros c' Hc'. rewrite Hmem. unfold upd_queue. rewrite decide_False by (by intros ->). by apply Hsl.
    - intros c' t' Ht'. rewrite Hmem, (Hag c' t' Ht'). unfold upd_queue. case_decide; [|done].
      subst. rewrite He, drop_expired_again by lia. done. }
  revert Hacc Hrej. unfold Enqueue, enqueued.
  destruct (maxPerClient s <=? _); [|intros Hacc _; by eapply Hacc].
  destruct (tierConfig s); [|intros _ Hrej; by apply Hrej].
  destruct (evict _ _); [intros Hacc _; by eapply Hacc|intros _ Hrej; by apply Hrej].
Qed.

Lemma Dequeue_recoverable now s t c n r s' : within_cap s → maxPerClient s < 2 ^ 63 →
  slash_free c → Dequeue t s c n = Ok (r, s') → recoverable now s → recoverable now s'.
Proof.
  intros Hcap Hmax Hc Hdq Hrec. pose proof (Dequeue_mem _ _ _ _ _ _ Hdq) as [_ Hqs].
  pose proof Hrec as (_ & _ & _ & _ & _ & _ & HM & _). unfold Dequeue in Hdq.
  destruct (queues s !! c) as [q|] eqn:Eq; [|by injection Hdq as _ <-].
  cbn zeta in *. set (valid := sort_msgs (drop_expired t q)) in *.
  set (rest := drop (Z.to_nat (Z.min n (len valid))) valid) in *.
  assert (queue_of s c = q) as Hq by (unfold queue_of; by rewrite Eq).
  assert (len rest ≤ len q) as Hle.
  { pose proof (drop_expired_le t q). pose proof (Permutation_length (sort_msgs_perm (drop_expired t q))).
    unfold rest, len in *. rewrite length_drop. fold valid in H3. lia. }
  assert (Forall (λ m, utf8_valid (bytes_of (om_Topic m)) = true) rest) as Hrest.
  { apply Forall_drop. unfold valid. rewrite sort_msgs_perm. apply filter_topics. rewrite <- Hq. apply HM. }
  assert (∀ c', queue_of s' c' = upd_queue (queue_of s) c rest c') as Hmem.
  { intros c'. unfold queue_of, upd_queue. rewrite Hqs. destruct (decide (rest = [])) as [->|].
    - destruct (decide (c' = c)) as [->|]; [by rewrite lookup_delete_eq|by rewrite lookup_delete_ne].
    - destruct (decide (c' = c)) as [->|]; [by rewrite lookup_insert_eq|by rewrite lookup_insert_ne]. }
  specialize (Hcap c). rewrite Hq in Hcap.
  apply (recoverable_upd now s s' c rest); [exact Hrec|done|lia|done..|]. intros d Q Hs HmQ Hsh.
  assert (queue_of s' c = rest) as Hqr by (rewrite Hmem; unfold upd_queue; by rewrite decide_True).
  destruct (_ <? 0); [done|]. injection Hdq as _ Hs'.
  assert (queue_of (with_queues s (queues s')) c = rest) as Hqq by exact Hqr.
  match type of Hs' with clearPebbleMessages (with_queues s ?x) c = _ =>
    assert (queues s' = x) as Hx by (rewrite <- Hs'; apply clear_queues) end.
  rewrite <- Hx in Hs'.
  destruct (clear_mirror (with_queues s (queues s')) d Q c) as (d' & Hd' & Hm'); [done..|rewrite Hqq; lia|].
  exists d'. rewrite Hs', Hqq in *. done.
Qed.

Lemma RemoveAll_recoverable now s c : slash_free c →
  recoverable now s → recoverable now (RemoveAll s c).
Proof.
  intros Hc Hrec. apply (recoverable_upd now s _ c []); [exact Hrec|done|done|constructor| |].
  - intros c'. unfold queue_of, upd_queue. rewrite (proj1 (RemoveAll_mem s c)).
    case_decide; [subst; by rewrite lookup_delete_eq|by rewrite lookup_delete_ne].
  - intros d Q Hs Hm Hsh. by eapply remove_mirror.
Qed.

Lemma history_recoverable now s ops : within_cap s → maxPerClient s < 2 ^ 63 →
  Forall (qop_ok now) ops → recoverable now s → recoverable now (foldl qstep s ops).
Proof.
  intros Hcap Hmax Hops. revert s Hcap Hmax. induction Hops as [|o ops Ho Hops IH];
    intros s Hcap Hmax Hrec; [done|]. cbn [foldl].
  destruct (qstep_cap s o Hcap) as [Hcap' [Hmx _]]. apply IH; [done|by rewrite Hmx|].
  destruct o as [t c m|t c n|c]; cbn [qop_ok qstep] in *.
  - destruct Ho as (?&?&?). by apply Enqueue_recoverable.
  - destruct Ho as [??]. destruct (Dequeue t s c n) as [[r s']| | |] eqn:E; try done.
    by apply (Dequeue_recoverable now s t c n r s').
  - by apply RemoveAll_recoverable.
Qed.

Lemma LoadFromStore_recovers now s cap0 ttl0 : recoverable now s →
  ∃ d s', store s = Some d ∧ LoadFromStore (SetStore (NewOfflineStore cap0 ttl0) (Some d)) = Ok s' ∧
    ∀ c t, now ≤ t → drop_expired t (queue_of s' c) = drop_expired t (queue_of s c).
Proof.
  intros (d & Q & Hs & Hm & Hsh & HQ & _ & Hsl & Hag). exists d. unfold LoadFromStore. cbn [SetStore store].
  destruct (Scan_total d "om-seq/") as [l1 Hl1]. destruct (Scan_total d "om/") as [l2 Hl2].
  rewrite Hl1. cbn [wrap_err mbind res_bind]. rewrite Hl2. cbn [mbind res_bind]. eexists.
  split; [done|]. split; [done|]. intros c t Ht. rewrite <- (Hag c t Ht). f_equal.
  unfold queue_of. cbn [with_queues queues SetStore NewOfflineStore]. rewrite load_messages_spec, lookup_empty.
  cbn. destruct (decide (slash_free c)) as [Hc|Hc].
  - by apply (scan_client d).
  - rewrite (scan_slashy d l2 Q c) by done. by destruct (Hsl c Hc) as [-> _].
Qed.

End Recovery.

(** ** A concrete codec and store *)

(** A codec with the round-trip law, to run the model on. *)
#[global] Instance flat_codec : MessageJSON.
Proof.
  refine {| Marshal m := om_QoS m :: om_Priority m :: om_CreatedAt m :: om_ExpiresAt m ::
                         slen (om_Topic m) :: bytes_of (om_Topic m) ++ om_Payload m;
            Unmarshal b := match b with
              | q :: p :: cr :: ex :: n :: b =>
                  Some (mkMsg (string_of (take (Z.to_nat n) b)) (drop (Z.to_nat n) b) q p cr ex)
              | _ => None end |}.
  intros m _. rewrite <- len_bytes_of. unfold len. rewrite Nat2Z.id.
  rewrite take_app_length, drop_app_length, string_of_bytes_of. by destruct m.
Defined.

Definition empty_db : mem_db := (∅ : gmap key value).
Definition sample_store : OfflineStore mem_db := SetStore (NewOfflineStore 2 1000) (Some empty_db).
Definition sample_msg (topic : string) (prio : Z) : OfflineMessage :=
  mkMsg topic [104; 105] 1 prio zeroTime zeroTime.
Definition sample_tiers : TierConfig :=
  {| HighMax := 1; HighTTL := 50; MidMax := 1; MidTTL := 50; LowMax := 1; LowTTL := 50 |}.

(** ** Properties *)

(** However messages are stored and fetched, no client's offline queue ever holds more
    messages than the configured limit. *)
Theorem offline_queue_bounded {db} `{Store db} `{MessageJSON} (cap0 ttl0 : Z) (tiers : option TierConfig)
    (d : option db) (ops : list qop) (c : string) :
  Count (foldl qstep (SetStore (SetTierConfig (NewOfflineStore cap0 ttl0) tiers) d) ops) c
  ≤ Z.max 0 cap0.
Proof.
  set (s0 := SetStore _ _). assert (within_cap s0 ∧ maxPerClient s0 = cap0) as [Hcap Hmax].
  { split; [|done]. intros c'. unfold queue_of, s0. cbn. rewrite lookup_empty. unfold len. cbn. lia. }
  clearbody s0. revert s0 Hcap Hmax. induction ops as [|o ops IH]; intros s0 Hcap Hmax; cbn [foldl].
  - unfold Count. rewrite <- Hmax. apply Hcap.
  - destruct (qstep_cap s0 o Hcap) as [? [Hm _]]. apply IH; [done|]. by rewrite Hm.
Qed.

(** Storing a message for a client whose live messages fill the queue: without tiers it
    is refused and the live messages are all kept; with tiers exactly one message goes, the
    oldest among the least important ones that are no more important than the new one, and
    the new message is appended with its time to live; it is refused only if every stored
    message is more important. *)
Theorem Enqueue_full {db} `{Store db} `{MessageJSON} (now : Z) (s : OfflineStore db) (c : string)
    (m : OfflineMessage) :
  let q := drop_expired now (queue_of s c) in
  let m' := set_expiry s (set_created now m) in
  maxPerClient s ≤ len q →
  Forall (λ x, 0 ≤ om_Priority x) q →
  let '(err, s') := Enqueue now s c m in
  match err with
  | None => is_Some (tierConfig s) ∧
            ∃ q', evicted (om_Priority m') q q' ∧ queue_of s' c = q' ++ [m']
  | Some _ => queue_of s' c = q ∧
              (is_Some (tierConfig s) → Forall (λ x, ¬ om_Priority m' ≤ om_Priority x ≤ PriorityLow) q)
  end ∧ ∀ c', c' ≠ c → queue_of s' c' = queue_of s c'.
Proof.
  intros q m' Hfull Hprio. pose proof (Enqueue_mem now s c m) as [Hqs _].
  destruct (Enqueue now s c m) as [err s'] eqn:E. cbn [snd] in Hqs.
  assert (queue_of s' c = enqueued s now c m) as Hq.
  { unfold queue_of. by rewrite Hqs, lookup_insert_eq. }
  split; [|intros c' Hc'; unfold queue_of; by rewrite Hqs, lookup_insert_ne].
  rewrite Hq. unfold Enqueue in E. unfold enqueued. cbn zeta in E. fold q in E |- *. fold m' in E |- *.
  rewrite (proj2 (Z.leb_le _ _) Hfull) in *.
  destruct (tierConfig s); [|injection E as <- _; split; [done|by intros []]].
  pose proof (evict_spec (om_Priority m') q Hprio) as Hev.
  destruct (evict (om_Priority m') q) as [q'|]; injection E as <- _; eauto.
Qed.

Lemma Enqueue_full_witness :
  let s := foldl qstep (SetTierConfig sample_store (Some sample_tiers))
             [QEnqueue 1 "c" (sample_msg "t1" 2); QEnqueue 2 "c" (sample_msg "t2" 0)] in
  let q := drop_expired 3 (queue_of s "c") in
  let m' := set_expiry s (set_created 3 (sample_msg "t3" 1)) in
  maxPerClient s ≤ len q ∧
  let '(err, s') := Enqueue 3 s "c" (sample_msg "t3" 1) in
  match err with
  | None => is_Some (tierConfig s) ∧
            ∃ q', evicted (om_Priority m') q q' ∧ queue_of s' "c" = q' ++ [m']
  | Some _ => queue_of s' "c" = q ∧
              (is_Some (tierConfig s) → Forall (λ x, ¬ om_Priority m' ≤ om_Priority x ≤ PriorityLow) q)
  end ∧ ∀ c', c' ≠ "c" → queue_of s' c' = queue_of s c'.
Proof.
  intros s q m'. assert (maxPerClient s ≤ len q) as Hm by by vm_compute.
  split; [exact Hm|]. apply (Enqueue_full 3 s "c" (sample_msg "t3" 1)); [exact Hm|].
  vm_compute. repeat (constructor; [done|]). constructor.
Defined.

Lemma Dequeue_total {db} `{Store db} `{MessageJSON} now (s : OfflineStore db) c n : 0 ≤ n →
  ∃ result s', Dequeue now s c n = Ok (result, s').
Proof.
  intros Hn. unfold Dequeue. destruct (queues s !! c); [|eauto]. cbn zeta.
  set (valid := sort_msgs _). pose proof (len_nonneg valid).
  destruct (Z.ltb_spec (len valid) n); rewrite (proj2 (Z.ltb_ge _ 0)) by lia; eauto.
Qed.

(** C14: fetching the queue of a reconnecting client hands over the live messages most
    important first, in creation order within a priority and in arrival order among equal
    ones, at most as many as asked for; what is handed over and what stays in the queue
    together are exactly the live messages, none lost and none doubled. *)
Theorem Dequeue_correct {db} `{Store db} `{MessageJSON} (now : Z) (s : OfflineStore db) (c : string) (n : Z) :
  0 ≤ n →
  ∃ result s', Dequeue now s c n = Ok (result, s') ∧
    let live := drop_expired now (queue_of s c) in
    result ++ queue_of s' c ≡ₚ live ∧
    len result = Z.min n (len live) ∧
    StronglySorted msg_le (result ++ queue_of s' c) ∧
    (∀ a, filter (same_rank a) (result ++ queue_of s' c) = filter (same_rank a) live) ∧
    ∀ c', c' ≠ c → queue_of s' c' = queue_of s c'.
Proof.
  intros Hn. destruct (Dequeue_total now s c n Hn) as (r & s' & E). exists r, s'. split; [done|]. pose proof (Dequeue_mem _ _ _ _ _ _ E) as [_ Hqs]. unfold Dequeue in E.
  cbn zeta. destruct (queues s !! c) as [q|] eqn:Eq.
  - assert (queue_of s c = q) as Hq by (unfold queue_of; by rewrite Eq). rewrite Hq. cbn zeta in *.
    set (valid := sort_msgs (drop_expired now q)) in *. set (k := Z.to_nat (Z.min n (len valid))) in *.
    assert (r = take k valid) as ->.
    { assert ((if len valid <? n then len valid else n) = Z.min n (len valid)) as Hc by (destruct (Z.ltb_spec (len valid) n); lia).
      rewrite Hc in E. fold k in E. destruct (_ <? 0); [done|]. by injection E. }
    assert (queue_of s' c = drop k valid) as ->.
    { unfold queue_of. rewrite Hqs. case_decide as Hd; [by rewrite lookup_delete_eq, Hd|].
      by rewrite lookup_insert_eq. }
    rewrite take_drop. pose proof (sort_msgs_perm (drop_expired now q)) as Hp.
    split_and!; [done| |apply sort_msgs_sorted|apply sort_msgs_stable|].
    + unfold k. apply Permutation_length in Hp. fold valid in Hp. unfold len in *.
      rewrite length_take. lia.
    + intros c' Hc'. unfold queue_of. rewrite Hqs. case_decide; [by rewrite lookup_delete_ne|].
      by rewrite lookup_insert_ne.
  - injection E as <- <-. assert (queue_of s c = []) as -> by (unfold queue_of; by rewrite Eq).
    split_and!; try done; [unfold len; cbn; lia|constructor].
Qed.

Lemma Dequeue_correct_witness :
  let s := foldl qstep sample_store [QEnqueue 1 "c" (sample_msg "t1" 2); QEnqueue 2 "c" (sample_msg "t2" 0)] in
  ∃ result s', Dequeue 3 s "c" 1 = Ok (result, s') ∧
    let live := drop_expired 3 (queue_of s "c") in
    result ++ queue_of s' "c" ≡ₚ live ∧ len result = Z.min 1 (len live) ∧
    StronglySorted msg_le (result ++ queue_of s' "c") ∧
    (∀ a, filter (same_rank a) (result ++ queue_of s' "c") = filter (same_rank a) live) ∧
    ∀ c', c' ≠ "c" → queue_of s' c' = queue_of s c'.
Proof. intros s. apply (Dequeue_correct 3 s "c" 1). lia. Defined.

(** C15: the queues survive a restart, on a store that implements the interface, none of whose operations
    fails, and that held no queue before: after any history of the broker's operations on clients whose
    ids hold no slash, with topics that are valid UTF-8 (the broker does not check them, and
    [encoding/json] replaces every other byte, so that such a topic comes back changed), reading the store
    back into an empty broker gives every client its queue, in order, up to messages that have expired;
    nothing live is lost and nothing is invented. *)
Theorem offline_recovery {db} `{StoreLaws db} `{!StoreReliable db} `{MessageJSON}
    (cap0 ttl0 now : Z) (tiers : option TierConfig) (d0 : db) (ops : list qop) :
  cap0 < 2 ^ 63 →
  (∀ k, HasPrefix k "om/" = true → contents d0 !! k = None) →
  Forall (qop_ok now) ops →
  let s := foldl qstep (SetStore (SetTierConfig (NewOfflineStore cap0 ttl0) tiers) (Some d0)) ops in
  ∃ d s', store s = Some d ∧
    LoadFromStore (SetStore (NewOfflineStore cap0 ttl0) (Some d)) = Ok s' ∧
    ∀ c t, now ≤ t → drop_expired t (queue_of s' c) = drop_expired t (queue_of s c).
Proof.
  intros Hcap Hd0 Hops s. apply LoadFromStore_recovers. apply history_recoverable; [|done..|].
  - intros c. unfold queue_of. cbn. rewrite lookup_empty. unfold len. cbn. lia.
  - exists d0, (λ _, []). split; [done|]. split; [|split_and!; try done].
    + intros k v Hk. rewrite (Hd0 k Hk). split; [done|]. intros (c & i & msg & _ & Hi & _).
      by rewrite lookup_nil in Hi.
    + intros c. constructor.
    + intros c. unfold queue_of. cbn. rewrite lookup_empty. constructor.
Qed.

Lemma offline_recovery_witness :
  let ops := [QEnqueue 1 "c" (sample_msg "t1" 2); QEnqueue 2 "d" (sample_msg "t2" 0); QDequeue 3 "d" 1] in
  let s := foldl qstep (SetStore (SetTierConfig (NewOfflineStore 2 1000) None) (Some empty_db)) ops in
  ∃ d s', store s = Some d ∧
    LoadFromStore (SetStore (NewOfflineStore 2 1000) (Some d)) = Ok s' ∧
    ∀ c t, 9 ≤ t → drop_expired t (queue_of s' c) = drop_expired t (queue_of s c).
Proof.
  intros ops. apply (offline_recovery 2 1000 9 None empty_db ops).
  - done.
  - intros k _. exact (lookup_empty (M := gmap key) k).
  - repeat (constructor; [by vm_compute|]). constructor.
Defined.

(** The assumption on the client ids is needed: a message stored for client [a/b] is, after
    a restart, in the queue of client [a], and removing client [a] (its session expired) deletes
    the persisted messages of the connected-elsewhere client [a/b]. *)
Theorem offline_slash_confusion :
  let s := (Enqueue 1 sample_store "a/b" (sample_msg "t" 0)).2 in
  (∃ d s', store s = Some d ∧ LoadFromStore (SetStore (NewOfflineStore 2 1000) (Some d)) = Ok s' ∧
     Count s' "a/b" = 0 ∧ Count s' "a" = 1) ∧
  (∃ d s', store (RemoveAll s "a") = Some d ∧ Count (RemoveAll s "a") "a/b" = 1 ∧
     LoadFromStore (SetStore (NewOfflineStore 2 1000) (Some d)) = Ok s' ∧
     queues s' = ∅).
Proof. intros s. split; repeat eexists; by vm_compute. Qed.
