(* ===== verification/Sessions.v ===== *)
(** * Sessions and their expiry

    Model of [internal/broker/session.go] and [session_reaper.go]: the session of each client,
    its mirror in the store, and the sweep that drops the sessions whose expiry interval has
    passed, with their subscriptions and offline queues. *)
From S2P Require Import Prelude Storage Topic Subscriptions Offline OfflineFacts.
Import Storage.

Module Sessions.

Record Session := mkSession {
  ses_ClientID : string;
  CleanStart : bool;
  ExpiryInterval : Z;
  Subscriptions : gmap string Z;
  DisconnectedAt : option Z;
  Epoch : Z;
  ConnectTimestamp : Z;
  NodeID : string
}.

Definition SetSubscription (s : Session) (topic : string) (qos : Z) : Session :=
  mkSession (ses_ClientID s) (CleanStart s) (ExpiryInterval s) (<[topic := qos]> (Subscriptions s))
    (DisconnectedAt s) (Epoch s) (ConnectTimestamp s) (NodeID s).

Definition RemoveSubscription (s : Session) (topic : string) : Session :=
  mkSession (ses_ClientID s) (CleanStart s) (ExpiryInterval s) (delete topic (Subscriptions s))
    (DisconnectedAt s) (Epoch s) (ConnectTimestamp s) (NodeID s).

Definition set_DisconnectedAt (s : Session) (t : option Z) : Session :=
  mkSession (ses_ClientID s) (CleanStart s) (ExpiryInterval s) (Subscriptions s)
    t (Epoch s) (ConnectTimestamp s) (NodeID s).

(** The strings of a session survive [encoding/json] when they are valid UTF-8. *)
Definition session_utf8 (s : Session) : Prop :=
  utf8_valid (bytes_of (ses_ClientID s)) = true ∧ utf8_valid (bytes_of (NodeID s)) = true ∧
  map_Forall (λ f _, utf8_valid (bytes_of f) = true) (Subscriptions s).

(** [encoding/json] on sessions.  [legacy] looks into the raw object: if it has a
    [cleanSession] field and no [cleanStart] field, its boolean ([false] for another type). *)
Class SessionJSON := {
  Marshal : Session → list Z;
  Unmarshal : list Z → option Session;
  legacy : list Z → option bool;
  Unmarshal_Marshal s : session_utf8 s → Unmarshal (Marshal s) = Some s;
  legacy_Marshal s : legacy (Marshal s) = None
}.

Section Store.
Context {db : Type} `{Store db} `{SessionJSON}.

Record SessionStore := mkSessions { sessions : gmap string Session; store : option db }.

Definition NewSessionStore (d : option db) : SessionStore := mkSessions ∅ d.

(** One stored value, under the client id of its key. *)
Definition decode_session (clientID : string) (v : value) : option Session :=
  match Unmarshal v with
  | None => None
  | Some s =>
      let '(clean, expiry) :=
        match legacy v with
        | Some cs => (cs, if cs then 0 else 0xFFFFFFFF)
        | None => (CleanStart s, ExpiryInterval s)
        end in
      Some (mkSession clientID clean expiry (Subscriptions s) (DisconnectedAt s) (Epoch s)
              (ConnectTimestamp s) (NodeID s))
  end.

Definition Load (ss : SessionStore) : res SessionStore :=
  match store ss with
  | None => Ok ss
  | Some d =>
      l ← Scan d "s/";
      Ok (mkSessions (foldl (load_entry "s/" decode_session) (sessions ss) l) (Some d))
  end.

Definition Get (ss : SessionStore) (clientID : string) : option Session := sessions ss !! clientID.

Definition persist (ss : SessionStore) (clientID : string) (s : Session) : SessionStore :=
  match store ss with
  | None => ss
  | Some d => mkSessions (sessions ss) (Some (Offline.ignore_err (Set_ d ("s/" +:+ clientID) (Marshal s)) d))
  end.

(** Store a session in memory: in Go the map holds a pointer, so that changing the session
    found by [Get] changes the map's. *)
Definition put (ss : SessionStore) (clientID : string) (s : Session) : SessionStore :=
  mkSessions (<[clientID := s]> (sessions ss)) (store ss).

Definition Create (ss : SessionStore) (clientID : string) (cleanStart : bool) (expiryInterval : Z)
    : SessionStore :=
  let s := mkSession clientID cleanStart expiryInterval ∅ None 0 0 "" in
  persist (put ss clientID s) clientID s.

Definition MarkDisconnected (now : Z) (ss : SessionStore) (clientID : string) : SessionStore :=
  match sessions ss !! clientID with
  | Some s =>
      let s := set_DisconnectedAt s (Some now) in
      persist (put ss clientID s) clientID s
  | None => ss
  end.

Definition session_expired (now : Z) (s : Session) : bool :=
  match DisconnectedAt s with
  | None => false
  | Some t =>
      if ExpiryInterval s =? 0xFFFFFFFF then false
      else t + ExpiryInterval s * Second <? now
  end.

Definition ExpiredSessions (now : Z) (ss : SessionStore) : list string :=
  (filter (λ cs, session_expired now cs.2 = true) (map_to_list (sessions ss))).*1.

Definition Remove (ss : SessionStore) (clientID : string) : SessionStore :=
  mkSessions (delete clientID (sessions ss))
    (match store ss with
     | Some d => Some (Offline.ignore_err (Delete d ("s/" +:+ clientID)) d)
     | None => None
     end).

Definition Save (ss : SessionStore) (clientID : string) : SessionStore :=
  match sessions ss !! clientID with
  | Some s => persist ss clientID s
  | None => ss
  end.

(** A change of subscriptions through the session that [Get] returned, then [Save]; what
    the SUBSCRIBE and UNSUBSCRIBE handlers do to the session. *)
Definition update (ss : SessionStore) (clientID : string) (f : Session → Session) : SessionStore :=
  match sessions ss !! clientID with Some s => put ss clientID (f s) | None => ss end.

(** ** The reaper *)

Context `{Offline.MessageJSON}.
Notation offline := (Offline.OfflineStore db).

Definition sweep_client (st : Subscriptions.SubscriptionIndex * offline * SessionStore) (clientID : string)
    : Subscriptions.SubscriptionIndex * offline * SessionStore :=
  let '(subs, off, ss) := st in
  let filters := Subscriptions.ClientFilters subs clientID in
  let subs := foldl (λ idx f, Subscriptions.Remove idx clientID f) subs filters in
  (subs, Offline.RemoveAll off clientID, Remove ss clientID).

Definition sweep (now : Z) (subs : Subscriptions.SubscriptionIndex) (off : offline) (ss : SessionStore)
    : Subscriptions.SubscriptionIndex * offline * SessionStore :=
  foldl sweep_client (subs, off, ss) (ExpiredSessions now ss).

End Store.
Arguments SessionStore : clear implicits.

(** ** Sweeping *)

Lemma remove_filters_spec c fs : ∀ idx, Subscriptions.index_ok idx →
  let idx' := foldl (λ idx f, Subscriptions.Remove idx c f) idx fs in
  Subscriptions.index_ok idx' ∧ ∀ c' f', Subscriptions.sub_qos idx' c' f' =
    if decide (c' = c ∧ f' ∈ fs) then None else Subscriptions.sub_qos idx c' f'.
Proof.
  induction fs as [|f fs IH]; intros idx Hok; cbn [foldl].
  - split; [done|]. intros c' f'. rewrite decide_False; [done|]. by intros [_ ?%not_elem_of_nil].
  - destruct (IH (Subscriptions.Remove idx c f)) as [H1 H2]; [by apply Subscriptions.Remove_ok|].
    split; [done|]. intros c' f'. rewrite H2, Subscriptions.Remove_sub_qos by done.
    repeat case_decide; set_solver.
Qed.

Lemma remove_client_filters idx c : Subscriptions.index_ok idx →
  let idx' := foldl (λ idx f, Subscriptions.Remove idx c f) idx (Subscriptions.ClientFilters idx c) in
  Subscriptions.index_ok idx' ∧ ∀ c' f', Subscriptions.sub_qos idx' c' f' =
    if decide (c' = c) then None else Subscriptions.sub_qos idx c' f'.
Proof.
  intros Hok. destruct (remove_filters_spec c (Subscriptions.ClientFilters idx c) idx Hok) as [H1 H2].
  split; [done|]. intros c' f'. rewrite H2. destruct (decide (c' = c)) as [->|].
  2: { by rewrite decide_False by tauto. }
  destruct (decide _) as [|Hn]; [done|]. apply eq_None_not_Some.
  intros Hs%(Subscriptions.ok_agree _ Hok). destruct Hn. split; [done|]. unfold Subscriptions.ClientFilters.
  destruct (Subscriptions.clients idx !! c); cbn in Hs; [by apply elem_of_elements|set_solver].
Qed.

Lemma decide_cons {A} (c c0 : string) cs (a b : A) :
  (if decide (c ∈ c0 :: cs) then a else b) = if decide (c ∈ cs) then a else if decide (c = c0) then a else b.
Proof. destruct (decide (c ∈ c0 :: cs)) as [Hc|Hc]; rewrite elem_of_cons in Hc; repeat case_decide; tauto. Qed.

Section Sweep.
Context {db : Type} `{Store db} `{SessionJSON} `{Offline.MessageJSON}.

Lemma sweep_loop cs : ∀ subs (off : Offline.OfflineStore db) (ss : SessionStore db),
  Subscriptions.index_ok subs →
  let '(subs', off', ss') := foldl sweep_client (subs, off, ss) cs in
  Subscriptions.index_ok subs' ∧
  (∀ c f, Subscriptions.sub_qos subs' c f = if decide (c ∈ cs) then None else Subscriptions.sub_qos subs c f) ∧
  (∀ c, Offline.queue_of off' c = if decide (c ∈ cs) then [] else Offline.queue_of off c) ∧
  (∀ c, sessions ss' !! c = if decide (c ∈ cs) then None else sessions ss !! c).
Proof.
  induction cs as [|c0 cs IH]; intros subs off ss Hok; cbn [foldl].
  - split_and!; [done|..]; intros; by rewrite decide_False by apply not_elem_of_nil.
  - destruct (remove_client_filters subs c0 Hok) as [Hok' Hs].
    specialize (IH _ (Offline.RemoveAll off c0) (Remove ss c0) Hok').
    unfold sweep_client at 2. destruct (foldl sweep_client _ cs) as [[subs' off'] ss'].
    destruct IH as (I1 & I2 & I3 & I4). split_and!; [done|..].
    + intros c f. rewrite I2, Hs. repeat case_decide; set_solver.
    + intros c. rewrite I3. unfold Offline.queue_of. rewrite (proj1 (RemoveAll_mem off c0)).
      rewrite decide_cons. case_decide; [done|]. destruct (decide (c = c0)) as [->|Hne]; [by rewrite lookup_delete_eq|].
      by rewrite lookup_delete_ne.
    + intros c. rewrite I4, decide_cons. cbn. case_decide; [done|].
      destruct (decide (c = c0)) as [->|Hne]; [by rewrite lookup_delete_eq|]. by rewrite lookup_delete_ne.
Qed.

Lemma ExpiredSessions_elem now (ss : SessionStore db) c :
  c ∈ ExpiredSessions now ss ↔ ∃ s, sessions ss !! c = Some s ∧ session_expired now s = true.
Proof.
  unfold ExpiredSessions. rewrite list_elem_of_fmap. split.
  - intros ([c' s] & -> & [? Hin%elem_of_map_to_list]%list_elem_of_filter). eauto.
  - intros (s & Hs & He). exists (c, s). split; [done|].
    apply list_elem_of_filter. split; [done|]. by apply elem_of_map_to_list.
Qed.

End Sweep.

(** ** Recovery of the sessions *)

Inductive sop :=
  | SCreate (clientID : string) (cleanStart : bool) (expiryInterval : Z)
  | SSubscribe (clientID filter : string) (qos : Z)
  | SUnsubscribe (clientID filter : string)
  | SDisconnect (now : Z) (clientID : string)
  | SRemove (clientID : string).

Section Recovery.
Context {db : Type} `{StoreLaws db} `{!StoreReliable db} `{SessionJSON}.

Definition sstep (ss : SessionStore db) (o : sop) : SessionStore db :=
  match o with
  | SCreate c clean e => Create ss c clean e
  | SSubscribe c f q => Save (update ss c (λ s, SetSubscription s f q)) c
  | SUnsubscribe c f => Save (update ss c (λ s, RemoveSubscription s f)) c
  | SDisconnect now c => MarkDisconnected now ss c
  | SRemove c => Remove ss c
  end.

Definition sop_ok (o : sop) : Prop :=
  match o with
  | SCreate c _ _ => utf8_valid (bytes_of c) = true
  | SSubscribe _ f _ => utf8_valid (bytes_of f) = true
  | _ => True
  end.

(** Every session in memory is in the store as it is, and there is nothing else. *)
Definition saved (ss : SessionStore db) : Prop :=
  ∃ d, store ss = Some d ∧ mirrors "s/" Marshal (contents d) (sessions ss) ∧
    map_Forall (λ c s, ses_ClientID s = c ∧ session_utf8 s) (sessions ss).

Lemma persist_put_saved ss c s : saved ss → ses_ClientID s = c → session_utf8 s →
  saved (persist (put ss c s) c s).
Proof.
  intros (d & Hd & Hm & Hf) Hc Hu. unfold persist. cbn [put store sessions]. rewrite Hd.
  destruct (Set_total d ("s/" +:+ c) (Marshal s)) as [d' Hd']. rewrite Hd'. cbn [Offline.ignore_err].
  exists d'. cbn [store sessions]. split; [done|]. rewrite (Set_contents _ _ _ _ Hd'). split.
  - by apply (mirrors_insert "s/" Marshal).
  - by apply map_Forall_insert_2.
Qed.

Lemma update_saved ss c g : saved ss →
  (∀ s, ses_ClientID (g s) = ses_ClientID s ∧ (session_utf8 s → session_utf8 (g s))) →
  saved (Save (update ss c g) c).
Proof.
  intros Hs Hg. unfold Save, update. destruct (sessions ss !! c) as [s|] eqn:E; [|by rewrite E].
  cbn [put sessions]. rewrite lookup_insert_eq. destruct (Hg s) as [H1' H2'].
  pose proof Hs as (_ & _ & _ & Hf). destruct (Hf _ _ E) as [Hc Hu].
  apply persist_put_saved; [done|congruence|auto].
Qed.

Lemma sstep_saved ss o : saved ss → sop_ok o → saved (sstep ss o).
Proof.
  intros Hs Ho. destruct o as [c clean e|c f q|c f|now c|c]; cbn [sstep sop_ok] in *.
  - apply persist_put_saved; [done..|]. split; [done|]. split; [done|]. apply map_Forall_empty.
  - apply update_saved; [done|]. intros s. split; [done|]. intros (?&?&?). split_and!; [done..|].
    by apply map_Forall_insert_2.
  - apply update_saved; [done|]. intros s. split; [done|]. intros (?&?&?). split_and!; [done..|].
    by apply map_Forall_delete.
  - unfold MarkDisconnected. destruct (sessions ss !! c) as [s|] eqn:E; [|done].
    pose proof Hs as (_ & _ & _ & Hf). destruct (Hf _ _ E) as [Hc Hu]. by apply persist_put_saved.
  - destruct Hs as (d & Hd & Hm & Hf). unfold Remove. rewrite Hd.
    destruct (Delete_total d ("s/" +:+ c)) as [d' Hd']. rewrite Hd'. cbn [Offline.ignore_err].
    exists d'. cbn [store sessions]. split; [done|]. rewrite (Delete_contents _ _ _ Hd'). split.
    + by apply mirrors_delete.
    + by apply map_Forall_delete.
Qed.

Lemma decode_session_Marshal c s : ses_ClientID s = c → session_utf8 s →
  decode_session c (Marshal s) = Some s.
Proof.
  intros <- Hu. unfold decode_session. rewrite Unmarshal_Marshal, legacy_Marshal by done. by destruct s.
Qed.

Lemma Sessions_Load_saved ss : saved ss → ∃ d, store ss = Some d ∧ Load (NewSessionStore (Some d)) = Ok ss.
Proof.
  intros (d & Hd & Hm & Hf). exists d. split; [done|]. unfold Load. cbn [NewSessionStore store sessions].
  destruct (Scan_total d "s/") as [l Hl]. rewrite Hl. cbn [mbind res_bind].
  rewrite (load_mirrors "s/" Marshal decode_session d l _ Hl Hm).
  - destruct ss as [m o]. cbn in *. by rewrite Hd.
  - intros c s Hs. destruct (Hf c s Hs). by apply decode_session_Marshal.
Qed.

End Recovery.

(** A codec with the laws, to run the model on: the fields in a row, each string with its
    length, the subscriptions as a list. *)
Definition put_string (x : string) : list Z := slen x :: bytes_of x.
Definition get_string (b : list Z) : option (string * list Z) :=
  match b with
  | n :: b => Some (string_of (take (Z.to_nat n) b), drop (Z.to_nat n) b)
  | [] => None
  end.
Fixpoint get_subs (n : nat) (b : list Z) : option (list (string * Z) * list Z) :=
  match n with
  | O => Some ([], b)
  | S n => '(f, b) ← get_string b;
           match b with
           | q :: b => '(l, b) ← get_subs n b; Some ((f, q) :: l, b)
           | [] => None
           end
  end.

Lemma get_put_string x b : get_string (put_string x ++ b) = Some (x, b).
Proof.
  cbn. rewrite <- len_bytes_of. unfold len. rewrite Nat2Z.id.
  by rewrite take_app_length, drop_app_length, string_of_bytes_of.
Qed.

Lemma get_subs_cons n f q b : get_subs (S n) (put_string f ++ q :: b) =
  match get_subs n b with Some (l, b) => Some ((f, q) :: l, b) | None => None end.
Proof. cbn [get_subs]. rewrite get_put_string. cbn. by destruct (get_subs n b) as [[]|]. Qed.

Lemma get_put_subs l b : get_subs (length l) ((l ≫= λ fq, put_string fq.1 ++ [fq.2]) ++ b) = Some (l, b).
Proof.
  induction l as [|[f q] l IH]; [done|]. cbn [length mbind list_bind fst snd].
  rewrite <- !app_assoc. change ([q] ++ ?x) with (q :: x). rewrite get_subs_cons.
  change (list_bind _ _ _ l) with (l ≫= λ fq, put_string fq.1 ++ [fq.2]). by rewrite IH.
Qed.

#[global] Instance flat_session_codec : SessionJSON.
Proof.
  refine {|
    Marshal s := put_string (ses_ClientID s) ++ put_string (NodeID s) ++
      [(if CleanStart s then 1 else 0); ExpiryInterval s; Epoch s; ConnectTimestamp s;
       match DisconnectedAt s with Some _ => 1 | None => 0 end; default 0 (DisconnectedAt s);
       len (map_to_list (Subscriptions s))] ++
      (map_to_list (Subscriptions s) ≫= λ fq, put_string fq.1 ++ [fq.2]) ++ [];
    Unmarshal b :=
      '(c, b) ← get_string b; '(n, b) ← get_string b;
      match b with
      | cl :: ex :: ep :: ct :: f :: t :: k :: b =>
          '(subs, _) ← get_subs (Z.to_nat k) b;
          Some (mkSession c (cl =? 1) ex (list_to_map subs) (if f =? 1 then Some t else None) ep ct n)
      | _ => None
      end;
    legacy _ := None |}.
  - intros s _. rewrite get_put_string. cbn [mbind option_bind]. rewrite get_put_string.
    cbn [mbind option_bind app]. unfold len. rewrite Nat2Z.id, get_put_subs. cbn.
    rewrite list_to_map_to_list. by destruct s as [c [] e m [t|] ep ct n].
  - done.
Defined.

Definition empty_sessions : SessionStore mem_db := NewSessionStore (Some empty_db).

(** ** Properties *)

(** One sweep of the reaper removes exactly the sessions that are marked disconnected,
    have a finite expiry interval and whose deadline has passed, each with all of its
    subscriptions and its offline queue, and leaves every other client untouched; the
    subscription index stays consistent. *)
Theorem sweep_exact {db} `{Store db} `{SessionJSON} `{Offline.MessageJSON} (now : Z)
    (ops : list Subscriptions.op) (off : Offline.OfflineStore db) (ss : SessionStore db) :
  let subs := Subscriptions.run ops in
  let dead c := ∃ s, sessions ss !! c = Some s ∧ session_expired now s = true in
  let '(subs', off', ss') := sweep now subs off ss in
  Subscriptions.index_ok subs' ∧
  ∀ c, (dead c → sessions ss' !! c = None ∧ Offline.queue_of off' c = [] ∧
                 ∀ f, Subscriptions.sub_qos subs' c f = None) ∧
       (¬ dead c → sessions ss' !! c = sessions ss !! c ∧
                   Offline.queue_of off' c = Offline.queue_of off c ∧
                   ∀ f, Subscriptions.sub_qos subs' c f = Subscriptions.sub_qos subs c f).
Proof.
  cbn zeta. unfold sweep. destruct (Subscriptions.run_refines ops) as [Hok _].
  pose proof (sweep_loop (ExpiredSessions now ss) _ off ss Hok) as Hl.
  destruct (foldl sweep_client _ _) as [[subs' off'] ss']. destruct Hl as (H1' & H2' & H3' & H4').
  split; [done|]. intros c. pose proof (ExpiredSessions_elem now ss c) as He. split; intros Hd.
  - apply He in Hd. rewrite H3', H4', !decide_True by done. split_and!; [done..|].
    intros f. by rewrite H2', decide_True.
  - rewrite <- He in Hd. rewrite H3', H4', !decide_False by done. split_and!; [done..|].
    intros f. by rewrite H2', decide_False.
Qed.

(** C16: sessions survive a restart exactly, on a store that implements the interface, none of whose
    operations fails, and that held no session before: after any history of connects, subscribes,
    unsubscribes, disconnects and removals, with client ids and filters that are valid UTF-8 (the broker
    does not check them, and [encoding/json] replaces every other byte, so that such a filter comes back
    changed), loading the store into an empty broker rebuilds the same set of sessions with the same flags,
    intervals and subscriptions. *)
Theorem session_recovery {db} `{StoreLaws db} `{!StoreReliable db} `{SessionJSON} (d0 : db) (ops : list sop) :
  (∀ k, HasPrefix k "s/" = true → contents d0 !! k = None) →
  Forall sop_ok ops →
  let ss := foldl sstep (NewSessionStore (Some d0)) ops in
  ∃ d, store ss = Some d ∧ Load (NewSessionStore (Some d)) = Ok ss.
Proof.
  intros Hd0 Hops ss. apply Sessions_Load_saved.
  assert (saved (NewSessionStore (Some d0))) as Hs.
  { exists d0. split; [done|]. split; [|apply map_Forall_empty]. intros c.
    rewrite Hd0 by apply (HasPrefix_app "s/"). cbn. by rewrite lookup_empty. }
  unfold ss. clear ss. revert Hs. generalize (NewSessionStore (Some d0)).
  induction Hops as [|o ops Ho Hops IH]; intros ss Hs; [done|]. cbn. apply IH. by apply sstep_saved.
Qed.

Lemma session_recovery_witness :
  let ops := [SCreate "c/1" false 60; SSubscribe "c/1" "a/#" 1; SSubscribe "c/1" "b" 0;
              SDisconnect 7 "c/1"; SCreate "d" true 0; SRemove "d"] in
  let ss := foldl sstep empty_sessions ops in
  size (sessions ss) = 1%nat ∧
  ∃ d, store ss = Some d ∧ Load (NewSessionStore (Some d)) = Ok ss.
Proof.
  intros ops ss. split; [by vm_compute|]. apply (session_recovery empty_db ops).
  - intros k _. exact (lookup_empty (M := gmap key) k).
  - repeat (constructor; [by vm_compute|]). constructor.
Defined.

End Sessions.
