(* ===== verification/Retain.v ===== *)
(** * Retained messages

    Model of [internal/broker/retain.go]: the last retained message of each topic, its mirror
    in the store, and what of [encoding/base64] the mirror uses. *)
From S2P Require Import Prelude Storage Topic Offline OfflineFacts.
Import Storage TopicMatcher.

Module Retain.

(** ** [base64.StdEncoding] *)

Definition alphabet : string := "ABCDEFGHIJKLMNOPQRSTUVWXYZabcdefghijklmnopqrstuvwxyz0123456789+/".

Definition char64 (n : Z) : ascii :=
  default "="%char (String.list_ascii_of_string alphabet !! Z.to_nat n).

Definition val64 (c : ascii) : option Z :=
  (λ x, Z.of_nat x.1) <$> list_find (λ a, a = c) (String.list_ascii_of_string alphabet).

Fixpoint encode64 (b : list Z) : list ascii :=
  match b with
  | [] => []
  | [x] =>
      let val := Z.shiftl x 16 in
      [char64 (Z.land (Z.shiftr val 18) 0x3F); char64 (Z.land (Z.shiftr val 12) 0x3F); "="; "="]%char
  | [x; y] =>
      let val := Z.lor (Z.shiftl x 16) (Z.shiftl y 8) in
      [char64 (Z.land (Z.shiftr val 18) 0x3F); char64 (Z.land (Z.shiftr val 12) 0x3F);
       char64 (Z.land (Z.shiftr val 6) 0x3F); "="]%char
  | x :: y :: z :: b =>
      let val := Z.lor (Z.lor (Z.shiftl x 16) (Z.shiftl y 8)) z in
      char64 (Z.land (Z.shiftr val 18) 0x3F) :: char64 (Z.land (Z.shiftr val 12) 0x3F) ::
      char64 (Z.land (Z.shiftr val 6) 0x3F) :: char64 (Z.land val 0x3F) :: encode64 b
  end.

Definition EncodeToString (b : list Z) : string := String.string_of_list_ascii (encode64 b).

Definition quad (a b c d : Z) : Z :=
  Z.lor (Z.lor (Z.lor (Z.shiftl a 18) (Z.shiftl b 12)) (Z.shiftl c 6)) d.

Definition is_pad (c : ascii) : bool := Ascii.eqb c "=".

Fixpoint decode64 (s : list ascii) : option (list Z) :=
  match s with
  | [] => Some []
  | c1 :: c2 :: c3 :: c4 :: s =>
      a ← val64 c1; b ← val64 c2;
      if is_pad c3 then
        if is_pad c4 && bool_decide (s = []) then Some [u8 (Z.shiftr (quad a b 0 0) 16)] else None
      else
        c ← val64 c3;
        if is_pad c4 then
          if bool_decide (s = [])
          then Some [u8 (Z.shiftr (quad a b c 0) 16); u8 (Z.shiftr (quad a b c 0) 8)] else None
        else
          d ← val64 c4;
          let val := quad a b c d in
          rest ← decode64 s;
          Some (u8 (Z.shiftr val 16) :: u8 (Z.shiftr val 8) :: u8 val :: rest)
  | _ => None
  end.

(** Line breaks are skipped wherever they stand. *)
Definition DecodeString (s : string) : option (list Z) :=
  decode64 (filter (λ c, c ≠ "010"%char ∧ c ≠ "013"%char) (String.list_ascii_of_string s)).

(** ** The store *)

Record retainedMessage := mkRetained { rm_Topic : string; rm_Payload : list Z; rm_QoS : Z }.

Record retainedJSON := mkRJ { rj_Payload : string; rj_QoS : Z }.

(** [encoding/json] on [retainedJSON], whose string is plain ASCII. *)
Class RetainedJSON := {
  Marshal : retainedJSON → list Z;
  Unmarshal : list Z → option retainedJSON;
  Unmarshal_Marshal rj : Forall (λ b, b < 128) (bytes_of (rj_Payload rj)) → Unmarshal (Marshal rj) = Some rj
}.

Section Retain.
Context {db : Type} `{Store db} `{RetainedJSON}.

Record RetainStore := mkRetain { messages : gmap string retainedMessage; store : option db }.

Definition NewRetainStore (d : option db) : RetainStore := mkRetain ∅ d.

Definition decode_retained (topic : string) (v : value) : option retainedMessage :=
  match Unmarshal v with
  | None => None
  | Some rj =>
      match DecodeString (rj_Payload rj) with
      | None => None
      | Some payload => Some (mkRetained topic payload (rj_QoS rj))
      end
  end.

Definition Load (rs : RetainStore) : res RetainStore :=
  match store rs with
  | None => Ok rs
  | Some d =>
      l ← Scan d "r/";
      Ok (mkRetain (foldl (load_entry "r/" decode_retained) (messages rs) l) (Some d))
  end.

Definition encode_retained (m : retainedMessage) : value :=
  Marshal (mkRJ (EncodeToString (rm_Payload m)) (rm_QoS m)).

Definition Set_ (rs : RetainStore) (topic : string) (payload : list Z) (qos : Z) : RetainStore :=
  if len payload =? 0 then
    mkRetain (delete topic (messages rs))
      (match store rs with
       | Some d => Some (Offline.ignore_err (Delete d ("r/" +:+ topic)) d)
       | None => None
       end)
  else
    let m := mkRetained topic payload qos in
    mkRetain (<[topic := m]> (messages rs))
      (match store rs with
       | Some d => Some (Offline.ignore_err (Storage.Set_ d ("r/" +:+ topic) (encode_retained m)) d)
       | None => None
       end).

Definition Match (rs : RetainStore) (filter_ : string) : list retainedMessage :=
  (filter (λ tm, TopicMatch filter_ tm.1 = true) (map_to_list (messages rs))).*2.

Definition Count (rs : RetainStore) : Z := Z.of_nat (size (messages rs)).

End Retain.
Arguments RetainStore : clear implicits.

(** ** Base64 round trip *)

Lemma land63 v : Z.land v 0x3F = v mod 64.
Proof. exact (Z.land_ones v 6 ltac:(lia)). Qed.

Lemma char64_ok n : 0 ≤ n < 64 → val64 (char64 n) = Some n ∧ is_pad (char64 n) = false ∧
  char64 n ≠ "010"%char ∧ char64 n ≠ "013"%char ∧ (Ascii.N_of_ascii (char64 n) < 128)%N.
Proof.
  intros Hn. assert (n ∈ seqZ 0 64) as Hin by (apply elem_of_seqZ; lia). clear Hn. revert n Hin.
  apply Forall_forall. apply (bool_decide_unpack _). vm_compute. exact I.
Qed.

Ltac div2 := rewrite ?land63, ?Z.shiftr_div_pow2, ?Z.shiftl_mul_pow2 by lia;
  change (2 ^ 18) with 262144; change (2 ^ 16) with 65536; change (2 ^ 12) with 4096;
  change (2 ^ 8) with 256; change (2 ^ 6) with 64.

Lemma lor8 a b : 0 ≤ b < 256 → Z.lor (Z.shiftl a 8) b = a * 256 + b.
Proof. intros. by apply (lor_shift_add a b 8). Qed.
Lemma lor6 a b : 0 ≤ b < 64 → Z.lor (Z.shiftl a 6) b = a * 64 + b.
Proof. intros. by apply (lor_shift_add a b 6). Qed.

Lemma val3 x y z : byte_ok x → byte_ok y → byte_ok z →
  Z.lor (Z.lor (Z.shiftl x 16) (Z.shiftl y 8)) z = x * 65536 + y * 256 + z.
Proof.
  intros Hx Hy Hz. unfold byte_ok in *.
  assert (Z.lor (Z.shiftl x 16) (Z.shiftl y 8) = Z.shiftl (x * 256 + y) 8) as ->.
  { rewrite <- (lor8 x y) by lia. rewrite Z.shiftl_lor, Z.shiftl_shiftl by lia. done. }
  rewrite lor8 by lia. lia.
Qed.

Lemma quad_val a b c d : 0 ≤ a < 64 → 0 ≤ b < 64 → 0 ≤ c < 64 → 0 ≤ d < 64 →
  quad a b c d = ((a * 64 + b) * 64 + c) * 64 + d.
Proof.
  intros. unfold quad.
  assert (Z.lor (Z.shiftl a 18) (Z.shiftl b 12) = Z.shiftl (a * 64 + b) 12) as ->.
  { rewrite <- (lor6 a b) by lia. rewrite Z.shiftl_lor, Z.shiftl_shiftl by lia. done. }
  assert (Z.lor (Z.shiftl (a * 64 + b) 12) (Z.shiftl c 6) = Z.shiftl ((a * 64 + b) * 64 + c) 6) as ->.
  { rewrite <- (lor6 (a * 64 + b) c) by lia. rewrite Z.shiftl_lor, Z.shiftl_shiftl by lia. done. }
  rewrite lor6 by lia. lia.
Qed.

(** The four sextets of a 24-bit value, and the value from them. *)
Lemma sextets v : 0 ≤ v < 16777216 →
  (0 ≤ v / 262144 mod 64 < 64 ∧ 0 ≤ v / 4096 mod 64 < 64 ∧ 0 ≤ v / 64 mod 64 < 64 ∧ 0 ≤ v mod 64 < 64) ∧
  quad (v / 262144 mod 64) (v / 4096 mod 64) (v / 64 mod 64) (v mod 64) = v.
Proof.
  intros Hv. split; [split_and!; apply Z.mod_pos_bound; lia|].
  rewrite quad_val by (apply Z.mod_pos_bound; lia).
  change 262144 with (64 * (64 * 64)). change 4096 with (64 * 64). rewrite <- !Z.div_div by lia.
  pose proof (Z.div_mod v 64). pose proof (Z.div_mod (v / 64) 64). pose proof (Z.div_mod (v / 64 / 64) 64).
  assert (0 ≤ v / 64 / 64 / 64 < 64).
  { rewrite !Z.div_div by lia. split; [apply Z.div_pos; lia|apply Z.div_lt_upper_bound; lia]. }
  rewrite (Z.mod_small (v / 64 / 64 / 64)) by lia. lia.
Qed.

Lemma bytes3 x y z : byte_ok x → byte_ok y → byte_ok z → let v := x * 65536 + y * 256 + z in
  0 ≤ v < 16777216 ∧ u8 (Z.shiftr v 16) = x ∧ u8 (Z.shiftr v 8) = y ∧ u8 v = z.
Proof.
  intros Hx Hy Hz v. unfold byte_ok, u8 in *. div2.
  assert (v / 65536 = x) as -> by (symmetry; apply (Z.div_unique v 65536 x (y * 256 + z)); lia).
  assert (v / 256 = x * 256 + y) as -> by (symmetry; apply (Z.div_unique v 256 _ z); lia).
  assert (v mod 256 = z) as -> by (symmetry; apply (Z.mod_unique v 256 (x * 256 + y)); lia).
  assert ((x * 256 + y) mod 256 = y) as -> by (symmetry; apply (Z.mod_unique _ 256 x); lia).
  rewrite Z.mod_small by lia. unfold v. lia.
Qed.

Lemma list_ind3 {A} (P : list A → Prop) : P [] → (∀ x, P [x]) → (∀ x y, P [x; y]) →
  (∀ x y z l, P l → P (x :: y :: z :: l)) → ∀ l, P l.
Proof.
  intros H0 H1 H2 H3. fix IH 1. intros [|x [|y [|z l]]]; [done..|]. apply H3, IH.
Qed.

Lemma val1 x : byte_ok x → Z.shiftl x 16 = x * 65536 + 0 * 256 + 0.
Proof. intros. rewrite Z.shiftl_mul_pow2 by lia. lia. Qed.
Lemma val2 x y : byte_ok x → byte_ok y → Z.lor (Z.shiftl x 16) (Z.shiftl y 8) = x * 65536 + y * 256 + 0.
Proof. intros. rewrite <- (Z.lor_0_r (Z.lor _ _)). by apply val3. Qed.

(** A quantum of three bytes: its sextets are read back, none looks like padding. *)
Lemma quantum x y z : byte_ok x → byte_ok y → byte_ok z →
  let v := x * 65536 + y * 256 + z in
  let a := Z.land (Z.shiftr v 18) 0x3F in let b := Z.land (Z.shiftr v 12) 0x3F in
  let c := Z.land (Z.shiftr v 6) 0x3F in let d := Z.land v 0x3F in
  (0 ≤ a < 64 ∧ 0 ≤ b < 64 ∧ 0 ≤ c < 64 ∧ 0 ≤ d < 64) ∧
  (z = 0 → d = 0) ∧ (z = 0 → y = 0 → c = 0) ∧
  u8 (Z.shiftr (quad a b c d) 16) = x ∧ u8 (Z.shiftr (quad a b c d) 8) = y ∧ u8 (quad a b c d) = z.
Proof.
  intros Hx Hy Hz v. cbn zeta. destruct (bytes3 x y z Hx Hy Hz) as (Hv & E). fold v in Hv, E.
  rewrite !land63, !(Z.shiftr_div_pow2 v) by lia.
  change (2 ^ 18) with 262144. change (2 ^ 12) with 4096. change (2 ^ 6) with 64.
  destruct (sextets v Hv) as [B ->]. split; [exact B|]. split; [|split; [|exact E]].
  - intros ->. unfold v. symmetry. apply (Z.mod_unique _ 64 (x * 1024 + y * 4)); lia.
  - intros -> ->. assert (v / 64 = x * 1024) as ->.
    { symmetry. apply (Z.div_unique v 64 _ 0); lia. }
    symmetry. apply (Z.mod_unique _ 64 (x * 16)); lia.
Qed.

Lemma decode_encode64 b : Forall byte_ok b → decode64 (encode64 b) = Some b.
Proof.
  assert (byte_ok 0) as H0 by done.
  induction b as [|x|x y|x y z b IH] using list_ind3; intros Hb; [done|..];
    repeat match goal with H : Forall _ (_ :: _) |- _ => inversion H; subst; clear H end; cbn [encode64].
  - rewrite val1 by done.
    destruct (quantum x 0 0) as ((B1 & B2 & B3 & B4) & Z1 & Z2 & Q1 & _); [done..|].
    destruct (char64_ok _ B1) as [C1 _], (char64_ok _ B2) as [C2 _].
    cbn [decode64]. rewrite C1, C2. cbn -[quad Z.land Z.shiftr u8].
    rewrite (Z1 eq_refl), (Z2 eq_refl eq_refl) in Q1. by rewrite Q1.
  - rewrite val2 by done.
    destruct (quantum x y 0) as ((B1 & B2 & B3 & B4) & Z1 & _ & Q1 & Q2 & _); [done..|].
    destruct (char64_ok _ B1) as [C1 _], (char64_ok _ B2) as [C2 _], (char64_ok _ B3) as (C3 & P3 & _).
    cbn [decode64]. rewrite C1, C2, C3, P3. cbn -[quad Z.land Z.shiftr u8].
    rewrite (Z1 eq_refl) in Q1, Q2. by rewrite Q1, Q2.
  - rewrite val3 by done.
    destruct (quantum x y z) as ((B1 & B2 & B3 & B4) & _ & _ & Q1 & Q2 & Q3); [done..|].
    destruct (char64_ok _ B1) as [C1 _], (char64_ok _ B2) as [C2 _], (char64_ok _ B3) as (C3 & P3 & _),
      (char64_ok _ B4) as (C4 & P4 & _).
    cbn [decode64]. rewrite C1, C2, C3, P3, C4, P4, IH by done. cbn -[quad Z.land Z.shiftr u8].
    by rewrite Q1, Q2, Q3.
Qed.

Lemma encode64_chars b : Forall byte_ok b →
  Forall (λ c, (c ≠ "010"%char ∧ c ≠ "013"%char) ∧ (Ascii.N_of_ascii c < 128)%N) (encode64 b).
Proof.
  assert (byte_ok 0) as H0 by done.
  assert (∀ n, 0 ≤ n < 64 → (char64 n ≠ "010"%char ∧ char64 n ≠ "013"%char) ∧
    (Ascii.N_of_ascii (char64 n) < 128)%N) as Hc.
  { intros n Hn. destruct (char64_ok n Hn) as (_ & _ & ? & ? & ?). done. }
  assert (("="%char ≠ "010"%char ∧ "="%char ≠ "013"%char) ∧ (Ascii.N_of_ascii "=" < 128)%N) as Hpad by done.
  induction b as [|x|x y|x y z b IH] using list_ind3; intros Hb; [done|..];
    repeat match goal with H : Forall _ (_ :: _) |- _ => inversion H; subst; clear H end; cbn [encode64].
  - rewrite val1 by done. destruct (quantum x 0 0) as ((B1 & B2 & B3 & B4) & _); [done..|]. auto 10.
  - rewrite val2 by done. destruct (quantum x y 0) as ((B1 & B2 & B3 & B4) & _); [done..|]. auto 10.
  - rewrite val3 by done. destruct (quantum x y z) as ((B1 & B2 & B3 & B4) & _); [done..|]. auto 10.
Qed.

Lemma DecodeString_EncodeToString b : Forall byte_ok b → DecodeString (EncodeToString b) = Some b.
Proof.
  intros Hb. unfold DecodeString, EncodeToString. rewrite String.list_ascii_of_string_of_list_ascii.
  rewrite <- (decode_encode64 b Hb). f_equal. pose proof (encode64_chars b Hb) as Hc.
  induction Hc as [|c l [Hc _] Hl IH]; [done|]. rewrite filter_cons, decide_True by done. by rewrite IH.
Qed.

Lemma EncodeToString_ascii b : Forall byte_ok b → Forall (λ x, x < 128) (bytes_of (EncodeToString b)).
Proof.
  intros Hb. unfold EncodeToString, bytes_of. rewrite String.list_ascii_of_string_of_list_ascii.
  apply Forall_fmap. eapply Forall_impl; [by apply encode64_chars|]. intros c [_ Hc]. cbn. lia.
Qed.

(** ** Histories *)

(** One publish with RETAIN. *)
Record rop := mkRop { r_topic : string; r_payload : list Z; r_qos : Z }.

Definition rstep {db} `{Store db} `{RetainedJSON} (rs : RetainStore db) (o : rop) : RetainStore db :=
  Set_ rs (r_topic o) (r_payload o) (r_qos o).

(** The specification: the last publish on the topic decides; an empty payload clears it. *)
Definition spec_step (s : string → option retainedMessage) (o : rop) : string → option retainedMessage :=
  λ t, if decide (t = r_topic o)
       then if decide (r_payload o = []) then None else Some (mkRetained t (r_payload o) (r_qos o))
       else s t.

Definition spec_run (ops : list rop) : string → option retainedMessage := foldl spec_step (λ _, None) ops.

Lemma rstep_lookup {db} `{Store db} `{RetainedJSON} (rs : RetainStore db) o t :
  messages (rstep rs o) !! t = spec_step (λ t, messages rs !! t) o t.
Proof.
  unfold rstep, Set_, spec_step. destruct o as [t' [|b p] q]; cbn -[Z.eqb].
  - rewrite len_nil. cbn. case_decide; [subst; by rewrite lookup_delete_eq|by rewrite lookup_delete_ne].
  - rewrite len_cons. pose proof (len_nonneg p). ztests. cbn.
    case_decide; [subst; by rewrite lookup_insert_eq|by rewrite lookup_insert_ne].
Qed.

Lemma rrun_lookup {db} `{Store db} `{RetainedJSON} (d : option db) ops t :
  messages (foldl rstep (NewRetainStore d) ops) !! t = spec_run ops t.
Proof.
  unfold spec_run. revert t. induction ops as [|o ops IH] using rev_ind; intros t.
  - cbn. apply lookup_empty.
  - rewrite !foldl_app. cbn [foldl]. rewrite rstep_lookup. unfold spec_step. repeat case_decide; auto.
Qed.

Lemma spec_run_topic ops t m : spec_run ops t = Some m → rm_Topic m = t.
Proof.
  unfold spec_run. induction ops as [|o ops IH] using rev_ind; [done|]. rewrite foldl_app. cbn.
  unfold spec_step at 1. repeat case_decide; [done|by intros [= <-]|done].
Qed.

Section Recovery.
Context {db : Type} `{StoreLaws db} `{!StoreReliable db} `{RetainedJSON}.

Definition saved (rs : RetainStore db) : Prop :=
  ∃ d, store rs = Some d ∧ mirrors "r/" encode_retained (contents d) (messages rs) ∧
    map_Forall (λ t m, rm_Topic m = t ∧ Forall byte_ok (rm_Payload m)) (messages rs).

Lemma rstep_saved rs o : saved rs → Forall byte_ok (r_payload o) → saved (rstep rs o).
Proof.
  intros (d & Hd & Hm & Hf) Ho. unfold rstep, Set_. rewrite Hd. destruct (_ =? 0).
  - destruct (Delete_total d ("r/" +:+ r_topic o)) as [d' Hd']. rewrite Hd'. cbn [Offline.ignore_err].
    exists d'. cbn [store messages]. split; [done|]. rewrite (Delete_contents _ _ _ Hd').
    split; [by apply mirrors_delete|by apply map_Forall_delete].
  - set (m := mkRetained _ _ _).
    destruct (Set_total d ("r/" +:+ r_topic o) (encode_retained m)) as [d' Hd']. rewrite Hd'.
    cbn [Offline.ignore_err]. exists d'. cbn [store messages]. split; [done|].
    rewrite (Set_contents _ _ _ _ Hd').
    split; [by apply (mirrors_insert "r/" encode_retained)|by apply map_Forall_insert_2].
Qed.

Lemma decode_encode_retained t m : rm_Topic m = t → Forall byte_ok (rm_Payload m) →
  decode_retained t (encode_retained m) = Some m.
Proof.
  intros <- Hb. unfold decode_retained, encode_retained.
  rewrite Unmarshal_Marshal by by apply EncodeToString_ascii. cbn [rj_Payload rj_QoS].
  rewrite DecodeString_EncodeToString by done. by destruct m.
Qed.

Lemma Retained_Load_saved rs : saved rs → ∃ d, store rs = Some d ∧ Load (NewRetainStore (Some d)) = Ok rs.
Proof.
  intros (d & Hd & Hm & Hf). exists d. split; [done|]. unfold Load. cbn [NewRetainStore store messages].
  destruct (Scan_total d "r/") as [l Hl]. rewrite Hl. cbn [mbind res_bind].
  rewrite (load_mirrors "r/" encode_retained decode_retained d l _ Hl Hm).
  - destruct rs as [m o]. cbn in *. by rewrite Hd.
  - intros t m Hs. destruct (Hf t m Hs). by apply decode_encode_retained.
Qed.

End Recovery.

#[global] Instance flat_retained_codec : RetainedJSON.
Proof.
  refine {| Marshal rj := rj_QoS rj :: bytes_of (rj_Payload rj);
            Unmarshal b := match b with q :: b => Some (mkRJ (string_of b) q) | [] => None end |}.
  intros rj _. rewrite string_of_bytes_of. by destruct rj.
Defined.

(** ** Properties *)

(** A subscriber is given exactly the retained messages of the topics its filter matches:
    for each topic the last message published with RETAIN, none if the last one was empty. *)
Theorem retained_exact {db} `{Store db} `{RetainedJSON} (d : option db) (ops : list rop)
    (filter_ : string) (m : retainedMessage) :
  m ∈ Match (foldl rstep (NewRetainStore d) ops) filter_ ↔
  TopicMatch filter_ (rm_Topic m) = true ∧ spec_run ops (rm_Topic m) = Some m.
Proof.
  unfold Match. rewrite list_elem_of_fmap. split.
  - intros ([t m'] & -> & [Ht Hin%elem_of_map_to_list]%list_elem_of_filter). cbn in *.
    rewrite rrun_lookup in Hin. pose proof (spec_run_topic _ _ _ Hin) as ->. done.
  - intros [Ht Hs]. exists (rm_Topic m, m). split; [done|]. apply list_elem_of_filter.
    split; [done|]. apply elem_of_map_to_list. by rewrite rrun_lookup.
Qed.

(** Retained messages survive a restart byte for byte: payloads of any bytes pass through
    the base64 text of the store and back. *)
Theorem retained_recovery {db} `{StoreLaws db} `{!StoreReliable db} `{RetainedJSON} (d0 : db) (ops : list rop) :
  (∀ k, HasPrefix k "r/" = true → contents d0 !! k = None) →
  Forall (λ o, Forall byte_ok (r_payload o)) ops →
  let rs := foldl rstep (NewRetainStore (Some d0)) ops in
  ∃ d, store rs = Some d ∧ Load (NewRetainStore (Some d)) = Ok rs.
Proof.
  intros Hd0 Hops rs. apply Retained_Load_saved.
  assert (saved (NewRetainStore (Some d0))) as Hs.
  { exists d0. split; [done|]. split; [|apply map_Forall_empty]. intros c.
    rewrite Hd0 by apply (HasPrefix_app "r/"). cbn. by rewrite lookup_empty. }
  unfold rs. clear rs. revert Hs. generalize (NewRetainStore (Some d0)).
  induction Hops as [|o ops Ho Hops IH]; intros rs Hs; [done|]. cbn. apply IH. by apply rstep_saved.
Qed.

Lemma retained_recovery_witness :
  let ops := [mkRop "a/b" [0; 255; 7; 10] 1; mkRop "c" [1; 2] 0; mkRop "c" [] 0] in
  let rs := foldl rstep (NewRetainStore (Some empty_db)) ops in
  size (messages rs) = 1%nat ∧ ∃ d, store rs = Some d ∧ Load (NewRetainStore (Some d)) = Ok rs.
Proof.
  intros ops rs. split; [by vm_compute|]. apply (retained_recovery empty_db ops).
  - intros k _. exact (lookup_empty (M := gmap key) k).
  - repeat (constructor; [repeat (constructor; [unfold byte_ok; lia|]); constructor|]). constructor.
Defined.

End Retain.
