(* ===== verification/Wills.v ===== *)
(** * Will messages

    Model of [internal/broker/will.go] and [will_persist.go]: the last will of each client, in
    memory and in the store, with the marker that it has been published. *)
From S2P Require Import Prelude Storage Offline OfflineFacts.
Import Storage.

Module Wills.

Record WillMessage := mkWill {
  w_Topic : string;
  w_Payload : list Z;
  w_QoS : Z;
  w_Retain : bool;
  w_ClientID : string;
  w_PersistedAt : Z
}.

Definition with_client (w : WillMessage) (clientID : string) : WillMessage :=
  mkWill (w_Topic w) (w_Payload w) (w_QoS w) (w_Retain w) clientID (w_PersistedAt w).

Class WillJSON := {
  Marshal : WillMessage → list Z;
  Unmarshal : list Z → option WillMessage;
  Unmarshal_Marshal w : utf8_valid (bytes_of (w_Topic w)) = true →
    utf8_valid (bytes_of (w_ClientID w)) = true → Unmarshal (Marshal w) = Some w
}.

Section Wills.
Context {db : Type} `{Store db} `{WillJSON}.

Record WillStore := mkWills { wills : gmap string WillMessage; store : db }.

Definition NewWillStore (d : db) : WillStore := mkWills ∅ d.

(** The test for the prefix of published markers comes after [wm/] has been cut off. *)
Definition decode_will (clientID : string) (v : value) : option WillMessage :=
  if HasPrefix clientID "-published/" then None
  else match Unmarshal v with
       | None => None
       | Some w => Some (with_client w clientID)
       end.

Definition Load (ws : WillStore) : res WillStore :=
  l ← Scan (store ws) "wm/";
  Ok (mkWills (foldl (load_entry "wm/" decode_will) (wills ws) l) (store ws)).

Definition published_key (clientID : string) : key := "wm-published/" +:+ clientID.

Definition Set_ (ws : WillStore) (clientID : string) (will : WillMessage) : WillStore :=
  let will := with_client will clientID in
  let d := Offline.ignore_err (Storage.Set_ (store ws) ("wm/" +:+ clientID) (Marshal will)) (store ws) in
  let d := Offline.ignore_err (Delete d (published_key clientID)) d in
  mkWills (<[clientID := will]> (wills ws)) d.

Definition Get (ws : WillStore) (clientID : string) : option WillMessage := wills ws !! clientID.

Definition Delete_ (ws : WillStore) (clientID : string) : WillStore :=
  let d := Offline.ignore_err (Delete (store ws) ("wm/" +:+ clientID)) (store ws) in
  let d := Offline.ignore_err (Delete d (published_key clientID)) d in
  mkWills (delete clientID (wills ws)) d.

Definition All (ws : WillStore) : gmap string WillMessage := wills ws.

Definition MarkPublished (ws : WillStore) (clientID : string) : WillStore :=
  mkWills (wills ws)
    (Offline.ignore_err (Storage.Set_ (store ws) (published_key clientID) [49]) (store ws)).

Definition IsPublished (ws : WillStore) (clientID : string) : bool :=
  match Storage.Get (store ws) (published_key clientID) with
  | Ok val => 0 <? len val
  | _ => false
  end.

End Wills.
Arguments WillStore : clear implicits.

(** ** Histories *)

Inductive wop :=
  | WSet (clientID : string) (will : WillMessage)
  | WDelete (clientID : string)
  | WMark (clientID : string).

Section Recovery.
Context {db : Type} `{StoreLaws db} `{!StoreReliable db} `{WillJSON}.

Definition wstep (ws : WillStore db) (o : wop) : WillStore db :=
  match o with
  | WSet c w => Set_ ws c w
  | WDelete c => Delete_ ws c
  | WMark c => MarkPublished ws c
  end.

Definition wop_ok (o : wop) : Prop :=
  match o with
  | WSet c w => utf8_valid (bytes_of c) = true ∧ utf8_valid (bytes_of (w_Topic w)) = true ∧
                HasPrefix c "-published/" = false
  | _ => True
  end.

Definition will_ok (c : string) (w : WillMessage) : Prop :=
  w_ClientID w = c ∧ HasPrefix c "-published/" = false ∧
  utf8_valid (bytes_of (w_Topic w)) = true ∧ utf8_valid (bytes_of c) = true.

(** [P c]: the published marker of [c] is set. *)
Definition saved (ws : WillStore db) (P : string → Prop) : Prop :=
  mirrors "wm/" Marshal (contents (store ws)) (wills ws) ∧ map_Forall will_ok (wills ws) ∧
  ∀ c, IsPublished ws c = true ↔ P c.

Lemma published_not_wm c : HasPrefix (published_key c) "wm/" = false.
Proof. done. Qed.

Lemma wm_ne_published c c' : "wm/" +:+ c ≠ published_key c'.
Proof. intros Heq. by pose proof (HasPrefix_app "wm/" c) as Hp; rewrite Heq, published_not_wm in Hp. Qed.

Lemma IsPublished_contents (ws : WillStore db) c :
  IsPublished ws c = (0 <? len (default [] (contents (store ws) !! published_key c))).
Proof.
  unfold IsPublished. destruct (Get_total (store ws) (published_key c)) as [v Hv].
  rewrite Hv. by rewrite (Get_contents _ _ _ Hv).
Qed.

Lemma published_key_inj c c' : published_key c = published_key c' → c = c'.
Proof. apply (append_inj "wm-published/"). Qed.

Lemma keep_wm (m m' : gmap key value) M c :
  m' = delete (published_key c) m ∨ m' = <[published_key c := [49]]> m →
  mirrors "wm/" Marshal m M → mirrors "wm/" Marshal m' M.
Proof.
  intros Hm'. apply mirrors_other. intros k Hk.
  assert (published_key c ≠ k) by (intros <-; by rewrite published_not_wm in Hk).
  destruct Hm' as [-> | ->]; [by rewrite lookup_delete_ne|by rewrite lookup_insert_ne].
Qed.

Lemma wstep_saved ws P o : saved ws P → wop_ok o →
  saved (wstep ws o) (λ c, match o with
                           | WSet c' _ | WDelete c' => c ≠ c' ∧ P c
                           | WMark c' => c = c' ∨ P c
                           end).
Proof.
  intros (Hm & Hf & Hp) Ho. destruct o as [c w|c|c]; cbn [wstep].
  - destruct Ho as (Hu & Ht & Hn). unfold Set_. cbn zeta.
    destruct (Set_total (store ws) ("wm/" +:+ c) (Marshal (with_client w c))) as [d1 H1'].
    rewrite H1'. cbn [Offline.ignore_err].
    destruct (Delete_total d1 (published_key c)) as [d2 H2']. rewrite H2'. cbn [Offline.ignore_err].
    pose proof (Set_contents _ _ _ _ H1') as E1. pose proof (Delete_contents _ _ _ H2') as E2.
    split; [|split].
    + cbn [store wills]. eapply keep_wm; [by left; rewrite E2, E1|].
      by apply (mirrors_insert "wm/" Marshal).
    + apply map_Forall_insert_2; [|done]. done.
    + intros c'. rewrite <- Hp, !IsPublished_contents. cbn [store]. rewrite E2, E1.
      destruct (decide (c' = c)) as [->|Hne].
      * rewrite lookup_delete_eq. cbn. split; [done|]. by intros [].
      * rewrite lookup_delete_ne by (by intros ?%published_key_inj).
        rewrite lookup_insert_ne by apply wm_ne_published. tauto.
  - unfold Delete_. cbn zeta.
    destruct (Delete_total (store ws) ("wm/" +:+ c)) as [d1 H1']. rewrite H1'. cbn [Offline.ignore_err].
    destruct (Delete_total d1 (published_key c)) as [d2 H2']. rewrite H2'. cbn [Offline.ignore_err].
    pose proof (Delete_contents _ _ _ H1') as E1. pose proof (Delete_contents _ _ _ H2') as E2.
    split; [|split].
    + cbn [store wills]. eapply keep_wm; [by left; rewrite E2, E1|]. by apply mirrors_delete.
    + by apply map_Forall_delete.
    + intros c'. rewrite <- Hp, !IsPublished_contents. cbn [store]. rewrite E2, E1.
      destruct (decide (c' = c)) as [->|Hne].
      * rewrite lookup_delete_eq. cbn. split; [done|]. by intros [].
      * rewrite lookup_delete_ne by (by intros ?%published_key_inj).
        rewrite lookup_delete_ne by apply wm_ne_published. tauto.
  - unfold MarkPublished.
    destruct (Set_total (store ws) (published_key c) [49]) as [d1 H1']. rewrite H1'. cbn [Offline.ignore_err].
    pose proof (Set_contents _ _ _ _ H1') as E1. split; [|split; [done|]].
    + cbn [store wills]. eapply keep_wm; [by right; rewrite E1|done].
    + intros c'. rewrite <- Hp, !IsPublished_contents. cbn [store]. rewrite E1.
      destruct (decide (c' = c)) as [->|Hne].
      * rewrite lookup_insert_eq. cbn. tauto.
      * rewrite lookup_insert_ne by (by intros ?%published_key_inj). tauto.
Qed.

Lemma decode_will_Marshal c w : will_ok c w → decode_will c (Marshal w) = Some w.
Proof.
  intros (<- & Hn & Ht & Hc). unfold decode_will. rewrite Hn, Unmarshal_Marshal by done. by destruct w.
Qed.

Lemma Wills_Load_saved ws P : saved ws P → Load (NewWillStore (store ws)) = Ok ws.
Proof.
  intros (Hm & Hf & _). unfold Load. cbn [NewWillStore store wills].
  destruct (Scan_total (store ws) "wm/") as [l Hl]. rewrite Hl. cbn [mbind res_bind].
  rewrite (load_mirrors "wm/" Marshal decode_will (store ws) l _ Hl Hm); [by destruct ws|].
  intros c w Hw. by apply decode_will_Marshal, Hf.
Qed.

End Recovery.

#[global] Instance flat_will_codec : WillJSON.
Proof.
  refine {| Marshal w := w_QoS w :: (if w_Retain w then 1 else 0) :: w_PersistedAt w ::
              slen (w_Topic w) :: slen (w_ClientID w) ::
              bytes_of (w_Topic w) ++ bytes_of (w_ClientID w) ++ w_Payload w;
            Unmarshal b := match b with
              | q :: r :: t :: n :: m :: b =>
                  let b' := drop (Z.to_nat n) b in
                  Some (mkWill (string_of (take (Z.to_nat n) b)) (drop (Z.to_nat m) b') q (r =? 1)
                          (string_of (take (Z.to_nat m) b')) t)
              | _ => None end |}.
  intros w _ _. rewrite <- !len_bytes_of. unfold len. rewrite !Nat2Z.id. cbn zeta.
  repeat (rewrite ?take_app_length, ?drop_app_length). rewrite !string_of_bytes_of.
  by destruct w as [? ? ? [] ? ?].
Defined.

(** ** Properties *)

(** The clients whose marker a history leaves set. *)
Definition marked_step (P : string → bool) (o : wop) : string → bool :=
  λ c, match o with
       | WSet c' _ | WDelete c' => negb (bool_decide (c = c')) && P c
       | WMark c' => bool_decide (c = c') || P c
       end.

(** Wills survive a restart, and with them the marker that a will has been published: it
    is reported exactly when the marker was set after the will was last stored or deleted, so
    that a will taken over from a dead node is not published again. *)
Theorem will_recovery {db} `{StoreLaws db} `{!StoreReliable db} `{WillJSON} (d0 : db) (ops : list wop) :
  (∀ k, HasPrefix k "wm" = true → contents d0 !! k = None) →
  Forall wop_ok ops →
  let ws := foldl wstep (NewWillStore d0) ops in
  Load (NewWillStore (store ws)) = Ok ws ∧
  ∀ c, IsPublished ws c = foldl marked_step (λ _, false) ops c.
Proof.
  intros Hd0 Hops ws.
  assert (∀ ws P, saved ws (λ c, P c = true) → Forall wop_ok ops →
    saved (foldl wstep ws ops) (λ c, foldl marked_step P ops c = true)) as Hrun.
  { clear -StoreReliable0. induction ops as [|o ops IH]; intros ws P Hs Ho; [done|]. apply Forall_cons in Ho as [Ho Hops].
    cbn [foldl]. apply IH; [|done]. pose proof (wstep_saved ws _ o Hs Ho) as (S1 & S2 & S3).
    split; [done|]. split; [done|]. intros c. rewrite S3. unfold marked_step.
    destruct o; rewrite ?andb_true_iff, ?orb_true_iff, ?negb_true_iff, ?bool_decide_eq_false, ?bool_decide_eq_true;
      done. }
  assert (saved ws (λ c, foldl marked_step (λ _, false) ops c = true)) as Hs.
  { apply Hrun; [|done]. split; [|split; [apply map_Forall_empty|]].
    - intros c. cbn [NewWillStore store wills]. rewrite Hd0 by apply (HasPrefix_app "wm"). by rewrite lookup_empty.
    - intros c. rewrite IsPublished_contents. cbn [NewWillStore store].
      rewrite Hd0 by apply (HasPrefix_app "wm"). done. }
  split; [by eapply Wills_Load_saved|]. intros c. destruct Hs as (_ & _ & Hp). specialize (Hp c).
  destruct (IsPublished ws c), (foldl _ _ _ _); naive_solver.
Qed.

Lemma will_recovery_witness :
  let ops := [WSet "c" (mkWill "t" [1] 1 true "" 0); WMark "c"; WSet "d" (mkWill "u" [] 0 false "" 0);
              WMark "d"; WSet "d" (mkWill "v" [] 0 false "" 0)] in
  let ws := foldl wstep (NewWillStore empty_db) ops in
  IsPublished ws "c" = true ∧ IsPublished ws "d" = false ∧ Load (NewWillStore (store ws)) = Ok ws.
Proof.
  intros ops ws. split; [by vm_compute|]. split; [by vm_compute|].
  apply (will_recovery empty_db ops).
  - intros k _. exact (lookup_empty (M := gmap key) k).
  - repeat (constructor; [by vm_compute|]). constructor.
Defined.

End Wills.
