(* ===== verification/Doubles.v ===== *)
(** * Doubles

    IEEE 754 doubles, the numbers of JavaScript and the [float64] of Go, as the computable
    specification of binary floating-point numbers of the Standard Library defines them
    ([spec_float] with 53 bits of precision), with [Math.round] and [toFixed(1)] on their exact
    values. *)
From S2P Require Import Prelude.
From Stdlib Require Import SpecFloat.

Module Doubles.

Definition number : Type := spec_float.

(** The number that an integer of a JSON text is read as, and [float64(z)]: the nearest double. *)
Definition of_Z (z : Z) : number := binary_normalize 53 1024 z 0 false.
Definition div (x y : number) : number := SFdiv 53 1024 x y.
Definition mul (x y : number) : number := SFmul 53 1024 x y.
Definition add (x y : number) : number := SFadd 53 1024 x y.
Definition sub (x y : number) : number := SFsub 53 1024 x y.
(** [x <= y] and [x < y]. *)
Definition leb (x y : number) : bool := SFleb x y.
Definition ltb (x y : number) : bool := SFltb x y.

(** The integer nearest to [k * x], the larger of two. *)
Definition nearest (k : Z) (x : number) : Z :=
  match x with
  | S754_finite s m e =>
      let z := (if s then Z.neg m else Z.pos m) * k in
      if 0 <=? e then z * 2 ^ e else (2 * z + 2 ^ (- e)) / 2 ^ (1 - e)
  | _ => 0
  end.

(** [Math.round(x)], for a number that is finite. *)
Definition Math_round (x : number) : number := of_Z (nearest 1 x).

(** [x.toFixed(1)], for a finite number that is not negative. *)
Definition toFixed1 (x : number) : string :=
  let n := nearest 10 x in pretty (n / 10) +:+ "." +:+ pretty (n mod 10).

Example toFixed_exact : toFixed1 (div (of_Z 1234567) (of_Z 1000000)) = "1.2".
Proof. vm_compute. reflexivity. Qed.
(** 0.25 is a double and its tie goes up; the double nearest to 0.35 lies below it. *)
Example toFixed_tie : toFixed1 (div (of_Z 25) (of_Z 100)) = "0.3" ∧ toFixed1 (div (of_Z 35) (of_Z 100)) = "0.3".
Proof. vm_compute. split; reflexivity. Qed.
Example of_Z_rounds : of_Z 9007199254740993 = of_Z 9007199254740992.
Proof. vm_compute. reflexivity. Qed.

(** Rounding to the nearest is off by at most a half: for a number [m * 2 ^ e] with [e] negative,
    the result times [2 ^ -e] is within half of that of [k * m]. *)
Lemma nearest_half (k : Z) (m : positive) (e : Z) : e < 0 →
  let n := nearest k (S754_finite false m e) in
  2 * n * 2 ^ (- e) ≤ 2 * (k * Z.pos m) + 2 ^ (- e) < 2 * (n + 1) * 2 ^ (- e).
Proof.
  intros He. unfold nearest. rewrite (proj2 (Z.leb_gt 0 e)) by lia. cbv zeta.
  set (w := 2 ^ (- e)). assert (0 < w) as Hw by (apply Z.pow_pos_nonneg; lia).
  replace (2 ^ (1 - e)) with (2 * w) by (unfold w; rewrite <- Z.pow_succ_r by lia; f_equal; lia).
  pose proof (Z.div_mod (2 * (Z.pos m * k) + w) (2 * w) ltac:(lia)) as Hd.
  pose proof (Z.mod_pos_bound (2 * (Z.pos m * k) + w) (2 * w) ltac:(lia)) as Hm. nia.
Qed.

End Doubles.
