(* ===== verification/Breaker.v ===== *)
(** * The circuit breaker

    Model of [internal/circuitbreaker/breaker.go]: the breaker's record, with the clock of each call
    as an argument, and its refinement of an abstract breaker that knows nothing but the outcomes
    since it was closed, the time it was opened, or the successes of its trial. *)
From S2P Require Import Prelude Doubles.
Import Doubles.

Module Breaker.

Inductive State := StateClosed | StateOpen | StateHalfOpen.
#[global] Instance State_eq_dec : EqDecision State.
Proof. solve_decision. Defined.

Definition State_String (s : State) : string :=
  match s with StateClosed => "closed" | StateOpen => "open" | StateHalfOpen => "half-open" end.

Record Config := mkConfig {
  ErrorThreshold : number;
  WindowSize : Z;
  OpenDuration : Z;
  HalfOpenMax : Z;
  MinRequests : Z
}.

Definition DefaultConfig : Config :=
  mkConfig (div (of_Z 1) (of_Z 10)) (5 * Second) (30 * Second) 5 10.

Record CircuitBreaker := mkBreaker {
  state : State;
  failCount : Z;
  successCount : Z;
  totalCount : Z;
  halfOpenSucc : Z;
  openedAt : Z;
  config : Config
}.

Definition New (cfg : Config) : CircuitBreaker := mkBreaker StateClosed 0 0 0 0 zeroTime cfg.

Definition trip (now : Z) (cb : CircuitBreaker) : CircuitBreaker := mkBreaker StateOpen 0 0 0 0 now (config cb).
Definition reset (cb : CircuitBreaker) : CircuitBreaker := mkBreaker StateClosed 0 0 0 0 (openedAt cb) (config cb).

(** [cb.state = StateHalfOpen; cb.halfOpenSucc = 0] *)
Definition half_open (cb : CircuitBreaker) : CircuitBreaker :=
  mkBreaker StateHalfOpen (failCount cb) (successCount cb) (totalCount cb) 0 (openedAt cb) (config cb).
(** [time.Since(cb.openedAt) > cb.config.OpenDuration] *)
Definition waited (now : Z) (cb : CircuitBreaker) : bool := OpenDuration (config cb) <? now - openedAt cb.

Definition Allow (now : Z) (cb : CircuitBreaker) : bool * CircuitBreaker :=
  match state cb with
  | StateClosed => (true, cb)
  | StateOpen => if waited now cb then (true, half_open cb) else (false, cb)
  | StateHalfOpen => (true, cb)
  end.

Definition RecordSuccess (cb : CircuitBreaker) : CircuitBreaker :=
  let cb := mkBreaker (state cb) (failCount cb) (successCount cb + 1) (totalCount cb + 1) (halfOpenSucc cb)
              (openedAt cb) (config cb) in
  match state cb with
  | StateHalfOpen =>
      let cb := mkBreaker (state cb) (failCount cb) (successCount cb) (totalCount cb) (halfOpenSucc cb + 1)
                  (openedAt cb) (config cb) in
      if HalfOpenMax (config cb) <=? halfOpenSucc cb then reset cb else cb
  | _ => cb
  end.

Definition RecordFailure (now : Z) (cb : CircuitBreaker) : CircuitBreaker :=
  let cb := mkBreaker (state cb) (failCount cb + 1) (successCount cb) (totalCount cb + 1) (halfOpenSucc cb)
              (openedAt cb) (config cb) in
  match state cb with
  | StateClosed =>
      if MinRequests (config cb) <=? totalCount cb then
        let errorRate := div (of_Z (failCount cb)) (of_Z (totalCount cb)) in
        if leb (ErrorThreshold (config cb)) errorRate then trip now cb else cb
      else cb
  | StateHalfOpen => trip now cb
  | StateOpen => cb
  end.

(** The method [State], which may move the breaker on as [Allow] does. *)
Definition get_state (now : Z) (cb : CircuitBreaker) : State * CircuitBreaker :=
  let cb := if bool_decide (state cb = StateOpen) && waited now cb then half_open cb else cb in
  (state cb, cb).

Definition Reset (cb : CircuitBreaker) : CircuitBreaker := reset cb.

(** [AllowOrError]: no error, or [ErrCircuitOpen]. *)
Definition AllowOrError (now : Z) (cb : CircuitBreaker) : option string * CircuitBreaker :=
  let '(b, cb) := Allow now cb in
  (if b then None else Some "circuit breaker is open", cb).

(** ** Histories *)

Inductive call := CAllow | CSuccess | CFailure | CState | CReset.
#[global] Instance call_eq_dec : EqDecision call.
Proof. solve_decision. Defined.

Inductive answer := Allowed (b : bool) | Is (s : State) | Done.

Definition step (cb : CircuitBreaker) (now : Z) (c : call) : answer * CircuitBreaker :=
  match c with
  | CAllow => let '(b, cb) := Allow now cb in (Allowed b, cb)
  | CSuccess => (Done, RecordSuccess cb)
  | CFailure => (Done, RecordFailure now cb)
  | CState => let '(s, cb) := get_state now cb in (Is s, cb)
  | CReset => (Done, Reset cb)
  end.

Fixpoint run (cb : CircuitBreaker) (calls : list (Z * call)) : list answer * CircuitBreaker :=
  match calls with
  | [] => ([], cb)
  | (now, c) :: calls =>
      let '(a, cb) := step cb now c in
      let '(answers, cb) := run cb calls in (a :: answers, cb)
  end.

(** ** The abstract breaker *)

Inductive spec :=
  | Up (outcomes : list bool)   (** closed, with the outcomes since it was closed *)
  | Down (since : Z)            (** open *)
  | Trial (successes : Z).      (** half open *)

Definition failures (outcomes : list bool) : Z := len (filter (λ b, b = false) outcomes).

(** The outcomes that open it: enough of them, and too large a share of failures. *)
Definition too_many (cfg : Config) (outcomes : list bool) : bool :=
  (MinRequests cfg <=? len outcomes) &&
  leb (ErrorThreshold cfg) (div (of_Z (failures outcomes)) (of_Z (len outcomes))).

Definition over (cfg : Config) (now : Z) (s : spec) : spec :=
  match s with Down t => if OpenDuration cfg <? now - t then Trial 0 else s | _ => s end.
Definition spec_state (s : spec) : State :=
  match s with Up _ => StateClosed | Down _ => StateOpen | Trial _ => StateHalfOpen end.

Definition spec_step (cfg : Config) (s : spec) (now : Z) (c : call) : answer * spec :=
  match c with
  | CAllow => let s := over cfg now s in (Allowed (bool_decide (spec_state s ≠ StateOpen)), s)
  | CState => let s := over cfg now s in (Is (spec_state s), s)
  | CReset => (Done, Up [])
  | CSuccess =>
      (Done, match s with
             | Up l => Up (true :: l)
             | Trial k => if HalfOpenMax cfg <=? k + 1 then Up [] else Trial (k + 1)
             | Down t => Down t
             end)
  | CFailure =>
      (Done, match s with
             | Up l => if too_many cfg (false :: l) then Down now else Up (false :: l)
             | Trial _ => Down now
             | Down t => Down t
             end)
  end.

Fixpoint spec_run (cfg : Config) (s : spec) (calls : list (Z * call)) : list answer * spec :=
  match calls with
  | [] => ([], s)
  | (now, c) :: calls =>
      let '(a, s) := spec_step cfg s now c in
      let '(answers, s) := spec_run cfg s calls in (a :: answers, s)
  end.

(** The breaker stands for the abstract one. *)
Definition stands (cb : CircuitBreaker) (s : spec) : Prop :=
  state cb = spec_state s ∧
  match s with
  | Up l => failCount cb = failures l ∧ totalCount cb = len l ∧ successCount cb = len l - failures l
  | Down t => openedAt cb = t
  | Trial k => halfOpenSucc cb = k
  end.

Lemma failures_cons b l : failures (b :: l) = (if b then 0 else 1) + failures l.
Proof. unfold failures. rewrite filter_cons. destruct b; case_decide; try done; rewrite ?len_cons; lia. Qed.

Lemma over_state cfg now s : spec_state (over cfg now s) =
  match s with Up _ => StateClosed | Trial _ => StateHalfOpen
             | Down t => if OpenDuration cfg <? now - t then StateHalfOpen else StateOpen end.
Proof. destruct s; cbn; try case_match; done. Qed.

Lemma step_stands cb s now c : stands cb s →
  let '(a, cb') := step cb now c in
  let '(a', s') := spec_step (config cb) s now c in
  a = a' ∧ stands cb' s' ∧ config cb' = config cb.
Proof.
  intros [Hst Hs]. unfold stands, step, spec_step, Allow, get_state, RecordSuccess, RecordFailure, waited, over, too_many.
  destruct cb as [st f su tot h t cfg], s as [l|t'|k]; cbn in *; subst st.
  - destruct Hs as (-> & -> & ->). destruct c; cbn; rewrite ?failures_cons, ?len_cons; try (split_and!; (done || lia)).
    replace (failures l + 1) with (1 + failures l) by lia. replace (len l + 1) with (1 + len l) by lia.
    do 2 case_match; cbn; rewrite ?failures_cons, ?len_cons; split_and!; try done; lia.
  - subst t'. destruct c; cbn; try destruct (OpenDuration cfg <? now - t); cbn; split_and!; done.
  - subst h. destruct c; cbn; try destruct (HalfOpenMax cfg <=? k + 1); cbn; split_and!; done.
Qed.

Lemma run_stands cb s calls : stands cb s →
  let '(answers, cb') := run cb calls in
  let '(answers', s') := spec_run (config cb) s calls in
  answers = answers' ∧ stands cb' s' ∧ config cb' = config cb.
Proof.
  revert cb s. induction calls as [|[now c] calls IH]; intros cb s Hs; cbn [run spec_run]; [done|].
  pose proof (step_stands cb s now c Hs) as H.
  destruct (step cb now c) as [a cb1], (spec_step (config cb) s now c) as [a' s1].
  destruct H as (-> & H1 & Hc). specialize (IH cb1 s1 H1). rewrite Hc in IH.
  destruct (run cb1 calls) as [as1 cb2], (spec_run (config cb) s1 calls) as [as2 s2].
  destruct IH as (-> & ? & ?). split_and!; congruence.
Qed.

(** C32: the breaker is the abstract breaker: on every sequence of calls at whatever times, a new
    breaker gives the answers of the abstract one, so that it opens exactly when a failure is
    recorded while it is closed with enough outcomes and too large a share of failures since it was
    last closed, or while it is on trial, and neither the outcomes recorded while it was open nor
    those of an earlier trial count. *)
Theorem breaker_refines (cfg : Config) (calls : list (Z * call)) :
  (run (New cfg) calls).1 = (spec_run cfg (Up []) calls).1 ∧
  state (run (New cfg) calls).2 = spec_state (spec_run cfg (Up []) calls).2.
Proof.
  assert (stands (New cfg) (Up [])) as H0 by (by repeat split).
  pose proof (run_stands (New cfg) (Up []) calls H0) as H. cbn [config New] in H.
  destruct (run _ _) as [x cb], (spec_run _ _ _) as [y s]. destruct H as (-> & [Hs _] & _). done.
Qed.

(** Calls made at times at which [P] holds, none of them of the kinds [ban]. *)
Definition quiet (P : Z → Prop) (ban : list call) (calls : list (Z * call)) : Prop :=
  Forall (λ x, P x.1 ∧ x.2 ∉ ban) calls.
Definition successes (calls : list (Z * call)) : Z := len (filter (λ x, x.2 = CSuccess) calls).

Lemma successes_cons now c calls :
  successes ((now, c) :: calls) = (if bool_decide (c = CSuccess) then 1 else 0) + successes calls.
Proof.
  unfold successes. rewrite filter_cons. cbn [snd]. repeat case_decide; case_bool_decide; try done; rewrite ?len_cons; lia.
Qed.

Lemma open_stays cb calls : state cb = StateOpen →
  quiet (λ now, now - openedAt cb ≤ OpenDuration (config cb)) [CReset] calls →
  (∀ b, Allowed b ∈ (run cb calls).1 → b = false) ∧ state (run cb calls).2 = StateOpen ∧
  openedAt (run cb calls).2 = openedAt cb ∧ config (run cb calls).2 = config cb.
Proof.
  intros Ho Hq. revert cb Ho Hq. induction calls as [|[now c] calls IH]; intros cb Ho Hq.
  { split_and!; try done. intros b Hb. by apply not_elem_of_nil in Hb. }
  apply Forall_cons in Hq as [[Ht Hc] Hq]. cbn [fst snd] in *.
  assert (waited now cb = false) as Hw by (unfold waited; lia).
  assert (∃ a cb1, step cb now c = (a, cb1) ∧ (∀ b, a = Allowed b → b = false) ∧ state cb1 = StateOpen ∧
    openedAt cb1 = openedAt cb ∧ config cb1 = config cb) as (a & cb1 & E & Ha & Ho1 & Hat & Hcf).
  { destruct c; unfold step, Allow, get_state, RecordSuccess, RecordFailure; cbn; rewrite ?Ho, ?Hw; cbn;
      try (do 2 eexists; split; [reflexivity|]; cbn; split_and!; (done || congruence)). set_solver. }
  cbn [run]. rewrite E. specialize (IH cb1 Ho1). unfold quiet in IH. rewrite Hat, Hcf in IH. specialize (IH Hq).
  destruct (run cb1 calls) as [l cb2]. cbn in *. destruct IH as (IH1 & IH2 & IH3 & IH4). split_and!; try congruence.
  intros b [<-|Hb]%elem_of_cons; [by apply Ha|by apply IH1].
Qed.

(** A trial without failures: every request is let through, and the breaker is closed once it
    has seen its successes. *)
Lemma trial_closes cb calls : state cb ≠ StateOpen → quiet (λ _, True) [CFailure; CReset] calls →
  (∀ b, Allowed b ∈ (run cb calls).1 → b = true) ∧ state (run cb calls).2 ≠ StateOpen ∧
  (state cb = StateHalfOpen → 1 ≤ successes calls → HalfOpenMax (config cb) ≤ halfOpenSucc cb + successes calls →
   state (run cb calls).2 = StateClosed) ∧
  (state cb = StateClosed → state (run cb calls).2 = StateClosed).
Proof.
  intros Ho Hq. revert cb Ho Hq. induction calls as [|[now c] calls IH]; intros cb Ho Hq.
  { split_and!; [|done| |done]. { intros b Hb. by apply not_elem_of_nil in Hb. } intros _ H. by vm_compute in H. }
  apply Forall_cons in Hq as [[_ Hc] Hq]. cbn [fst snd] in *.
  assert (∃ a cb1, step cb now c = (a, cb1) ∧ (∀ b, a = Allowed b → b = true) ∧ config cb1 = config cb ∧
    (state cb = StateClosed → state cb1 = StateClosed) ∧
    (state cb = StateHalfOpen →
      state cb1 = StateClosed ∧ c = CSuccess ∧ HalfOpenMax (config cb) ≤ halfOpenSucc cb + 1 ∨
      state cb1 = StateHalfOpen ∧ halfOpenSucc cb1 = halfOpenSucc cb + (if bool_decide (c = CSuccess) then 1 else 0) ∧
      (c = CSuccess → halfOpenSucc cb + 1 < HalfOpenMax (config cb)))) as (a & cb1 & E & Ha & Hcf & Hcl & Hh).
  { apply not_elem_of_cons in Hc as [Hf [Hr _]%not_elem_of_cons].
    destruct c; try done; unfold step, Allow, get_state, RecordSuccess; cbn;
      destruct (state cb) eqn:Es; try done; cbn; rewrite ?Es; cbn; try zcase; cbn;
      (do 2 eexists; split; [reflexivity|]; cbn; rewrite ?Es; split_and!; try done; try congruence; intros _;
       repeat case_bool_decide; try done; cbn; rewrite ?Es;
       first [left; split_and!; (done || lia)|right; split_and!; try done; lia]). }
  assert (state cb1 ≠ StateOpen) as Ho1 by (destruct (state cb); naive_solver congruence).
  destruct (IH cb1 Ho1 Hq) as (IH1 & IH2 & IH3 & IH4). rewrite Hcf in IH3.
  cbn [run]. rewrite E. destruct (run cb1 calls) as [l cb2]. cbn in *. rewrite successes_cons.
  split_and!; [|done| |by intros ?%Hcl%IH4].
  { intros b [<-|Hb]%elem_of_cons; [by apply Ha|by apply IH1]. }
  intros [(H1 & _)|(H1 & H2 & H3)]%Hh Hs Hm; [by apply IH4|]. apply IH3; [done| |rewrite H2; lia].
  case_bool_decide as Hd; [|lia]. specialize (H3 Hd). lia.
Qed.

(** An open breaker protects, and recovers: until [OpenDuration] has passed since it opened
    it refuses every request, whatever outcomes come in late, unless it is reset; and when the first
    request after that comes, it and every further one is let through as long as none fails, and the
    breaker is closed after [HalfOpenMax] successes (and at least one). *)
Theorem breaker_recovers (cb : CircuitBreaker) (early late : list (Z * call)) (now : Z) :
  state cb = StateOpen →
  quiet (λ t, t - openedAt cb ≤ OpenDuration (config cb)) [CReset] early →
  OpenDuration (config cb) < now - openedAt cb →
  quiet (λ _, True) [CFailure; CReset] late →
  Z.max 1 (HalfOpenMax (config cb)) ≤ successes late →
  let '(answers, cb1) := run cb early in
  let '(answers', cb2) := run cb1 ((now, CAllow) :: late) in
  (∀ b, Allowed b ∈ answers → b = false) ∧ (∀ b, Allowed b ∈ answers' → b = true) ∧ state cb2 = StateClosed.
Proof.
  intros Ho He Hw Hl Hs. destruct (open_stays cb early Ho He) as (H1 & H2 & Hat & Hcf).
  destruct (run cb early) as [l1 cb1]. cbn [fst snd] in *. cbn [run step]. unfold Allow. rewrite H2.
  replace (waited now cb1) with true by (unfold waited; rewrite Hat, Hcf; lia).
  destruct (trial_closes (half_open cb1) late) as (H3 & _ & H4 & _); [done|done|].
  destruct (run (half_open cb1) late) as [l2 cb2]. cbn in *. rewrite Hcf in H4.
  split_and!; [done| |apply H4; [done|lia|lia]]. intros b [Hb|Hb]%elem_of_cons; [congruence|by apply H3].
Qed.

(** A breaker that opened after one failure in ten, one success that comes in late, and a trial. *)
Definition tripped : CircuitBreaker := (run (New DefaultConfig) (replicate 9 (0, CSuccess) ++ [(3600 * Second, CFailure)])).2.

Lemma breaker_recovers_witness :
  state tripped = StateOpen ∧
  let '(_, cb1) := run tripped [(3601 * Second, CSuccess); (3602 * Second, CAllow)] in
  let '(_, cb2) := run cb1 ((3631 * Second, CAllow) :: replicate 5 (3631 * Second, CSuccess)) in
  state cb2 = StateClosed.
Proof.
  split; [vm_compute; reflexivity|].
  pose proof (breaker_recovers tripped [(3601 * Second, CSuccess); (3602 * Second, CAllow)]
                (replicate 5 (3631 * Second, CSuccess)) (3631 * Second)) as H.
  assert (openedAt tripped = 3600 * Second) as Ha by (vm_compute; reflexivity).
  assert (config tripped = DefaultConfig) as Hc by (vm_compute; reflexivity).
  rewrite Ha, Hc in H.
  destruct (run tripped _) as [l1 cb1], (run cb1 _) as [l2 cb2]. apply H.
  - vm_compute. reflexivity.
  - unfold quiet. apply (bool_decide_eq_true_1 _). vm_compute. reflexivity.
  - vm_compute. reflexivity.
  - unfold quiet. apply (bool_decide_eq_true_1 _). vm_compute. reflexivity.
  - vm_compute. done.
Defined.

(** The window of the configuration has no effect: a breaker with another window gives the same
    answers to every sequence of calls. *)
Lemma window_unused (cfg : Config) (w : Z) (calls : list (Z * call)) :
  (run (New (mkConfig (ErrorThreshold cfg) w (OpenDuration cfg) (HalfOpenMax cfg) (MinRequests cfg))) calls).1 =
  (run (New cfg) calls).1.
Proof.
  set (cfg' := mkConfig _ _ _ _ _).
  assert (∀ s, spec_run cfg' s calls = spec_run cfg s calls) as Hspec.
  { induction calls as [|[now c] calls IH]; intros s; [done|]. cbn [spec_run].
    change (spec_step cfg' s now c) with (spec_step cfg s now c).
    destruct (spec_step cfg s now c) as [a s1]. by rewrite IH. }
  pose proof (run_stands (New cfg) (Up []) calls ltac:(by repeat split)) as H1.
  pose proof (run_stands (New cfg') (Up []) calls ltac:(by repeat split)) as H2.
  cbn [config New] in H1, H2. rewrite Hspec in H2.
  destruct (run (New cfg) calls), (run (New cfg') calls), (spec_run cfg _ calls). naive_solver.
Qed.

(** A trial lets every request through, however many there are. *)
Lemma trial_unlimited (cb : CircuitBreaker) (now : Z) (n : nat) : state cb = StateHalfOpen →
  run cb (replicate n (now, CAllow)) = (replicate n (Allowed true), cb).
Proof.
  intros Hs. induction n as [|n IH]; [done|]. cbn [replicate run step]. unfold Allow. by rewrite Hs, IH.
Qed.

End Breaker.
