(* ===== verification/Interceptors.v ===== *)
(** * The interceptor chain

    Model of [internal/plugin/interceptor.go], [executor.go] and [chain.go]: registered interceptors
    with their hooks, the executor that guards each call with a timeout and a circuit breaker, and
    the dispatch of an event along the chain. The state of all interceptors is one type [S]. What a
    call of a hook comes to (it returns, panics, or is still running at the deadline), and when, is
    the hook's result. *)
From S2P Require Import Prelude Doubles Breaker.
Import Doubles Breaker.

Module Interceptors.

Inductive error :=
  | ErrInterceptorSkipped
  | ErrPanic
  | ErrDeadline
  | ErrHook (msg : string).
#[global] Instance error_eq_dec : EqDecision error.
Proof. solve_decision. Defined.

(** ** Events *)

Record ConnectEvent := mkConnect { ce_ClientID : string; ce_Username : string; ce_CleanSession : bool; ce_RemoteAddr : string }.
Record PublishEvent := mkPublish { pe_ClientID : string; pe_Topic : string; pe_Payload : list Z; pe_QoS : Z; pe_Retain : bool }.
Record SubscribeEvent := mkSubscribe { se_ClientID : string; se_TopicFilter : string; se_QoS : Z }.
Record DeliveryEvent := mkDelivery { de_ClientID : string; de_Topic : string; de_Payload : list Z; de_QoS : Z }.
Record DisconnectEvent := mkDisconnect { di_ClientID : string; di_Reason : string; di_RemoteAddr : string }.
Record SessionExpiredEvent := mkExpired { sx_ClientID : string }.
Record UnsubscribeEvent := mkUnsubscribe { ue_ClientID : string; ue_TopicFilter : string }.

(** ** The executor *)

Record Executor := mkExecutor { ex_name : string; ex_timeout : Z; ex_breaker : CircuitBreaker }.

Definition NewExecutor (name : string) (timeout : Z) (breakerCfg : Config) : Executor :=
  mkExecutor name timeout (New breakerCfg).

Section Chain.
Context {S : Type}.

(** The end of a call: the function returned ([None]: no error), panicked, or was still running when
    the deadline passed. *)
Inductive ending := Returned (err : option error) | Panicked | Late.

(** A call leaves the interceptors' state and the event as they are at its end, at time [at_]. *)
Record called (E : Type) := mkCalled { end_ : ending; at_ : Z; left_ : S; evt : E }.
Arguments mkCalled {E} end_ at_ left_ evt.
Arguments end_ {E} c.
Arguments at_ {E} c.
Arguments left_ {E} c.
Arguments evt {E} c.

Definition hook (E : Type) : Type := Z → S → E → called E.

Definition Run {E} (ex : Executor) (now : Z) (fn : hook E) (s : S) (e : E) : option error * Executor * Z * S * E :=
  let '(refused, breaker) := AllowOrError now (ex_breaker ex) in
  match refused with
  | Some _ => (Some ErrInterceptorSkipped, mkExecutor (ex_name ex) (ex_timeout ex) breaker, now, s, e)
  | None =>
      let c := fn now s e in
      let err := match end_ c with Returned err => err | Panicked => Some ErrPanic | Late => Some ErrDeadline end in
      let breaker := match err with Some _ => RecordFailure (at_ c) breaker | None => RecordSuccess breaker end in
      (err, mkExecutor (ex_name ex) (ex_timeout ex) breaker, at_ c, left_ c, evt c)
  end.

(** ** The chain *)

(** An interceptor has a hook when it implements its interface. A notification may panic. *)
Record Interceptor := mkInterceptor {
  Name : string;
  Init : S → option error * S;
  Close : S → option error * S;
  hook_OnConnect : option (hook ConnectEvent);
  hook_OnPublish : option (hook PublishEvent);
  hook_OnSubscribe : option (hook SubscribeEvent);
  hook_OnDelivery : option (hook DeliveryEvent);
  hook_OnUnsubscribe : option (hook UnsubscribeEvent);
  hook_OnDisconnect : option (S → DisconnectEvent → S);
  hook_OnSessionExpired : option (S → SessionExpiredEvent → S)
}.

Record registeredInterceptor := mkRegistered { interceptor : Interceptor; executor : Executor }.
Definition InterceptorChain : Type := list registeredInterceptor.

Record interceptorConfig := mkICfg { timeout : Z; breakerCfg : Config }.
Definition Millisecond : Z := 1000000.
Definition defaultInterceptorConfig : interceptorConfig :=
  mkICfg (100 * Millisecond) (mkConfig (div (of_Z 1) (of_Z 2)) (10 * Second) (30 * Second) 3 5).

Definition WithTimeout (d : Z) (c : interceptorConfig) : interceptorConfig := mkICfg d (breakerCfg c).
Definition WithBreakerThreshold (rate : number) (c : interceptorConfig) : interceptorConfig :=
  let b := breakerCfg c in
  mkICfg (timeout c) (mkConfig rate (WindowSize b) (OpenDuration b) (HalfOpenMax b) (MinRequests b)).
Definition WithBreakerResetInterval (d : Z) (c : interceptorConfig) : interceptorConfig :=
  let b := breakerCfg c in
  mkICfg (timeout c) (mkConfig (ErrorThreshold b) (WindowSize b) d (HalfOpenMax b) (MinRequests b)).

Definition Register (c : InterceptorChain) (i : Interceptor) (opts : list (interceptorConfig → interceptorConfig))
    : InterceptorChain :=
  let cfg := foldl (λ c opt, opt c) defaultInterceptorConfig opts in
  c ++ [mkRegistered i (NewExecutor (Name i) (timeout cfg) (breakerCfg cfg))].

(** [InitAll] and [CloseAll]: one after the other until the first error. *)
Fixpoint each (f : Interceptor → S → option error * S) (c : InterceptorChain) (s : S) : option error * S :=
  match c with
  | [] => (None, s)
  | ri :: c =>
      let '(err, s) := f (interceptor ri) s in
      match err with Some _ => (err, s) | None => each f c s end
  end.
Definition InitAll : InterceptorChain → S → option error * S := each Init.
Definition CloseAll : InterceptorChain → S → option error * S := each Close.

(** The loop of the hooks that can reject: the error that ends it, the chain with its breakers, the
    time, the state and the event. *)
Fixpoint dispatch {E} (sel : Interceptor → option (hook E)) (c : InterceptorChain) (now : Z) (s : S) (e : E)
    : option error * InterceptorChain * Z * S * E :=
  match c with
  | [] => (None, [], now, s, e)
  | ri :: c =>
      match sel (interceptor ri) with
      | None =>
          let '(err, c, now, s, e) := dispatch sel c now s e in (err, ri :: c, now, s, e)
      | Some fn =>
          let '(err, ex, now, s, e) := Run (executor ri) now fn s e in
          let ri := mkRegistered (interceptor ri) ex in
          match err with
          | None | Some ErrInterceptorSkipped =>
              let '(err, c, now, s, e) := dispatch sel c now s e in (err, ri :: c, now, s, e)
          | Some _ => (err, ri :: c, now, s, e)
          end
      end
  end.

Definition OnConnect : InterceptorChain → Z → S → ConnectEvent → _ := dispatch hook_OnConnect.
Definition OnPublish : InterceptorChain → Z → S → PublishEvent → _ := dispatch hook_OnPublish.
Definition OnSubscribe : InterceptorChain → Z → S → SubscribeEvent → _ := dispatch hook_OnSubscribe.
Definition OnDelivery : InterceptorChain → Z → S → DeliveryEvent → _ := dispatch hook_OnDelivery.
Definition OnUnsubscribe : InterceptorChain → Z → S → UnsubscribeEvent → _ := dispatch hook_OnUnsubscribe.

(** The notifications are goroutines, which run some time later, in any order. *)
Definition notify {E} (sel : Interceptor → option (S → E → S)) (c : InterceptorChain) (e : E) : list (S → S) :=
  omap (λ ri, (λ h s, h s e) <$> sel (interceptor ri)) c.
Definition OnDisconnect (c : InterceptorChain) (e : DisconnectEvent) : list (S → S) := notify hook_OnDisconnect c e.
Definition OnSessionExpired (c : InterceptorChain) (e : SessionExpiredEvent) : list (S → S) := notify hook_OnSessionExpired c e.

(** ** What an event meets *)

Record moment (E : Type) := mkMoment { m_time : Z; m_state : S; m_event : E }.
Arguments mkMoment {E} m_time m_state m_event.
Arguments m_time {E} m.
Arguments m_state {E} m.
Arguments m_event {E} m.

Definition with_breaker (ri : registeredInterceptor) (b : CircuitBreaker) : registeredInterceptor :=
  mkRegistered (interceptor ri) (mkExecutor (ex_name (executor ri)) (ex_timeout (executor ri)) b).
Definition breaker_of (ri : registeredInterceptor) : CircuitBreaker := ex_breaker (executor ri).

(** An interceptor meets an event: it has no hook for it; its breaker refuses; it runs and agrees;
    it runs and fails. *)
Inductive meets {E} (sel : Interceptor → option (hook E)) (ri : registeredInterceptor)
    : moment E → option error → registeredInterceptor → moment E → Prop :=
  | meets_no_hook m : sel (interceptor ri) = None → meets sel ri m None ri m
  | meets_refused m fn b : sel (interceptor ri) = Some fn → Allow (m_time m) (breaker_of ri) = (false, b) →
      meets sel ri m None (with_breaker ri b) m
  | meets_agrees m fn b c : sel (interceptor ri) = Some fn → Allow (m_time m) (breaker_of ri) = (true, b) →
      fn (m_time m) (m_state m) (m_event m) = c → end_ c = Returned None →
      meets sel ri m None (with_breaker ri (RecordSuccess b)) (mkMoment (at_ c) (left_ c) (evt c))
  | meets_skips m fn b c : sel (interceptor ri) = Some fn → Allow (m_time m) (breaker_of ri) = (true, b) →
      fn (m_time m) (m_state m) (m_event m) = c → end_ c = Returned (Some ErrInterceptorSkipped) →
      meets sel ri m None (with_breaker ri (RecordFailure (at_ c) b)) (mkMoment (at_ c) (left_ c) (evt c))
  | meets_fails m fn b c err : sel (interceptor ri) = Some fn → Allow (m_time m) (breaker_of ri) = (true, b) →
      fn (m_time m) (m_state m) (m_event m) = c → err ≠ ErrInterceptorSkipped →
      (end_ c = Returned (Some err) ∨ end_ c = Panicked ∧ err = ErrPanic ∨ end_ c = Late ∧ err = ErrDeadline) →
      meets sel ri m (Some err) (with_breaker ri (RecordFailure (at_ c) b)) (mkMoment (at_ c) (left_ c) (evt c)).

(** The interceptors of a chain meet it one after the other, and none fails. *)
Inductive passes {E} (sel : Interceptor → option (hook E))
    : InterceptorChain → moment E → InterceptorChain → moment E → Prop :=
  | passes_nil m : passes sel [] m [] m
  | passes_cons ri c m ri' m1 c' m' : meets sel ri m None ri' m1 → passes sel c m1 c' m' →
      passes sel (ri :: c) m (ri' :: c') m'.

(** One interceptor of the loop, as a function. *)
Definition meet {E} (sel : Interceptor → option (hook E)) (ri : registeredInterceptor) (m : moment E)
    : option error * registeredInterceptor * moment E :=
  match sel (interceptor ri) with
  | None => (None, ri, m)
  | Some fn =>
      let '(err, ex, now, s, e) := Run (executor ri) (m_time m) fn (m_state m) (m_event m) in
      (match err with Some ErrInterceptorSkipped => None | _ => err end,
       mkRegistered (interceptor ri) ex, mkMoment now s e)
  end.

Lemma meet_spec {E} (sel : Interceptor → option (hook E)) ri m err ri' m' :
  meet sel ri m = (err, ri', m') ↔ meets sel ri m err ri' m'.
Proof.
  unfold meet, Run, AllowOrError. split.
  - destruct (sel (interceptor ri)) as [fn|] eqn:Es; [|intros [= <- <- <-]; by constructor].
    destruct (Allow _ _) as [[] b] eqn:Ea; cbn.
    + destruct (fn _ _ _) as [en t s e] eqn:Ef. cbn.
      destruct en as [[er|]| |]; cbn; [destruct er; cbn|..]; intros [= <- <- <-];
        first [by eapply (meets_agrees _ _ _ _ _ _ Es Ea Ef)|by eapply (meets_skips _ _ _ _ _ _ Es Ea Ef)
              |eapply (meets_fails _ _ _ _ _ _ _ Es Ea Ef); cbn; naive_solver].
    + intros [= <- <- <-]. destruct m. by eapply (meets_refused _ _ _ _ _ Es).
  - destruct 1 as [m Es|m fn b Es Ea|m fn b c Es Ea Ef He|m fn b c Es Ea Ef He|m fn b c er Es Ea Ef Hn He];
      rewrite Es; [done|..]; unfold breaker_of in Ea; rewrite Ea; cbn; rewrite ?Ef.
    + by destruct m.
    + by rewrite He.
    + by rewrite He.
    + destruct He as [->|[[-> ->]|[-> ->]]]; [|done..]. by destruct er.
Qed.

Lemma dispatch_meet {E} (sel : Interceptor → option (hook E)) ri c now s e :
  dispatch sel (ri :: c) now s e =
  let '(err, ri', m) := meet sel ri (mkMoment now s e) in
  match err with
  | Some _ => (err, ri' :: c, m_time m, m_state m, m_event m)
  | None => let '(err, c', now, s, e) := dispatch sel c (m_time m) (m_state m) (m_event m) in (err, ri' :: c', now, s, e)
  end.
Proof.
  cbn [dispatch]. unfold meet. destruct (sel (interceptor ri)) as [fn|]; [|done].
  cbn [m_time m_state m_event]. destruct (Run _ _ _ _ _) as [[[[[er|] ex] t] s'] e']; [|done]. by destruct er.
Qed.

(** An event that has passed a part of the chain goes on to the rest. *)
Lemma dispatch_passes {E} (sel : Interceptor → option (hook E)) c m c' m' rest : passes sel c m c' m' →
  dispatch sel (c ++ rest) (m_time m) (m_state m) (m_event m) =
  let '(err, rest', now, s, e) := dispatch sel rest (m_time m') (m_state m') (m_event m') in
  (err, c' ++ rest', now, s, e).
Proof.
  induction 1 as [m|ri c m ri' m1 c' m' Hm Hp IH]; cbn [app].
  { by destruct (dispatch sel rest _ _ _) as [[[[? ?] ?] ?] ?]. }
  rewrite dispatch_meet. replace (mkMoment (m_time m) (m_state m) (m_event m)) with m by (by destruct m).
  apply meet_spec in Hm. rewrite Hm, IH. by destruct (dispatch sel rest _ _ _) as [[[[? ?] ?] ?] ?].
Qed.

Lemma moment_eta {E} (m m' : moment E) :
  m_time m = m_time m' → m_state m = m_state m' → m_event m = m_event m' → m = m'.
Proof. destruct m, m'. cbn. congruence. Qed.

(** C31: the chain runs its interceptors in order: an event passes exactly when each interceptor
    has no hook for it, is skipped because its breaker refuses, or runs without an error, each on
    the event and the state that the ones before it left; otherwise the first one that fails, by an
    error, a panic or its deadline, gives the result, and the interceptors after it are not run and
    keep their breakers. Each run is recorded in the breaker of its interceptor. *)
Theorem chain_exact {E} (sel : Interceptor → option (hook E)) (c c' : InterceptorChain) (m m' : moment E)
    (err : option error) :
  dispatch sel c (m_time m) (m_state m) (m_event m) = (err, c', m_time m', m_state m', m_event m') ↔
  match err with
  | None => passes sel c m c' m'
  | Some er => ∃ pre ri post pre' ri' m1, c = pre ++ ri :: post ∧ c' = pre' ++ ri' :: post ∧
      passes sel pre m pre' m1 ∧ meets sel ri m1 (Some er) ri' m'
  end.
Proof.
  split.
  - revert m c' m' err. induction c as [|ri c IH]; intros m c' m' err.
    { cbn. intros [= <- <- Ht Hs He]. rewrite (moment_eta m m') by done. constructor. }
    rewrite dispatch_meet. destruct (meet sel ri _) as [[er1 ri1] m1] eqn:Em.
    replace (mkMoment (m_time m) (m_state m) (m_event m)) with m in Em by (by destruct m).
    apply meet_spec in Em. destruct er1 as [er1|].
    { intros [= <- <- Ht Hs He]. rewrite <- (moment_eta m1 m') by done.
      exists [], ri, c, [], ri1, m. split_and!; [done|done|constructor|done]. }
    destruct (dispatch sel c _ _ _) as [[[[er2 c2] t2] s2] e2] eqn:Ed.
    intros [= <- <- -> -> ->]. specialize (IH m1 c2 m' er2 Ed).
    destruct er2 as [er2|]; [|by econstructor].
    destruct IH as (pre & r & post & pre' & r' & m2 & -> & -> & Hp & Hm).
    exists (ri :: pre), r, post, (ri1 :: pre'), r', m2. split_and!; try done. by econstructor.
  - destruct err as [er|].
    + intros (pre & ri & post & pre' & ri' & m1 & -> & -> & Hp & Hm).
      rewrite (dispatch_passes _ _ _ _ _ _ Hp), dispatch_meet.
      replace (mkMoment (m_time m1) (m_state m1) (m_event m1)) with m1 by (by destruct m1).
      apply meet_spec in Hm. by rewrite Hm.
    + intros Hp. rewrite <- (app_nil_r c), (dispatch_passes _ _ _ _ _ _ Hp). cbn. by rewrite app_nil_r.
Qed.

(** ** Rejections and the breaker *)

(** Events that come one after the other: what became of each. *)
Fixpoint feed {E} (sel : Interceptor → option (hook E)) (c : InterceptorChain) (s : S) (evs : list (Z * E))
    : list (option error * E) * InterceptorChain * S :=
  match evs with
  | [] => ([], c, s)
  | (t, e) :: evs =>
      let '(err, c, _, s, e) := dispatch sel c t s e in
      let '(results, c, s) := feed sel c s evs in ((err, e) :: results, c, s)
  end.

(** A breaker of the default configuration after [k] failures and nothing else. *)
Definition failed (k : Z) : CircuitBreaker := mkBreaker StateClosed k 0 k 0 zeroTime (breakerCfg defaultInterceptorConfig).

Lemma failed_more k t : 0 ≤ k < 4 → RecordFailure t (failed k) = failed (k + 1).
Proof. intros Hk. assert (k = 0 ∨ k = 1 ∨ k = 2 ∨ k = 3) as [->|[->|[->| ->]]] by lia; reflexivity. Qed.
Lemma failed_trips t : RecordFailure t (failed 4) = trip t (failed 4).
Proof. reflexivity. Qed.

Lemma reject_one {E} (sel : Interceptor → option (hook E)) ri fn t s e err c' t' s' e' k :
  sel (interceptor ri) = Some fn → breaker_of ri = failed k → (∀ t s e, t ≤ at_ (fn t s e)) →
  dispatch sel [ri] t s e = (Some err, c', t', s', e') →
  t ≤ t' ∧ c' = [with_breaker ri (RecordFailure t' (failed k))].
Proof.
  intros Hs Hb Ht. rewrite dispatch_meet. destruct (meet sel ri _) as [[er ri'] m] eqn:Em. apply meet_spec in Em.
  destruct er as [er|]; [|cbn; intros [=]]. intros [= <- <- <- <- <-].
  inversion Em as [| | | |m0 fn' b c er0 Hs' Ha Hf Hn He]; subst. rewrite Hs in Hs'. simplify_eq/=.
  rewrite Hb in Ha. injection Ha as <-. split; [apply Ht|done].
Qed.

(** Five rejections in a row disable an interceptor: when the first five events that an
    interceptor of the default configuration gets are all rejected, every event of the thirty seconds
    after the fifth passes without it, unchanged. *)
Lemma rejections_disable {E} (sel : Interceptor → option (hook E)) (i : Interceptor) (fn : hook E) (d t : Z)
    (s s' : S) (evs : list (Z * E)) (e : E) (results : list (option error * E)) (c : InterceptorChain) :
  sel i = Some fn → (∀ t s e, t ≤ at_ (fn t s e)) →
  feed sel (Register [] i [WithTimeout d]) s evs = (results, c, s') →
  length evs = 5%nat → Forall (λ r, is_Some r.1) results →
  Forall (λ x, t - x.1 ≤ 30 * Second) evs →
  dispatch sel c t s' e = (None, c, t, s', e).
Proof.
  intros Hi Hfn Hf Hlen Hr Ht.
  set (ri0 := mkRegistered i (NewExecutor (Name i) d (breakerCfg defaultInterceptorConfig))).
  assert (∀ evs k s results c s', 0 ≤ k → k + len evs = 5 → (0 < len evs) →
    feed sel [with_breaker ri0 (failed k)] s evs = (results, c, s') → Forall (λ r, is_Some r.1) results →
    ∃ t5, Exists (λ x, x.1 ≤ t5) evs ∧ c = [with_breaker ri0 (trip t5 (failed 4))]) as Hind.
  { clear -Hi Hfn. induction evs as [|[t e] evs IH]; intros k s results c s' Hk Hl Hp; [by unfold len in Hp|].
    rewrite len_cons in *. cbn [feed]. destruct (dispatch sel _ t s e) as [[[[er c1] t1] s1] e1] eqn:Ed.
    destruct (feed sel c1 s1 evs) as [[rs c2] s2] eqn:Ef. intros [= <- <- <-] [[er' Her] Hrs]%Forall_cons.
    cbn in Her. subst er. eapply (reject_one sel _ fn) in Ed as [Htt Hc1]; [|done..]. subst c1.
    destruct (decide (k < 4)) as [Hlt|].
    - rewrite failed_more in Ef by lia. destruct (IH (k + 1) s1 rs c2 s2) as (t5 & Hx & ->); [lia|lia|lia|done|done|].
      exists t5. split; [by right|done].
    - assert (k = 4) as -> by lia. destruct evs as [|? ?]; [|rewrite len_cons in *; pose proof (len_nonneg evs); lia].
      cbn [feed] in Ef. injection Ef as <- <- <-. exists t1. split; [by left|]. by rewrite failed_trips. }
  destruct (Hind evs 0 s results c s') as (t5 & Hx & ->); try done.
  { unfold len. rewrite Hlen. done. }
  { unfold len. rewrite Hlen. done. }
  rewrite dispatch_meet. unfold meet. cbn [interceptor with_breaker ri0]. rewrite Hi.
  unfold Run, AllowOrError. cbn [m_time m_state m_event executor with_breaker ex_breaker].
  assert (waited t (trip t5 (failed 4)) = false) as Hw.
  { apply Exists_exists in Hx as (x & Hxin & Hx). rewrite Forall_forall in Ht. specialize (Ht x Hxin).
    unfold waited. cbn in *. unfold Second in *. lia. }
  unfold Allow. cbn [state trip]. rewrite Hw. done.
Qed.

End Chain.
Arguments called S E : clear implicits.
Arguments hook S E : clear implicits.
Arguments mkCalled {S E} end_ at_ left_ evt.
Arguments end_ {S E} c.
Arguments at_ {S E} c.
Arguments left_ {S E} c.
Arguments evt {S E} c.
Arguments Interceptor S : clear implicits.
Arguments InterceptorChain S : clear implicits.
End Interceptors.
