(* ===== verification/Broker.v ===== *)
(** * The broker and its connections

    Model of [internal/broker/broker.go] and [client.go]: the broker's shared state, one record
    per connection, and every handler.  A handler runs as one step on the whole state, in the
    [res] monad: [Panic] is a Go panic (which takes the process down).  In the code the handlers of
    different connections overlap and only the single stores are locked: what an overlap can do is
    not in these definitions but, where it matters, in the step models of [BrokerFacts] and [Isolation].  Closing a connection is
    two steps, as in the code, where [close] waits for the write loop between them.  What the
    broker reaches through Go interfaces (authentication, rate limiting, interceptors) or through
    the cluster is the parameter [Env]. *)
From S2P Require Import Prelude Frame Props Packets Topic Storage Subscriptions Delivery Offline Sessions Retain Wills Interceptors.
Import Frame Packets TopicMatcher.

Module Broker.

(** ** What the broker is given *)

(** An interceptor chain with its state [S]: a hook rejects ([false], [None]) or lets the event pass,
    changed or not. The end of a connection only starts goroutines, each of which changes the state
    when it runs. *)
Record InterceptorChain (S : Type) := mkChain {
  OnConnect : S → Interceptors.ConnectEvent → bool * S;
  OnPublish : S → Interceptors.PublishEvent → option Interceptors.PublishEvent * S;
  OnSubscribe : S → Interceptors.SubscribeEvent → option Interceptors.SubscribeEvent * S;
  OnUnsubscribe : S → Interceptors.UnsubscribeEvent → option Interceptors.UnsubscribeEvent * S;
  OnDelivery : S → Interceptors.DeliveryEvent → option Interceptors.DeliveryEvent * S;
  OnDisconnect : Interceptors.DisconnectEvent → list (S → S)
}.
Arguments mkChain {S}.
Arguments OnConnect {S}.
Arguments OnPublish {S}.
Arguments OnSubscribe {S}.
Arguments OnUnsubscribe {S}.
Arguments OnDelivery {S}.
Arguments OnDisconnect {S}.

Class Env := {
  Authenticate : string → list Z → bool;
  Authorize : string → string → string → bool;
  limiter : Type;
  AllowConnect : limiter → bool * limiter;
  AllowPublish : limiter → string → string → Z → bool * limiter;
  AllowSubscribe : limiter → string → string → bool * limiter;
  (** The state of the interceptors, and their chain if there is one ([b.interceptors]). *)
  hooks : Type;
  interceptors : option (InterceptorChain hooks);
  (** What a cluster knows of the subscriptions on its other nodes, and [RemoteSubs().Match]. *)
  remotes : Type;
  RemoteSubs_Match : remotes → string → list (string * Z);
  (** [fmt.Sprintf("auto-%p", conn)] *)
  auto_id : nat → string;
  (** [conn.RemoteAddr().String()] *)
  remote_addr : nat → string
}.

(** What the broker says to the cluster. *)
Inductive output :=
  | BroadcastConnect (clientID : string)
  | BroadcastDisconnect (clientID : string)
  | BroadcastSubscribe (filter : string) (qos : Z)
  | BroadcastUnsubscribe (filter : string)
  | Forward (nodeID topic : string) (payload : list Z) (qos : Z) (retain : bool).

Section Broker.
Context {db : Type} `{Storage.Store db} `{Env}
  `{Offline.MessageJSON} `{Sessions.SessionJSON} `{Retain.RetainedJSON} `{Wills.WillJSON}.

(** ** State *)

Record Client := mkClient {
  c_clientID : string;
  c_username : string;
  c_will : option Wills.WillMessage;
  c_packetIDs : Delivery.PacketIDAllocator;
  c_inflight : Delivery.InflightStore;
  c_keepAlive : Z;
  c_protocolVersion : Z;
  c_connectedAt : Z;
  c_sendCh : list (list Z);      (* what the channel buffers *)
  c_sendClosed : bool;           (* [close(c.sendCh)] was executed *)
  c_connClosed : bool            (* [c.conn.Close()] was executed *)
}.

Record Broker := mkBroker {
  subscriptions : Subscriptions.SubscriptionIndex;
  sess : gmap string Sessions.Session;
  retained : gmap string Retain.retainedMessage;
  dedupStore : Delivery.DedupStore;
  offline : Offline.OfflineStore db;
  wills : option (gmap string Wills.WillMessage);   (* [None]: [b.willStore == nil] *)
  disk : option db;                                 (* [b.store] *)
  rl : limiter;
  hk : hooks;                                       (* the interceptors' state *)
  notes : list (hooks → hooks);                     (* goroutines of [OnDisconnect] that have not run *)
  conns : gmap nat Client;                          (* every [*Client] in use *)
  clients : gmap string nat;                        (* [b.clients]: the registered ones *)
  inflightLimit : Z;
  maxConnections : Z;
  done : bool;
  outputs : list output;
  remote : option remotes                             (* [b.cluster], if one is attached *)
}.

Definition set_subscriptions (b : Broker) x := mkBroker x (sess b) (retained b) (dedupStore b) (offline b)
  (wills b) (disk b) (rl b) (hk b) (notes b) (conns b) (clients b) (inflightLimit b) (maxConnections b) (done b) (outputs b) (remote b).
Definition set_dedup (b : Broker) x := mkBroker (subscriptions b) (sess b) (retained b) x (offline b)
  (wills b) (disk b) (rl b) (hk b) (notes b) (conns b) (clients b) (inflightLimit b) (maxConnections b) (done b) (outputs b) (remote b).
Definition set_rl (b : Broker) x := mkBroker (subscriptions b) (sess b) (retained b) (dedupStore b) (offline b)
  (wills b) (disk b) x (hk b) (notes b) (conns b) (clients b) (inflightLimit b) (maxConnections b) (done b) (outputs b) (remote b).
Definition set_hooks (b : Broker) h n := mkBroker (subscriptions b) (sess b) (retained b) (dedupStore b) (offline b)
  (wills b) (disk b) (rl b) h n (conns b) (clients b) (inflightLimit b) (maxConnections b) (done b) (outputs b) (remote b).
Definition set_hk (b : Broker) h := set_hooks b h (notes b).
Definition set_conns (b : Broker) x := mkBroker (subscriptions b) (sess b) (retained b) (dedupStore b) (offline b)
  (wills b) (disk b) (rl b) (hk b) (notes b) x (clients b) (inflightLimit b) (maxConnections b) (done b) (outputs b) (remote b).
Definition set_clients (b : Broker) x := mkBroker (subscriptions b) (sess b) (retained b) (dedupStore b) (offline b)
  (wills b) (disk b) (rl b) (hk b) (notes b) (conns b) x (inflightLimit b) (maxConnections b) (done b) (outputs b) (remote b).
Definition emit (b : Broker) (o : output) := mkBroker (subscriptions b) (sess b) (retained b) (dedupStore b)
  (offline b) (wills b) (disk b) (rl b) (hk b) (notes b) (conns b) (clients b) (inflightLimit b) (maxConnections b) (done b)
  (outputs b ++ [o]) (remote b).

(** The stores share one database: each is put together from its map and the broker's
    database, and taken apart again after an operation. *)
Definition sessions (b : Broker) : Sessions.SessionStore db := Sessions.mkSessions (sess b) (disk b).
Definition set_sessions (b : Broker) (ss : Sessions.SessionStore db) := mkBroker (subscriptions b)
  (Sessions.sessions ss) (retained b) (dedupStore b) (offline b) (wills b) (Sessions.store ss) (rl b) (hk b) (notes b)
  (conns b) (clients b) (inflightLimit b) (maxConnections b) (done b) (outputs b) (remote b).

Definition retainStore (b : Broker) : Retain.RetainStore db := Retain.mkRetain (retained b) (disk b).
Definition set_retain (b : Broker) (rs : Retain.RetainStore db) := mkBroker (subscriptions b) (sess b)
  (Retain.messages rs) (dedupStore b) (offline b) (wills b) (Retain.store rs) (rl b) (hk b) (notes b) (conns b) (clients b)
  (inflightLimit b) (maxConnections b) (done b) (outputs b) (remote b).

(** The offline store is given the database by [loadFromStorage] only. *)
Definition offlineStore (b : Broker) : Offline.OfflineStore db :=
  match Offline.store (offline b) with
  | Some _ => Offline.SetStore (offline b) (disk b)
  | None => offline b
  end.
Definition set_offline (b : Broker) (os : Offline.OfflineStore db) := mkBroker (subscriptions b) (sess b)
  (retained b) (dedupStore b) os (wills b)
  (match Offline.store os with Some d => Some d | None => disk b end) (rl b) (hk b) (notes b) (conns b) (clients b)
  (inflightLimit b) (maxConnections b) (done b) (outputs b) (remote b).

Definition willStore (b : Broker) : option (Wills.WillStore db) :=
  match wills b, disk b with Some w, Some d => Some (Wills.mkWills w d) | _, _ => None end.
Definition set_wills (b : Broker) (ws : Wills.WillStore db) := mkBroker (subscriptions b) (sess b) (retained b)
  (dedupStore b) (offline b) (Some (Wills.wills ws)) (Some (Wills.store ws)) (rl b) (hk b) (notes b) (conns b) (clients b)
  (inflightLimit b) (maxConnections b) (done b) (outputs b) (remote b).

(** [if c.broker.willStore != nil { ... }] *)
Definition on_wills (b : Broker) (f : Wills.WillStore db → Wills.WillStore db) : Broker :=
  match willStore b with Some ws => set_wills b (f ws) | None => b end.

Definition New (store : option db) (l : limiter) (h : hooks) : Broker :=
  mkBroker Subscriptions.NewSubscriptionIndex ∅ ∅ (Delivery.NewDedupStore (180 * Second))
    (Offline.NewOfflineStore 1000 (24 * 3600 * Second))
    (match store with Some _ => Some ∅ | None => None end) store l h [] ∅ ∅ 20 0 false [] None.

(** [SetCluster], and the changes of what the cluster knows. *)
Definition set_remote (b : Broker) x := mkBroker (subscriptions b) (sess b) (retained b) (dedupStore b)
  (offline b) (wills b) (disk b) (rl b) (hk b) (notes b) (conns b) (clients b) (inflightLimit b) (maxConnections b) (done b)
  (outputs b) x.

(** [if c.broker.cluster != nil { c.broker.cluster.Broadcast...(...) }] *)
Definition broadcast (b : Broker) (o : output) : Broker :=
  match remote b with Some _ => emit b o | None => b end.

(** ** Connections *)

Definition newClient (b : Broker) : Client :=
  mkClient "" "" None Delivery.NewPacketIDAllocator (Delivery.NewInflightStore (inflightLimit b)) 0 0 0 [] false false.

Definition set_client (b : Broker) (id : nat) (c : Client) : Broker := set_conns b (<[id := c]> (conns b)).

Definition c_set_send (c : Client) x := mkClient (c_clientID c) (c_username c) (c_will c) (c_packetIDs c)
  (c_inflight c) (c_keepAlive c) (c_protocolVersion c) (c_connectedAt c) x (c_sendClosed c) (c_connClosed c).
Definition c_close_send (c : Client) := mkClient (c_clientID c) (c_username c) (c_will c) (c_packetIDs c)
  (c_inflight c) (c_keepAlive c) (c_protocolVersion c) (c_connectedAt c) (c_sendCh c) true (c_connClosed c).
Definition c_close_conn (c : Client) := mkClient (c_clientID c) (c_username c) (c_will c) (c_packetIDs c)
  (c_inflight c) (c_keepAlive c) (c_protocolVersion c) (c_connectedAt c) (c_sendCh c) (c_sendClosed c) true.
Definition c_set_will (c : Client) w := mkClient (c_clientID c) (c_username c) w (c_packetIDs c)
  (c_inflight c) (c_keepAlive c) (c_protocolVersion c) (c_connectedAt c) (c_sendCh c) (c_sendClosed c) (c_connClosed c).
Definition c_set_inflight (c : Client) x := mkClient (c_clientID c) (c_username c) (c_will c) (c_packetIDs c)
  x (c_keepAlive c) (c_protocolVersion c) (c_connectedAt c) (c_sendCh c) (c_sendClosed c) (c_connClosed c).
Definition c_set_ids (c : Client) x := mkClient (c_clientID c) (c_username c) (c_will c) x
  (c_inflight c) (c_keepAlive c) (c_protocolVersion c) (c_connectedAt c) (c_sendCh c) (c_sendClosed c) (c_connClosed c).

(** The connection a handler runs for. *)
Definition get_client (b : Broker) (id : nat) : res Client :=
  match conns b !! id with Some c => Ok c | None => Panic end.

(** [select { case c.sendCh <- data: default: }]: a full buffer drops the packet, a closed
    channel panics. *)
Definition client_send (c : Client) (data : list Z) : res Client :=
  if c_sendClosed c then Panic
  else if (length (c_sendCh c) <? 256)%nat then Ok (c_set_send c (c_sendCh c ++ [data])) else Ok c.

Definition send (b : Broker) (id : nat) (data : list Z) : res Broker :=
  c ← get_client b id; c ← client_send c data; Ok (set_client b id c).

Definition sendDisconnectAndClose (b : Broker) (id : nat) (reasonCode : Z) : res Broker :=
  c ← get_client b id;
  c ← (if c_protocolVersion c =? 5 then
         client_send c (DisconnectPacket_Encode {| dis_ReasonCode := reasonCode; dis_Properties := None;
                                                   dis_ProtocolVersion := 5 |})
       else Ok c);
  Ok (set_client b id (c_close_conn c)).

Definition registerClient (b : Broker) (id : nat) (clientID : string) : Broker :=
  set_clients b (<[clientID := id]> (clients b)).

Definition unregisterClient (b : Broker) (id : nat) (clientID : string) : Broker :=
  if bool_decide (clients b !! clientID = Some id) then set_clients b (delete clientID (clients b)) else b.

Definition disconnectExisting (b : Broker) (clientID : string) : res Broker :=
  match clients b !! clientID with
  | None => Ok b
  | Some existing =>
      sendDisconnectAndClose (set_clients b (delete clientID (clients b))) existing 0x8E
  end.

(** ** Delivery *)

Definition publish_packet (topic : string) (payload : list Z) (qos packetID : Z) (retain : bool) : list Z :=
  PublishPacket_Encode {| pub_Topic := topic; pub_PacketID := packetID; pub_QoS := qos; pub_Dup := false;
    pub_Retain := retain; pub_Payload := payload; pub_Properties := None; pub_ProtocolVersion := 0 |}.

Definition client_deliver (now : Z) (c : Client) (topic : string) (payload : list Z) (qos : Z) : res Client :=
  if 0 <? qos then
    let '(packetID, ids) := Delivery.Next (c_packetIDs c) in
    let c := c_set_ids c ids in
    let msg := Delivery.Build_InflightMessage packetID topic payload qos now in
    let '(ok, inflight) := Delivery.Inflight_Add (c_inflight c) msg in
    if ok then client_send (c_set_inflight c inflight) (publish_packet topic payload qos packetID false)
    else Ok c
  else client_send c (publish_packet topic payload qos 0 false).

Definition deliverMessage (now : Z) (b : Broker) (id : nat) (topic : string) (payload : list Z) (qos : Z)
    : res Broker :=
  c ← get_client b id; c ← client_deliver now c topic payload qos; Ok (set_client b id c).

(** What one match becomes: a delivery to a connection, or to an offline queue, or nothing. *)
Definition effective (qos matchQoS : Z) : Z := if matchQoS <? qos then matchQoS else qos.

Definition online_target (b : Broker) (qos : Z) (m : Subscriptions.SubscriptionMatch)
    : option (nat * string * Z) :=
  match clients b !! Subscriptions.m_ClientID m with
  | Some id => Some (id, Subscriptions.m_ClientID m, effective qos (Subscriptions.m_QoS m))
  | None => None
  end.

Definition offline_target (b : Broker) (qos : Z) (m : Subscriptions.SubscriptionMatch)
    : option (string * Z) :=
  match clients b !! Subscriptions.m_ClientID m with
  | Some _ => None
  | None =>
      match Sessions.Get (sessions b) (Subscriptions.m_ClientID m) with
      | Some s => if negb (Sessions.ExpiryInterval s =? 0)
                  then Some (Subscriptions.m_ClientID m, effective qos (Subscriptions.m_QoS m)) else None
      | None => None
      end
  end.

Definition deliver_one (now : Z) (topic : string) (payload : list Z) (b : Broker) (d : nat * string * Z)
    : res Broker :=
  let '(id, clientID, qos) := d in
  match interceptors with
  | Some chain =>
      let '(passed, h) := OnDelivery chain (hk b) (Interceptors.mkDelivery clientID topic payload qos) in
      let b := set_hk b h in
      match passed with
      | None => Ok b
      | Some evt => deliverMessage now b id (Interceptors.de_Topic evt) (Interceptors.de_Payload evt) (Interceptors.de_QoS evt)
      end
  | None => deliverMessage now b id topic payload qos
  end.

Definition enqueue_one (now : Z) (topic : string) (payload : list Z) (b : Broker) (d : string * Z) : Broker :=
  let '(clientID, qos) := d in
  let msg := Offline.mkMsg topic payload qos 0 zeroTime zeroTime in
  set_offline b (Offline.Enqueue now (offlineStore b) clientID msg).2.

Fixpoint fold_res {A B} (f : B → A → res B) (b : B) (l : list A) : res B :=
  match l with [] => Ok b | a :: l => b ← f b a; fold_res f b l end.

Definition forward_all (b : Broker) (topic : string) (payload : list Z) (qos : Z) (retain : bool) : Broker :=
  match remote b with
  | None => b
  | Some v =>
      foldl (λ b rm, emit b (Forward rm.1 topic payload (effective qos rm.2) retain)) b (RemoteSubs_Match v topic)
  end.

Definition routeMessage (now : Z) (b : Broker) (topic : string) (payload : list Z) (qos : Z)
    (retain forwarded : bool) : res Broker :=
  let matches := Subscriptions.Match (subscriptions b) topic in
  let deliveries := omap (online_target b qos) matches in
  let offlineDeliveries := omap (offline_target b qos) matches in
  b ← fold_res (deliver_one now topic payload) b deliveries;
  let b := foldl (enqueue_one now topic payload) b offlineDeliveries in
  Ok (if forwarded then b else forward_all b topic payload qos retain).

(** ** Handlers *)

Definition pubrec_packet (packetID : Z) : list Z :=
  PubrecPacket_Encode {| ack_PacketID := packetID; ack_ReasonCode := 0; ack_Properties := None; ack_ProtocolVersion := 0 |}.

(** The acknowledgement part of [handlePublish]; [true] if the message goes on. *)
Definition ack_publish (now : Z) (b : Broker) (id : nat) (qos packetID : Z) : res (Broker * bool) :=
  if qos =? 1 then
    b ← send b id (PubackPacket_Encode {| ack_PacketID := packetID; ack_ReasonCode := 0;
                     ack_Properties := None; ack_ProtocolVersion := 0 |});
    Ok (b, true)
  else if qos =? 2 then
    c ← get_client b id;
    let '(dup, dd) := Delivery.IsDuplicate now (dedupStore b) (c_clientID c) packetID in
    if dup then b ← send (set_dedup b dd) id (pubrec_packet packetID); Ok (b, false)
    else
      let b := set_dedup b (Delivery.MarkReceived now dd (c_clientID c) packetID) in
      b ← send b id (pubrec_packet packetID); Ok (b, true)
  else Ok (b, true).

Definition accept_publish (now : Z) (b : Broker) (c : Client) (fh : FixedHeader) (pkt : PublishPacket)
    : res Broker :=
  if negb (Authorize (c_username c) (pub_Topic pkt) "publish") then Ok b else
  let '(ok, l) := AllowPublish (rl b) (c_clientID c) (pub_Topic pkt) (len (pub_Payload pkt)) in
  let b := set_rl b l in
  if negb ok then Ok b else
  let b := if Retain fh
           then set_retain b (Retain.Set_ (retainStore b) (pub_Topic pkt) (pub_Payload pkt) (QoS fh)) else b in
  match interceptors with
  | Some chain =>
      let '(passed, h) := OnPublish chain (hk b)
            (Interceptors.mkPublish (c_clientID c) (pub_Topic pkt) (pub_Payload pkt) (QoS fh) (Retain fh)) in
      let b := set_hk b h in
      match passed with
      | None => Ok b
      | Some e => routeMessage now b (Interceptors.pe_Topic e) (Interceptors.pe_Payload e) (Interceptors.pe_QoS e)
                    (Interceptors.pe_Retain e) false
      end
  | None => routeMessage now b (pub_Topic pkt) (pub_Payload pkt) (QoS fh) (Retain fh) false
  end.

Definition handlePublish (now : Z) (b : Broker) (id : nat) (fh : FixedHeader) (data : list Z) : res Broker :=
  match DecodePublishPacket data (QoS fh) 4 with
  | Err _ => Ok b
  | Panic => Panic
  | NoFuel => NoFuel
  | Ok pkt =>
      '(b, go) ← ack_publish now b id (QoS fh) (pub_PacketID pkt);
      if (go : bool) then c ← get_client b id; accept_publish now b c fh pkt else Ok b
  end.

Definition handlePuback (b : Broker) (id : nat) (data : list Z) : res Broker :=
  match DecodePubackPacket data 4 with
  | Ok pkt => c ← get_client b id;
              Ok (set_client b id (c_set_inflight c (Delivery.Inflight_Remove (c_inflight c) (ack_PacketID pkt))))
  | Err _ => Ok b
  | Panic => Panic
  | NoFuel => NoFuel
  end.

Definition handlePubrec (b : Broker) (id : nat) (data : list Z) : res Broker :=
  match DecodePubrecPacket data 4 with
  | Ok pkt => c ← get_client b id;
              let b := set_client b id (c_set_inflight c (Delivery.Inflight_Remove (c_inflight c) (ack_PacketID pkt))) in
              send b id (PubrelPacket_Encode {| ack_PacketID := ack_PacketID pkt; ack_ReasonCode := 0;
                           ack_Properties := None; ack_ProtocolVersion := 0 |})
  | Err _ => Ok b
  | Panic => Panic
  | NoFuel => NoFuel
  end.

Definition handlePubrel (b : Broker) (id : nat) (data : list Z) : res Broker :=
  match DecodePubrelPacket data 4 with
  | Ok pkt => c ← get_client b id;
              let b := set_dedup b (Delivery.Dedup_Remove (dedupStore b) (c_clientID c) (ack_PacketID pkt)) in
              send b id (PubcompPacket_Encode {| ack_PacketID := ack_PacketID pkt; ack_ReasonCode := 0;
                           ack_Properties := None; ack_ProtocolVersion := 0 |})
  | Err _ => Ok b
  | Panic => Panic
  | NoFuel => NoFuel
  end.

Definition handlePubcomp (b : Broker) (id : nat) (data : list Z) : res Broker :=
  match DecodePubcompPacket data 4 with Panic => Panic | NoFuel => NoFuel | _ => Ok b end.

Definition intercept_subscribe (b : Broker) (e : Interceptors.SubscribeEvent) : option Interceptors.SubscribeEvent * Broker :=
  match interceptors with
  | Some chain => let '(passed, h) := OnSubscribe chain (hk b) e in (passed, set_hk b h)
  | None => (Some e, b)
  end.

(** One subscription of a SUBSCRIBE: the new state and the return code. *)
Definition subscribe_one (b : Broker) (c : Client) (has_session : bool) (s : Subscription) : Broker * Z :=
  if negb (TopicFilterValid (TopicFilter s)) then (b, 0x80) else
  if negb (Authorize (c_username c) (TopicFilter s) "subscribe") then (b, 0x80) else
  let '(ok, l) := AllowSubscribe (rl b) (c_clientID c) (TopicFilter s) in
  let b := set_rl b l in
  if negb ok then (b, 0x80) else
  let grantedQoS := if 2 <? sub_QoS s then 2 else sub_QoS s in
  let '(passed, b) := intercept_subscribe b (Interceptors.mkSubscribe (c_clientID c) (TopicFilter s) grantedQoS) in
  match passed with
  | None => (b, 0x80)
  | Some e =>
      let filter := Interceptors.se_TopicFilter e in
      let granted := Interceptors.se_QoS e in
      let b := set_subscriptions b (Subscriptions.Add (subscriptions b) (c_clientID c) filter granted) in
      let b := if has_session
               then set_sessions b (Sessions.update (sessions b) (c_clientID c)
                                      (λ s, Sessions.SetSubscription s filter granted)) else b in
      (broadcast b (BroadcastSubscribe filter granted), granted)
  end.

Fixpoint subscribe_all (b : Broker) (c : Client) (has_session : bool) (subs : list Subscription)
    : Broker * list Z :=
  match subs with
  | [] => (b, [])
  | s :: subs =>
      let '(b, rc) := subscribe_one b c has_session s in
      let '(b, rcs) := subscribe_all b c has_session subs in
      (b, rc :: rcs)
  end.

(** The retained messages of every requested filter, in the order Go visits the map. *)
Definition send_retained (b : Broker) (id : nat) (s : Subscription) : res Broker :=
  fold_res (λ b m, send b id (publish_packet (Retain.rm_Topic m) (Retain.rm_Payload m) 0 0 true)) b
    (Retain.Match (retainStore b) (TopicFilter s)).

Definition handleSubscribe (b : Broker) (id : nat) (data : list Z) : res Broker :=
  c ← get_client b id;
  match DecodeSubscribePacket data (c_protocolVersion c) with
  | Err _ => Ok b
  | Panic => Panic
  | NoFuel => NoFuel
  | Ok pkt =>
      let has_session := bool_decide (is_Some (Sessions.Get (sessions b) (c_clientID c))) in
      let '(b, returnCodes) := subscribe_all b c has_session (sub_Subscriptions pkt) in
      let b := set_sessions b (Sessions.Save (sessions b) (c_clientID c)) in
      b ← send b id (SubackPacket_Encode {| sak_PacketID := sub_PacketID pkt; sak_ReturnCodes := returnCodes;
                       sak_Properties := None; sak_ProtocolVersion := 0 |});
      fold_res (λ b s, send_retained b id s) b (sub_Subscriptions pkt)
  end.

Definition intercept_unsubscribe (b : Broker) (e : Interceptors.UnsubscribeEvent)
    : option Interceptors.UnsubscribeEvent * Broker :=
  match interceptors with
  | Some chain => let '(passed, h) := OnUnsubscribe chain (hk b) e in (passed, set_hk b h)
  | None => (Some e, b)
  end.

Definition unsubscribe_one (b : Broker) (c : Client) (has_session : bool) (filter : string) : Broker :=
  let '(passed, b) := intercept_unsubscribe b (Interceptors.mkUnsubscribe (c_clientID c) filter) in
  match passed with
  | None => b
  | Some e =>
      let filter := Interceptors.ue_TopicFilter e in
      let b := set_subscriptions b (Subscriptions.Remove (subscriptions b) (c_clientID c) filter) in
      let b := broadcast b (BroadcastUnsubscribe filter) in
      if has_session
      then set_sessions b (Sessions.update (sessions b) (c_clientID c)
                             (λ s, Sessions.RemoveSubscription s filter)) else b
  end.

Definition handleUnsubscribe (b : Broker) (id : nat) (data : list Z) : res Broker :=
  c ← get_client b id;
  match DecodeUnsubscribePacket data (c_protocolVersion c) with
  | Err _ => Ok b
  | Panic => Panic
  | NoFuel => NoFuel
  | Ok pkt =>
      let has_session := bool_decide (is_Some (Sessions.Get (sessions b) (c_clientID c))) in
      let b := foldl (λ b f, unsubscribe_one b c has_session f) b (uns_TopicFilters pkt) in
      let b := set_sessions b (Sessions.Save (sessions b) (c_clientID c)) in
      send b id (UnsubackPacket_Encode {| uak_PacketID := uns_PacketID pkt; uak_ReasonCodes := [];
                   uak_Properties := None; uak_ProtocolVersion := 0 |})
  end.

Definition DisconnWithWillMessage : Z := 0x04.

(** The DISCONNECT case of [serve]. *)
Definition handleDisconnect (b : Broker) (id : nat) (data : list Z) : res Broker :=
  c ← get_client b id;
  let discard := on_wills (set_client b id (c_set_will c None)) (λ ws, Wills.Delete_ ws (c_clientID c)) in
  if (c_protocolVersion c =? 5) && (0 <? len data) then
    match DecodeDisconnectPacket data with
    | Ok d => if dis_ReasonCode d =? DisconnWithWillMessage then Ok b else Ok discard
    | Err _ => Ok discard
    | Panic => Panic
    | NoFuel => NoFuel
    end
  else Ok discard.

(** One packet of the read loop; the boolean says whether the loop goes on. *)
Definition handlePacket (now : Z) (b : Broker) (id : nat) (fh : FixedHeader) (data : list Z)
    : res (Broker * bool) :=
  let t := PacketType fh in
  if t =? PUBLISH then b ← handlePublish now b id fh data; Ok (b, true)
  else if t =? PUBACK then b ← handlePuback b id data; Ok (b, true)
  else if t =? PUBREC then b ← handlePubrec b id data; Ok (b, true)
  else if t =? PUBREL then b ← handlePubrel b id data; Ok (b, true)
  else if t =? PUBCOMP then b ← handlePubcomp b id data; Ok (b, true)
  else if t =? SUBSCRIBE then b ← handleSubscribe b id data; Ok (b, true)
  else if t =? UNSUBSCRIBE then b ← handleUnsubscribe b id data; Ok (b, true)
  else if t =? PINGREQ then b ← send b id EncodePingresp; Ok (b, true)
  else if t =? DISCONNECT then b ← handleDisconnect b id data; Ok (b, false)
  else Ok (b, true).

(** ** CONNECT *)

Definition refuse (b : Broker) (id : nat) (rc : Z) : res (Broker * bool) :=
  b ← send b id (ConnackPacket_Encode {| cak_SessionPresent := false; cak_ReturnCode := rc; cak_ReasonCode := 0;
                   cak_Properties := None; cak_ProtocolVersion := 0 |});
  Ok (b, false).

Definition expiry_of (pkt : ConnectPacket) : Z :=
  if con_ProtocolLevel pkt =? 4 then if con_CleanSession pkt then 0 else 0xFFFFFFFF
  else match con_Properties pkt with
       | Some p => default 0 (Props.SessionExpiryInterval p)
       | None => 0
       end.

(** [time.Duration(float64(pkt.KeepAlive) * 1.5) * time.Second]: truncated to whole seconds. *)
Definition keepAlive_of (k : Z) : Z := if 0 <? k then (3 * k / 2) * Second else 0.

Definition will_of (pkt : ConnectPacket) : option Wills.WillMessage :=
  if con_WillFlag pkt
  then Some (Wills.mkWill (con_WillTopic pkt) (con_WillPayload pkt) (con_WillQoS pkt) (con_WillRetain pkt) "" 0)
  else None.

(** The session of a connecting client: created, or resumed with its subscriptions. *)
Definition open_session (b : Broker) (clientID : string) (cleanStart : bool) (expiry : Z) : Broker * bool :=
  match Sessions.Get (sessions b) clientID with
  | Some existing =>
      if cleanStart then (set_sessions b (Sessions.Create (sessions b) clientID cleanStart expiry), false)
      else (set_subscriptions b (foldl (λ idx fq, Subscriptions.Add idx clientID fq.1 fq.2) (subscriptions b)
                                   (map_to_list (Sessions.Subscriptions existing))), true)
  | None => (set_sessions b (Sessions.Create (sessions b) clientID cleanStart expiry), false)
  end.

Definition dequeue_count : Z := 100.

Definition deliver_offline (now : Z) (b : Broker) (id : nat) (clientID : string) : res Broker :=
  '(msgs, os) ← Offline.Dequeue now (offlineStore b) clientID dequeue_count;
  fold_res (λ b m, deliverMessage now b id (Offline.om_Topic m) (Offline.om_Payload m) (Offline.om_QoS m))
    (set_offline b os) msgs.

Definition intercept_connect (b : Broker) (e : Interceptors.ConnectEvent) : bool * Broker :=
  match interceptors with
  | Some chain => let '(accepted, h) := OnConnect chain (hk b) e in (accepted, set_hk b h)
  | None => (true, b)
  end.

(** After the packet has been accepted: register the client, run the hook, acknowledge. *)
Definition welcome (now : Z) (b : Broker) (id : nat) (c : Client) (cleanStart sessionPresent : bool)
    : res (Broker * bool) :=
  let b := broadcast (registerClient b id (c_clientID c)) (BroadcastConnect (c_clientID c)) in
  let '(accepted, b) := intercept_connect b
        (Interceptors.mkConnect (c_clientID c) (c_username c) cleanStart (remote_addr id)) in
  if accepted then
    b ← send b id (ConnackPacket_Encode {| cak_SessionPresent := sessionPresent; cak_ReturnCode := ConnackAccepted;
                     cak_ReasonCode := 0; cak_Properties := None; cak_ProtocolVersion := c_protocolVersion c |});
    b ← (if sessionPresent then deliver_offline now b id (c_clientID c) else Ok b);
    Ok (b, true)
  else refuse b id ConnackNotAuthorized.

Definition accept_connect (now : Z) (b : Broker) (id : nat) (pkt : ConnectPacket) (clientID : string)
    : res (Broker * bool) :=
  c ← get_client b id;
  let c := mkClient clientID (con_Username pkt) (c_will c) (c_packetIDs c) (c_inflight c)
             (keepAlive_of (con_KeepAlive pkt)) (con_ProtocolLevel pkt) now (c_sendCh c) (c_sendClosed c)
             (c_connClosed c) in
  b ← disconnectExisting (set_client b id c) clientID;
  let '(b, sessionPresent) := open_session b clientID (con_CleanSession pkt) (expiry_of pkt) in
  let '(b, c) :=
    match will_of pkt with
    | Some w =>
        let c := c_set_will c (Some w) in
        (on_wills (set_client b id c) (λ ws, Wills.Set_ ws clientID w), c)
    | None => (b, c)
    end in
  welcome now b id c (con_CleanSession pkt) sessionPresent.

(** The first packet of a connection; [false] means [serve] returns and the client is closed. One step here:
    the loop over [existing.Subscriptions], which the code runs without the lock of the session, is taken
    apart in [BrokerFacts]. *)
Definition handleConnect (now : Z) (b : Broker) (id : nat) (fh : FixedHeader) (data : list Z)
    : res (Broker * bool) :=
  if negb (PacketType fh =? CONNECT) then Ok (b, false) else
  match DecodeConnectPacket data with
  | Err _ => Ok (b, false)
  | Panic => Panic
  | NoFuel => NoFuel
  | Ok pkt =>
      if negb (String.eqb (con_ProtocolName pkt) "MQTT") ||
         (negb (con_ProtocolLevel pkt =? 4) && negb (con_ProtocolLevel pkt =? 5))
      then refuse b id ConnackUnacceptableProtocol else
      if String.eqb (con_ClientID pkt) "" && negb (con_CleanSession pkt)
      then refuse b id ConnackIdentifierRejected else
      let clientID := if String.eqb (con_ClientID pkt) "" then auto_id id else con_ClientID pkt in
      if negb (Authenticate (con_Username pkt) (con_Password pkt))
      then refuse b id ConnackBadUsernameOrPassword
      else accept_connect now b id pkt clientID
  end.

(** ** Closing *)

(** [close] up to the wait for the write loop. *)
Definition close_begin (b : Broker) (id : nat) : res Broker :=
  c ← get_client b id;
  if c_sendClosed c then Ok b else Ok (set_client b id (c_close_send c)).

Definition publish_will (now : Z) (b : Broker) (clientID : string) (w : Wills.WillMessage) : res Broker :=
  let b := if Wills.w_Retain w
           then set_retain b (Retain.Set_ (retainStore b) (Wills.w_Topic w) (Wills.w_Payload w) (Wills.w_QoS w))
           else b in
  b ← routeMessage now b (Wills.w_Topic w) (Wills.w_Payload w) (Wills.w_QoS w) false false;
  Ok (on_wills b (λ ws, Wills.Delete_ ws clientID)).

Definition end_session (now : Z) (b : Broker) (clientID : string) : Broker :=
  match Sessions.Get (sessions b) clientID with
  | None => b
  | Some session =>
      if Sessions.ExpiryInterval session =? 0 then
        let b := match remote b with
                 | Some _ => foldl (λ b f, emit b (BroadcastUnsubscribe f)) b
                               (Subscriptions.ClientFilters (subscriptions b) clientID)
                 | None => b
                 end in
        let b := set_subscriptions b (Subscriptions.RemoveAll (subscriptions b) clientID) in
        let b := set_sessions b (Sessions.Remove (sessions b) clientID) in
        if done b then b else set_offline b (Offline.RemoveAll (offlineStore b) clientID)
      else if done b then b
      else set_sessions b (Sessions.MarkDisconnected now (sessions b) clientID)
  end.

(** The notification of the interceptors: a clean end is one without a will. *)
Definition notify_disconnect (b : Broker) (id : nat) (c : Client) : Broker :=
  match interceptors with
  | Some chain =>
      let reason := match c_will c with None => "clean" | Some _ => "error" end in
      set_hooks b (hk b) (notes b ++ OnDisconnect chain (Interceptors.mkDisconnect (c_clientID c) reason (remote_addr id)))
  | None => b
  end.

(** A goroutine of a notification runs: the [n]-th of those that have not run yet. *)
Definition run_note (b : Broker) (n : nat) : Broker :=
  match notes b !! n with
  | Some f => set_hooks b (f (hk b)) (delete n (notes b))
  | None => b
  end.

(** [close] after the write loop has drained the channel. *)
Definition close_finish (now : Z) (b : Broker) (id : nat) : res Broker :=
  c ← get_client b id;
  let b := set_client b id (c_close_conn (c_set_send c [])) in
  if String.eqb (c_clientID c) "" then Ok b else
  let b := broadcast (unregisterClient b id (c_clientID c)) (BroadcastDisconnect (c_clientID c)) in
  let b := notify_disconnect b id c in
  b ← match c_will c with Some w => publish_will now b (c_clientID c) w | None => Ok b end;
  Ok (end_session now b (c_clientID c)).

(** ** The rest of the broker *)

Definition ClientCount (b : Broker) : Z := Z.of_nat (size (clients b)).

(** One iteration of [acceptLoop]. *)
Definition acceptConn (b : Broker) (id : nat) : Broker :=
  let '(ok, l) := AllowConnect (rl b) in
  let b := set_rl b l in
  if negb ok then b
  else if (0 <? maxConnections b) && (maxConnections b <=? ClientCount b) then b
  else set_client b id (newClient b).

Definition ConnectedClientIDs (b : Broker) : list string := (map_to_list (clients b)).*1.
Definition ActiveSubscriptions (b : Broker) : Z := Subscriptions.Count (subscriptions b).
Definition RetainedMessageCount (b : Broker) : Z := Retain.Count (retainStore b).

(** Delivery of a message another node forwarded. *)
Definition onForward (now : Z) (b : Broker) (topic : string) (payload : list Z) (qos : Z) (retain : bool) : res Broker :=
  routeMessage now b topic payload qos retain true.

Definition onRemoteConnect (b : Broker) (deviceID : string) : res Broker := disconnectExisting b deviceID.

(** The will of a client of a node that left the cluster. *)
Definition willPublisher (now : Z) (b : Broker) (clientID : string) : res Broker :=
  match willStore b with
  | None => Ok b
  | Some ws =>
      match Wills.Get ws clientID with
      | None => Ok b
      | Some w =>
          if Wills.IsPublished ws clientID then Ok b
          else publish_will now (set_wills b (Wills.MarkPublished ws clientID)) clientID w
      end
  end.

Definition onReplicateWill (b : Broker) (clientID : string) (w : Wills.WillMessage) : Broker :=
  on_wills b (λ ws, Wills.Set_ ws clientID w).
Definition onDeleteWill (b : Broker) (clientID : string) : Broker :=
  on_wills b (λ ws, Wills.Delete_ ws clientID).
Definition onReplicateOffline (now : Z) (b : Broker) (clientID : string) (msgs : list Offline.OfflineMessage) : Broker :=
  foldl (λ b m, set_offline b (Offline.Enqueue now (offlineStore b) clientID m).2) b msgs.
Definition onReplicateOfflineAck (b : Broker) (clientID : string) : Broker :=
  set_offline b (Offline.RemoveAll (offlineStore b) clientID).

(** What a migration moves of a session. *)
Record MigrateSessionData := mkMSD {
  msd_ClientID : string;
  msd_CleanStart : bool;
  msd_ExpiryInterval : Z;
  msd_Subscriptions : gmap string Z
}.

(** The migration interface: take the queue out and put it back. *)
Definition GetOfflineMessages (now : Z) (b : Broker) (deviceID : string)
    : res (list (string * list Z * Z) * Broker) :=
  '(msgs, os) ← Offline.Dequeue now (offlineStore b) deviceID (Offline.Count (offlineStore b) deviceID);
  Ok ((λ m, (Offline.om_Topic m, Offline.om_Payload m, Offline.om_QoS m)) <$> msgs, onReplicateOffline now (set_offline b os) deviceID msgs).

Definition DeleteOfflineMessages (b : Broker) (deviceID : string) : Broker := onReplicateOfflineAck b deviceID.
Definition GetSessionData (b : Broker) (clientID : string) : option MigrateSessionData :=
  (λ s, mkMSD (Sessions.ses_ClientID s) (Sessions.CleanStart s) (Sessions.ExpiryInterval s)
          (Sessions.Subscriptions s)) <$> Sessions.Get (sessions b) clientID.
Definition DeleteSession (b : Broker) (clientID : string) : Broker :=
  set_sessions b (Sessions.Remove (sessions b) clientID).

Definition ImportMigrateData (now : Z) (b : Broker) (deviceID : string) (msgs : list (string * list Z * Z))
    (session : option MigrateSessionData) : Broker :=
  let b := onReplicateOffline now b deviceID
             ((λ m, Offline.mkMsg m.1.1 m.1.2 m.2 0 zeroTime zeroTime) <$> msgs) in
  match session with
  | None => b
  | Some s =>
      let c := msd_ClientID s in
      let b := set_sessions b (Sessions.Create (sessions b) c (msd_CleanStart s) (msd_ExpiryInterval s)) in
      let b := foldl (λ b fq,
                 let b := set_sessions b (Sessions.update (sessions b) c
                            (λ s, Sessions.SetSubscription s fq.1 fq.2)) in
                 set_subscriptions b (Subscriptions.Add (subscriptions b) c fq.1 fq.2))
               b (map_to_list (msd_Subscriptions s)) in
      set_sessions b (Sessions.Save (sessions b) c)
  end.

Definition set_offline_map (b : Broker) (os : Offline.OfflineStore db) := mkBroker (subscriptions b) (sess b)
  (retained b) (dedupStore b) os (wills b) (disk b) (rl b) (hk b) (notes b) (conns b) (clients b)
  (inflightLimit b) (maxConnections b) (done b) (outputs b) (remote b).

(** Startup: every store reads its part of the database, then the subscriptions of the
    sessions that outlive a connection are put back into the index. *)
Definition loadFromStorage (b : Broker) : res Broker :=
  ss ← wrap_err "loading sessions" (Sessions.Load (sessions b));
  let b := set_sessions b ss in
  rs ← wrap_err "loading retained messages" (Retain.Load (retainStore b));
  let b := set_retain b rs in
  b ← match willStore b with
      | Some ws => ws ← wrap_err "loading will messages" (Wills.Load ws); Ok (set_wills b ws)
      | None => Ok b
      end;
  b ← match disk b with
      | Some d => os ← wrap_err "loading offline messages" (Offline.LoadFromStore (Offline.SetStore (offline b) (Some d)));
                  Ok (set_offline_map b os)
      | None => Ok b
      end;
  Ok (foldl (λ b cs,
        if negb (Sessions.ExpiryInterval cs.2 =? 0)
        then set_subscriptions b (foldl (λ idx fq, Subscriptions.Add idx cs.1 fq.1 fq.2) (subscriptions b)
                                    (map_to_list (Sessions.Subscriptions cs.2)))
        else b) b (map_to_list (sess b))).

(** The reaper's [sweep], on the stores of the broker. *)
Definition reap_client (b : Broker) (clientID : string) : Broker :=
  let subs := foldl (λ idx f, Subscriptions.Remove idx clientID f) (subscriptions b)
                (Subscriptions.ClientFilters (subscriptions b) clientID) in
  let b := set_subscriptions b subs in
  let b := set_offline b (Offline.RemoveAll (offlineStore b) clientID) in
  set_sessions b (Sessions.Remove (sessions b) clientID).

Definition reap (now : Z) (b : Broker) : Broker :=
  foldl reap_client b (Sessions.ExpiredSessions now (sessions b)).

End Broker.
Arguments Broker : clear implicits.
Arguments Broker db {_}.

End Broker.
