(* ===== verification/BrokerFacts.v ===== *)
(** * Correctness of the broker's handlers *)
From S2P Require Import Prelude Frame Props Packets PacketFacts Topic Storage Subscriptions Delivery Offline OfflineFacts Sessions Retain Wills Interceptors Broker.
Import Frame Packets TopicMatcher Broker.

Section Facts.
Context {db : Type} `{Storage.Store db} `{Env}
  `{Offline.MessageJSON} `{Sessions.SessionJSON} `{Retain.RetainedJSON} `{Wills.WillJSON}.
Notation Broker := (Broker db).
Implicit Types b : Broker.

(** ** Frames: what a step leaves alone *)

(** Connection [id] exists and its channel is open. *)
Definition open b (id : nat) : Prop := ∃ c, conns b !! id = Some c ∧ c_sendClosed c = false.

(** Every registered connection is open. *)
Definition alive b : Prop := map_Forall (λ _ id, open b id) (clients b).

(** Same registrations, and the same connections with the same identity and openness. *)
Definition keeps b b' : Prop :=
  clients b' = clients b ∧
  ∀ id, match conns b !! id, conns b' !! id with
        | Some c, Some c' => c_sendClosed c' = c_sendClosed c ∧ c_clientID c' = c_clientID c
        | None, None => True
        | _, _ => False
        end.

#[global] Instance keeps_preorder : PreOrder keeps.
Proof.
  split.
  - intros b. split; [done|]. intros id. by case_match.
  - intros b1 b2 b3 [E1 H1'] [E2 H2']. split; [congruence|]. intros id.
    specialize (H1' id). specialize (H2' id). repeat case_match; intuition congruence.
Qed.

Lemma keeps_open b b' id : keeps b b' → open b id → open b' id.
Proof.
  intros [_ Hk] (c & Hc & Ho). specialize (Hk id). rewrite Hc in Hk.
  destruct (conns b' !! id) as [c'|] eqn:E; [|done]. exists c'. split; [done|]. intuition congruence.
Qed.

Lemma keeps_alive b b' : keeps b b' → alive b → alive b'.
Proof.
  intros Hk Ha. pose proof Hk as [Hc _]. unfold alive. rewrite Hc.
  eapply map_Forall_impl; [exact Ha|]. intros cid id. cbn. by apply keeps_open.
Qed.

(** Steps that do not touch the connections at all. *)
Lemma keeps_same b b' : clients b' = clients b → conns b' = conns b → keeps b b'.
Proof. intros Hc Hn. split; [done|]. intros id. rewrite Hn. by case_match. Qed.

Lemma keeps_set_client b id c c' : conns b !! id = Some c → c_sendClosed c' = c_sendClosed c →
  c_clientID c' = c_clientID c → keeps b (set_client b id c').
Proof.
  intros Hc Ho Hi. split; [done|]. intros id'. cbn. destruct (decide (id' = id)) as [->|].
  - rewrite lookup_insert_eq, Hc. done.
  - rewrite lookup_insert_ne by done. by case_match.
Qed.

(** ** Sending *)

Lemma client_send_ok c data : c_sendClosed c = false →
  ∃ c', client_send c data = Ok c' ∧ c_sendClosed c' = false ∧ c_clientID c' = c_clientID c.
Proof. intros Ho. unfold client_send. rewrite Ho. case_match; eauto. Qed.

Lemma send_ok b id data : open b id → ∃ b', send b id data = Ok b' ∧ keeps b b'.
Proof.
  intros (c & Hc & Ho). unfold send, get_client. rewrite Hc. cbn [mbind res_bind].
  destruct (client_send_ok c data Ho) as (c' & -> & Ho' & Hi). cbn [mbind res_bind].
  eexists. split; [done|]. eapply keeps_set_client; [done|congruence|done].
Qed.

Lemma client_deliver_ok now c topic payload qos : c_sendClosed c = false →
  ∃ c', client_deliver now c topic payload qos = Ok c' ∧ c_sendClosed c' = false ∧
        c_clientID c' = c_clientID c.
Proof.
  intros Ho. unfold client_deliver. case_match; [|by apply client_send_ok].
  destruct (Delivery.Next _) as [pid ids]. destruct (Delivery.Inflight_Add _ _) as [[] infl]; [|eauto].
  by apply (client_send_ok (c_set_inflight (c_set_ids c ids) infl)).
Qed.

Lemma deliverMessage_ok now b id topic payload qos : open b id →
  ∃ b', deliverMessage now b id topic payload qos = Ok b' ∧ keeps b b'.
Proof.
  intros (c & Hc & Ho). unfold deliverMessage, get_client. rewrite Hc. cbn [mbind res_bind].
  destruct (client_deliver_ok now c topic payload qos Ho) as (c' & -> & Ho' & Hi). cbn [mbind res_bind].
  eexists. split; [done|]. eapply keeps_set_client; [done|congruence|done].
Qed.

Lemma fold_res_keeps {A} (f : Broker → A → res Broker) (P : A → Broker → Prop) l :
  (∀ a b b', keeps b b' → P a b → P a b') →
  (∀ a b, P a b → ∃ b', f b a = Ok b' ∧ keeps b b') →
  ∀ b, Forall (λ a, P a b) l → ∃ b', fold_res f b l = Ok b' ∧ keeps b b'.
Proof.
  intros Hmono Hf. induction l as [|a l IH]; intros b Hl; cbn [fold_res]; [by exists b|].
  apply Forall_cons in Hl as [Ha Hl]. destruct (Hf a b Ha) as (b1 & -> & Hk1). cbn [mbind res_bind].
  destruct (IH b1) as (b2 & -> & Hk2); [eapply Forall_impl; [exact Hl|]; eauto|].
  exists b2. split; [done|]. by transitivity b1.
Qed.

Lemma foldl_keeps {A} (f : Broker → A → Broker) l : (∀ b a, keeps b (f b a)) →
  ∀ b, keeps b (foldl f b l).
Proof.
  intros Hf. induction l as [|a l IH]; intros b; cbn; [done|]. transitivity (f b a); auto.
Qed.

Lemma deliver_one_ok now topic payload d b : open b d.1.1 →
  ∃ b', deliver_one now topic payload b d = Ok b' ∧ keeps b b'.
Proof.
  destruct d as [[id cid] q]. intros Ho. unfold deliver_one. destruct interceptors as [chain|]; [|by apply deliverMessage_ok].
  destruct (OnDelivery chain _ _) as [[e|] h]; cbn zeta; [|eexists; split; [done|by apply keeps_same]].
  destruct (deliverMessage_ok now (set_hk b h) id (Interceptors.de_Topic e) (Interceptors.de_Payload e) (Interceptors.de_QoS e))
    as (b' & Hb' & Hk); [done|]. exists b'. split; [done|]. etransitivity; [|exact Hk]. by apply keeps_same.
Qed.

Lemma forward_all_keeps b topic payload qos retain : keeps b (forward_all b topic payload qos retain).
Proof. unfold forward_all. case_match; [|done]. apply foldl_keeps. intros. by apply keeps_same. Qed.

Lemma online_targets_open b qos ms : alive b →
  Forall (λ d, open b d.1.1) (omap (online_target b qos) ms).
Proof.
  intros Ha. apply Forall_forall. intros [[id cid] q] Hin.
  apply list_elem_of_omap in Hin as (m & _ & Hm). unfold online_target in Hm.
  destruct (clients b !! _) as [id'|] eqn:E; [|done]. injection Hm as <- <- <-. by apply (Ha _ _ E).
Qed.

Lemma routeMessage_ok now b topic payload qos retain forwarded : alive b →
  ∃ b', routeMessage now b topic payload qos retain forwarded = Ok b' ∧ keeps b b'.
Proof.
  intros Ha. unfold routeMessage. cbn zeta.
  destruct (fold_res_keeps (deliver_one now topic payload) (λ d b, open b d.1.1)
    (omap (online_target b qos) (Subscriptions.Match (subscriptions b) topic))) with b as (b1 & -> & Hk1).
  - intros a b0 b0'. apply keeps_open.
  - intros a b0. apply deliver_one_ok.
  - by apply online_targets_open.
  - cbn [mbind res_bind]. eexists. split; [done|]. transitivity b1; [done|].
    set (b2 := foldl _ b1 _). assert (keeps b1 b2) as Hk2.
    { apply foldl_keeps. intros b0 [cid q]. by apply keeps_same. }
    transitivity b2; [done|]. case_match; [done|]. apply forward_all_keeps.
Qed.

(** ** The handlers of the read loop *)

Lemma on_wills_keeps b f : keeps b (on_wills b f).
Proof. unfold on_wills. case_match; [|done]. by apply keeps_same. Qed.

Lemma broadcast_keeps b o : keeps b (broadcast b o).
Proof. unfold broadcast. case_match; [|done]. by apply keeps_same. Qed.

(** Run [send] on an open connection. *)
Ltac run_send :=
  match goal with
  | |- context [send ?b ?id ?data ≫= _] =>
      let b' := fresh "b'" in let E := fresh "E" in let K := fresh "K" in
      destruct (send_ok b id data) as (b' & E & K); [|rewrite E; cbn [mbind res_bind]]
  | |- context [send ?b ?id ?data] =>
      let b' := fresh "b'" in let E := fresh "E" in let K := fresh "K" in
      destruct (send_ok b id data) as (b' & E & K); [|rewrite E]
  end.

Lemma ack_publish_ok now b id qos pid : open b id →
  ∃ b' go, ack_publish now b id qos pid = Ok (b', go) ∧ keeps b b'.
Proof.
  intros Ho. unfold ack_publish. case_match; [|case_match].
  - run_send; [done|]. by eexists _, _.
  - pose proof Ho as (c & Hc & _). unfold get_client. rewrite Hc. cbn [mbind res_bind].
    destruct (Delivery.IsDuplicate _ _ _ _) as [[] dd].
    + assert (keeps b (set_dedup b dd)) by by apply keeps_same.
      run_send; [by eapply keeps_open|]. do 2 eexists. split; [done|]. by etransitivity.
    + set (b1 := set_dedup b _). assert (keeps b b1) by by apply keeps_same.
      run_send; [by eapply keeps_open|]. do 2 eexists. split; [done|]. by etransitivity.
  - by eexists _, _.
Qed.

Lemma accept_publish_ok now b c fh pkt : alive b →
  ∃ b', accept_publish now b c fh pkt = Ok b' ∧ keeps b b'.
Proof.
  intros Ha. unfold accept_publish. case_match; [by eexists|].
  destruct (AllowPublish _ _ _ _) as [ok l]. set (b1 := set_rl b l).
  assert (keeps b b1) as Hk1 by by apply keeps_same. case_match; [by eexists|].
  set (b2 := if Retain fh then _ else b1).
  assert (keeps b b2) as Hk2 by (unfold b2; case_match; by apply keeps_same).
  assert (alive b2) as Ha2 by by eapply keeps_alive.
  assert (∀ r, (∃ b', r = Ok b' ∧ keeps b2 b') → ∃ b', r = Ok b' ∧ keeps b b') as Hlift.
  { intros r (b' & -> & Hk). exists b'. split; [done|]. by transitivity b2. }
  apply Hlift. destruct interceptors as [chain|]; [|by apply routeMessage_ok].
  destruct (OnPublish chain _ _) as [[e|] h]; cbn zeta; [|eexists; split; [done|by apply keeps_same]].
  match goal with |- context [routeMessage now ?bh ?t ?p ?q ?r ?f] =>
    destruct (routeMessage_ok now bh t p q r f) as (b' & Hb' & Hk); [done|] end.
  exists b'. split; [done|]. etransitivity; [|exact Hk]. by apply keeps_same.
Qed.

(** A decoder never crashes a handler. *)
Lemma decode_cases {A} (m : res A) (f : A → res Broker) b : safe m →
  (∀ a, m = Ok a → ∃ b', f a = Ok b' ∧ keeps b b') →
  ∃ b', (match m with Ok a => f a | Err _ => Ok b | Panic => Panic | NoFuel => NoFuel end) = Ok b' ∧ keeps b b'.
Proof. intros [??] Hf. destruct m; [by apply Hf|by exists b|done|done]. Qed.

Lemma handlePublish_ok now b id fh data : Forall byte_ok data → alive b → open b id →
  ∃ b', handlePublish now b id fh data = Ok b' ∧ keeps b b'.
Proof.
  intros Hd Ha Ho. unfold handlePublish.
  destruct (DecodePublishPacket_safe data (QoS fh) 4 Hd) as [S1 S2].
  destruct (DecodePublishPacket data (QoS fh) 4) as [pkt| | |]; [|by exists b|done|done].
  destruct (ack_publish_ok now b id (QoS fh) (pub_PacketID pkt) Ho) as (b1 & go & -> & Hk1).
  cbn [mbind res_bind]. destruct go; [|by exists b1].
  destruct (keeps_open _ _ _ Hk1 Ho) as (c & Hc & _). unfold get_client. rewrite Hc. cbn [mbind res_bind].
  destruct (accept_publish_ok now b1 c fh pkt) as (b2 & -> & Hk2); [by eapply keeps_alive|].
  exists b2. split; [done|]. by transitivity b1.
Qed.

Lemma set_inflight_keeps b id c x : conns b !! id = Some c →
  keeps b (set_client b id (c_set_inflight c x)).
Proof. intros Hc. by eapply keeps_set_client. Qed.

Lemma handlePuback_ok b id data : Forall byte_ok data → open b id →
  ∃ b', handlePuback b id data = Ok b' ∧ keeps b b'.
Proof.
  intros Hd (c & Hc & Ho). unfold handlePuback, get_client.
  destruct (ack_decode_safe "PUBACK packet too short" data 4 Hd) as [S1 S2].
  change (ack_decode _ data 4) with (DecodePubackPacket data 4) in *.
  destruct (DecodePubackPacket data 4) as [pkt| | |]; [|by exists b|done|done].
  rewrite Hc. cbn [mbind res_bind]. eexists. split; [done|]. by apply set_inflight_keeps.
Qed.

Lemma handlePubrec_ok b id data : Forall byte_ok data → open b id →
  ∃ b', handlePubrec b id data = Ok b' ∧ keeps b b'.
Proof.
  intros Hd Ho. pose proof Ho as (c & Hc & _). unfold handlePubrec, get_client.
  destruct (ack_decode_safe "PUBREC packet too short" data 4 Hd) as [S1 S2].
  change (ack_decode _ data 4) with (DecodePubrecPacket data 4) in *.
  destruct (DecodePubrecPacket data 4) as [pkt| | |]; [|by exists b|done|done].
  rewrite Hc. cbn [mbind res_bind]. cbn zeta. set (b1 := set_client _ _ _).
  assert (keeps b b1) as Hk by by apply set_inflight_keeps.
  run_send; [by eapply keeps_open|]. eexists. split; [done|]. by transitivity b1.
Qed.

Lemma handlePubrel_ok b id data : Forall byte_ok data → open b id →
  ∃ b', handlePubrel b id data = Ok b' ∧ keeps b b'.
Proof.
  intros Hd Ho. pose proof Ho as (c & Hc & _). unfold handlePubrel, get_client.
  destruct (ack_decode_safe "PUBREL packet too short" data 4 Hd) as [S1 S2].
  change (ack_decode _ data 4) with (DecodePubrelPacket data 4) in *.
  destruct (DecodePubrelPacket data 4) as [pkt| | |]; [|by exists b|done|done].
  rewrite Hc. cbn [mbind res_bind]. cbn zeta. set (b1 := set_dedup _ _).
  assert (keeps b b1) as Hk by by apply keeps_same.
  run_send; [by eapply keeps_open|]. eexists. split; [done|]. by transitivity b1.
Qed.

Lemma intercept_subscribe_keeps b e : keeps b (intercept_subscribe b e).2.
Proof. unfold intercept_subscribe. repeat case_match; [by apply keeps_same|done]. Qed.
Lemma intercept_unsubscribe_keeps b e : keeps b (intercept_unsubscribe b e).2.
Proof. unfold intercept_unsubscribe. repeat case_match; [by apply keeps_same|done]. Qed.
Lemma intercept_connect_keeps b e : keeps b (intercept_connect b e).2.
Proof. unfold intercept_connect. repeat case_match; [by apply keeps_same|done]. Qed.
Lemma notify_disconnect_keeps b id c : keeps b (notify_disconnect b id c).
Proof. unfold notify_disconnect. case_match; [by apply keeps_same|done]. Qed.
Lemma run_note_keeps b n : keeps b (run_note b n).
Proof. unfold run_note. case_match; [by apply keeps_same|done]. Qed.

Lemma subscribe_one_keeps b c h s : keeps b (subscribe_one b c h s).1.
Proof.
  unfold subscribe_one. do 2 (case_match; [done|]). destruct (AllowSubscribe _ _ _) as [ok l]. cbn zeta.
  assert (keeps b (set_rl b l)) as Hk1 by by apply keeps_same. case_match; [done|].
  match goal with |- context [intercept_subscribe ?b1 ?e] =>
    pose proof (intercept_subscribe_keeps b1 e) as Hk2; destruct (intercept_subscribe b1 e) as [[e'|] b2] end;
    cbn in Hk2 |- *; [|by etransitivity].
  etransitivity; [|apply broadcast_keeps]. etransitivity; [exact Hk1|]. etransitivity; [exact Hk2|].
  case_match; by apply keeps_same.
Qed.

Lemma subscribe_all_keeps c h subs : ∀ b, keeps b (subscribe_all b c h subs).1.
Proof.
  induction subs as [|s subs IH]; intros b; cbn [subscribe_all]; [done|].
  pose proof (subscribe_one_keeps b c h s) as Hk. destruct (subscribe_one b c h s) as [b1 rc].
  specialize (IH b1). destruct (subscribe_all b1 c h subs) as [b2 rcs]. cbn in *. by transitivity b1.
Qed.

Lemma send_loop_ok {A} (f : Broker → A → list Z) id l : ∀ b, open b id →
  ∃ b', fold_res (λ b m, send b id (f b m)) b l = Ok b' ∧ keeps b b'.
Proof.
  intros b Ho. apply (fold_res_keeps _ (λ _ b, open b id)).
  - intros _ ??. apply keeps_open.
  - intros a b0 Ho'. by apply send_ok.
  - by apply Forall_true.
Qed.

Lemma handleSubscribe_ok b id data : Forall byte_ok data → open b id →
  ∃ b', handleSubscribe b id data = Ok b' ∧ keeps b b'.
Proof.
  intros Hd Ho. pose proof Ho as (c & Hc & _). unfold handleSubscribe, get_client. rewrite Hc.
  cbn [mbind res_bind]. destruct (DecodeSubscribePacket_safe data (c_protocolVersion c) Hd) as [S1 S2].
  destruct (DecodeSubscribePacket data _) as [pkt| | |]; [|by exists b|done|done]. cbn zeta.
  set (h := bool_decide _). pose proof (subscribe_all_keeps c h (sub_Subscriptions pkt) b) as Hk1.
  destruct (subscribe_all b c h _) as [b1 rcs]. cbn [fst] in Hk1. set (b2 := set_sessions b1 _).
  assert (keeps b b2) as Hk2 by (transitivity b1; [done|by apply keeps_same]).
  run_send; [by eapply keeps_open|].
  assert (keeps b b') as Hk3 by (by transitivity b2).
  destruct (fold_res_keeps (λ b s, send_retained b id s) (λ _ b, open b id) (sub_Subscriptions pkt)) with b'
    as (b4 & -> & Hk4).
  - intros _ ??. apply keeps_open.
  - intros s b0 Ho'. unfold send_retained. by apply (send_loop_ok (λ _ m, _)).
  - apply Forall_true. intros _. by eapply keeps_open.
  - exists b4. split; [done|]. by transitivity b'.
Qed.

Lemma unsubscribe_one_keeps b c h f : keeps b (unsubscribe_one b c h f).
Proof.
  unfold unsubscribe_one.
  match goal with |- context [intercept_unsubscribe ?b1 ?e] =>
    pose proof (intercept_unsubscribe_keeps b1 e) as Hk2; destruct (intercept_unsubscribe b1 e) as [[e'|] b2] end;
    cbn in Hk2 |- *; [|done].
  etransitivity; [exact Hk2|]. set (b3 := broadcast _ _). assert (keeps b2 b3) as Hk3.
  { etransitivity; [|apply broadcast_keeps]. by apply keeps_same. }
  case_match; [|done]. transitivity b3; [done|]. by apply keeps_same.
Qed.

Lemma handleUnsubscribe_ok b id data : Forall byte_ok data → open b id →
  ∃ b', handleUnsubscribe b id data = Ok b' ∧ keeps b b'.
Proof.
  intros Hd Ho. pose proof Ho as (c & Hc & _). unfold handleUnsubscribe, get_client. rewrite Hc.
  cbn [mbind res_bind]. destruct (DecodeUnsubscribePacket_safe data (c_protocolVersion c) Hd) as [S1 S2].
  destruct (DecodeUnsubscribePacket data _) as [pkt| | |]; [|by exists b|done|done]. cbn zeta.
  set (b1 := foldl _ b _). assert (keeps b b1) as Hk1.
  { apply foldl_keeps. intros. apply unsubscribe_one_keeps. }
  set (b2 := set_sessions b1 _).
  assert (keeps b b2) as Hk2 by (transitivity b1; [done|by apply keeps_same]).
  run_send; [by eapply keeps_open|]. eexists. split; [done|]. by transitivity b2.
Qed.

Lemma handleDisconnect_ok b id data : Forall byte_ok data → open b id →
  ∃ b', handleDisconnect b id data = Ok b' ∧ keeps b b'.
Proof.
  intros Hd (c & Hc & Ho). unfold handleDisconnect, get_client. rewrite Hc. cbn [mbind res_bind]. cbn zeta.
  set (b1 := on_wills _ _). assert (keeps b b1) as Hk1.
  { etransitivity; [|apply on_wills_keeps]. by eapply keeps_set_client. }
  case_match; [|by exists b1]. destruct (DecodeDisconnectPacket_safe data Hd) as [S1 S2].
  destruct (DecodeDisconnectPacket data); [|by exists b1|done|done].
  case_match; [by exists b|by exists b1].
Qed.

Lemma handlePacket_ok now b id fh data : Forall byte_ok data → alive b → open b id →
  ∃ b' go, handlePacket now b id fh data = Ok (b', go) ∧ keeps b b'.
Proof.
  intros Hd Ha Ho. unfold handlePacket. cbn zeta.
  assert (∀ (r : res Broker) (x : bool), (∃ b', r = Ok b' ∧ keeps b b') →
    ∃ b' go, (b0 ← r; Ok (b0, x)) = Ok (b', go) ∧ keeps b b') as Hr.
  { intros r x (b' & -> & Hk). by exists b', x. }
  repeat (case_match; [apply Hr; first [by apply handlePublish_ok|by apply handlePuback_ok|by apply handlePubrec_ok|
    by apply handlePubrel_ok|by apply handleSubscribe_ok|by apply handleUnsubscribe_ok|
    by apply handleDisconnect_ok|by apply send_ok|idtac]|]); [|by eexists _, _].
  unfold handlePubcomp. destruct (ack_decode_safe "PUBCOMP packet too short" data 4 Hd) as [S1 S2].
  change (ack_decode _ data 4) with (DecodePubcompPacket data 4) in *.
  destruct (DecodePubcompPacket data 4); [by exists b|by exists b|done|done].
Qed.

(** ** Connecting and closing *)

(** Every registration names an existing connection of that client id, which is not empty. *)
Definition registered_ok b : Prop :=
  map_Forall (λ cid id, cid ≠ "" ∧ ∃ c, conns b !! id = Some c ∧ c_clientID c = cid) (clients b).

Lemma keeps_registered b b' : keeps b b' → registered_ok b → registered_ok b'.
Proof.
  intros [Hc Hk] Hr. unfold registered_ok. rewrite Hc. eapply map_Forall_impl; [exact Hr|].
  intros cid id (Hne & c & Hid & Hcid). split; [done|]. specialize (Hk id). rewrite Hid in Hk.
  destruct (conns b' !! id) as [c'|] eqn:E; [|done]. exists c'. split; [done|]. intuition congruence.
Qed.

Definition inv b : Prop := alive b ∧ registered_ok b.

Lemma keeps_inv b b' : keeps b b' → inv b → inv b'.
Proof. intros Hk [??]. split; [by eapply keeps_alive|by eapply keeps_registered]. Qed.

Lemma inv_sub b m : inv b → m ⊆ clients b → inv (set_clients b m).
Proof.
  intros [Ha Hr] Hm. split; intros cid id Hid; cbn in *; [apply (Ha cid id)|apply (Hr cid id)];
    by eapply lookup_weaken.
Qed.

Lemma sendDisconnectAndClose_ok b id rc : open b id →
  ∃ b', sendDisconnectAndClose b id rc = Ok b' ∧ keeps b b'.
Proof.
  intros (c & Hc & Ho). unfold sendDisconnectAndClose, get_client. rewrite Hc. cbn [mbind res_bind].
  case_match.
  - destruct (client_send_ok c (DisconnectPacket_Encode {| dis_ReasonCode := rc; dis_Properties := None;
      dis_ProtocolVersion := 5 |}) Ho) as (c' & -> & Ho' & Hi). cbn [mbind res_bind].
    eexists. split; [done|]. eapply keeps_set_client; [done|cbn; congruence|done].
  - cbn [mbind res_bind]. eexists. split; [done|]. by eapply keeps_set_client.
Qed.

Lemma disconnectExisting_ok b cid : inv b →
  ∃ b', disconnectExisting b cid = Ok b' ∧ inv b' ∧ clients b' = delete cid (clients b) ∧
        (∀ id, open b id → open b' id) ∧
        ∀ id, clients b !! cid ≠ Some id → conns b' !! id = conns b !! id.
Proof.
  intros Hinv. unfold disconnectExisting. destruct (clients b !! cid) as [id|] eqn:E.
  - set (b1 := set_clients b _). assert (inv b1) as Hi1 by (apply inv_sub; [done|apply delete_subseteq]).
    destruct (sendDisconnectAndClose_ok b1 id 0x8E) as (b2 & Hb2 & Hk).
    { destruct Hinv as [Ha _]. by apply (Ha cid id). }
    exists b2. split; [done|]. split; [by eapply keeps_inv|]. split; [by destruct Hk as [-> _]|].
    split; [intros id' Ho; by eapply keeps_open|]. intros id' Hne.
    unfold sendDisconnectAndClose in Hb2. inv_ok. cbn. apply lookup_insert_ne. congruence.
  - exists b. rewrite delete_id by done. done.
Qed.

Lemma open_session_keeps b cid clean e : keeps b (open_session b cid clean e).1.
Proof. unfold open_session. repeat case_match; by apply keeps_same. Qed.

Lemma deliver_offline_ok now b id cid : open b id → ∃ b', deliver_offline now b id cid = Ok b' ∧ keeps b b'.
Proof.
  intros Ho. unfold deliver_offline.
  destruct (Dequeue_total now (offlineStore b) cid dequeue_count) as (msgs & os & ->); [done|].
  cbn [mbind res_bind]. set (b1 := set_offline b os). assert (keeps b b1) as Hk1 by by apply keeps_same.
  destruct (fold_res_keeps (λ b m, deliverMessage now b id (Offline.om_Topic m) (Offline.om_Payload m)
    (Offline.om_QoS m)) (λ _ b, open b id) msgs) with b1 as (b2 & -> & Hk2).
  - intros _ ??. apply keeps_open.
  - intros m b0 Ho'. by apply deliverMessage_ok.
  - apply Forall_true. intros _. by eapply keeps_open.
  - exists b2. split; [done|]. by transitivity b1.
Qed.

Lemma refuse_ok b id rc : open b id → ∃ b', refuse b id rc = Ok (b', false) ∧ keeps b b'.
Proof. intros Ho. unfold refuse. run_send; [done|]. by eexists. Qed.

Lemma register_inv b id c : inv b → open b id → conns b !! id = Some c → c_clientID c ≠ "" →
  inv (registerClient b id (c_clientID c)).
Proof.
  intros [Ha Hr] Ho Hc Hne. split; cbn.
  - apply map_Forall_insert_2; [done|]. exact Ha.
  - apply map_Forall_insert_2; [eauto|]. exact Hr.
Qed.

Lemma welcome_ok now b id c clean sp : inv b → open b id → conns b !! id = Some c → c_clientID c ≠ "" →
  ∃ b' go, welcome now b id c clean sp = Ok (b', go) ∧ inv b' ∧ open b' id ∧
           clients b' = <[c_clientID c := id]> (clients b).
Proof.
  intros Hinv Ho Hc Hne. unfold welcome. cbn zeta.
  pose proof (register_inv b id c Hinv Ho Hc Hne) as Hi1. set (b1 := registerClient b id (c_clientID c)) in *.
  pose proof (broadcast_keeps b1 (BroadcastConnect (c_clientID c))) as Hk1. set (b2 := broadcast b1 _) in *.
  assert (open b2 id) as Ho2 by (eapply keeps_open; [done|exact Ho]).
  assert (∀ b3, keeps b2 b3 → inv b3 ∧ open b3 id ∧ clients b3 = <[c_clientID c := id]> (clients b)) as Hfin.
  { intros b3 Hk3. assert (keeps b1 b3) as Hk13 by by transitivity b2.
    split; [by eapply keeps_inv|]. split; [by eapply keeps_open|]. by destruct Hk13 as [-> _]. }
  match goal with |- context [intercept_connect b2 ?e] =>
    pose proof (intercept_connect_keeps b2 e) as Hkc; destruct (intercept_connect b2 e) as [accepted b2'] end. cbn [snd] in Hkc.
  assert (open b2' id) as Ho2' by by eapply keeps_open.
  assert (∀ b3, keeps b2' b3 → inv b3 ∧ open b3 id ∧ clients b3 = <[c_clientID c := id]> (clients b)) as Hfin'
    by (intros b3 Hk3; apply Hfin; by transitivity b2'). clear Hfin.
  case_match; [|destruct (refuse_ok b2' id ConnackNotAuthorized Ho2') as (b3 & -> & Hk3); eauto].
  run_send; [done|]. destruct sp; [|by eexists _, _; split; [done|]; apply Hfin'].
  destruct (deliver_offline_ok now b' id (c_clientID c)) as (b4 & -> & Hk4); [by eapply keeps_open|].
  cbn [mbind res_bind]. eexists _, _. split; [done|]. apply Hfin'. by transitivity b'.
Qed.

(** Giving a connection its client id, before it is registered. *)
Lemma set_client_inv b id c c' : inv b → conns b !! id = Some c → c_clientID c = "" →
  c_sendClosed c' = c_sendClosed c → inv (set_client b id c').
Proof.
  intros [Ha Hr] Hc Hid Ho. assert (∀ cid i, clients b !! cid = Some i → i ≠ id) as Hne.
  { intros cid i Hi ->. destruct (Hr _ _ Hi) as (Hn & c0 & Hc0 & <-). rewrite Hc in Hc0. by simplify_eq. }
  split; intros cid i Hi; cbn in Hi.
  - destruct (Ha _ _ Hi) as (c0 & Hc0 & Ho0). exists c0. cbn. rewrite lookup_insert_ne; [done|].
    intros <-. by eapply Hne.
  - destruct (Hr _ _ Hi) as (Hn & c0 & Hc0 & Hi0). split; [done|]. exists c0. cbn.
    rewrite lookup_insert_ne; [done|]. intros <-. by eapply Hne.
Qed.

Lemma set_client_open b id c' : c_sendClosed c' = false → open (set_client b id c') id.
Proof. intros. exists c'. split; [apply lookup_insert_eq|done]. Qed.

Lemma set_client_open_other b id c' i : c_sendClosed c' = false → open b i → open (set_client b id c') i.
Proof.
  intros Ho (c & Hc & Ho'). destruct (decide (i = id)) as [->|]; [by apply set_client_open|].
  exists c. cbn. by rewrite lookup_insert_ne.
Qed.

Lemma open_session_conns b cid clean e : conns (open_session b cid clean e).1 = conns b.
Proof. unfold open_session. by repeat case_match. Qed.

Lemma accept_connect_ok now b id c pkt cid : inv b → conns b !! id = Some c → c_sendClosed c = false →
  c_clientID c = "" → cid ≠ "" →
  ∃ b' go, accept_connect now b id pkt cid = Ok (b', go) ∧ inv b' ∧ open b' id ∧
           clients b' = <[cid := id]> (clients b).
Proof.
  intros Hinv Hc Ho Hid Hne. unfold accept_connect, get_client. rewrite Hc. cbn [mbind res_bind].
  set (c1 := mkClient cid _ _ _ _ _ _ _ _ _ _).
  pose proof (set_client_inv b id c c1 Hinv Hc Hid eq_refl) as Hi0. set (b0 := set_client b id c1) in *.
  assert (open b0 id) as Ho0 by (by apply set_client_open).
  destruct (disconnectExisting_ok b0 cid Hi0) as (b1 & -> & Hi1 & Hc1 & Hop1 & Hsame). cbn [mbind res_bind].
  assert (conns b1 !! id = Some c1) as Hb1.
  { rewrite Hsame; [apply lookup_insert_eq|]. intros Hcl. cbn in Hcl. destruct Hinv as [_ Hr].
    destruct (Hr _ _ Hcl) as (_ & c0 & Hc0 & Hcid). rewrite Hc in Hc0. by simplify_eq. }
  pose proof (open_session_keeps b1 cid (con_CleanSession pkt) (expiry_of pkt)) as Hk2.
  pose proof (open_session_conns b1 cid (con_CleanSession pkt) (expiry_of pkt)) as Hn2.
  destruct (open_session b1 cid _ _) as [b2 sp]. cbn [fst] in Hk2, Hn2.
  assert (∀ b3 c3, keeps b2 b3 → conns b3 !! id = Some c3 → c_clientID c3 = cid →
    ∃ b' go, welcome now b3 id c3 (con_CleanSession pkt) sp = Ok (b', go) ∧ inv b' ∧ open b' id ∧
      clients b' = <[cid := id]> (clients b)) as Hw.
  { intros b3 c3 Hk3 Hc3 Hi3. assert (keeps b1 b3) as Hk13 by by transitivity b2.
    destruct (welcome_ok now b3 id c3 (con_CleanSession pkt) sp) as (b4 & go & Hb4 & Hi4 & Ho4 & Hcl4);
      [by eapply keeps_inv|by eapply keeps_open; [|apply Hop1]|done|congruence|].
    exists b4, go. split; [done|]. split; [done|]. split; [done|]. rewrite Hcl4, Hi3.
    destruct Hk13 as [-> _]. rewrite Hc1. cbn. by rewrite insert_delete_eq. }
  destruct (will_of pkt) as [w|]; cbn zeta.
  - set (c3 := c_set_will c1 (Some w)). apply Hw; [|unfold on_wills; case_match; apply lookup_insert_eq|done].
    etransitivity; [|apply on_wills_keeps]. eapply keeps_set_client; [by rewrite Hn2|done..].
  - apply Hw; [done|by rewrite Hn2|done].
Qed.

Lemma handleConnect_ok now b id c fh data : Forall byte_ok data → (∀ n, auto_id n ≠ "") →
  inv b → conns b !! id = Some c → c_sendClosed c = false → c_clientID c = "" →
  ∃ b' go, handleConnect now b id fh data = Ok (b', go) ∧ inv b' ∧ open b' id.
Proof.
  intros Hd Hauto Hinv Hc Ho Hid. assert (open b id) as Hop by by exists c.
  assert (∀ rc, ∃ b' go, refuse b id rc = Ok (b', go) ∧ inv b' ∧ open b' id) as Href.
  { intros rc. destruct (refuse_ok b id rc Hop) as (b' & -> & Hk). exists b', false.
    split; [done|]. split; [by eapply keeps_inv|by eapply keeps_open]. }
  unfold handleConnect. case_match; [by eexists _, _|].
  destruct (DecodeConnectPacket_safe data Hd) as [S1 S2].
  destruct (DecodeConnectPacket data) as [pkt| | |]; [|by eexists _, _|done|done].
  case_match; [done|]. case_match; [done|]. cbn zeta. case_match; [done|].
  destruct (accept_connect_ok now b id c pkt
    (if String.eqb (con_ClientID pkt) "" then auto_id id else con_ClientID pkt)) as (b' & go & -> & Hi & Hop' & _);
    [done..| |eauto].
  destruct (String.eqb_spec (con_ClientID pkt) ""); auto.
Qed.

Lemma publish_will_ok now b cid w : alive b → ∃ b', publish_will now b cid w = Ok b' ∧ keeps b b'.
Proof.
  intros Ha. unfold publish_will. cbn zeta. set (b1 := if Wills.w_Retain w then _ else b).
  assert (keeps b b1) as Hk1 by (unfold b1; case_match; [by apply keeps_same|done]).
  destruct (routeMessage_ok now b1 (Wills.w_Topic w) (Wills.w_Payload w) (Wills.w_QoS w) false false)
    as (b2 & -> & Hk2); [by eapply keeps_alive|].
  cbn [mbind res_bind]. eexists. split; [done|]. transitivity b1; [done|]. transitivity b2; [done|].
  apply on_wills_keeps.
Qed.

Lemma end_session_keeps now b cid : keeps b (end_session now b cid).
Proof.
  unfold end_session. case_match; [|done]. case_match; [|case_match; [done|by apply keeps_same]].
  set (b1 := match remote b with Some _ => _ | None => b end).
  assert (keeps b b1) as Hk1.
  { unfold b1. case_match; [|done]. apply foldl_keeps. intros. by apply keeps_same. }
  transitivity b1; [done|]. case_match; by apply keeps_same.
Qed.

(** The two halves of [close], one right after the other. *)
Definition close_client (now : Z) b (id : nat) : res Broker :=
  b ← close_begin b id; close_finish now b id.

Lemma close_client_ok now b id : inv b → open b id → ∃ b', close_client now b id = Ok b' ∧ inv b'.
Proof.
  intros Hinv (c & Hc & Ho). unfold close_client, close_begin, get_client. rewrite Hc. cbn [mbind res_bind].
  rewrite Ho. cbn [mbind res_bind]. unfold close_finish, get_client. cbn [set_client set_conns conns].
  rewrite lookup_insert_eq. cbn [mbind res_bind]. cbn zeta. cbn [c_close_send c_clientID c_will].
  set (b1 := set_client _ id _). set (cid := c_clientID c).
  assert (∀ i, i ≠ id → conns b1 !! i = conns b !! i) as Hsame.
  { intros i Hi. cbn. by rewrite !lookup_insert_ne. }
  assert (∀ m, m ⊆ clients b → (∀ x, m !! x ≠ Some id) → inv (set_clients b1 m)) as Hrest.
  { intros m Hm Hnot. destruct Hinv as [Ha Hr]. split; intros x i Hi; cbn in Hi;
      (assert (i ≠ id) by (intros ->; by apply (Hnot x)));
      pose proof (lookup_weaken _ _ _ _ Hi Hm) as Hi'.
    - destruct (Ha _ _ Hi') as (c' & Hc' & Ho'). exists c'. split; [|done].
      change (conns b1 !! i = Some c'). by rewrite Hsame.
    - destruct (Hr _ _ Hi') as (Hn & c' & Hc' & Hid'). split; [done|]. exists c'. split; [|done].
      change (conns b1 !! i = Some c'). by rewrite Hsame. }
  assert (∀ x, clients b !! x = Some id → x = cid) as Honly.
  { intros x Hx. destruct Hinv as [_ Hr]. destruct (Hr _ _ Hx) as (_ & c' & Hc' & <-).
    rewrite Hc in Hc'. by simplify_eq. }
  destruct (String.eqb_spec cid "") as [Hemp|Hne].
  - exists b1. split; [done|]. apply (Hrest (clients b)); [done|]. intros x Hx.
    pose proof (Honly x Hx) as ->. destruct Hinv as [_ Hr]. by destruct (Hr _ _ Hx).
  - set (b2 := unregisterClient b1 id cid). assert (inv b2) as Hi2.
    { unfold b2, unregisterClient. case_bool_decide as Hreg.
      - apply Hrest; [apply delete_subseteq|]. intros x Hx.
        destruct (decide (x = cid)) as [->|]; [by rewrite lookup_delete_eq in Hx|].
        rewrite lookup_delete_ne in Hx by done. by apply Honly in Hx.
      - apply (Hrest (clients b)); [done|]. intros x Hx. apply Hreg. rewrite <- (Honly x Hx). done. }
    pose proof (broadcast_keeps b2 (BroadcastDisconnect cid)) as Hk3. set (b3 := broadcast b2 _) in *.
    pose proof (notify_disconnect_keeps b3 id (c_close_send c)) as Hk3'. set (b3' := notify_disconnect b3 id _) in *.
    assert (∃ b4, match c_will c with Some w => publish_will now b3' cid w | None => Ok b3' end = Ok b4 ∧
      keeps b3' b4) as (b4 & -> & Hk4).
    { destruct (c_will c); [|by exists b3']. apply publish_will_ok.
      eapply keeps_alive; [exact Hk3'|]. eapply keeps_alive; [exact Hk3|]. apply Hi2. }
    cbn [mbind res_bind]. eexists. split; [done|]. eapply keeps_inv; [apply end_session_keeps|].
    eapply keeps_inv; [exact Hk4|]. eapply keeps_inv; [exact Hk3'|]. by eapply keeps_inv.
Qed.

(** ** Histories of the broker *)

(** What happens to a broker, one handler at a time.  An action on a connection that is not
    there, not open, or not in the right phase does nothing. *)
Inductive action :=
  | AAccept (id : nat)
  | AConnect (now : Z) (id : nat) (fh : FixedHeader) (data : list Z)
  | APacket (now : Z) (id : nat) (fh : FixedHeader) (data : list Z)
  | AClose (now : Z) (id : nat)
  | AWrite (id : nat)
  | AForward (now : Z) (topic : string) (payload : list Z) (qos : Z) (retain : bool)
  | ARemoteConnect (clientID : string)
  | ANodeLeft (now : Z) (clientID : string)
  | AReap (now : Z)
  | ACleanup (now : Z)
  | ANotify (n : nat)
  | ACluster (f : option remotes → option remotes).

Definition ready b (id : nat) (connected : bool) : bool :=
  match conns b !! id with
  | Some c => negb (c_sendClosed c) && Bool.eqb (negb (String.eqb (c_clientID c) "")) connected
  | None => false
  end.

(** One turn of the write loop. *)
Definition write_one b (id : nat) : Broker :=
  match conns b !! id with
  | Some c => match c_sendCh c with _ :: rest => set_client b id (c_set_send c rest) | [] => b end
  | None => b
  end.

(** [serve]: after a CONNECT that is refused, or a DISCONNECT, the client is closed. *)
Definition serve_step (now : Z) (id : nat) (r : res (Broker * bool)) : res Broker :=
  '(b, go) ← r; if (go : bool) then Ok b else close_client now b id.

Definition bstep b (a : action) : res Broker :=
  match a with
  | AAccept id => match conns b !! id with None => Ok (acceptConn b id) | Some _ => Ok b end
  | AConnect now id fh data =>
      if ready b id false then serve_step now id (handleConnect now b id fh data) else Ok b
  | APacket now id fh data =>
      if ready b id true then serve_step now id (handlePacket now b id fh data) else Ok b
  | AClose now id => match conns b !! id with
                     | Some c => if c_sendClosed c then Ok b else close_client now b id
                     | None => Ok b
                     end
  | AWrite id => Ok (write_one b id)
  | AForward now topic payload qos retain => onForward now b topic payload qos retain
  | ARemoteConnect cid => onRemoteConnect b cid
  | ANodeLeft now cid => willPublisher now b cid
  | AReap now => Ok (reap now b)
  | ACleanup now => Ok (set_dedup b (Delivery.cleanup now (dedupStore b)))
  | ANotify n => Ok (run_note b n)
  | ACluster f => Ok (set_remote b (f (remote b)))
  end.

Definition action_ok (a : action) : Prop :=
  match a with AConnect _ _ _ data | APacket _ _ _ data => Forall byte_ok data | _ => True end.

Lemma ready_open b id k : ready b id k = true →
  ∃ c, conns b !! id = Some c ∧ c_sendClosed c = false ∧ (k = false → c_clientID c = "").
Proof.
  unfold ready. destruct (conns b !! id) as [c|]; [|done]. intros [Ho He]%andb_true_iff.
  exists c. split; [done|]. split; [by apply negb_true_iff|]. intros ->.
  apply eqb_prop, negb_false_iff in He. by apply String.eqb_eq.
Qed.

Lemma serve_step_ok now id r : (∃ b' go, r = Ok (b', go) ∧ inv b' ∧ open b' id) →
  ∃ b', serve_step now id r = Ok b' ∧ inv b'.
Proof.
  intros (b' & go & -> & Hi & Ho). unfold serve_step. cbn [mbind res_bind].
  destruct go; [by exists b'|by apply close_client_ok].
Qed.

Lemma bstep_ok b a : (∀ n, auto_id n ≠ "") → inv b → action_ok a → ∃ b', bstep b a = Ok b' ∧ inv b'.
Proof.
  intros Hauto Hinv Ha. pose proof Hinv as [Hal _].
  assert (∀ r : res Broker, (∃ b', r = Ok b' ∧ keeps b b') → ∃ b', r = Ok b' ∧ inv b') as Hk.
  { intros r (b' & -> & Hk). exists b'. split; [done|]. by eapply keeps_inv. }
  destruct a as [id|now id fh data|now id fh data|now id|id|now topic payload qos retain|cid|now cid|now|now|n|f];
    cbn [bstep action_ok] in *.
  - destruct (conns b !! id) eqn:E; [by exists b|]. unfold acceptConn.
    destruct (AllowConnect (rl b)) as [ok l]. set (b1 := set_rl b l).
    assert (inv b1) as Hi1 by (eapply keeps_inv; [by apply keeps_same|done]).
    eexists. split; [done|]. case_match; [done|]. case_match; [done|].
    destruct Hi1 as [Ha1 Hr1]. assert (∀ x i, clients b1 !! x = Some i → i ≠ id) as Hne.
    { intros x i Hi ->. destruct (Ha1 _ _ Hi) as (c & Hc & _). cbn in Hc. congruence. }
    split; intros x i Hi; pose proof (Hne _ _ Hi).
    + destruct (Ha1 _ _ Hi) as (c & Hc & Ho). exists c. split; [|done]. cbn. by rewrite lookup_insert_ne.
    + destruct (Hr1 _ _ Hi) as (Hn & c & Hc & Hcid). split; [done|]. exists c. split; [|done].
      cbn. by rewrite lookup_insert_ne.
  - destruct (ready b id false) eqn:E; [|by exists b]. apply ready_open in E as (c & Hc & Ho & Hid).
    apply serve_step_ok. eapply handleConnect_ok; eauto.
  - destruct (ready b id true) eqn:E; [|by exists b]. apply ready_open in E as (c & Hc & Ho & _).
    apply serve_step_ok. assert (open b id) as Hop by by exists c.
    destruct (handlePacket_ok now b id fh data Ha Hal Hop) as (b' & go & -> & Hkp).
    exists b', go. split; [done|]. split; [by eapply keeps_inv|by eapply keeps_open].
  - destruct (conns b !! id) as [c|] eqn:E; [|by exists b]. destruct (c_sendClosed c) eqn:Ho; [by exists b|].
    apply close_client_ok; [done|]. by exists c.
  - apply Hk. eexists. split; [done|]. unfold write_one. destruct (conns b !! id) as [c|] eqn:E; [|done].
    case_match; [done|]. by eapply keeps_set_client.
  - apply Hk. by apply routeMessage_ok.
  - destruct (disconnectExisting_ok b cid Hinv) as (b' & Hb' & Hi & _). eauto.
  - unfold willPublisher. repeat case_match; try (by exists b). apply Hk.
    destruct (publish_will_ok now (set_wills b (Wills.MarkPublished w cid)) cid w0) as (b' & -> & Hk');
      [eapply keeps_alive; [by apply keeps_same|done]|].
    exists b'. split; [done|]. etransitivity; [|exact Hk']. by apply keeps_same.
  - apply Hk. eexists. split; [done|]. apply foldl_keeps. intros. by apply keeps_same.
  - apply Hk. eexists. split; [done|]. by apply keeps_same.
  - apply Hk. eexists. split; [done|]. apply run_note_keeps.
  - apply Hk. eexists. split; [done|]. by apply keeps_same.
Qed.

Lemma run_ok acts : (∀ n, auto_id n ≠ "") → Forall action_ok acts →
  ∀ b, inv b → ∃ b', fold_res bstep b acts = Ok b' ∧ inv b'.
Proof.
  intros Hauto. induction 1 as [|a acts Ha Hacts IH]; intros b Hi; cbn [fold_res]; [by exists b|].
  destruct (bstep_ok b a Hauto Hi Ha) as (b1 & -> & Hi1). cbn [mbind res_bind]. by apply IH.
Qed.

Lemma New_inv d l h : inv (New d l h).
Proof. split; apply map_Forall_empty. Qed.

(** ** Who gets a message *)

Lemma fold_res_app {A B} (f : B → A → res B) l1 l2 x y z :
  fold_res f x l1 = Ok y → fold_res f y l2 = Ok z → fold_res f x (l1 ++ l2) = Ok z.
Proof.
  revert x. induction l1 as [|a l1 IH]; intros x; cbn; [by intros [= <-]|].
  intros (w & -> & Hw)%bind_Ok Hz. cbn. by apply IH.
Qed.

Lemma fold_res_inv {A C} (f : Broker → A → res Broker) (g : Broker → C) l :
  (∀ b a b', f b a = Ok b' → g b' = g b) → ∀ b b', fold_res f b l = Ok b' → g b' = g b.
Proof.
  intros Hf. induction l as [|a l IH]; intros b b'; cbn [fold_res]; [by intros [= <-]|].
  intros (b1 & H1' & H2')%bind_Ok. apply IH in H2'. apply Hf in H1'. congruence.
Qed.

(** Delivering changes connections only. *)
Lemma deliver_one_frame {C} (g : Broker → C) now topic payload b d b' :
  (∀ b x, g (set_conns b x) = g b) → (∀ b h, g (set_hk b h) = g b) → deliver_one now topic payload b d = Ok b' → g b' = g b.
Proof.
  intros Hg Hh. destruct d as [[id cid] q]. unfold deliver_one, deliverMessage.
  destruct interceptors as [chain|]; [destruct (OnDelivery chain _ _) as [[e|] h]; cbn zeta|];
    intros; inv_ok; simplify_eq; unfold set_client; by rewrite ?Hg, ?Hh.
Qed.

Lemma forward_all_frame {C} (g : Broker → C) b topic payload qos retain :
  (∀ b o, g (emit b o) = g b) → g (forward_all b topic payload qos retain) = g b.
Proof.
  intros Hg. unfold forward_all. destruct (remote b) as [v|]; [|done].
  generalize (RemoteSubs_Match v topic). intros l. revert b. induction l as [|r l IH]; intros b; [done|].
  cbn [foldl]. by rewrite IH, Hg.
Qed.

Lemma enqueue_frame {C} (g : Broker → C) now topic payload ds :
  (∀ b os, g (set_offline b os) = g b) → ∀ b, g (foldl (enqueue_one now topic payload) b ds) = g b.
Proof.
  intros Hg. induction ds as [|[cid q] ds IH]; intros b; [done|]. cbn [foldl]. rewrite IH. apply Hg.
Qed.

Section Route.
Context (now : Z) (topic : string) (payload : list Z) (Hnone : interceptors = None).

Lemma deliver_all_exact ds : ∀ b, NoDup ds.*1.*1 → Forall (λ d, open b d.1.1) ds →
  ∃ b', fold_res (deliver_one now topic payload) b ds = Ok b' ∧
    (∀ id cid q c, (id, cid, q) ∈ ds → conns b !! id = Some c →
       ∃ c', client_deliver now c topic payload q = Ok c' ∧ conns b' !! id = Some c') ∧
    (∀ id, id ∉ ds.*1.*1 → conns b' !! id = conns b !! id).
Proof.
  induction ds as [|[[id cid] q] ds IH]; intros b Hnd Hop; cbn [fold_res fmap list_fmap fst] in *.
  { exists b. split; [done|]. split; [intros ???? Hx; by apply not_elem_of_nil in Hx|done]. }
  apply NoDup_cons in Hnd as [Hni Hnd]. apply Forall_cons in Hop as [Ho Hop].
  pose proof Ho as (c & Hc & Hoc). cbn [fst] in Hc.
  assert (deliver_one now topic payload b (id, cid, q) = deliverMessage now b id topic payload q) as ->
    by (unfold deliver_one; by rewrite Hnone).
  unfold deliverMessage, get_client. rewrite Hc. cbn [mbind res_bind].
  destruct (client_deliver_ok now c topic payload q Hoc) as (c' & Hd & Ho' & Hi). rewrite Hd. cbn [mbind res_bind].
  set (b1 := set_client b id c').
  destruct (IH b1 Hnd) as (b2 & -> & Hin & Hout).
  { eapply Forall_impl; [exact Hop|]. intros d Hod. cbn. by apply set_client_open_other. }
  exists b2. split; [done|]. split.
  - intros id0 cid0 q0 c0 [[= -> -> ->]|Hel]%elem_of_cons Hc0.
    + exists c'. rewrite Hc in Hc0. injection Hc0 as <-. split; [done|]. rewrite Hout by done.
      apply lookup_insert_eq.
    + eapply Hin; [done|]. cbn. rewrite lookup_insert_ne; [done|]. intros <-. apply Hni.
      apply list_elem_of_fmap. exists (id, cid0). split; [done|]. apply list_elem_of_fmap. by exists (id, cid0, q0).
  - intros id0 [Hne Hnot]%not_elem_of_cons. rewrite Hout by done. cbn. by rewrite lookup_insert_ne.
Qed.

(** The stores of the broker as the enqueue loop sees them. *)
Lemma offlineStore_set b os cid :
  Offline.queue_of (offlineStore (set_offline b os)) cid = Offline.queue_of os cid ∧
  same_config os (offlineStore (set_offline b os)).
Proof. unfold offlineStore. cbn. by case_match. Qed.

Definition offline_msg (qos : Z) : Offline.OfflineMessage := Offline.mkMsg topic payload qos 0 zeroTime zeroTime.

Lemma enqueued_ext (s s' : Offline.OfflineStore db) c m : same_config s s' →
  Offline.queue_of s' c = Offline.queue_of s c → enqueued s' now c m = enqueued s now c m.
Proof.
  intros (E1 & E2 & E3) Eq. unfold enqueued, Offline.set_expiry. by rewrite Eq, E1, E2, E3.
Qed.

Lemma enqueue_all_exact ds : ∀ b, NoDup ds.*1 →
  let b' := foldl (enqueue_one now topic payload) b ds in
  (∀ cid q, (cid, q) ∈ ds → Offline.queue_of (offlineStore b') cid =
                            enqueued (offlineStore b) now cid (offline_msg q)) ∧
  (∀ cid, cid ∉ ds.*1 → Offline.queue_of (offlineStore b') cid = Offline.queue_of (offlineStore b) cid) ∧
  conns b' = conns b ∧ clients b' = clients b.
Proof.
  induction ds as [|[cid q] ds IH]; intros b Hnd; cbn [foldl fmap list_fmap fst] in *.
  { split; [intros ?? Hx; by apply not_elem_of_nil in Hx|done]. }
  apply NoDup_cons in Hnd as [Hni Hnd]. unfold enqueue_one at 2 4 6 8.
  set (os := (Offline.Enqueue now (offlineStore b) cid _).2). set (b1 := set_offline b os).
  destruct (Enqueue_mem now (offlineStore b) cid (offline_msg q)) as [Hq Hcfg].
  change (Offline.Enqueue now (offlineStore b) cid (offline_msg q)).2 with os in *.
  assert (∀ c', Offline.queue_of (offlineStore b1) c' =
    if decide (c' = cid) then enqueued (offlineStore b) now cid (offline_msg q)
    else Offline.queue_of (offlineStore b) c') as Hb1.
  { intros c'. unfold b1. rewrite (proj1 (offlineStore_set b os c')). unfold Offline.queue_of at 1.
    rewrite Hq. apply queue_of_insert. }
  assert (same_config (offlineStore b) (offlineStore b1)) as Hcfg1.
  { unfold b1. destruct (offlineStore_set b os cid) as [_ (E1 & E2 & E3)].
    destruct Hcfg as (F1 & F2 & F3). unfold same_config. by rewrite E1, E2, E3. }
  destruct (IH b1 Hnd) as (I1 & I2 & I3 & I4). split_and!; [..|done|done].
  - intros c' q' [[= -> ->]|Hel]%elem_of_cons.
    + rewrite I2 by done. rewrite Hb1. by rewrite decide_True.
    + rewrite (I1 _ _ Hel). apply enqueued_ext; [done|]. rewrite Hb1, decide_False; [done|].
      intros ->. apply Hni. apply list_elem_of_fmap. by exists (cid, q').
  - intros c' [Hne Hnot]%not_elem_of_cons. rewrite I2 by done. rewrite Hb1. by rewrite decide_False.
Qed.

End Route.

(** The QoS with which a client's subscriptions match a topic: the entry of the map [best]
    that [Match] builds. *)
Definition matched b (topic cid : string) : option Z :=
  Subscriptions.match_best (map_to_list (Subscriptions.filters (subscriptions b))) topic !! cid.

Lemma matched_elem b topic cid q :
  matched b topic cid = Some q ↔ Subscriptions.mkMatch cid q ∈ Subscriptions.Match (subscriptions b) topic.
Proof. symmetry. apply Subscriptions.Match_elem. Qed.

Lemma effective_min q m : effective q m = Z.min q m.
Proof. unfold effective. case_match; lia. Qed.

Lemma online_NoDup b qos ms : registered_ok b → NoDup (Subscriptions.m_ClientID <$> ms) →
  NoDup (omap (online_target b qos) ms).*1.*1.
Proof.
  intros Hr. induction ms as [|m ms IH]; cbn [fmap list_fmap omap list_omap]; [constructor|].
  intros [Hn Hd]%NoDup_cons. specialize (IH Hd). unfold online_target at 1.
  destruct (clients b !! Subscriptions.m_ClientID m) as [id|] eqn:E; [|done]. cbn. constructor; [|done].
  intros ([id' cid'] & -> & ([[id2 cid2] q2] & [= -> ->] & Hin)%list_elem_of_fmap)%list_elem_of_fmap.
  apply list_elem_of_omap in Hin as (m' & Hm' & Ht). unfold online_target in Ht.
  destruct (clients b !! Subscriptions.m_ClientID m') as [id3|] eqn:E'; [|done]. injection Ht as <- <- <-.
  destruct (Hr _ _ E) as (_ & c & Hc & Hcid). destruct (Hr _ _ E') as (_ & c' & Hc' & Hcid').
  cbn in Hc. rewrite Hc in Hc'. injection Hc' as <-. apply Hn. rewrite <- Hcid, Hcid'. by apply list_elem_of_fmap_2.
Qed.

Lemma offline_NoDup b qos ms : NoDup (Subscriptions.m_ClientID <$> ms) →
  NoDup (omap (offline_target b qos) ms).*1.
Proof.
  induction ms as [|m ms IH]; cbn [fmap list_fmap omap list_omap]; [constructor|].
  intros [Hn Hd]%NoDup_cons. specialize (IH Hd).
  destruct (offline_target b qos m) as [[cid q]|] eqn:E; [|done]. cbn. constructor; [|done].
  assert (cid = Subscriptions.m_ClientID m) as -> by (unfold offline_target in E; repeat case_match; by simplify_eq).
  intros ([cid' q'] & Heq & Hin)%list_elem_of_fmap. cbn in Heq.
  apply list_elem_of_omap in Hin as (m' & Hm' & Ht).
  assert (cid' = Subscriptions.m_ClientID m') as Hc' by (unfold offline_target in Ht; repeat case_match; by simplify_eq).
  apply Hn. rewrite Heq, Hc'. by apply list_elem_of_fmap_2.
Qed.

(** The session under which an absent client's messages are kept. *)
Definition keeps_offline b (cid : string) : bool :=
  match sess b !! cid with Some s => negb (Sessions.ExpiryInterval s =? 0) | None => false end.

(** Whether a connection takes a message at a QoS: its window is not full, and neither is its channel. *)
Definition takes (c : Client) (qos : Z) : bool :=
  (negb (0 <? qos) || (Delivery.Inflight_Count (c_inflight c) <? Delivery.limit (c_inflight c))) && (length (c_sendCh c) <? 256)%nat.

(** The packet that a message becomes on a connection. *)
Definition message_for (c : Client) (topic : string) (payload : list Z) (qos : Z) : list Z :=
  publish_packet topic payload qos (if 0 <? qos then (Delivery.Next (c_packetIDs c)).1 else 0) false.

Lemma client_deliver_sends now c topic payload qos c' : client_deliver now c topic payload qos = Ok c' →
  c_sendCh c' = c_sendCh c ++ (if takes c qos then [message_for c topic payload qos] else []).
Proof.
  unfold client_deliver, takes, message_for, Delivery.Inflight_Add, Delivery.Inflight_Count, client_send.
  destruct (0 <? qos); cbn [negb orb andb].
  - destruct (Delivery.Next (c_packetIDs c)) as [pid ids]. cbn [c_set_ids c_inflight fst].
    rewrite (Z.ltb_antisym _ (Delivery.map_len _)). destruct (Delivery.limit (c_inflight c) <=? _); cbn [negb andb].
    + intros [= <-]. by rewrite app_nil_r.
    + cbn [c_set_inflight c_set_ids c_sendClosed c_sendCh]. destruct (c_sendClosed c); [done|].
      destruct (_ <? 256)%nat; intros [= <-]; cbn; by rewrite ?app_nil_r.
  - destruct (c_sendClosed c); [done|]. destruct (_ <? 256)%nat; intros [= <-]; cbn; by rewrite ?app_nil_r.
Qed.

(** From [b] to [b'] a message is handed once to every connected client with a matching subscription and
    queued once for every other client with one and a lasting session; no other connection and no other
    queue changes. *)
Record delivers (now : Z) b b' (topic : string) (payload : list Z) (qos : Z) : Prop := {
  dl_conns : ∀ cid id c, clients b !! cid = Some id → conns b !! id = Some c →
    match matched b topic cid with
    | Some q => ∃ c', client_deliver now c topic payload (Z.min qos q) = Ok c' ∧ conns b' !! id = Some c' ∧
        c_sendCh c' = c_sendCh c ++ (if takes c (Z.min qos q) then [message_for c topic payload (Z.min qos q)] else [])
    | None => conns b' !! id = Some c
    end;
  dl_others : ∀ id, (∀ cid, clients b !! cid ≠ Some id) → conns b' !! id = conns b !! id;
  dl_queues : ∀ cid, Offline.queue_of (offlineStore b') cid =
    match clients b !! cid, matched b topic cid with
    | None, Some q => if keeps_offline b cid
                      then enqueued (offlineStore b) now cid (offline_msg topic payload (Z.min qos q))
                      else Offline.queue_of (offlineStore b) cid
    | _, _ => Offline.queue_of (offlineStore b) cid
    end
}.

Lemma route_exact now b topic payload qos retain forwarded :
  interceptors = None → inv b →
  ∃ b', routeMessage now b topic payload qos retain forwarded = Ok b' ∧ delivers now b b' topic payload qos.
Proof.
  intros Hnone [Ha Hr]. unfold routeMessage. cbn zeta.
  pose proof (Subscriptions.Match_NoDup (subscriptions b) topic) as Hnd.
  set (ms := Subscriptions.Match (subscriptions b) topic) in *.
  destruct (deliver_all_exact now topic payload Hnone (omap (online_target b qos) ms) b)
    as (b1 & Hb1 & Hin & Hout); [by apply online_NoDup|by apply online_targets_open|].
  rewrite Hb1. cbn [mbind res_bind]. eexists. split; [done|].
  assert (offlineStore b1 = offlineStore b) as Hoff.
  { eapply (fold_res_inv _ offlineStore); [|exact Hb1]. intros b0 d b0'. by apply deliver_one_frame. }
  destruct (enqueue_all_exact now topic payload (omap (offline_target b qos) ms) b1) as (E1 & E2 & E3 & E4);
    [by apply offline_NoDup|].
  set (b2 := foldl (enqueue_one now topic payload) b1 _) in *. rewrite Hoff in E1, E2.
  set (b3 := if forwarded then b2 else _).
  assert (conns b3 = conns b2 ∧ offlineStore b3 = offlineStore b2) as [F1 F2].
  { unfold b3. destruct forwarded; [done|].
    split; [by apply (forward_all_frame conns)|by apply (forward_all_frame offlineStore)]. }
  assert (∀ cid, cid ∉ (omap (offline_target b qos) ms).*1 → Offline.queue_of (offlineStore b3) cid = Offline.queue_of (offlineStore b) cid) as Hkeep
    by (intros cid; rewrite F2; apply E2).
  constructor; [rewrite F1, E3..|].
  - intros cid id c Hcl Hc. destruct (matched b topic cid) as [q|] eqn:Em.
    + apply matched_elem in Em. rewrite <- effective_min. edestruct Hin as (c' & Hd & Hc'); [|done|exists c'; split; [exact Hd|];
        split; [exact Hc'|by apply (client_deliver_sends now)]].
      apply list_elem_of_omap. exists (Subscriptions.mkMatch cid q). split; [done|].
      unfold online_target. cbn. by rewrite Hcl.
    + rewrite Hout; [done|].
      intros ([id' cid'] & -> & ([[id2 cid2] q2] & [= -> ->] & Hel)%list_elem_of_fmap)%list_elem_of_fmap.
      apply list_elem_of_omap in Hel as ([cm qm] & Hm & Ht). unfold online_target in Ht. cbn in Ht.
      destruct (clients b !! cm) as [id3|] eqn:E'; [|done]. injection Ht as <- <- <-.
      destruct (Hr _ _ Hcl) as (_ & c1 & Hc1 & <-). destruct (Hr _ _ E') as (_ & c2 & Hc2 & <-).
      cbn in Hc1. rewrite Hc1 in Hc2. injection Hc2 as <-. apply matched_elem in Hm. congruence.
  - intros id Hid. apply Hout.
    intros ([id' cid'] & -> & ([[id2 cid2] q2] & [= -> ->] & Hel)%list_elem_of_fmap)%list_elem_of_fmap.
    apply list_elem_of_omap in Hel as ([cm qm] & Hm & Ht). unfold online_target in Ht. cbn in Ht.
    destruct (clients b !! cm) as [id3|] eqn:E'; [|done]. injection Ht as <- <- <-. by apply (Hid cm).
  - intros cid. destruct (clients b !! cid) as [id|] eqn:Hcl.
    { apply Hkeep. intros ([cid' q'] & -> & Hel)%list_elem_of_fmap. cbn in Hcl.
      apply list_elem_of_omap in Hel as ([cm qm] & Hm & Ht). unfold offline_target in Ht. cbn in Ht.
      destruct (clients b !! cm) eqn:Ecm; [done|]. repeat (case_match; try done). injection Ht as -> _. congruence. }
    destruct (matched b topic cid) as [q|] eqn:Em.
    + apply matched_elem in Em. destruct (keeps_offline b cid) eqn:Ek.
      * rewrite F2, <- effective_min. apply E1. apply list_elem_of_omap. exists (Subscriptions.mkMatch cid q).
        split; [done|]. unfold offline_target. cbn. rewrite Hcl. unfold Sessions.Get, keeps_offline in *. cbn.
        destruct (sess b !! cid); [|done]. by rewrite Ek.
      * apply Hkeep. intros ([cid' q'] & -> & Hel)%list_elem_of_fmap. cbn in Hcl, Ek.
        apply list_elem_of_omap in Hel as ([cm qm] & Hm & Ht). unfold offline_target in Ht. cbn in Ht.
        unfold keeps_offline in Ek. destruct (clients b !! cm); [done|]. unfold Sessions.Get in Ht. cbn in Ht.
        destruct (sess b !! cm) eqn:Es; [|done]. case_match; [|done]. injection Ht as -> _.
        rewrite Es in Ek. congruence.
    + apply Hkeep. intros ([cid' q'] & -> & Hel)%list_elem_of_fmap.
      apply list_elem_of_omap in Hel as ([cm qm] & Hm & Ht). unfold offline_target in Ht. cbn in Ht, Em.
      apply matched_elem in Hm. unfold Sessions.Get in Ht. cbn in Ht.
      repeat (case_match; try done). injection Ht as -> _. unfold matched in Hm. congruence.
Qed.

(** ** QoS 2 *)

Lemma routeMessage_dedup now b topic payload qos retain fwd b' :
  routeMessage now b topic payload qos retain fwd = Ok b' → dedupStore b' = dedupStore b.
Proof.
  unfold routeMessage. intros (b1 & H1' & [= <-])%bind_Ok.
  assert (dedupStore b1 = dedupStore b) as <-.
  { eapply (fold_res_inv _ dedupStore); [|exact H1']. intros b0 d b0'. by apply deliver_one_frame. }
  rewrite <- (enqueue_frame dedupStore now topic payload
    (omap (offline_target b qos) (Subscriptions.Match (subscriptions b) topic)) (λ _ _, eq_refl) b1).
  case_match; [done|]. by apply (forward_all_frame dedupStore).
Qed.

Lemma accept_publish_dedup now b c fh pkt b' :
  accept_publish now b c fh pkt = Ok b' → dedupStore b' = dedupStore b.
Proof.
  unfold accept_publish. case_match; [by intros [= <-]|].
  destruct (AllowPublish _ _ _ _) as [ok l]. case_match; [by intros [= <-]|]. cbn zeta.
  set (b2 := if Retain fh then _ else _). assert (dedupStore b2 = dedupStore b) as <- by (unfold b2; by case_match).
  destruct interceptors as [chain|]; [destruct (OnPublish chain _ _) as [[e|] h]; cbn zeta|]; intros Hx;
    [by apply routeMessage_dedup in Hx|by injection Hx as <-|by apply routeMessage_dedup in Hx].
Qed.

Lemma send_dedup b id data b' : send b id data = Ok b' → dedupStore b' = dedupStore b.
Proof. unfold send. intros. inv_ok. done. Qed.

Lemma set_dedup_id b : set_dedup b (dedupStore b) = b.
Proof. by destruct b. Qed.

(** After a QoS 2 message has been taken, its mark is in the dedup store. *)
Lemma handlePublish_marks now b id c fh data pkt b' :
  QoS fh = 2 → conns b !! id = Some c → DecodePublishPacket data 2 4 = Ok pkt →
  (Delivery.IsDuplicate now (dedupStore b) (c_clientID c) (pub_PacketID pkt)).1 = false →
  handlePublish now b id fh data = Ok b' →
  Delivery.entries (dedupStore b') !! Delivery.dedupKey (c_clientID c) (pub_PacketID pkt) =
    Some (now + Delivery.ttl (dedupStore b)).
Proof.
  intros Hq Hc Hd Hdup. unfold handlePublish. rewrite Hq, Hd.
  intros ([b1 go] & Hack & Hrest)%bind_Ok.
  unfold ack_publish in Hack. cbn [Z.eqb] in Hack. change (2 =? 1) with false in Hack.
  change (2 =? 2) with true in Hack. cbv iota in Hack. unfold get_client in Hack. rewrite Hc in Hack.
  cbn [mbind res_bind] in Hack.
  assert (Delivery.ttl (Delivery.IsDuplicate now (dedupStore b) (c_clientID c) (pub_PacketID pkt)).2 =
    Delivery.ttl (dedupStore b)) as Httl.
  { unfold Delivery.IsDuplicate. repeat case_match; done. }
  destruct (Delivery.IsDuplicate _ _ _ _) as [dup dd]. cbn in Hdup, Httl. subst dup.
  apply bind_Ok in Hack as (b2 & Hs & [= <- <-]). apply send_dedup in Hs. cbn in Hs.
  assert (dedupStore b' = dedupStore b2) as ->.
  { unfold get_client in Hrest. apply bind_Ok in Hrest as (c' & _ & Hx). by apply accept_publish_dedup in Hx. }
  rewrite Hs. cbn. rewrite lookup_insert_eq. by rewrite Httl.
Qed.

(** *** The mark stays *)

Lemma fold_res_dedup {A} (f : Broker → A → res Broker) l :
  (∀ b a b', f b a = Ok b' → dedupStore b' = dedupStore b) → ∀ b b', fold_res f b l = Ok b' → dedupStore b' = dedupStore b.
Proof. apply (fold_res_inv f dedupStore). Qed.

Lemma foldl_dedup {A} (f : Broker → A → Broker) l : (∀ b a, dedupStore (f b a) = dedupStore b) →
  ∀ b, dedupStore (foldl f b l) = dedupStore b.
Proof. intros Hf. induction l as [|a l IH]; intros b; [done|]. cbn. by rewrite IH, Hf. Qed.

Lemma on_wills_dedup b f : dedupStore (on_wills b f) = dedupStore b.
Proof. unfold on_wills. by case_match. Qed.
Lemma broadcast_dedup b o : dedupStore (broadcast b o) = dedupStore b.
Proof. unfold broadcast. by case_match. Qed.
Lemma close_conn_dedup b id rc b' : sendDisconnectAndClose b id rc = Ok b' → dedupStore b' = dedupStore b.
Proof. unfold sendDisconnectAndClose. intros. inv_ok. done. Qed.
Lemma disconnectExisting_dedup b cid b' : disconnectExisting b cid = Ok b' → dedupStore b' = dedupStore b.
Proof. unfold disconnectExisting. case_match; [|by intros [= <-]]. by intros ->%close_conn_dedup. Qed.
Lemma refuse_dedup b id rc b' go : refuse b id rc = Ok (b', go) → dedupStore b' = dedupStore b.
Proof. unfold refuse. intros (b1 & Hs & [= <- _])%bind_Ok. by eapply send_dedup. Qed.
Lemma deliverMessage_dedup now b id topic payload qos b' : deliverMessage now b id topic payload qos = Ok b' → dedupStore b' = dedupStore b.
Proof. unfold deliverMessage. intros. inv_ok. done. Qed.
Lemma publish_will_dedup now b cid w b' : publish_will now b cid w = Ok b' → dedupStore b' = dedupStore b.
Proof.
  unfold publish_will. intros (b1 & Hr & [= <-])%bind_Ok. rewrite on_wills_dedup. apply routeMessage_dedup in Hr. rewrite Hr. by case_match.
Qed.
Lemma open_session_dedup b cid clean e : dedupStore (open_session b cid clean e).1 = dedupStore b.
Proof. unfold open_session. repeat case_match; done. Qed.
Lemma intercept_connect_dedup b e : dedupStore (intercept_connect b e).2 = dedupStore b.
Proof. unfold intercept_connect. case_match; [|done]. by destruct (OnConnect _ _ _). Qed.
Lemma intercept_subscribe_dedup b e : dedupStore (intercept_subscribe b e).2 = dedupStore b.
Proof. unfold intercept_subscribe. case_match; [|done]. by destruct (OnSubscribe _ _ _). Qed.
Lemma intercept_unsubscribe_dedup b e : dedupStore (intercept_unsubscribe b e).2 = dedupStore b.
Proof. unfold intercept_unsubscribe. case_match; [|done]. by destruct (OnUnsubscribe _ _ _). Qed.

Lemma subscribe_one_dedup b c h s : dedupStore (subscribe_one b c h s).1 = dedupStore b.
Proof.
  unfold subscribe_one. repeat (case_match; [done|]). destruct (AllowSubscribe _ _ _) as [ok l]. case_match; [done|].
  pose proof (intercept_subscribe_dedup (set_rl b l)) as Hi. destruct (intercept_subscribe _ _) as [[e|] b1] eqn:E;
    specialize (Hi (Interceptors.mkSubscribe (c_clientID c) (TopicFilter s) (if 2 <? sub_QoS s then 2 else sub_QoS s))); rewrite E in Hi; cbn in Hi |- *; [|done].
  rewrite broadcast_dedup, <- Hi. by destruct h.
Qed.
Lemma subscribe_all_dedup c h subs : ∀ b, dedupStore (subscribe_all b c h subs).1 = dedupStore b.
Proof.
  induction subs as [|s subs IH]; intros b; [done|]. cbn. pose proof (subscribe_one_dedup b c h s) as Ho.
  destruct (subscribe_one b c h s) as [b1 rc]. specialize (IH b1). destruct (subscribe_all b1 c h subs) as [b2 rcs]. cbn in *. congruence.
Qed.
Lemma unsubscribe_one_dedup b c h f : dedupStore (unsubscribe_one b c h f) = dedupStore b.
Proof.
  unfold unsubscribe_one. pose proof (intercept_unsubscribe_dedup b (Interceptors.mkUnsubscribe (c_clientID c) f)) as Hi.
  destruct (intercept_unsubscribe _ _) as [[e|] b1]; cbn in Hi |- *; [|done]. destruct h; cbn; by rewrite broadcast_dedup.
Qed.

Lemma handleSubscribe_dedup b id data b' : handleSubscribe b id data = Ok b' → dedupStore b' = dedupStore b.
Proof.
  unfold handleSubscribe. intros (c & _ & Hx)%bind_Ok. destruct (DecodeSubscribePacket _ _) as [pkt| | |]; try done; [|by injection Hx as <-].
  cbn zeta in Hx. pose proof (subscribe_all_dedup c (bool_decide (is_Some (Sessions.Get (sessions b) (c_clientID c)))) (sub_Subscriptions pkt) b) as Ha.
  destruct (subscribe_all _ _ _ _) as [b1 rcs]. cbn in Ha. apply bind_Ok in Hx as (b2 & Hs & Hx). apply send_dedup in Hs.
  rewrite <- Ha. transitivity (dedupStore b2); [|done]. revert Hx. apply fold_res_dedup. intros b3 s b4. apply fold_res_dedup.
  intros b5 m b6. apply send_dedup.
Qed.
Lemma handleUnsubscribe_dedup b id data b' : handleUnsubscribe b id data = Ok b' → dedupStore b' = dedupStore b.
Proof.
  unfold handleUnsubscribe. intros (c & _ & Hx)%bind_Ok. destruct (DecodeUnsubscribePacket _ _) as [pkt| | |]; try done; [|by injection Hx as <-].
  cbn zeta in Hx. apply send_dedup in Hx. cbn in Hx. rewrite Hx. apply foldl_dedup. intros. apply unsubscribe_one_dedup.
Qed.
Lemma handleDisconnect_dedup b id data b' : handleDisconnect b id data = Ok b' → dedupStore b' = dedupStore b.
Proof.
  unfold handleDisconnect. intros (c & _ & Hx)%bind_Ok. cbn zeta in Hx.
  repeat (case_match; try done); injection Hx as <-; by rewrite ?on_wills_dedup.
Qed.

Lemma welcome_dedup now b id c clean sp b' go : welcome now b id c clean sp = Ok (b', go) → dedupStore b' = dedupStore b.
Proof.
  unfold welcome. cbn zeta. set (b1 := broadcast _ _). assert (dedupStore b1 = dedupStore b) as <- by (unfold b1; by rewrite broadcast_dedup).
  pose proof (intercept_connect_dedup b1 (Interceptors.mkConnect (c_clientID c) (c_username c) clean (remote_addr id))) as Hi.
  destruct (intercept_connect _ _) as [[] b2]; cbn in Hi; rewrite <- Hi; [|apply refuse_dedup].
  intros (b3 & Hs & (b4 & Hd & [= <- _])%bind_Ok)%bind_Ok. rewrite <- (send_dedup _ _ _ _ Hs). destruct sp; [|by injection Hd as <-].
  unfold deliver_offline in Hd. destruct (Offline.Dequeue _ _ _ _) as [[msgs os]| | |]; try done. cbn in Hd. apply fold_res_dedup in Hd; [done|].
  intros ??? Hm. by apply deliverMessage_dedup in Hm.
Qed.
Lemma accept_connect_dedup now b id pkt cid b' go : accept_connect now b id pkt cid = Ok (b', go) → dedupStore b' = dedupStore b.
Proof.
  unfold accept_connect. intros (c & _ & Hx)%bind_Ok. cbn zeta in Hx. apply bind_Ok in Hx as (b1 & Hd & Hx). apply disconnectExisting_dedup in Hd. cbn in Hd.
  pose proof (open_session_dedup b1 cid (con_CleanSession pkt) (expiry_of pkt)) as Ho. destruct (open_session _ _ _ _) as [b2 sp]. cbn in Ho.
  destruct (will_of pkt); apply welcome_dedup in Hx; rewrite ?on_wills_dedup in Hx; cbn in Hx; congruence.
Qed.
Lemma handleConnect_dedup now b id fh data b' go : handleConnect now b id fh data = Ok (b', go) → dedupStore b' = dedupStore b.
Proof.
  unfold handleConnect. case_match; [by intros [= <- _]|]. destruct (DecodeConnectPacket data); try done; [|by intros [= <- _]].
  repeat (case_match; [by intros ?%refuse_dedup|]). apply accept_connect_dedup.
Qed.

Lemma notify_dedup b id c : dedupStore (notify_disconnect b id c) = dedupStore b.
Proof. unfold notify_disconnect. by case_match. Qed.
Lemma end_session_dedup now b cid : dedupStore (end_session now b cid) = dedupStore b.
Proof.
  unfold end_session. destruct (Sessions.Get _ _) as [s|]; [|done]. case_match; [|by case_match]. cbn zeta. set (b1 := match remote b with Some _ => _ | None => _ end).
  assert (dedupStore b1 = dedupStore b) as <- by (unfold b1; case_match; [by apply foldl_dedup|done]). by case_match.
Qed.
Lemma close_client_dedup now b id b' : close_client now b id = Ok b' → dedupStore b' = dedupStore b.
Proof.
  unfold close_client, close_begin. intros (b1 & (c & _ & Hb)%bind_Ok & Hx)%bind_Ok.
  assert (dedupStore b1 = dedupStore b) as <- by (case_match; by injection Hb as <-).
  unfold close_finish in Hx. apply bind_Ok in Hx as (c1 & _ & Hx). cbn zeta in Hx. case_match; [by injection Hx as <-|].
  apply bind_Ok in Hx as (b2 & Hw & [= <-]). rewrite end_session_dedup. set (b3 := notify_disconnect _ _ _) in Hw.
  assert (dedupStore b3 = dedupStore b1) as <-.
  { unfold b3. rewrite notify_dedup, broadcast_dedup. unfold unregisterClient. by destruct (bool_decide _). }
  destruct (c_will c1); [by apply publish_will_dedup in Hw|by injection Hw as <-].
Qed.

(** A PUBREL for a packet id that the connection of a client sends. *)
Definition releases b (a : action) (cid : string) (pid : Z) : Prop :=
  match a with
  | APacket _ id fh data => ∃ c pkt, conns b !! id = Some c ∧ c_clientID c = cid ∧ PacketType fh = PUBREL ∧
      DecodePubrelPacket data 4 = Ok pkt ∧ ack_PacketID pkt = pid
  | _ => False
  end.
(** The clock when the action happens, where it reads it. *)
Definition action_time (a : action) : option Z :=
  match a with
  | AConnect now _ _ _ | APacket now _ _ _ | AClose now _ | AForward now _ _ _ _ | ANodeLeft now _ | AReap now | ACleanup now => Some now
  | _ => None
  end.

(** No action of the run releases the packet id, and all happen by a time. *)
Fixpoint unreleased b (acts : list action) (cid : string) (pid deadline : Z) : Prop :=
  match acts with
  | [] => True
  | a :: acts => ¬ releases b a cid pid ∧ (∀ t, action_time a = Some t → t ≤ deadline) ∧
      ∀ b', bstep b a = Ok b' → unreleased b' acts cid pid deadline
  end.

Notation mark b cid pid := (Delivery.entries (dedupStore b) !! Delivery.dedupKey cid pid).

Lemma handlePublish_keeps_mark now b id fh data b' cid pid e : handlePublish now b id fh data = Ok b' →
  now ≤ e → mark b cid pid = Some e → mark b' cid pid = Some e.
Proof.
  unfold handlePublish. destruct (DecodePublishPacket _ _ _) as [pkt| | |]; try done; [|by intros [= <-]].
  intros ([b1 go] & Ha & Hx)%bind_Ok Ht Hm.
  assert (dedupStore b' = dedupStore b1) as ->.
  { destruct go; [|by injection Hx as <-]. apply bind_Ok in Hx as (c & _ & Hx). by apply accept_publish_dedup in Hx. }
  unfold ack_publish in Ha. destruct (QoS fh =? 1); [apply bind_Ok in Ha as (b2 & Hs & [= <- _]); apply send_dedup in Hs; by rewrite Hs|].
  destruct (QoS fh =? 2); [|by injection Ha as <- _]. apply bind_Ok in Ha as (c & _ & Ha).
  unfold Delivery.IsDuplicate in Ha. destruct (decide (Delivery.dedupKey (c_clientID c) (pub_PacketID pkt) = Delivery.dedupKey cid pid)) as [Hk|Hk].
  - rewrite Hk, Hm in Ha. rewrite (proj2 (Z.ltb_ge _ _) Ht) in Ha. apply bind_Ok in Ha as (b2 & Hs & [= <- _]). apply send_dedup in Hs.
    by rewrite Hs.
  - assert (∀ dd, Delivery.entries dd !! Delivery.dedupKey cid pid = Some e →
      Delivery.entries (Delivery.MarkReceived now dd (c_clientID c) (pub_PacketID pkt)) !! Delivery.dedupKey cid pid = Some e) as Hmk
      by (intros dd Hdd; unfold Delivery.MarkReceived; cbn; by rewrite lookup_insert_ne).
    destruct (Delivery.entries (dedupStore b) !! Delivery.dedupKey (c_clientID c) (pub_PacketID pkt)) as [x|]; [destruct (x <? now)|];
      apply bind_Ok in Ha as (b2 & Hs & [= <- _]); apply send_dedup in Hs; rewrite Hs; cbn [set_dedup dedupStore];
      rewrite ?Hmk; try done. cbn. by rewrite lookup_delete_ne.
Qed.

Lemma bstep_keeps_mark b a b' cid pid e : bstep b a = Ok b' → ¬ releases b a cid pid → (∀ t, action_time a = Some t → t ≤ e) →
  mark b cid pid = Some e → mark b' cid pid = Some e.
Proof.
  intros Hs Hr Ht Hm. assert (dedupStore b' = dedupStore b → mark b' cid pid = Some e) as Hsame by (by intros ->).
  destruct a as [id|now id fh data|now id fh data|now id|id|now topic payload qos retain|c0|now c0|now|now|n|f]; cbn [bstep action_time] in *.
  - apply Hsame. case_match; injection Hs as <-; [done|]. unfold acceptConn. destruct (AllowConnect (rl b)). by repeat case_match.
  - apply Hsame. case_match; [|by injection Hs as <-]. apply bind_Ok in Hs as ([b1 go] & Hc & Hs). apply handleConnect_dedup in Hc. rewrite <- Hc.
    destruct go; [by injection Hs as <-|by apply close_client_dedup in Hs].
  - case_match; [|by injection Hs as <-]. apply bind_Ok in Hs as ([b1 go] & Hp & Hs).
    assert (mark b1 cid pid = Some e → mark b' cid pid = Some e) as Hcl.
    { destruct go; [by injection Hs as <-|]. apply close_client_dedup in Hs. by rewrite Hs. }
    apply Hcl. assert (dedupStore b1 = dedupStore b → mark b1 cid pid = Some e) as Hsame1 by (by intros ->).
    clear Hs Hcl Hsame. unfold handlePacket in Hp. cbv zeta in Hp.
    repeat (match type of Hp with (if ?x then _ else _) = _ => destruct x eqn:? end; [apply bind_Ok in Hp as (b2 & Hp & [= <- _])|]).
    + eapply handlePublish_keeps_mark; [done| |done]. by apply Ht.
    + apply Hsame1. unfold handlePuback in Hp. destruct (DecodePubackPacket _ _); try done; inv_ok; done.
    + apply Hsame1. unfold handlePubrec in Hp. destruct (DecodePubrecPacket _ _); try done; [|by injection Hp as <-].
      apply bind_Ok in Hp as (c & _ & Hp). by apply send_dedup in Hp.
    + unfold handlePubrel in Hp. destruct (DecodePubrelPacket data 4) as [pkt| | |] eqn:Ed; try done; [|by injection Hp as <-].
      apply bind_Ok in Hp as (c & Hc & Hp). apply send_dedup in Hp. rewrite Hp. cbn. rewrite lookup_delete_ne; [done|].
      intros [<- <-]%Delivery.dedupKey_inj. apply Hr. unfold get_client in Hc. destruct (conns b !! id) as [c'|] eqn:E; [|done]. injection Hc as ->.
      exists c, pkt. split_and!; [done..|by apply Z.eqb_eq|done|done].
    + apply Hsame1. unfold handlePubcomp in Hp. destruct (DecodePubcompPacket _ _); try done; by injection Hp as <-.
    + apply Hsame1. by apply handleSubscribe_dedup in Hp.
    + apply Hsame1. by apply handleUnsubscribe_dedup in Hp.
    + apply Hsame1. by apply send_dedup in Hp.
    + apply Hsame1. by apply handleDisconnect_dedup in Hp.
    + injection Hp as <- _. by apply Hsame1.
  - apply Hsame. repeat (case_match; [|by injection Hs as <-]). case_match; [by injection Hs as <-|]. by apply close_client_dedup in Hs.
  - apply Hsame. injection Hs as <-. unfold write_one. by repeat case_match.
  - apply Hsame. by apply routeMessage_dedup in Hs.
  - apply Hsame. by apply disconnectExisting_dedup in Hs.
  - apply Hsame. unfold willPublisher in Hs. repeat (case_match; try by injection Hs as <-). by apply publish_will_dedup in Hs.
  - apply Hsame. injection Hs as <-. unfold reap. by apply foldl_dedup.
  - injection Hs as <-. cbn. apply map_lookup_filter_Some. split; [done|]. cbn. specialize (Ht now eq_refl). lia.
  - apply Hsame. injection Hs as <-. unfold run_note. by case_match.
  - apply Hsame. by injection Hs as <-.
Qed.

Lemma run_keeps_mark cid pid e acts : ∀ b b', fold_res bstep b acts = Ok b' → unreleased b acts cid pid e →
  mark b cid pid = Some e → mark b' cid pid = Some e.
Proof.
  induction acts as [|a acts IH]; intros b b' Hr Hu Hm; [by injection Hr as <-|]. destruct Hu as (H1' & H2' & H3').
  cbn [fold_res] in Hr. apply bind_Ok in Hr as (b1 & Hs & Hr). eapply IH; [done|by apply H3'|]. by eapply bstep_keeps_mark.
Qed.

End Facts.

(** ** A concrete environment *)

Lemma ok_exists {A} (m : res A) (P : A → Prop) :
  match m with Ok a => P a | _ => False end → ∃ a, m = Ok a ∧ P a.
Proof. destruct m; [eauto|done..]. Qed.

#[local] Instance open_env : Env := {|
  Authenticate _ _ := true; Authorize _ _ _ := true; limiter := unit;
  AllowConnect l := (true, l); AllowPublish l _ _ _ := (true, l); AllowSubscribe l _ _ := (true, l);
  hooks := unit; interceptors := None; remotes := unit; RemoteSubs_Match _ _ := []; auto_id _ := "auto-0xc000010000"; remote_addr _ := ""
|}.

Definition fresh : Broker Storage.mem_db := New (Some empty_db) tt tt.

Definition connect_data (level : Z) (cid : string) (clean : bool) (expiry : option Z) : list Z :=
  connect_body {| con_ProtocolName := "MQTT"; con_ProtocolLevel := level; con_CleanSession := clean;
    con_KeepAlive := 60; con_ClientID := cid; con_WillFlag := false; con_WillQoS := 0; con_WillRetain := false;
    con_WillTopic := ""; con_WillPayload := []; con_UsernameFlag := false; con_PasswordFlag := false;
    con_Username := ""; con_Password := []; con_Properties :=
      Some (Props.set_SessionExpiryInterval expiry Props.emptyProps); con_WillProperties := None |}.
Definition head (t qos : Z) : FixedHeader :=
  {| PacketType := t; Dup := false; QoS := qos; Retain := false; RemainingLength := 0 |}.
Definition subscribe_data (v : Z) (filter : string) (qos : Z) : list Z :=
  subscribe_body v {| sub_PacketID := 1; sub_Subscriptions := [mkSub filter qos]; sub_Properties := None |}.
Definition publish_data (topic : string) (qos pid : Z) (payload : list Z) : list Z :=
  publish_body {| pub_Topic := topic; pub_PacketID := pid; pub_QoS := qos; pub_Dup := false; pub_Retain := false;
    pub_Payload := payload; pub_Properties := None; pub_ProtocolVersion := 4 |}.

(** Client [a] (connection 1) subscribes to [t]; client [b] (connection 2) is connected. *)
Definition two_clients : list action :=
  [AAccept 1; AConnect 0 1 (head CONNECT 0) (connect_data 4 "a" true None);
   APacket 0 1 (head SUBSCRIBE 0) (subscribe_data 4 "t" 2);
   AAccept 2; AConnect 0 2 (head CONNECT 0) (connect_data 4 "b" true None)].
Definition sample_broker : Broker Storage.mem_db :=
  match fold_res bstep fresh two_clients with Ok b => b | _ => fresh end.

Lemma bytes_decide (l : list Z) : forallb (λ z, (0 <=? z) && (z <? 256)) l = true → Forall byte_ok l.
Proof.
  rewrite forallb_forall, Forall_forall. intros Hl x Hx. unfold byte_ok.
  apply list_elem_of_In, Hl, andb_true_iff in Hx as [?%Z.leb_le ?%Z.ltb_lt]. lia.
Qed.

Lemma two_clients_ok : Forall action_ok two_clients.
Proof. repeat (constructor; [first [exact I|apply bytes_decide; by vm_compute]|]). constructor. Qed.

Lemma sample_inv : inv sample_broker.
Proof.
  assert (∀ n, @auto_id open_env n ≠ "") as Hauto by done.
  destruct (run_ok two_clients Hauto two_clients_ok fresh (New_inv _ _ _)) as (b & Hb & Hi).
  unfold sample_broker. by rewrite Hb.
Qed.

Definition conn_of (b : Broker Storage.mem_db) (id : nat) : Client :=
  match conns b !! id with Some c => c | None => newClient fresh end.

Lemma conn_of_lookup (b : Broker Storage.mem_db) (id : nat) :
  match conns b !! id with Some _ => true | None => false end = true → conns b !! id = Some (conn_of b id).
Proof. unfold conn_of. by destruct (conns b !! id). Qed.

(** ** Properties *)

(** C5: taken one handler at a time, no sequence of events can crash the broker: whatever bytes clients
    send, in whatever order they connect, take over each other's sessions, publish, subscribe and
    disconnect, every handler returns, and every registered connection stays one that can be written to.
    The handlers of different connections run whole, one after the other, and so does the closing of a
    connection: the claim says nothing of handlers that overlap. Two crashes are known when they do, and
    are shown below: a message for a connection that is being closed, and a subscription that is written
    to the session of a client while a connection that resumes it reads its subscriptions. *)
Theorem broker_never_panics {db} `{Storage.Store db} `{Env} `{Offline.MessageJSON} `{Sessions.SessionJSON}
    `{Retain.RetainedJSON} `{Wills.WillJSON} (d : option db) (l : limiter) (h : hooks) (acts : list action) :
  (∀ n, auto_id n ≠ "") →
  Forall action_ok acts →
  ∃ b, fold_res bstep (New d l h) acts = Ok b ∧ alive b ∧ registered_ok b.
Proof. intros Hauto Hacts. apply run_ok; [done..|]. apply New_inv. Qed.

Lemma broker_never_panics_witness :
  ∃ b : Broker Storage.mem_db, fold_res bstep fresh two_clients = Ok b ∧ alive b ∧ registered_ok b.
Proof. apply (broker_never_panics (Some empty_db) (tt : @limiter open_env) (tt : @hooks open_env) two_clients); [done|apply two_clients_ok]. Defined.

(** The wait inside [close] is a window for a crash: a client is still registered after its
    channel has been closed, and a message published to it in that window is a send on a closed
    channel, which panics and stops the whole broker. *)
Lemma close_race_panics :
  ∃ b, close_begin sample_broker 1 = Ok b ∧
    handlePublish 0 b 2 (head PUBLISH 0) (publish_data "t" 0 0 [104; 105]) = Panic.
Proof. apply ok_exists. vm_compute. reflexivity. Qed.

(** *** The resume loop beside another handler

    [handleConnect] ranges over [existing.Subscriptions] without the lock of the session, while the handler
    of the connection that is taken over may still add to that map. The runtime stops the program when an
    iteration goes on while the map is written. The loop of [open_session] and one writer, step by step:
    the iterator takes the next filter, or the other handler begins or ends its write. *)
Inductive resume_step := RNext | WBegin (filter : string) (qos : Z) | WEnd.
Record resuming := mkResuming {
  rz_client : string;
  rz_index : Subscriptions.SubscriptionIndex;
  rz_todo : list (string * Z);
  rz_session : Sessions.Session;
  rz_writing : option (string * Z)
}.
Definition rstep (r : resuming) (s : resume_step) : res resuming :=
  match s with
  | RNext =>
      match rz_writing r with
      | Some _ => Panic
      | None =>
          match rz_todo r with
          | fq :: todo => Ok (mkResuming (rz_client r) (Subscriptions.Add (rz_index r) (rz_client r) fq.1 fq.2) todo (rz_session r) None)
          | [] => Ok r
          end
      end
  | WBegin f q => Ok (mkResuming (rz_client r) (rz_index r) (rz_todo r) (rz_session r) (Some (f, q)))
  | WEnd =>
      match rz_writing r with
      | Some (f, q) => Ok (mkResuming (rz_client r) (rz_index r) (rz_todo r) (Sessions.SetSubscription (rz_session r) f q) None)
      | None => Ok r
      end
  end.
Definition resume_start (idx : Subscriptions.SubscriptionIndex) (cid : string) (s : Sessions.Session) : resuming :=
  mkResuming cid idx (map_to_list (Sessions.Subscriptions s)) s None.

(** Alone, the loop does what [open_session] says. *)
Lemma resume_alone {db} `{Storage.Store db} `{Env} (b : Broker db) (cid : string) (s : Sessions.Session) (e : Z)
    `{Sessions.SessionJSON} : sess b !! cid = Some s →
  ∃ r, fold_res rstep (resume_start (subscriptions b) cid s) (repeat RNext (size (Sessions.Subscriptions s))) = Ok r ∧
    rz_todo r = [] ∧ rz_index r = subscriptions (open_session b cid false e).1.
Proof.
  intros Hs. unfold open_session, Sessions.Get. cbn. rewrite Hs. cbn. unfold resume_start.
  rewrite <- length_map_to_list. generalize (map_to_list (Sessions.Subscriptions s)) (subscriptions b). intros l.
  induction l as [|fq l IH]; intros idx; [by eexists|]. cbn. apply IH.
Qed.

(** When the other handler writes in between, the program stops, whatever the session holds. *)
Lemma resume_race_fatal idx cid s f q : fold_res rstep (resume_start idx cid s) [WBegin f q; RNext] = Panic.
Proof. done. Qed.

(** C3: routing a message is exact, in a broker without interceptors (their hooks may change or stop each
    delivery): every connected client with a matching subscription is handed it once, at the smaller of
    the publisher's QoS and its best matching QoS, where one packet goes into its channel, unless its
    window of unacknowledged messages (for a QoS above 0) or its channel is full, when the message is
    dropped for that client; and no other connection is touched. Every absent client with a matching
    subscription and a session that outlives its connection gets it once in its offline queue (as
    [Enqueue] queues it), and no other queue changes, nor that of any connected client. *)
Theorem routeMessage_exact {db} `{Storage.Store db} `{Env} `{Offline.MessageJSON} `{Sessions.SessionJSON}
    `{Retain.RetainedJSON} `{Wills.WillJSON} (now : Z) (b : Broker db) (topic : string) (payload : list Z)
    (qos : Z) (retain forwarded : bool) :
  interceptors = None → alive b → registered_ok b →
  ∃ b', routeMessage now b topic payload qos retain forwarded = Ok b' ∧
    (∀ cid id c, clients b !! cid = Some id → conns b !! id = Some c →
       match matched b topic cid with
       | Some q => ∃ c', client_deliver now c topic payload (Z.min qos q) = Ok c' ∧ conns b' !! id = Some c' ∧
           c_sendCh c' = c_sendCh c ++ (if takes c (Z.min qos q) then [message_for c topic payload (Z.min qos q)] else [])
       | None => conns b' !! id = Some c
       end) ∧
    (∀ id, (∀ cid, clients b !! cid ≠ Some id) → conns b' !! id = conns b !! id) ∧
    (∀ cid, Offline.queue_of (offlineStore b') cid =
       match clients b !! cid, matched b topic cid with
       | None, Some q => if keeps_offline b cid
                         then enqueued (offlineStore b) now cid (offline_msg topic payload (Z.min qos q))
                         else Offline.queue_of (offlineStore b) cid
       | _, _ => Offline.queue_of (offlineStore b) cid
       end).
Proof. intros Hn Ha Hr. destruct (route_exact now b topic payload qos retain forwarded) as (b' & Hb' & []); [done..|]. by exists b'. Qed.

Lemma routeMessage_exact_witness :
  ∃ b', routeMessage 5 sample_broker "t" [104] 1 false false = Ok b' ∧
    ∃ c c', conns sample_broker !! 1%nat = Some c ∧ conns b' !! 1%nat = Some c' ∧ matched sample_broker "t" "a" = Some 2 ∧
      c_sendCh c' = c_sendCh c ++ [publish_packet "t" [104] 1 1 false].
Proof.
  destruct (routeMessage_exact 5 sample_broker "t" [104] 1 false false) as (b' & Hb' & Hon & _);
    [reflexivity|apply sample_inv|apply sample_inv|].
  exists b'. split; [exact Hb'|].
  assert (conns sample_broker !! 1%nat = Some (conn_of sample_broker 1)) as Hc by (apply conn_of_lookup; vm_compute; reflexivity).
  assert (takes (conn_of sample_broker 1) 1 = true) as Ht by (vm_compute; reflexivity).
  assert (message_for (conn_of sample_broker 1) "t" [104] 1 = publish_packet "t" [104] 1 1 false) as Hp by (vm_compute; reflexivity).
  assert (matched sample_broker "t" "a" = Some 2) as Hm by by vm_compute.
  specialize (Hon "a" 1%nat _ ltac:(by vm_compute) Hc). rewrite Hm in Hon.
  destruct Hon as (c' & _ & Hc' & Hs). exists (conn_of sample_broker 1), c'. change (Z.min 1 2) with 1 in Hs. rewrite Ht, Hp in Hs.
  split; [exact Hc|]. split; [exact Hc'|]. split; [exact Hm|exact Hs].
Defined.

(** C6: a QoS 2 publish is routed once: once a packet id has been taken, the same id sent again by the same
    client, on this connection or on a later one, is answered with PUBREC and has no other effect. In
    between anything may have happened, one handler at a time: other clients and the client itself may
    have connected, published (also with this id), subscribed, acknowledged and disconnected, the
    duplicates may have been cleaned up, messages forwarded and sessions ended; only the client has not
    released the id with a PUBREL, and the time to live has not passed since the first copy. *)
Theorem qos2_duplicate_only_acked {db} `{Storage.Store db} `{Env} `{Offline.MessageJSON} `{Sessions.SessionJSON}
    `{Retain.RetainedJSON} `{Wills.WillJSON} (now now' : Z) (b b1 b2 : Broker db) (id id' : nat) (c c2 : Client)
    (fh fh' : FixedHeader) (data data' : list Z) (pkt pkt' : PublishPacket) (acts : list action) :
  QoS fh = 2 → QoS fh' = 2 →
  DecodePublishPacket data 2 4 = Ok pkt → DecodePublishPacket data' 2 4 = Ok pkt' →
  pub_PacketID pkt' = pub_PacketID pkt →
  conns b !! id = Some c → conns b2 !! id' = Some c2 → c_clientID c2 = c_clientID c →
  (Delivery.IsDuplicate now (dedupStore b) (c_clientID c) (pub_PacketID pkt)).1 = false →
  handlePublish now b id fh data = Ok b1 →
  fold_res bstep b1 acts = Ok b2 →
  unreleased b1 acts (c_clientID c) (pub_PacketID pkt) (now + Delivery.ttl (dedupStore b)) →
  now' ≤ now + Delivery.ttl (dedupStore b) →
  handlePublish now' b2 id' fh' data' = send b2 id' (pubrec_packet (pub_PacketID pkt)).
Proof.
  intros Hq Hq' Hd Hd' Hpid Hc Hc2 Hcid Hdup Hh Hrun Hu Ht.
  pose proof (handlePublish_marks now b id c fh data pkt b1 Hq Hc Hd Hdup Hh) as Hmark.
  eapply run_keeps_mark in Hmark; [|done|done].
  unfold handlePublish. rewrite Hq', Hd', Hpid. unfold ack_publish.
  change (2 =? 1) with false. change (2 =? 2) with true. cbv iota.
  unfold get_client. rewrite Hc2. cbn [mbind res_bind]. unfold Delivery.IsDuplicate.
  rewrite Hcid, Hmark. rewrite (proj2 (Z.ltb_ge _ _) Ht). rewrite set_dedup_id.
  by destruct (send b2 id' (pubrec_packet (pub_PacketID pkt))).
Qed.

Definition pkt2 : PublishPacket :=
  {| pub_Topic := "t"; pub_PacketID := 9; pub_QoS := 2; pub_Dup := false; pub_Retain := false;
     pub_Payload := [104]; pub_Properties := None; pub_ProtocolVersion := 4 |}.
Definition after_first : Broker Storage.mem_db :=
  match handlePublish 5 sample_broker 2 (head PUBLISH 2) (publish_data "t" 2 9 [104]) with Ok b => b | _ => fresh end.

Lemma after_first_ok :
  handlePublish 5 sample_broker 2 (head PUBLISH 2) (publish_data "t" 2 9 [104]) = Ok after_first.
Proof.
  assert (is_ok (handlePublish 5 sample_broker 2 (head PUBLISH 2) (publish_data "t" 2 9 [104])) = true) as Hok
    by (vm_compute; reflexivity).
  unfold after_first. by destruct (handlePublish _ _ _ _ _).
Qed.

(** In between the other client publishes with the same packet id, and the duplicates are cleaned up. *)
Definition meanwhile : list action := [APacket 6 1 (head PUBLISH 2) (publish_data "t" 2 9 [105]); ACleanup 7; AWrite 2].
Definition later : Broker Storage.mem_db := match fold_res bstep after_first meanwhile with Ok b => b | _ => fresh end.
Lemma later_ok : fold_res bstep after_first meanwhile = Ok later.
Proof.
  assert (is_ok (fold_res bstep after_first meanwhile) = true) as Hok by (vm_compute; reflexivity).
  unfold later. by destruct (fold_res bstep after_first meanwhile).
Qed.
Lemma meanwhile_unreleased (b : Broker Storage.mem_db) : unreleased b meanwhile "b" 9 (5 + 180 * Second).
Proof.
  cbn [unreleased meanwhile action_time releases]. assert (7 ≤ 5 + 180 * Second) by (unfold Second; lia).
  split_and!; [by intros (c & pkt & _ & _ & ? & _)|intros t [= <-]; lia|intros b' _].
  split_and!; [tauto|intros t [= <-]; lia|intros b'' _]. split_and!; [tauto|done|done].
Qed.

Lemma qos2_duplicate_only_acked_witness :
  handlePublish 8 later 2 (head PUBLISH 2) (publish_data "t" 2 9 [104]) = send later 2 (pubrec_packet 9).
Proof.
  assert (conns sample_broker !! 2%nat = Some (conn_of sample_broker 2)) as Hc
    by (apply conn_of_lookup; vm_compute; reflexivity).
  assert (conns later !! 2%nat = Some (conn_of later 2)) as Hc2
    by (apply conn_of_lookup; vm_compute; reflexivity).
  assert (c_clientID (conn_of sample_broker 2) = "b") as Hid by (vm_compute; reflexivity).
  assert (c_clientID (conn_of later 2) = "b") as Hid2 by (vm_compute; reflexivity).
  assert (Delivery.ttl (dedupStore sample_broker) = 180 * Second) as Httl by (vm_compute; reflexivity).
  apply (qos2_duplicate_only_acked 5 8 sample_broker after_first later 2 2 (conn_of sample_broker 2)
    (conn_of later 2) (head PUBLISH 2) (head PUBLISH 2) (publish_data "t" 2 9 [104])
    (publish_data "t" 2 9 [104]) pkt2 pkt2 meanwhile); [reflexivity..|exact Hc|exact Hc2| | |exact after_first_ok|exact later_ok| |].
  - by rewrite Hid, Hid2.
  - rewrite Hid. vm_compute. reflexivity.
  - rewrite Hid, Httl. apply meanwhile_unreleased.
  - rewrite Httl. by vm_compute.
Defined.

(** The PUBLISH handler reads every packet as version 3.1.1: a version 5 publisher's
    property section is not removed, and the message that is stored and routed has the encoded
    properties in front of its payload. *)
Theorem publish_v5_payload_corrupted (p : PublishPacket) :
  publish_ok p → pub_ProtocolVersion p = 5 →
  ∃ pkt, DecodePublishPacket (publish_body p) (pub_QoS p) 4 = Ok pkt ∧
    pub_Payload pkt = Props.Encode (pub_Properties p) ++ pub_Payload p.
Proof.
  intros Hok Hv. set (p' := {| pub_Topic := pub_Topic p; pub_PacketID := pub_PacketID p; pub_QoS := pub_QoS p;
    pub_Dup := pub_Dup p; pub_Retain := pub_Retain p;
    pub_Payload := Props.Encode (pub_Properties p) ++ pub_Payload p; pub_Properties := None;
    pub_ProtocolVersion := 4 |}).
  assert (publish_body p' = publish_body p) as Hb.
  { unfold publish_body. cbn. rewrite Hv. done. }
  destruct Hok as (Ht & Hid & Hq & Hpl & Hp & Hl).
  exists (publish_received p'). split; [|done]. rewrite <- Hb. apply (DecodePublishPacket_body p').
  split; [done|]. split; [done|]. split; [done|]. split; [|split; [done|by rewrite Hb]].
  cbn. apply Forall_app. split; [by apply section_bytes|done].
Qed.

Lemma publish_v5_payload_corrupted_witness :
  ∃ pkt, DecodePublishPacket (publish_body sample_publish) 1 4 = Ok pkt ∧
    pub_Payload pkt = Props.Encode (Some Props.sample_props) ++ [104; 105].
Proof.
  apply (publish_v5_payload_corrupted sample_publish); [|reflexivity].
  unfold publish_ok, u16_ok, slen.
  cbn [sample_publish pub_Topic pub_PacketID pub_QoS pub_Payload pub_Properties].
  split_and!; try apply sample_section_ok; try (by vm_compute).
  repeat (constructor; [by unfold byte_ok|]). constructor.
Defined.

(** Connection 1 connects as [a] with a session of 10 seconds, subscribes, drops, and connection
    3 resumes the session. *)
Definition resumed : list action :=
  [AAccept 1; AConnect 0 1 (head CONNECT 0) (connect_data 5 "a" true (Some 10));
   APacket 0 1 (head SUBSCRIBE 0) (subscribe_data 5 "t" 1); AClose 0 1;
   AAccept 3; AConnect Second 3 (head CONNECT 0) (connect_data 5 "a" false (Some 10))].

(** Reconnecting does not clear the disconnection time of a session, so that the reaper
    ends the session of a client that is connected: its subscriptions are gone and messages
    no longer reach it. *)
Theorem reaper_expires_connected_client :
  ∃ b, fold_res bstep fresh resumed = Ok b ∧
    clients b !! "a" = Some 3%nat ∧ matched b "t" "a" = Some 1 ∧
    clients (reap (12 * Second) b) !! "a" = Some 3%nat ∧ matched (reap (12 * Second) b) "t" "a" = None ∧
    sess (reap (12 * Second) b) !! "a" = None.
Proof. apply ok_exists. vm_compute. split_and!; reflexivity. Qed.

(** Client [a] connects a second time, on connection 3, while connection 1 is still open, and
    subscribes there; then the end of connection 1 is handled. *)
Definition taken_over : list action :=
  [AAccept 1; AConnect 0 1 (head CONNECT 0) (connect_data 4 "a" true None);
   AAccept 3; AConnect 0 3 (head CONNECT 0) (connect_data 4 "a" true None);
   APacket 0 3 (head SUBSCRIBE 0) (subscribe_data 4 "t" 1)].

(** After a takeover the old connection's [close] acts on the new connection's session: it
    removes the session and all subscriptions of the client that has just taken over. *)
Theorem takeover_close_destroys_session :
  ∃ b, fold_res bstep fresh taken_over = Ok b ∧ clients b !! "a" = Some 3%nat ∧
    matched b "t" "a" = Some 1 ∧
    ∃ b', close_client 1 b 1 = Ok b' ∧ clients b' !! "a" = Some 3%nat ∧
      matched b' "t" "a" = None ∧ sess b' !! "a" = None.
Proof.
  assert (match fold_res bstep fresh taken_over with
          | Ok b => (clients b !! "a" = Some 3%nat ∧ matched b "t" "a" = Some 1) ∧
              match close_client 1 b 1 with
              | Ok b' => clients b' !! "a" = Some 3%nat ∧ matched b' "t" "a" = None ∧ sess b' !! "a" = None
              | _ => False
              end
          | _ => False
          end) as Hrun by (vm_compute; split_and!; reflexivity).
  apply ok_exists in Hrun as (b & Hb & [Hc Hm] & Hcl). apply ok_exists in Hcl. eauto.
Qed.
