(* ===== verification/Hooks.v ===== *)
(** * The interceptors behind the broker

    How the handlers of the broker use an interceptor chain with a state: whatever a handler does, the
    state moves along calls of hooks and goroutines of notifications only ([moves]), so that what every
    hook keeps is kept by every life of the broker, from the database that [Serve] reads on ([served],
    [happen]); and which connections and queues the routing of a message can change, whatever the chain
    does. *)
From S2P Require Import Prelude Frame Packets Topic Storage Subscriptions Delivery Offline OfflineFacts Sessions Retain Wills Interceptors Broker BrokerFacts.
Import Frame Packets TopicMatcher Broker.

Module Hooks.

(** Every hook of a chain keeps [I], and so does every goroutine that it starts. *)
Record keeps_hooks {S : Type} (I : S → Prop) (chain : InterceptorChain S) : Prop := {
  kh_connect : ∀ h e, I h → I (OnConnect chain h e).2;
  kh_publish : ∀ h e, I h → I (OnPublish chain h e).2;
  kh_subscribe : ∀ h e, I h → I (OnSubscribe chain h e).2;
  kh_unsubscribe : ∀ h e, I h → I (OnUnsubscribe chain h e).2;
  kh_delivery : ∀ h e, I h → I (OnDelivery chain h e).2;
  kh_disconnect : ∀ e, Forall (λ f, ∀ h, I h → I (f h)) (OnDisconnect chain e)
}.

(** Where nothing is read again. *)
Definition no_reload {S} (r : Empty_set) (h : S) : S := h.

Section Hooks.
Context {db : Type} `{Storage.Store db} `{Env}
  `{Offline.MessageJSON} `{Sessions.SessionJSON} `{Retain.RetainedJSON} `{Wills.WillJSON}.
Notation Broker := (Broker db).
Implicit Types b : Broker.

(** ** The state of the interceptors *)

Definition hooks_of b : hooks * list (hooks → hooks) := (hk b, notes b).

(** A call of a hook, the start of the goroutines of a notification, or one of these that runs. *)
Inductive hstep : hooks * list (hooks → hooks) → hooks * list (hooks → hooks) → Prop :=
  | h_connect chain h n e : interceptors = Some chain → hstep (h, n) ((OnConnect chain h e).2, n)
  | h_publish chain h n e : interceptors = Some chain → hstep (h, n) ((OnPublish chain h e).2, n)
  | h_subscribe chain h n e : interceptors = Some chain → hstep (h, n) ((OnSubscribe chain h e).2, n)
  | h_unsubscribe chain h n e : interceptors = Some chain → hstep (h, n) ((OnUnsubscribe chain h e).2, n)
  | h_delivery chain h n e : interceptors = Some chain → hstep (h, n) ((OnDelivery chain h e).2, n)
  | h_disconnect chain h n e : interceptors = Some chain → hstep (h, n) (h, n ++ OnDisconnect chain e)
  | h_note h n i f : n !! i = Some f → hstep (h, n) (f h, delete i n).

(** A step that neither stops the broker nor changes what it knows of the cluster; what it says to the
    cluster is added to what it said before. *)
Definition calm b b' : Prop := done b' = done b ∧ remote b' = remote b ∧ outputs b `prefix_of` outputs b'.

(** A calm step that moves the hooks and opens no connection. *)
Definition moves b b' : Prop :=
  rtc hstep (hooks_of b) (hooks_of b') ∧ calm b b' ∧ ∀ id, conns b !! id = None → conns b' !! id = None.

#[global] Instance calm_preorder : PreOrder calm.
Proof.
  split; [by intros b|]. intros b1 b2 b3 (?&?&?) (?&?&?). split_and!; [congruence..|by etransitivity].
Qed.

#[global] Instance moves_preorder : PreOrder moves.
Proof.
  split; [intros b; by split|]. unfold moves. intros b1 b2 b3 (?&?&?) (?&?&?). split_and!; [by etransitivity..|auto].
Qed.

Lemma moves_same b b' : hooks_of b' = hooks_of b → calm b b' → (∀ id, conns b !! id = None → conns b' !! id = None) → moves b b'.
Proof. unfold moves. by intros ->. Qed.

Lemma moves_hook b h n : hstep (hooks_of b) (h, n) → moves b (set_hooks b h n).
Proof. intros Hs. split; [by apply rtc_once|done]. Qed.

Lemma moves_set_client b id c c' : conns b !! id = Some c → moves b (set_client b id c').
Proof. intros Hc. apply moves_same; [done..|]. intros i Hi. cbn. apply lookup_insert_None. split; [done|congruence]. Qed.

Lemma moves_put b b1 id c c' : conns b !! id = Some c → moves b b1 → moves b (set_client b1 id c').
Proof.
  intros Hc (Hm & Hd & Hn). split_and!; [done..|]. intros i Hi. cbn. apply lookup_insert_None. split; [auto|congruence].
Qed.

Lemma get_client_conns b id c : get_client b id = Ok c → conns b !! id = Some c.
Proof. unfold get_client. case_match; congruence. Qed.

Lemma moves_foldl {A} (f : Broker → A → Broker) l : (∀ b a, moves b (f b a)) → ∀ b, moves b (foldl f b l).
Proof. intros Hf. induction l as [|a l IH]; intros b; cbn; [done|]. transitivity (f b a); auto. Qed.

Lemma moves_fold_res {A} (f : Broker → A → res Broker) l : (∀ b a b', f b a = Ok b' → moves b b') →
  ∀ b b', fold_res f b l = Ok b' → moves b b'.
Proof.
  intros Hf. induction l as [|a l IH]; intros b b'; cbn; [by intros [= <-]|].
  intros (b1 & ?%Hf & ?%IH)%bind_Ok. by transitivity b1.
Qed.

Lemma moves_emit b o : moves b (emit b o).
Proof. apply moves_same; [done| |done]. split_and!; [done..|]. by exists [o]. Qed.

(** The connection of a handler is one of the broker. *)
Ltac same := first [apply moves_same; [reflexivity|split_and!; reflexivity|done]|eapply moves_set_client; first [eassumption|by apply get_client_conns]].

(** What every hook keeps is kept. *)
Section Kept.
Context (I : hooks → Prop).

Definition kept (hn : hooks * list (hooks → hooks)) : Prop := I hn.1 ∧ Forall (λ f, ∀ h, I h → I (f h)) hn.2.

Lemma hstep_kept x y : (∀ chain, interceptors = Some chain → keeps_hooks I chain) → hstep x y → kept x → kept y.
Proof.
  intros Hc Hs [Hi Hn]. destruct Hs as [chain h n e E|chain h n e E|chain h n e E|chain h n e E|chain h n e E|chain h n e E|h n i f E];
    [pose proof (Hc _ E) as []; split; cbn in *; auto..|].
  - apply Forall_app. auto.
  - split; cbn in *; [|by apply Forall_delete]. by eapply (Forall_lookup_1 _ _ _ _ Hn E).
Qed.

Lemma hooks_kept x y : (∀ chain, interceptors = Some chain → keeps_hooks I chain) → rtc hstep x y → kept x → kept y.
Proof. intros Hc. induction 1; [done|]. intros Hk. eauto using hstep_kept. Qed.

End Kept.

(** *** The handlers *)

Lemma intercept_subscribe_moves b e : moves b (intercept_subscribe b e).2.
Proof.
  unfold intercept_subscribe. destruct interceptors as [chain|] eqn:E; [|done].
  pose proof (h_subscribe chain (hk b) (notes b) e E) as Hs. destruct (OnSubscribe chain (hk b) e). by apply moves_hook.
Qed.
Lemma intercept_unsubscribe_moves b e : moves b (intercept_unsubscribe b e).2.
Proof.
  unfold intercept_unsubscribe. destruct interceptors as [chain|] eqn:E; [|done].
  pose proof (h_unsubscribe chain (hk b) (notes b) e E) as Hs. destruct (OnUnsubscribe chain (hk b) e). by apply moves_hook.
Qed.
Lemma intercept_connect_moves b e : moves b (intercept_connect b e).2.
Proof.
  unfold intercept_connect. destruct interceptors as [chain|] eqn:E; [|done].
  pose proof (h_connect chain (hk b) (notes b) e E) as Hs. destruct (OnConnect chain (hk b) e). by apply moves_hook.
Qed.
Lemma notify_moves b id c : moves b (notify_disconnect b id c).
Proof. unfold notify_disconnect. destruct interceptors as [chain|] eqn:E; [|done]. apply moves_hook. by apply h_disconnect. Qed.
Lemma run_note_moves b n : moves b (run_note b n).
Proof. unfold run_note. destruct (notes b !! n) eqn:E; [|done]. apply moves_hook. by apply h_note. Qed.

Lemma send_moves b id data b' : send b id data = Ok b' → moves b b'.
Proof. unfold send. intros (c & Hc%get_client_conns & Hx)%bind_Ok. apply bind_Ok in Hx as (c' & _ & [= <-]). by same. Qed.
Lemma on_wills_moves b f : moves b (on_wills b f).
Proof. unfold on_wills. case_match; [by same|done]. Qed.
Lemma broadcast_moves b o : moves b (broadcast b o).
Proof. unfold broadcast. case_match; [apply moves_emit|done]. Qed.

Lemma deliverMessage_moves now b id topic payload qos b' : deliverMessage now b id topic payload qos = Ok b' → moves b b'.
Proof. unfold deliverMessage. intros (c & Hc%get_client_conns & Hx)%bind_Ok. apply bind_Ok in Hx as (c' & _ & [= <-]). by same. Qed.

Lemma deliver_one_moves now topic payload b d b' : deliver_one now topic payload b d = Ok b' → moves b b'.
Proof.
  destruct d as [[id cid] q]. unfold deliver_one. destruct interceptors as [chain|] eqn:E; [|apply deliverMessage_moves].
  pose proof (h_delivery chain (hk b) (notes b) (Interceptors.mkDelivery cid topic payload q) E) as Hs.
  destruct (OnDelivery chain _ _) as [[e|] h]; cbn zeta; [intros Hd%deliverMessage_moves; etransitivity; [|exact Hd]|intros [= <-]];
    by apply moves_hook.
Qed.

Lemma route_moves now b topic payload qos retain fwd b' :
  routeMessage now b topic payload qos retain fwd = Ok b' → moves b b'.
Proof.
  unfold routeMessage. intros (b1 & H1' & [= <-])%bind_Ok. transitivity b1.
  - eapply moves_fold_res; [|exact H1']. intros. by eapply deliver_one_moves.
  - set (b2 := foldl _ b1 _). transitivity b2.
    + apply moves_foldl. intros b0 [cid q]. by same.
    + case_match; [done|]. unfold forward_all. case_match; [|done]. apply moves_foldl. intros. apply moves_emit.
Qed.

Lemma ack_publish_moves now b id qos pid b' go : ack_publish now b id qos pid = Ok (b', go) → moves b b'.
Proof.
  unfold ack_publish. intros. repeat (case_match; inv_ok; simplify_eq); try done;
    match goal with E : send ?b0 _ _ = Ok _ |- _ => transitivity b0; [by same|by apply send_moves in E] end.
Qed.

Lemma accept_publish_moves now b c fh pkt b' : accept_publish now b c fh pkt = Ok b' → moves b b'.
Proof.
  unfold accept_publish. case_match; [by intros [= <-]|].
  destruct (AllowPublish _ _ _ _) as [ok l]. case_match; [by intros [= <-]; apply moves_same|]. cbn zeta.
  set (b2 := if Frame.Retain fh then _ else _). assert (moves b b2) as Hb2 by (unfold b2; case_match; by same).
  destruct interceptors as [chain|] eqn:E; [|intros Hx%route_moves; by transitivity b2].
  pose proof (h_publish chain (hk b2) (notes b2) (Interceptors.mkPublish (c_clientID c) (pub_Topic pkt) (pub_Payload pkt)
    (QoS fh) (Frame.Retain fh)) E) as Hs.
  destruct (OnPublish chain _ _) as [[e|] h]; cbn zeta; [intros Hx%route_moves|intros [= <-]];
    (etransitivity; [exact Hb2|]); [etransitivity; [|exact Hx]|]; by apply moves_hook.
Qed.

Lemma publish_moves now b id fh data b' : handlePublish now b id fh data = Ok b' → moves b b'.
Proof.
  unfold handlePublish. destruct (DecodePublishPacket _ _ _); try (intros; inv_ok; by subst).
  intros ([b1 go] & Hack%ack_publish_moves & Hrest)%bind_Ok. etransitivity; [exact Hack|].
  destruct go; [|by injection Hrest as <-]. apply bind_Ok in Hrest as (c & _ & Hx). by apply accept_publish_moves in Hx.
Qed.

Lemma subscribe_one_moves b c has s : moves b (subscribe_one b c has s).1.
Proof.
  unfold subscribe_one. do 2 (case_match; [done|]). destruct (AllowSubscribe _ _ _) as [ok l]. cbn zeta.
  case_match; [by same|].
  match goal with |- context [intercept_subscribe ?b1 ?e] =>
    pose proof (intercept_subscribe_moves b1 e) as Hm; destruct (intercept_subscribe b1 e) as [[e'|] b2] end;
    cbn in Hm |- *; [|exact Hm].
  etransitivity; [|apply broadcast_moves]. etransitivity; [exact Hm|]. case_match; by same.
Qed.

Lemma subscribe_all_moves c has subs : ∀ b, moves b (subscribe_all b c has subs).1.
Proof.
  induction subs as [|s subs IH]; intros b; cbn; [done|]. pose proof (subscribe_one_moves b c has s) as Hm.
  destruct (subscribe_one b c has s) as [b1 rc]. specialize (IH b1).
  destruct (subscribe_all b1 c has subs). cbn in *. by transitivity b1.
Qed.

Lemma unsubscribe_one_moves b c has f : moves b (unsubscribe_one b c has f).
Proof.
  unfold unsubscribe_one.
  match goal with |- context [intercept_unsubscribe ?b1 ?e] =>
    pose proof (intercept_unsubscribe_moves b1 e) as Hm; destruct (intercept_unsubscribe b1 e) as [[e'|] b2] end;
    cbn in Hm |- *; [|exact Hm].
  etransitivity; [exact Hm|]. set (b3 := broadcast _ _).
  assert (moves b2 b3) by (etransitivity; [|apply broadcast_moves]; by same).
  case_match; [|done]. transitivity b3; [done|by same].
Qed.

Lemma handleSubscribe_moves b id data b' : handleSubscribe b id data = Ok b' → moves b b'.
Proof.
  unfold handleSubscribe. intros (c & _ & Hx)%bind_Ok.
  destruct (DecodeSubscribePacket _ _) as [pkt| | |]; [|by inv_ok; subst..].
  set (has := bool_decide _) in *. pose proof (subscribe_all_moves c has (sub_Subscriptions pkt) b) as Hm.
  destruct (subscribe_all b c has (sub_Subscriptions pkt)) as [b1 rcs].
  apply bind_Ok in Hx as (b2 & Hs%send_moves & Hx). etransitivity; [exact Hm|].
  transitivity b2; [etransitivity; [|exact Hs]; by same|].
  eapply moves_fold_res; [|exact Hx]. intros b0 s b0'. unfold send_retained. apply moves_fold_res. intros ???. apply send_moves.
Qed.

Lemma handleUnsubscribe_moves b id data b' : handleUnsubscribe b id data = Ok b' → moves b b'.
Proof.
  unfold handleUnsubscribe. intros (c & _ & Hx)%bind_Ok.
  destruct (DecodeUnsubscribePacket _ _) as [pkt| | |]; [|by inv_ok; subst..].
  apply send_moves in Hx. etransitivity; [|exact Hx]. etransitivity; [|by same].
  apply moves_foldl. intros. apply unsubscribe_one_moves.
Qed.

Lemma handleDisconnect_moves b id data b' : handleDisconnect b id data = Ok b' → moves b b'.
Proof.
  unfold handleDisconnect. intros (c & Hc & Hx)%bind_Ok. cbn zeta in Hx.
  set (b1 := on_wills _ _) in Hx. assert (moves b b1) by (etransitivity; [|apply on_wills_moves]; by same).
  repeat (case_match; inv_ok; simplify_eq); done.
Qed.

Lemma handlePacket_moves now b id fh data b' go : handlePacket now b id fh data = Ok (b', go) → moves b b'.
Proof.
  unfold handlePacket.
  assert (∀ (m : res Broker) k, (∀ x, m = Ok x → moves b x) → (b ← m; Ok (b, k)) = Ok (b', go) → moves b b') as Hm.
  { intros m k Hm (x & Hx & [= <- <-])%bind_Ok. auto. }
  repeat (case_match; [apply Hm; intros x Hx|]); [..|by intros [= <- <-]].
  - by eapply publish_moves.
  - unfold handlePuback in Hx. destruct (DecodePubackPacket data 4); [|by simplify_eq..]. apply bind_Ok in Hx as (c & Hc & [= <-]). by same.
  - unfold handlePubrec in Hx. destruct (DecodePubrecPacket data 4); [|by simplify_eq..]. apply bind_Ok in Hx as (c & Hc & Hx%send_moves).
    etransitivity; [|exact Hx]. by same.
  - unfold handlePubrel in Hx. destruct (DecodePubrelPacket data 4); [|by simplify_eq..]. apply bind_Ok in Hx as (c & Hc & Hx%send_moves).
    etransitivity; [|exact Hx]. by same.
  - unfold handlePubcomp in Hx. case_match; inv_ok; by subst.
  - by eapply handleSubscribe_moves.
  - by eapply handleUnsubscribe_moves.
  - by eapply send_moves.
  - by eapply handleDisconnect_moves.
Qed.

Lemma publish_will_moves now b c w b' : publish_will now b c w = Ok b' → moves b b'.
Proof.
  unfold publish_will. intros (b1 & Hr%route_moves & [= <-])%bind_Ok.
  etransitivity; [|apply on_wills_moves]. etransitivity; [|exact Hr]. case_match; by same.
Qed.

Lemma end_session_moves now b c : moves b (end_session now b c).
Proof.
  unfold end_session. case_match; [|done]. case_match; [|case_match; [done|by same]].
  cbn zeta. set (b1 := match remote b with Some _ => _ | None => b end). transitivity b1.
  - unfold b1. case_match; [|done]. apply moves_foldl. intros. apply moves_emit.
  - case_match; by same.
Qed.

Lemma close_moves now b id b' : close_client now b id = Ok b' → moves b b'.
Proof.
  unfold close_client, close_begin, close_finish. intros (b1 & Hb & Hf)%bind_Ok.
  apply bind_Ok in Hb as (c0 & Hc0 & Hb).
  assert (moves b b1) as Hm by (case_match; injection Hb as <-; [done|by same]).
  etransitivity; [exact Hm|]. apply bind_Ok in Hf as (c & Hc & Hf).
  assert (moves b1 (set_client b1 id (c_close_conn (c_set_send c [])))) as Hm1 by same.
  case_match; [by injection Hf as <-|].
  apply bind_Ok in Hf as (b2 & Hw & [= <-]). etransitivity; [|apply end_session_moves].
  set (b3 := notify_disconnect _ _ _) in Hw. assert (moves b1 b3) as Hm3.
  { etransitivity; [|apply notify_moves]. etransitivity; [|apply broadcast_moves]. etransitivity; [exact Hm1|].
    unfold unregisterClient. case_bool_decide; by same. }
  etransitivity; [exact Hm3|]. destruct (c_will c); [by apply publish_will_moves in Hw|by injection Hw as <-].
Qed.

Lemma disconnectExisting_moves b c b' : disconnectExisting b c = Ok b' → moves b b'.
Proof.
  unfold disconnectExisting, sendDisconnectAndClose. case_match; [|by intros [= <-]].
  intros (c0 & Hc%get_client_conns & Hx)%bind_Ok. apply bind_Ok in Hx as (c1 & _ & [= <-]).
  transitivity (set_clients b (delete c (clients b))); by same.
Qed.

Lemma refuse_moves b id rc b' go : refuse b id rc = Ok (b', go) → moves b b'.
Proof. unfold refuse. intros (b1 & Hs%send_moves & [= <- <-])%bind_Ok. done. Qed.

Lemma welcome_moves now b id c clean present b' go : welcome now b id c clean present = Ok (b', go) → moves b b'.
Proof.
  unfold welcome. set (b1 := broadcast _ _). assert (moves b b1) as Hm by (etransitivity; [|apply broadcast_moves]; by same).
  cbn zeta. match goal with |- context [intercept_connect b1 ?e] =>
    pose proof (intercept_connect_moves b1 e) as Hc; destruct (intercept_connect b1 e) as [accepted b2] end. cbn in Hc.
  intros Hx. etransitivity; [exact Hm|]. etransitivity; [exact Hc|]. destruct accepted; [|by apply refuse_moves in Hx].
  apply bind_Ok in Hx as (b3 & Hs%send_moves & Hx). apply bind_Ok in Hx as (b4 & Ho & [= <- <-]).
  etransitivity; [exact Hs|]. destruct present; [|by injection Ho as <-]. unfold deliver_offline in Ho.
  apply bind_Ok in Ho as ([msgs os] & _ & Ho). transitivity (set_offline b3 os); [by same|].
  eapply moves_fold_res; [|exact Ho]. intros b0 m b0'. apply deliverMessage_moves.
Qed.

Lemma handleConnect_moves now b id fh data b' go : handleConnect now b id fh data = Ok (b', go) → moves b b'.
Proof.
  unfold handleConnect. case_match; [by intros [= <- <-]|].
  destruct (DecodeConnectPacket data) as [pkt| | |]; [|by intros; inv_ok; simplify_eq..].
  repeat (case_match; [apply refuse_moves|]). unfold accept_connect.
  intros (c & Hc & Hx)%bind_Ok. apply bind_Ok in Hx as (b1 & Hd%disconnectExisting_moves & Hx).
  apply get_client_conns in Hc. assert (moves b b1) as Hm1 by (etransitivity; [|exact Hd]; by same).
  match type of Hx with context [open_session b1 ?x ?y ?z] =>
    assert (moves b1 (open_session b1 x y z).1) as Ho by (unfold open_session; repeat case_match; by same);
    destruct (open_session b1 x y z) as [b2 present] end.
  assert (moves b b2) as Hm2 by (by transitivity b1).
  destruct (will_of pkt); apply welcome_moves in Hx; [|by transitivity b2].
  etransitivity; [|exact Hx]. etransitivity; [|apply on_wills_moves]. by eapply moves_put.
Qed.

Lemma serve_step_moves now b id r b' :
  (∀ b1 go, r = Ok (b1, go) → moves b b1) → serve_step now id r = Ok b' → moves b b'.
Proof.
  intros Hr. unfold serve_step. intros ([b1 go] & Hb & Hx)%bind_Ok. apply Hr in Hb.
  destruct go; [by injection Hx as <-|apply close_moves in Hx; by transitivity b1].
Qed.

Lemma reap_moves now b : moves b (reap now b).
Proof. apply moves_foldl. intros. by same. Qed.

(** Only [AAccept] opens a connection, and only [ACluster] changes what is known of the cluster. *)
Definition accepts (a : action) : bool := match a with AAccept _ => true | _ => false end.
Definition informs (a : action) : bool := match a with ACluster _ => true | _ => false end.

Lemma bstep_moves b a b' : accepts a = false → informs a = false → bstep b a = Ok b' → moves b b'.
Proof.
  intros Ha Hi. destruct a as [id|now id fh data|now id fh data|now id|id|now t p q r|cid|now cid|now|now|n|f]; cbn.
  - done.
  - case_match; [|by intros [= <-]]. apply serve_step_moves. intros b1 go. apply handleConnect_moves.
  - case_match; [|by intros [= <-]]. apply serve_step_moves. intros b1 go. apply handlePacket_moves.
  - case_match; [|by intros [= <-]]. case_match; [by intros [= <-]|]. apply close_moves.
  - intros [= <-]. unfold write_one. destruct (conns b !! id) as [c|] eqn:Hc; [|done]. case_match; [done|by same].
  - intros Hx. by apply route_moves in Hx.
  - intros Hx. by apply disconnectExisting_moves in Hx.
  - unfold willPublisher. destruct (willStore b) as [ws|]; [|by intros [= <-]].
    destruct (Wills.Get ws cid); [|by intros [= <-]]. case_match; [by intros [= <-]|]. intros Hx%publish_will_moves.
    etransitivity; [|exact Hx]. by same.
  - intros [= <-]. apply reap_moves.
  - intros [= <-]. by same.
  - intros [= <-]. apply run_note_moves.
  - done.
Qed.

Lemma accept_calm b id b' : bstep b (AAccept id) = Ok b' → hooks_of b' = hooks_of b ∧ calm b b' ∧
  ∀ i, i ≠ id → conns b !! i = None → conns b' !! i = None.
Proof.
  cbn. case_match; intros [= <-]; [done|]. unfold acceptConn. destruct (AllowConnect _) as [[] l]; cbn [negb]; [|done].
  case_match; [done|]. split_and!; [done..|]. intros i Hi Hc. cbn. by rewrite lookup_insert_ne.
Qed.

Lemma bstep_hooks b a b' : bstep b a = Ok b' → rtc hstep (hooks_of b) (hooks_of b').
Proof.
  intros Hb. destruct (accepts a) eqn:Ha; [destruct a; try done; by apply accept_calm in Hb as (-> & _)|].
  destruct (informs a) eqn:Hi; [destruct a; try done; by injection Hb as <-|by apply bstep_moves in Hb as (? & _)].
Qed.

Lemma bstep_done b a b' : bstep b a = Ok b' → done b' = done b.
Proof.
  intros Hb. destruct (accepts a) eqn:Ha; [destruct a; try done; by apply accept_calm in Hb as (_ & (? & _) & _)|].
  destruct (informs a) eqn:Hi; [destruct a; try done; by injection Hb as <-|by apply bstep_moves in Hb as (_ & (? & _) & _)].
Qed.

Lemma bstep_conns b a b' : accepts a = false → bstep b a = Ok b' → ∀ id, conns b !! id = None → conns b' !! id = None.
Proof.
  intros Ha Hb. destruct (informs a) eqn:Hi; [destruct a; try done; by injection Hb as <-|by apply bstep_moves in Hb as (_ & _ & ?)].
Qed.

(** What is said to the cluster stays said. *)
Lemma bstep_outputs b a b' : bstep b a = Ok b' → outputs b `prefix_of` outputs b'.
Proof.
  intros Hb. destruct (accepts a) eqn:Ha; [destruct a; try done; by apply accept_calm in Hb as (_ & (_ & _ & ?) & _)|].
  destruct (informs a) eqn:Hi; [destruct a; try done; by injection Hb as <-|by apply bstep_moves in Hb as (_ & (_ & _ & ?) & _)].
Qed.

Lemma run_hooks acts : ∀ b b', fold_res bstep b acts = Ok b' → rtc hstep (hooks_of b) (hooks_of b').
Proof.
  induction acts as [|a acts IH]; intros b b'; cbn; [by intros [= <-]|].
  intros (b1 & Hb%bstep_hooks & Hr%IH)%bind_Ok. by etransitivity.
Qed.

(** What every hook keeps holds in every run. *)
Lemma run_keeps (I : hooks → Prop) d l h acts b :
  (∀ chain, interceptors = Some chain → keeps_hooks I chain) → I h →
  fold_res bstep (New d l h) acts = Ok b → I (hk b).
Proof. intros Hc Hh Hr%run_hooks. by apply (hooks_kept I _ _ Hc) in Hr as [? _]. Qed.

(** ** The broker that [Serve] starts, and its life *)

(** [Serve] reads the database before it accepts a connection. *)
Definition served d l h : res Broker := loadFromStorage (New d l h).

Lemma load_hooks b b' : loadFromStorage b = Ok b' → hooks_of b' = hooks_of b.
Proof.
  unfold loadFromStorage. intros (ss & _ & Hx)%bind_Ok. apply bind_Ok in Hx as (rs & _ & Hx).
  apply bind_Ok in Hx as (b1 & Hw & Hx). apply bind_Ok in Hx as (b2 & Ho & [= <-]).
  transitivity (hooks_of b2).
  { generalize (map_to_list (sess b2)). intros l. clear. revert b2. induction l as [|x l IH]; intros b2; [done|].
    cbn. rewrite IH. by destruct (negb _). }
  transitivity (hooks_of b1).
  { destruct (disk b1); [by apply bind_Ok in Ho as (os & _ & [= <-])|by injection Ho as <-]. }
  destruct (willStore _) as [ws|]; [by apply bind_Ok in Hw as (w & _ & [= <-])|by injection Hw as <-].
Qed.

(** What comes from other nodes and from the migrations of this one, outside of the steps: the handlers of
    the replication, and the parts of the migration interface that the executor calls. *)
Inductive outside :=
  | ReplicateWill (clientID : string) (w : Wills.WillMessage)
  | DeleteWill (clientID : string)
  | ReplicateOffline (now : Z) (clientID : string) (msgs : list Offline.OfflineMessage)
  | ReplicateOfflineAck (clientID : string)
  | TakeOffline (now : Z) (deviceID : string)
  | DropOffline (deviceID : string)
  | DropSession (deviceID : string).
Definition from_outside b (o : outside) : res Broker :=
  match o with
  | ReplicateWill c w => Ok (onReplicateWill b c w)
  | DeleteWill c => Ok (onDeleteWill b c)
  | ReplicateOffline now c msgs => Ok (onReplicateOffline now b c msgs)
  | ReplicateOfflineAck c => Ok (onReplicateOfflineAck b c)
  | TakeOffline now c => '(_, b) ← GetOfflineMessages now b c; Ok b
  | DropOffline c => Ok (DeleteOfflineMessages b c)
  | DropSession c => Ok (DeleteSession b c)
  end.

Lemma enqueue_all_frame now c msgs : ∀ b, let b' := onReplicateOffline now b c msgs in
  hooks_of b' = hooks_of b ∧ subscriptions b' = subscriptions b ∧ sess b' = sess b.
Proof. unfold onReplicateOffline. induction msgs as [|m msgs IH]; intros b; [done|]. cbn.
  destruct (IH (set_offline b (Offline.Enqueue now (offlineStore b) c m).2)) as (-> & -> & ->). done.
Qed.

(** They change neither the interceptors nor the index, and what they do to sessions is to drop one. *)
Lemma outside_frame b o b' : from_outside b o = Ok b' →
  hooks_of b' = hooks_of b ∧ subscriptions b' = subscriptions b ∧ (sess b' = sess b ∨ ∃ c, sess b' = delete c (sess b)).
Proof.
  destruct o as [c w|c|now c msgs|c|now c|c|c]; cbn.
  - intros [= <-]. unfold onReplicateWill, on_wills. destruct (willStore b); auto.
  - intros [= <-]. unfold onDeleteWill, on_wills. destruct (willStore b); auto.
  - intros [= <-]. destruct (enqueue_all_frame now c msgs b) as (? & ? & ?). auto.
  - intros [= <-]. auto.
  - unfold GetOfflineMessages. intros ([ms b1] & Hg & [= <-])%bind_Ok. apply bind_Ok in Hg as ([l os] & _ & [= <- <-]).
    destruct (enqueue_all_frame now c l (set_offline b os)) as (? & ? & ?). auto.
  - intros [= <-]. auto.
  - intros [= <-]. split_and!; [done..|]. right. exists c. unfold DeleteSession, Sessions.Remove. cbn. by destruct (disk b).
Qed.

(** What happens to a served broker: its own steps, what comes from outside, and changes of the interceptors,
    such as definitions that are read again. *)
Section Life.
Context {R : Type} (reload : R → hooks → hooks).

Inductive happening := Act (a : action) | Outside (o : outside) | Reload (r : R).
Definition happen b (e : happening) : res Broker :=
  match e with Act a => bstep b a | Outside o => from_outside b o | Reload r => Ok (set_hk b (reload r (hk b))) end.

Lemma life_kept (I : hooks → Prop) es : (∀ chain, interceptors = Some chain → keeps_hooks I chain) →
  (∀ r h, Reload r ∈ es → I h → I (reload r h)) →
  ∀ b b', kept I (hooks_of b) → fold_res happen b es = Ok b' → kept I (hooks_of b').
Proof.
  intros Hc. induction es as [|e es IH]; intros Hr b b' Hk; cbn; [by intros [= <-]|].
  intros (b1 & Hb & Hes)%bind_Ok. apply (IH ltac:(set_solver)) in Hes; [done|].
  destruct e as [a|o|r]; cbn in Hb; [by apply (hooks_kept I _ _ Hc (bstep_hooks _ _ _ Hb))| |].
  { apply outside_frame in Hb as (-> & _). done. }
  injection Hb as <-. destruct Hk as [Hh Hn]. split; [|done]. apply Hr; [set_solver|done].
Qed.

(** What every hook and every change from outside keep holds in every life of the broker. *)
Lemma life_keeps (I : hooks → Prop) d l h es b0 b : (∀ chain, interceptors = Some chain → keeps_hooks I chain) →
  (∀ r h, Reload r ∈ es → I h → I (reload r h)) → I h →
  served d l h = Ok b0 → fold_res happen b0 es = Ok b → I (hk b).
Proof.
  intros Hc Hr Hh Hs%load_hooks Hes. apply (life_kept I es Hc Hr) in Hes as [? _]; [done|]. rewrite Hs. done.
Qed.

End Life.

(** ** What a message can change, whatever the interceptors do *)

(** The topic has an effect on others: the record of a connection, or the queue of a client. *)
Definition touches_conn b b' (id : nat) : Prop := conns b' !! id ≠ conns b !! id.
Definition touches_queue b b' (c : string) : Prop :=
  Offline.queue_of (offlineStore b') c ≠ Offline.queue_of (offlineStore b) c.

Lemma deliver_one_conns now topic payload b d b' id :
  deliver_one now topic payload b d = Ok b' → id ≠ d.1.1 → conns b' !! id = conns b !! id.
Proof.
  destruct d as [[id' cid] q]. unfold deliver_one, deliverMessage. cbn [fst]. intros Hd Hne.
  destruct interceptors as [chain|]; [destruct (OnDelivery chain _ _) as [[e|] h]; cbn zeta in Hd|];
    inv_ok; simplify_eq; cbn; by rewrite ?lookup_insert_ne.
Qed.

Lemma deliver_all_conns now topic payload ds : ∀ b b', fold_res (deliver_one now topic payload) b ds = Ok b' →
  ∀ id, id ∉ ds.*1.*1 → conns b' !! id = conns b !! id.
Proof.
  induction ds as [|d ds IH]; intros b b'; cbn [fold_res]; [by intros [= <-]|].
  intros (b1 & Hd & Hr)%bind_Ok id [Hne Hni]%not_elem_of_cons. rewrite (IH _ _ Hr id Hni). by eapply deliver_one_conns.
Qed.

Lemma enqueue_all_queues now topic payload ds : ∀ b c, c ∉ ds.*1 →
  Offline.queue_of (offlineStore (foldl (enqueue_one now topic payload) b ds)) c = Offline.queue_of (offlineStore b) c.
Proof.
  induction ds as [|[cid q] ds IH]; intros b c; [done|]. cbn [foldl fmap list_fmap fst]. intros [Hne Hni]%not_elem_of_cons.
  rewrite IH by done. unfold enqueue_one. rewrite (proj1 (offlineStore_set b _ c)).
  pose proof (proj1 (Enqueue_mem now (offlineStore b) cid (Offline.mkMsg topic payload q 0 zeroTime zeroTime))) as Hq.
  unfold Offline.queue_of at 1. rewrite Hq. rewrite queue_of_insert. by rewrite decide_False.
Qed.

Lemma matched_intro b topic m : m ∈ Subscriptions.Match (subscriptions b) topic →
  is_Some (matched b topic (Subscriptions.m_ClientID m)).
Proof. destruct m as [c q]. intros Hm. exists q. by apply matched_elem. Qed.

(** Routing changes the connections of matched clients and the queues of matched clients that are away. *)
Lemma route_only now b topic payload qos retain fwd b' :
  routeMessage now b topic payload qos retain fwd = Ok b' →
  (∀ id, touches_conn b b' id → ∃ c, clients b !! c = Some id ∧ is_Some (matched b topic c)) ∧
  (∀ c, touches_queue b b' c → clients b !! c = None ∧ is_Some (matched b topic c)).
Proof.
  unfold routeMessage. cbn zeta. intros (b1 & Hd & [= <-])%bind_Ok.
  set (ds := omap (online_target b qos) _) in Hd. set (os := omap (offline_target b qos) _).
  set (b2 := foldl _ b1 os). set (b3 := if fwd then b2 else _).
  assert (conns b3 = conns b1 ∧ offlineStore b3 = offlineStore b2) as [Ec Eo].
  { assert (conns b2 = conns b1) as <- by (by apply (enqueue_frame conns)). unfold b3. destruct fwd; [done|].
    split; [by apply (forward_all_frame conns)|by apply (forward_all_frame offlineStore)]. }
  assert (offlineStore b1 = offlineStore b) as Hoff.
  { eapply (fold_res_inv _ offlineStore); [|exact Hd]. intros b0 d b0'. by apply deliver_one_frame. }
  split.
  - intros id Ht. unfold touches_conn in Ht. rewrite Ec in Ht.
    destruct (decide (id ∈ ds.*1.*1)) as [Hin|Hni]; [|by rewrite (deliver_all_conns _ _ _ _ _ _ Hd id Hni) in Ht].
    apply list_elem_of_fmap in Hin as ([id' cid] & -> & Hin). apply list_elem_of_fmap in Hin as ([[id2 cid2] q] & [= -> ->] & Hin).
    apply list_elem_of_omap in Hin as (m & Hm & Ho). unfold online_target in Ho.
    destruct (clients b !! Subscriptions.m_ClientID m) eqn:E; [|done]. injection Ho as <- <- _.
    eexists. split; [exact E|]. by apply matched_intro.
  - intros c Ht. unfold touches_queue in Ht. rewrite Eo in Ht.
    destruct (decide (c ∈ os.*1)) as [Hin|Hni]; [|unfold b2 in Ht; by rewrite (enqueue_all_queues now topic payload os b1 c Hni), Hoff in Ht].
    apply list_elem_of_fmap in Hin as ([cid q] & -> & Hin). apply list_elem_of_omap in Hin as (m & Hm & Ho).
    unfold offline_target in Ho. destruct (clients b !! Subscriptions.m_ClientID m) eqn:E; [done|].
    repeat case_match; try done. injection Ho as <- _. split; [done|]. by apply matched_intro.
Qed.

(** A step for connection [id] that leaves the routing alone. *)
Record apart (id : nat) b b' : Prop := {
  ap_clients : clients b' = clients b;
  ap_subs : subscriptions b' = subscriptions b;
  ap_queues : ∀ c, Offline.queue_of (offlineStore b') c = Offline.queue_of (offlineStore b) c;
  ap_conns : ∀ i, i ≠ id → conns b' !! i = conns b !! i;
  ap_id : c_clientID <$> conns b' !! id = c_clientID <$> conns b !! id
}.

Lemma send_apart b id data b' : send b id data = Ok b' → apart id b b'.
Proof.
  unfold send, get_client. intros. inv_ok. case_match; inv_ok; simplify_eq. constructor; try done.
  - intros i Hi. cbn. by rewrite lookup_insert_ne.
  - cbn. rewrite lookup_insert_eq. unfold client_send in *. repeat case_match; simplify_eq; by match goal with E : conns b !! id = _ |- _ => rewrite E end.
Qed.

Lemma ack_publish_apart now b id qos pid b' go : ack_publish now b id qos pid = Ok (b', go) → apart id b b'.
Proof.
  unfold ack_publish. intros. repeat (case_match; inv_ok; simplify_eq); try (by constructor);
    match goal with E : send _ _ _ = Ok _ |- _ => apply send_apart in E; by destruct E end.
Qed.

Lemma ack_publish_hk now b id qos pid b' go : ack_publish now b id qos pid = Ok (b', go) → hk b' = hk b.
Proof.
  unfold ack_publish, send. intros. repeat (case_match; inv_ok; simplify_eq); done.
Qed.

(** The topic under which the interceptors, in their state in [b], let a publish of [c] go on. *)
Definition routed b (c : string) (fh : FixedHeader) (pkt : PublishPacket) (topic : string) : Prop :=
  match interceptors with
  | Some chain => ∃ e, (OnPublish chain (hk b) (Interceptors.mkPublish c (pub_Topic pkt) (pub_Payload pkt)
                          (QoS fh) (Frame.Retain fh))).1 = Some e ∧ topic = Interceptors.pe_Topic e
  | None => topic = pub_Topic pkt
  end.

Lemma apart_retain id b b1 rs : apart id b b1 → apart id b (set_retain b1 rs).
Proof.
  intros []. constructor; try done. intros c. rewrite <- ap_queues0. unfold offlineStore. cbn. by case_match.
Qed.

Lemma untouched id b b' (P : nat → Prop) (Q : string → Prop) : apart id b b' →
  (∀ i, i ≠ id → touches_conn b b' i → P i) ∧ (∀ c, touches_queue b b' c → Q c).
Proof.
  intros []. split; [intros i Hi Ht; by destruct Ht; apply ap_conns0|intros c Ht; by destruct Ht; apply ap_queues0].
Qed.

Lemma route_apart id b b1 now topic payload qos retain fwd b' :
  routeMessage now b1 topic payload qos retain fwd = Ok b' → apart id b b1 →
  (∀ i, i ≠ id → touches_conn b b' i → ∃ c, clients b !! c = Some i ∧ is_Some (matched b topic c)) ∧
  (∀ c, touches_queue b b' c → is_Some (matched b topic c)).
Proof.
  intros [Hr1 Hr2]%route_only []. split.
  - intros i Hi Ht. rewrite <- ap_clients0. unfold matched. rewrite <- ap_subs0. apply Hr1.
    unfold touches_conn in *. by rewrite ap_conns0.
  - intros c Ht. unfold matched. rewrite <- ap_subs0. apply Hr2. unfold touches_queue in *. by rewrite ap_queues0.
Qed.

(** A PUBLISH changes the record of another connection, or a queue, only if the packet decodes and
    the topic under which it goes on is matched by a client of that connection, or of that queue. *)
Lemma publish_only now b id fh data b' cl :
  handlePublish now b id fh data = Ok b' → conns b !! id = Some cl →
  (∀ i, i ≠ id → touches_conn b b' i → ∃ pkt topic c, DecodePublishPacket data (QoS fh) 4 = Ok pkt ∧
     routed b (c_clientID cl) fh pkt topic ∧ clients b !! c = Some i ∧ is_Some (matched b topic c)) ∧
  (∀ c, touches_queue b b' c → ∃ pkt topic, DecodePublishPacket data (QoS fh) 4 = Ok pkt ∧
     routed b (c_clientID cl) fh pkt topic ∧ is_Some (matched b topic c)).
Proof.
  intros Hp Hc. unfold handlePublish in Hp. destruct (DecodePublishPacket data (QoS fh) 4) as [pkt| | |]; [|inv_ok; subst; by apply (untouched id)..].
  apply bind_Ok in Hp as ([b1 go] & Hack & Hp). pose proof (ack_publish_hk _ _ _ _ _ _ _ Hack) as Hk. apply ack_publish_apart in Hack.
  destruct go; [|injection Hp as <-; by apply (untouched id)].
  apply bind_Ok in Hp as (c1 & Hc1 & Hp). assert (c_clientID c1 = c_clientID cl) as Hid.
  { pose proof (ap_id _ _ _ Hack) as Hid. unfold get_client in Hc1. rewrite Hc in Hid.
    destruct (conns b1 !! id); simplify_eq/=. congruence. }
  unfold accept_publish in Hp. case_match; [injection Hp as <-; by apply (untouched id)|].
  destruct (AllowPublish _ _ _ _) as [ok l].
  assert (apart id b (set_rl b1 l)) as Hack1 by (destruct Hack; by constructor). clear Hack.
  case_match; [injection Hp as <-; by apply (untouched id)|]. cbn zeta in Hp.
  set (b2 := if Frame.Retain fh then _ else _) in Hp.
  assert (apart id b b2) as Hb2 by (unfold b2; destruct (Frame.Retain fh); [by apply apart_retain|done]).
  assert (hk b2 = hk b) as Hk2 by (rewrite <- Hk; unfold b2; by destruct (Frame.Retain fh)). clearbody b2. clear Hack1.
  destruct interceptors as [chain|] eqn:Ei.
  - destruct (OnPublish chain _ _) as [[e|] h] eqn:Eo; cbn zeta in Hp.
    + eapply (route_apart id b (set_hk b2 h)) in Hp as [Hr1 Hr2]; [|destruct Hb2; by constructor].
      rewrite Hk2, Hid in Eo.
      assert (routed b (c_clientID cl) fh pkt (Interceptors.pe_Topic e)) as Hrt
        by (unfold routed; rewrite Ei, Eo; by exists e).
      split.
      * intros i Hi (c & ? & ?)%Hr1; [|done]. eauto 10.
      * intros c Ht%Hr2. eauto 10.
    + injection Hp as <-. eapply untouched. destruct Hb2; by constructor.
  - eapply (route_apart id b b2) in Hp as [Hr1 Hr2]; [|done..].
    assert (routed b (c_clientID cl) fh pkt (pub_Topic pkt)) as Hrt by (unfold routed; by rewrite Ei).
    split.
    + intros i Hi (c & ? & ?)%Hr1; [|done]. eauto 10.
    + intros c Ht%Hr2. eauto 10.
Qed.

End Hooks.
End Hooks.
