(* ===== verification/Lifecycle.v ===== *)
(** * Starting and stopping the broker

    Model of the rest of [internal/broker/broker.go]: [Serve] with its accept loops and the reaper,
    [Stop] and [GracefulStop], around the handlers of [Broker]. The goroutines interleave as events:
    a loop accepts a connection or gets an error, a handler runs, a timer fires. Closing a channel a
    second time panics, as in Go. Times are nanoseconds. *)
From S2P Require Import Prelude Frame Packets Topic Storage Subscriptions Delivery Offline OfflineFacts Sessions Retain Wills Interceptors Broker BrokerFacts Hooks.
Import Frame Packets Broker.

Module Lifecycle.

Definition Millisecond : Z := 1000000.
(** The interval of the ticker of [GracefulStop]. *)
Definition drain_tick : Z := 500 * Millisecond.

(** What has become of the call of [Serve]. *)
Inductive serving := NotServed | Serving | ServeReturned (err : option go_error).

(** [GracefulStop] in its loop: when its deadline fires, and when its ticker fires next. *)
Record drain := mkDrain { dr_deadline : Z; dr_next : Z }.

Section Lifecycle.
Context {db : Type} `{Storage.Store db} `{Env}
  `{Offline.MessageJSON} `{Sessions.SessionJSON} `{Retain.RetainedJSON} `{Wills.WillJSON}.
Notation Broker := (Broker db).

(** Listeners are numbers. *)
Record system := mkSystem {
  br : Broker;
  listeners : list nat;        (* [b.listeners] *)
  closed_lns : gset nat;       (* the listeners that were closed *)
  loops : gset nat;            (* the listeners whose accept loop runs *)
  serve_state : serving;
  reaper : option bool;        (* [b.reaper]: not created, running or stopped *)
  dedup_stopped : bool;
  draining : option drain;
  accept_errors : nat;         (* errors of [Accept] that were logged *)
  backlog : gset (nat * nat)   (* connections that have come to a listener and not been accepted *)
}.

Definition new_system (d : option db) (l : limiter) (h : hooks) : system :=
  mkSystem (New d l h) [] ∅ ∅ NotServed None false None 0 ∅.

Definition set_br (s : system) (b : Broker) : system := mkSystem b (listeners s) (closed_lns s) (loops s) (serve_state s)
  (reaper s) (dedup_stopped s) (draining s) (accept_errors s) (backlog s).

(** [close(b.done)] *)
Definition close_done (b : Broker) : res Broker :=
  if done b then Panic else
  Ok (mkBroker (subscriptions b) (sess b) (retained b) (dedupStore b) (offline b) (wills b) (disk b) (rl b) (hk b) (notes b)
        (conns b) (clients b) (inflightLimit b) (maxConnections b) true (outputs b) (remote b)).

(** [c.conn.Close()] for every registered client. *)
Definition close_one (b : Broker) (ci : string * nat) : Broker :=
  match conns b !! ci.2 with Some c => set_client b ci.2 (c_close_conn c) | None => b end.
Definition forceCloseClients (b : Broker) : Broker := foldl close_one b (map_to_list (clients b)).

(** [r.Stop()], if there is a reaper. *)
Definition stop_reaper (r : option bool) : res (option bool) :=
  match r with None => Ok None | Some true => Ok (Some false) | Some false => Panic end.

Definition close_listeners (s : system) : gset nat := list_to_set (listeners s) ∪ closed_lns s.

(** [Serve] up to its wait, which [EReturn] ends. *)
Definition Serve (s : system) (ls : list nat) : res system :=
  match loadFromStorage (br s) with
  | Ok b => Ok (mkSystem b ls (closed_lns s) (list_to_set ls ∪ loops s) Serving (Some true) (dedup_stopped s) (draining s) (accept_errors s) (backlog s))
  | Err e => Ok (mkSystem (br s) (listeners s) (closed_lns s) (loops s) (ServeReturned (Some e)) (reaper s)
                   (dedup_stopped s) (draining s) (accept_errors s) (backlog s))
  | Panic => Panic
  | NoFuel => NoFuel
  end.

(** One round of [acceptLoop]: a connection, or an error. *)
Definition acceptLoop (s : system) (ln : nat) (accepted : option nat) : res system :=
  match accepted with
  | Some id => b ← bstep (br s) (AAccept id); Ok (set_br s b)
  | None =>
      if done (br s)
      then Ok (mkSystem (br s) (listeners s) (closed_lns s) (loops s ∖ {[ln]}) (serve_state s) (reaper s) (dedup_stopped s)
                 (draining s) (accept_errors s) (backlog s))
      else Ok (mkSystem (br s) (listeners s) (closed_lns s) (loops s) (serve_state s) (reaper s) (dedup_stopped s)
                 (draining s) (S (accept_errors s)) (backlog s))
  end.

Definition Stop (s : system) : res system :=
  b ← close_done (br s);
  (if dedup_stopped s then Panic else Ok tt);;
  r ← stop_reaper (reaper s);
  Ok (mkSystem (forceCloseClients b) (listeners s) (close_listeners s) (loops s) (serve_state s) r true (draining s) (accept_errors s) (backlog s)).

(** [GracefulStop] up to its loop. *)
Definition GracefulStop (now timeout : Z) (s : system) : res system :=
  r ← stop_reaper (reaper s);
  Ok (mkSystem (br s) [] (close_listeners s) (loops s) (serve_state s) r (dedup_stopped s)
        (Some (mkDrain (now + timeout) (now + drain_tick))) (accept_errors s) (backlog s)).

Definition end_drain (s : system) (b : Broker) : res system :=
  b ← close_done b;
  Ok (mkSystem b (listeners s) (closed_lns s) (loops s) (serve_state s) (reaper s) (dedup_stopped s) None (accept_errors s) (backlog s)).

(** The two cases of its [select]. *)
Definition drain_deadline (s : system) : res system := end_drain s (forceCloseClients (br s)).
Definition drain_ticked (d : drain) (s : system) : res system :=
  if ClientCount (br s) =? 0 then end_drain s (br s)
  else Ok (mkSystem (br s) (listeners s) (closed_lns s) (loops s) (serve_state s) (reaper s) (dedup_stopped s)
             (Some (mkDrain (dr_deadline d) (dr_next d + drain_tick))) (accept_errors s) (backlog s)).

(** [Addr] and [IsReady]. *)
Definition IsReady (s : system) : bool := 0 <? Z.of_nat (length (listeners s)).
Definition Addr (address : nat → string) (s : system) : string :=
  match listeners s with [] => "" | ln :: _ => address ln end.

(** ** Events *)

Inductive event :=
  | EServe (ls : list nat)
  | EArrive (ln id : nat)
  | EAccept (ln id : nat)
  | EAcceptError (ln : nat)
  | EReturn
  | EHandler (a : action)
  | EStop
  | EGracefulStop (now timeout : Z)
  | EDeadline (now : Z)
  | ETick (now : Z).

(** The handlers that run for connections; the reaper and the cleanup of the duplicates run until
    they are stopped. *)
Definition may_run (s : system) (a : action) : bool :=
  match a with
  | AAccept _ => false
  | AReap _ => bool_decide (reaper s = Some true)
  | ACleanup _ => negb (dedup_stopped s)
  | _ => true
  end.

(** Whether [Accept] can return a connection: the listener is open, or the connection had come to it before
    it was closed. [WSListener.Accept] chooses between its queue and [done], so that it may hand out
    connections of the queue after [Close]; a connection that another listener has handed to the loop just
    before it was closed is also one that had come. *)
Definition acceptable (s : system) (ln id : nat) : bool :=
  bool_decide (ln ∈ loops s) && (bool_decide (ln ∉ closed_lns s) || bool_decide ((ln, id) ∈ backlog s)).

Definition set_backlog (s : system) x : system := mkSystem (br s) (listeners s) (closed_lns s) (loops s) (serve_state s)
  (reaper s) (dedup_stopped s) (draining s) (accept_errors s) x.

(** An event that cannot happen in a state does nothing. *)
Definition step (s : system) (e : event) : res system :=
  match e with
  | EServe ls => match serve_state s with NotServed => Serve s ls | _ => Ok s end
  | EArrive ln id => if bool_decide (ln ∈ closed_lns s) then Ok s else Ok (set_backlog s ({[(ln, id)]} ∪ backlog s))
  | EAccept ln id =>
      if acceptable s ln id then acceptLoop (set_backlog s (backlog s ∖ {[(ln, id)]})) ln (Some id) else Ok s
  | EAcceptError ln => if bool_decide (ln ∈ loops s) then acceptLoop s ln None else Ok s
  | EReturn =>
      match serve_state s with
      | Serving => if done (br s)
                   then Ok (mkSystem (br s) (listeners s) (closed_lns s) (loops s) (ServeReturned None) (reaper s)
                              (dedup_stopped s) (draining s) (accept_errors s) (backlog s)) else Ok s
      | _ => Ok s
      end
  | EHandler a => if may_run s a then b ← bstep (br s) a; Ok (set_br s b) else Ok s
  | EStop => Stop s
  | EGracefulStop now timeout => GracefulStop now timeout s
  | EDeadline now =>
      match draining s with Some d => if dr_deadline d <=? now then drain_deadline s else Ok s | None => Ok s end
  | ETick now =>
      match draining s with Some d => if dr_next d <=? now then drain_ticked d s else Ok s | None => Ok s end
  end.

Fixpoint run (s : system) (evs : list event) : res system :=
  match evs with [] => Ok s | e :: evs => s ← step s e; run s evs end.

(** ** The broker of the system *)

Lemma close_one_keeps (b : Broker) ci : keeps b (close_one b ci).
Proof. unfold close_one. destruct (conns b !! ci.2) as [c|] eqn:Hc; [by eapply keeps_set_client|done]. Qed.
Lemma force_close_keeps b : keeps b (forceCloseClients b).
Proof. apply foldl_keeps, close_one_keeps. Qed.

Lemma close_done_ok b : done b = false → ∃ b', close_done b = Ok b' ∧ keeps b b' ∧ done b' = true.
Proof. unfold close_done. intros ->. eexists. split; [done|]. split; [by apply keeps_same|done]. Qed.

Lemma keeps_dom (b b' : Broker) id : keeps b b' → conns b !! id = None → conns b' !! id = None.
Proof. intros [_ Hk] Hid. specialize (Hk id). rewrite Hid in Hk. by destruct (conns b' !! id). Qed.

Lemma load_keeps b b' : loadFromStorage b = Ok b' → keeps b b'.
Proof.
  unfold loadFromStorage. intros (ss & _ & Hx)%bind_Ok. apply bind_Ok in Hx as (rs & _ & Hx).
  apply bind_Ok in Hx as (b1 & Hw & Hx). apply bind_Ok in Hx as (b2 & Ho & [= <-]).
  transitivity b1.
  { destruct (willStore _) as [ws|]; [apply bind_Ok in Hw as (w & _ & [= <-])|injection Hw as <-]; by apply keeps_same. }
  transitivity b2.
  { destruct (disk b1); [apply bind_Ok in Ho as (os & _ & [= <-])|injection Ho as <-]; by apply keeps_same. }
  apply foldl_keeps. intros b0 [c x]. destruct (negb _); [by apply keeps_same|done].
Qed.

(** ** Invariants *)

(** Nobody has stopped the broker. *)
Record going (s : system) : Prop := {
  go_inv : inv (br s);
  go_done : done (br s) = false;
  go_drain : draining s = None;
  go_reaper : reaper s ≠ Some false;
  go_served : serve_state s = NotServed → reaper s = None ∧ listeners s = [];
  go_loops : loops s ⊆ close_listeners s;
  go_dedup : dedup_stopped s = false
}.

Definition stops (e : event) : bool := match e with EStop | EGracefulStop _ _ => true | _ => false end.
Definition event_ok (e : event) : Prop := match e with EHandler a => action_ok a | _ => True end.

Lemma load_done b b' : loadFromStorage b = Ok b' → done b' = done b.
Proof.
  unfold loadFromStorage. intros (ss & _ & Hx)%bind_Ok. apply bind_Ok in Hx as (rs & _ & Hx).
  apply bind_Ok in Hx as (b1 & Hw & Hx). apply bind_Ok in Hx as (b2 & Ho & [= <-]).
  assert (done b1 = done b) as <-.
  { destruct (willStore _) as [ws|]; [by apply bind_Ok in Hw as (w & _ & [= <-])|by injection Hw as <-]. }
  assert (done b2 = done b1) as <-.
  { destruct (disk b1); [by apply bind_Ok in Ho as (os & _ & [= <-])|by injection Ho as <-]. }
  generalize (map_to_list (sess b2)). intros l. revert b2 Ho. clear Hw.
  assert (∀ b0 l, done (foldl (λ (b0 : Broker) cs, if negb (Sessions.ExpiryInterval cs.2 =? 0)
    then set_subscriptions b0 (foldl (λ idx fq, Subscriptions.Add idx cs.1 fq.1 fq.2) (subscriptions b0)
           (map_to_list (Sessions.Subscriptions cs.2))) else b0) b0 (l : list (string * Sessions.Session))) = done b0) as Hf.
  { intros b0 l0. revert b0. induction l0 as [|x l0 IH]; intros b0; [done|]. cbn. rewrite IH. by destruct (negb _). }
  intros b2 _. apply Hf.
Qed.

(** A running broker goes on as long as nobody stops it. *)
Lemma step_going s e s' : (∀ n, auto_id n ≠ "") → going s → event_ok e → stops e = false → step s e = Ok s' → going s'.
Proof.
  intros Hauto [] He Hs. destruct e as [ls|ln id|ln id|ln| |a| |now t|now|now]; cbn in *; try done.
  - destruct (serve_state s) eqn:Es; try (intros [= <-]; constructor; first [done|intros; congruence]). unfold Serve.
    destruct (loadFromStorage (br s)) as [b| | |] eqn:El; try done; intros [= <-]; constructor; cbn; try done.
    + eapply keeps_inv; [by eapply load_keeps|done].
    + by rewrite (load_done _ _ El).
    + destruct (go_served0 eq_refl) as [_ Hl]. unfold close_listeners in *. cbn. rewrite Hl in go_loops0. set_solver.
  - case_bool_decide; intros [= <-]; by constructor.
  - destruct (acceptable s ln id); [|intros [= <-]; by constructor].
    destruct (conns (br s) !! id) eqn:Ec; cbn; [intros [= <-]; by constructor|]. intros [= <-].
    destruct (bstep_ok (br s) (AAccept id) Hauto go_inv0 I) as (b' & Hb & Hi). pose proof (Hooks.bstep_done _ _ _ Hb) as Hd.
    cbn in Hb. rewrite Ec in Hb. injection Hb as <-. constructor; cbn; [done|congruence|done..].
  - case_bool_decide; [|intros [= <-]; by constructor]. rewrite go_done0. intros [= <-]. by constructor.
  - rewrite go_done0. repeat case_match; intros [= <-]; constructor; first [done|intros; congruence|auto].
  - case_match; [|intros [= <-]; by constructor]. intros (b' & Hb & [= <-])%bind_Ok.
    destruct (bstep_ok (br s) a Hauto go_inv0 He) as (b2 & Hb2 & Hi). rewrite Hb in Hb2. injection Hb2 as <-.
    pose proof (Hooks.bstep_done _ _ _ Hb) as Hd. constructor; cbn; [done|congruence|done..].
  - rewrite go_drain0. intros [= <-]. by constructor.
  - rewrite go_drain0. intros [= <-]. by constructor.
Qed.

Lemma run_going evs s s' : (∀ n, auto_id n ≠ "") → Forall event_ok evs → Forall (λ e, stops e = false) evs →
  going s → run s evs = Ok s' → going s'.
Proof.
  intros Hauto He Hs. revert s. induction evs as [|e evs IH]; intros s Hg; cbn; [by intros [= <-]|].
  apply Forall_cons in He as [He1 He]. apply Forall_cons in Hs as [Hs1 Hs].
  intros (s1 & Hst & Hr)%bind_Ok. apply (IH He Hs s1); [by eapply step_going|done].
Qed.

Lemma new_going d l h : going (new_system d l h).
Proof. constructor; first [done|apply New_inv]. Qed.

(** ** Draining *)

Definition all_closed (b : Broker) : Prop :=
  ∀ cid id (c : Client), clients b !! cid = Some id → conns b !! id = Some c → c_connClosed c = true.

Lemma close_one_lookup (b : Broker) ci id : conns (close_one b ci) !! id = (if decide (id = ci.2) then c_close_conn <$> conns b !! id else conns b !! id).
Proof.
  unfold close_one. case_decide as Hd; [subst id|]; destruct (conns b !! ci.2) as [c|] eqn:E; rewrite ?E; cbn; try done.
  - by rewrite lookup_insert_eq.
  - by rewrite lookup_insert_ne.
Qed.

Lemma close_all_lookup l : ∀ b id,
  conns (foldl close_one b l) !! id = if decide (id ∈ l.*2) then c_close_conn <$> conns b !! id else conns b !! id.
Proof.
  induction l as [|ci l IH]; intros b id; [done|]. cbn [foldl fmap list_fmap]. rewrite IH, close_one_lookup.
  destruct (decide (id = ci.2)) as [->|Hne].
  - rewrite (decide_True (P := ci.2 ∈ ci.2 :: l.*2)) by set_solver. case_decide; [|done]. by destruct (conns b !! ci.2).
  - destruct (decide (id ∈ l.*2)); [rewrite decide_True by set_solver|rewrite decide_False by set_solver]; done.
Qed.

Lemma force_close_all b : all_closed (forceCloseClients b).
Proof.
  intros cid id c Hcl Hc. destruct (force_close_keeps b) as [Hcl' _]. rewrite Hcl' in Hcl.
  unfold forceCloseClients in Hc. rewrite close_all_lookup in Hc.
  rewrite decide_True in Hc; [|apply list_elem_of_fmap; exists (cid, id); split; [done|by apply elem_of_map_to_list]].
  by apply fmap_Some in Hc as (c0 & _ & ->).
Qed.

(** A broker in the loop of [GracefulStop], begun at [t0] with [timeout], or after it. *)
Record stopping (t0 timeout : Z) (s0 s : system) : Prop := {
  st_inv : inv (br s);
  st_served : serve_state s ≠ NotServed;
  st_listeners : listeners s = [];
  st_loops : loops s ⊆ closed_lns s;
  st_reaper : reaper s ≠ Some true;
  st_dedup : dedup_stopped s = false;
  st_backlog : ∀ ln id, ln ∈ loops s → (ln, id) ∈ backlog s → (ln, id) ∈ backlog s0;
  st_conns : ∀ id, conns (br s0) !! id = None → (∀ ln, (ln, id) ∉ backlog s0) → conns (br s) !! id = None;
  st_drain : match draining s with
             | Some d => done (br s) = false ∧ dr_deadline d = t0 + timeout ∧ t0 + drain_tick ≤ dr_next d
             | None => done (br s) = true
             end
}.

(** Events that end the loop in the state [s]: its ticker fires and no client is left, or its deadline is over. *)
Definition over (t0 timeout : Z) (s : system) (e : event) : Prop :=
  match e with
  | ETick now => ClientCount (br s) = 0 ∧ ∃ d, draining s = Some d ∧ dr_next d ≤ now
  | EDeadline now => t0 + timeout ≤ now
  | _ => False
  end.

Lemma count_zero (b : Broker) : ClientCount b = 0 → clients b = ∅.
Proof. unfold ClientCount. intros Hc. apply map_size_empty_inv. lia. Qed.

(** The handlers that run in a broker that is draining: those of its connections, and the acceptance of a
    connection that had already come. *)
Definition served (s : system) (e : event) : list action :=
  match e with
  | EHandler (AAccept _) | EHandler (AReap _) => []
  | EHandler a => [a]
  | EAccept ln id => if acceptable s ln id then [AAccept id] else []
  | _ => []
  end.
Fixpoint served_all (s : system) (evs : list event) : list action :=
  match evs with
  | [] => []
  | e :: evs => served s e ++ match step s e with Ok s' => served_all s' evs | _ => [] end
  end.

(** What an event does to the loop. *)
Record moved (t0 timeout : Z) (s0 s : system) (e : event) (s' : system) : Prop := {
  mv_stopping : stopping t0 timeout s0 s';
  mv_done : done (br s) = true → done (br s') = true;
  mv_ends : done (br s) = false → done (br s') = true → over t0 timeout s e ∧ all_closed (br s');
  mv_over : over t0 timeout s e → done (br s') = true;
  mv_served : done (br s') = false → fold_res bstep (br s) (served s e) = Ok (br s')
}.

Lemma moved_quiet t0 timeout s0 s e s' : stopping t0 timeout s0 s' → done (br s') = done (br s) →
  fold_res bstep (br s) (served s e) = Ok (br s') → (over t0 timeout s e → done (br s) = true) → moved t0 timeout s0 s e s'.
Proof. intros Hs Hd Hb He. constructor; [done|congruence..| |done]. intros Hn. rewrite Hd. auto. Qed.

Lemma may_run_served s a : reaper s ≠ Some true → dedup_stopped s = false →
  served s (EHandler a) = if may_run s a then [a] else [].
Proof. intros Hr Hd. destruct a; cbn; try done; [by rewrite bool_decide_false|by rewrite Hd]. Qed.

(** The state with another broker. *)
Lemma stopping_set_br t0 timeout s0 s b : stopping t0 timeout s0 s → inv b → done b = done (br s) →
  (∀ id, conns (br s) !! id = None → (∀ ln, (ln, id) ∉ backlog s0) → conns b !! id = None) → stopping t0 timeout s0 (set_br s b).
Proof. intros [] Hi Hd Hc. constructor; cbn; auto. by rewrite Hd. Qed.

Lemma end_drain_moved t0 timeout s0 s e b : stopping t0 timeout s0 s → is_Some (draining s) → keeps (br s) b →
  done b = done (br s) → all_closed b → over t0 timeout s e → ∃ s', end_drain s b = Ok s' ∧ moved t0 timeout s0 s e s'.
Proof.
  intros [] [d Hd] Hk Hdn Hcl He. rewrite Hd in st_drain0. destruct st_drain0 as (Hf & _).
  destruct (close_done_ok b) as (b' & Hb' & Hk' & Hd'); [congruence|]. unfold end_drain. rewrite Hb'. cbn [mbind res_bind].
  eexists. split; [done|]. assert (keeps (br s) b') as Hk2 by by transitivity b.
  unfold close_done in Hb'. rewrite Hdn, Hf in Hb'. constructor; cbn; try done.
  - constructor; cbn; try done; [by eapply keeps_inv|]. intros id Hid Hw. eapply keeps_dom; [exact Hk2|auto].
  - intros _ _. split; [done|]. injection Hb' as <-. exact Hcl.
  - congruence.
Qed.

Lemma force_close_done b : done (forceCloseClients b) = done b.
Proof.
  unfold forceCloseClients. generalize (map_to_list (clients b)). intros l. revert b.
  induction l as [|ci l IH]; intros b; [done|]. cbn. rewrite IH. unfold close_one. by destruct (conns b !! ci.2).
Qed.

Lemma acceptConn_other (b : Broker) id id0 : id0 ≠ id → conns (acceptConn b id) !! id0 = conns b !! id0.
Proof.
  intros Hne. unfold acceptConn. destruct (AllowConnect (rl b)). repeat case_match; try done. cbn. by rewrite lookup_insert_ne.
Qed.

Lemma step_stopping t0 timeout s0 s e : (∀ n, auto_id n ≠ "") → stopping t0 timeout s0 s → event_ok e → stops e = false →
  ∃ s', step s e = Ok s' ∧ moved t0 timeout s0 s e s'.
Proof.
  intros Hauto Hst He Hs. pose proof Hst as [Hi Hsv Hl Hlo Hrp Hdd Hbl Hco Hd].
  destruct e as [ls|ln id|ln id|ln| |a| |now t|now|now]; cbn in *; try done.
  - exists s. split; [by destruct (serve_state s)|by apply moved_quiet].
  - case_bool_decide as Hcl; [exists s; split; [done|by apply moved_quiet]|].
    eexists. split; [done|]. apply moved_quiet; [|done..|by intros []]. constructor; cbn; try done.
    intros ln0 id0 Hin [[= -> ->]%elem_of_singleton|?]%elem_of_union; [|by auto]. by apply Hlo in Hin.
  - destruct (acceptable s ln id) eqn:Ea; [|exists s; split; [done|by apply moved_quiet; [..|cbn; rewrite Ea|]]].
    assert (ln ∈ loops s ∧ (ln, id) ∈ backlog s) as [Hin Hw].
    { unfold acceptable in Ea. apply andb_true_iff in Ea as [H1'%bool_decide_eq_true [H2'%bool_decide_eq_true|H2'%bool_decide_eq_true]%orb_true_iff];
        [|done]. by apply Hlo in H1'. }
    set (s1 := set_backlog s _). assert (stopping t0 timeout s0 s1) as Hst1 by (constructor; cbn; try done; set_solver +Hbl).
    destruct (bstep_ok (br s) (AAccept id) Hauto Hi I) as (b & Hb & Hib). pose proof (Hooks.bstep_done _ _ _ Hb) as Hdb.
    exists (set_br s1 b). split; [cbn in Hb; by rewrite Hb|]. apply moved_quiet; [|done| |by intros []].
    + apply stopping_set_br; [done..|]. intros id0 Hid Hnw. assert (id0 ≠ id) as Hne by (intros ->; apply (Hnw ln); auto).
      cbn in Hb. destruct (conns (br s) !! id); injection Hb as <-; [done|]. by rewrite acceptConn_other.
    + cbn [served]. rewrite Ea. cbn [fold_res set_br br]. rewrite Hb. done.
  - case_bool_decide; [|exists s; split; [done|by apply moved_quiet]].
    destruct (done (br s)) eqn:Ed; (eexists; split; [done|]); (apply moved_quiet; [|by cbn|done|done]); constructor; cbn; first [done|set_solver +Hlo|set_solver +Hbl|by rewrite Ed].
  - destruct (serve_state s) eqn:Es; [done| |exists s; split; [done|by apply moved_quiet]].
    destruct (done (br s)) eqn:Ed; [|exists s; split; [done|by apply moved_quiet]].
    eexists. split; [done|]. apply moved_quiet; [|by cbn|done|done]. constructor; cbn; first [done|by rewrite Ed].
  - pose proof (may_run_served s a Hrp Hdd) as Hsr.
    destruct (may_run s a) eqn:Em; [|exists s; split; [done|apply moved_quiet; [done..|by cbn [omap list_omap]; rewrite Hsr|done]]].
    destruct (bstep_ok (br s) a Hauto Hi He) as (b & Hb & Hib). rewrite Hb. cbn [mbind res_bind]. eexists. split; [done|].
    pose proof (Hooks.bstep_done _ _ _ Hb) as Hdb. apply moved_quiet; [|done| |done].
    + apply stopping_set_br; [done..|]. intros id Hid _. eapply Hooks.bstep_conns; [|exact Hb|exact Hid]. by destruct a.
    + cbn [omap list_omap]. rewrite Hsr. cbn. by rewrite Hb.
  - destruct (draining s) as [d|] eqn:Ed; [|exists s; split; [done|by apply moved_quiet]].
    destruct Hd as (Hdn & Hdl & Hnx). destruct (Z.leb_spec (dr_deadline d) now) as [Hle|Hlt].
    + apply end_drain_moved; [done|by rewrite Ed|apply force_close_keeps|apply force_close_done|apply force_close_all|].
      cbn. lia.
    + exists s. split; [done|]. apply moved_quiet; [done..|]. cbn. lia.
  - destruct (draining s) as [d|] eqn:Ed; [|exists s; split; [done|by apply moved_quiet]].
    destruct Hd as (Hdn & Hdl & Hnx). destruct (Z.leb_spec (dr_next d) now) as [Hle|Hlt].
    + unfold drain_ticked. destruct (Z.eqb_spec (ClientCount (br s)) 0) as [Hc|Hc].
      * apply end_drain_moved; [done|by rewrite Ed|done|done| |split; [done|by exists d]].
        intros cid id c Hcl. by rewrite (count_zero _ Hc) in Hcl.
      * eexists. split; [done|]. apply moved_quiet; [|done|done|by intros []]. constructor; cbn; try done.
        split_and!; [done|done|unfold drain_tick, Millisecond in *; lia].
    + exists s. split; [done|]. apply moved_quiet; [done..|]. intros (_ & d' & E & Hn). rewrite Ed in E. injection E as <-. lia.
Qed.

Lemma events_app evs1 evs2 s : run s (evs1 ++ evs2) = (s ← run s evs1; run s evs2).
Proof. revert s. induction evs1 as [|e evs1 IH]; intros s; cbn; [done|]. destruct (step s e); cbn; [apply IH|done..]. Qed.

(** What happens until [s'] when the events [evs] happen to a broker in the loop. *)
Record drained (t0 timeout : Z) (s0 s : system) (evs : list event) (s' : system) : Prop := {
  dn_stopping : stopping t0 timeout s0 s';
  dn_done : done (br s) = true → done (br s') = true;
  dn_served : done (br s') = false → fold_res bstep (br s) (served_all s evs) = Ok (br s');
  dn_ends : done (br s) = false → done (br s') = true → ∃ pre e post sr sr', evs = pre ++ e :: post ∧
    run s pre = Ok sr ∧ done (br sr) = false ∧ over t0 timeout sr e ∧ step sr e = Ok sr' ∧ all_closed (br sr')
}.

Lemma run_stopping t0 timeout s0 evs : (∀ n, auto_id n ≠ "") → ∀ s, stopping t0 timeout s0 s →
  Forall event_ok evs → Forall (λ e, stops e = false) evs →
  ∃ s', run s evs = Ok s' ∧ drained t0 timeout s0 s evs s'.
Proof.
  intros Hauto. induction evs as [|e evs IH]; intros s Hs He Hp.
  { exists s. split; [done|]. constructor; [done..|congruence]. }
  apply Forall_cons in He as [He1 He]. apply Forall_cons in Hp as [Hp1 Hp].
  destruct (step_stopping t0 timeout s0 s e Hauto Hs He1 Hp1) as (s1 & Hs1 & [Hst Hd He' _ Hsv]).
  destruct (IH s1 Hst He Hp) as (s2 & Hr & [Hst2 Hd2 Hsv2 He2]). exists s2. cbn. rewrite Hs1. cbn. split; [done|].
  constructor; [done|auto| |].
  { intros Hf. destruct (done (br s1)) eqn:E1; [rewrite Hd2 in Hf; done|].
    cbn [served_all]. rewrite Hs1. eapply fold_res_app; [by apply Hsv|by apply Hsv2]. }
  intros Hf Ht. destruct (done (br s1)) eqn:E1.
  - destruct (He' Hf eq_refl) as [Ho Hcl]. by exists [], e, evs, s, s1.
  - destruct (He2 eq_refl Ht) as (pre & e' & post & sr & sr' & -> & Hpre & Hrest).
    exists (e :: pre), e', post, sr, sr'. cbn. rewrite Hs1. done.
Qed.

Lemma over_done t0 timeout s0 s e post s' : (∀ n, auto_id n ≠ "") → stopping t0 timeout s0 s →
  event_ok e → stops e = false → Forall event_ok post → Forall (λ e, stops e = false) post →
  over t0 timeout s e → run s (e :: post) = Ok s' → done (br s') = true.
Proof.
  intros Hauto Hs He Hp Hes Hps Ho. destruct (step_stopping t0 timeout s0 s e Hauto Hs He Hp) as (s1 & Hs1 & [Hs2 _ _ Hov _]).
  destruct (run_stopping t0 timeout s0 post Hauto s1 Hs2 Hes Hps) as (s2 & Hr & [_ Hd _ _]).
  cbn. rewrite Hs1. cbn. rewrite Hr. intros [= <-]. auto.
Qed.

Lemma graceful_stopping t0 timeout s : going s → serve_state s ≠ NotServed →
  ∃ s', GracefulStop t0 timeout s = Ok s' ∧ stopping t0 timeout s s' ∧ br s' = br s.
Proof.
  intros [] Hs. assert (∃ r, stop_reaper (reaper s) = Ok r ∧ r ≠ Some true) as (r & Hr & Hr').
  { unfold stop_reaper. destruct (reaper s) as [[]|]; [by eexists|done|by eexists]. }
  unfold GracefulStop. rewrite Hr. cbn [mbind res_bind]. eexists. split; [done|]. split; [|done].
  constructor; cbn; auto; split_and!; [done|done|lia].
Qed.

(** C7: [GracefulStop] on a broker that serves, its handlers taken one at a time: from its call on the broker
    is not ready, and the only connections that are still accepted are those that had come to a listener
    before it was closed (a WebSocket listener hands out what is left in its queue). Until the loop ends,
    the broker is what its handlers make of it: no connection is closed by the stop and the reaper is
    silent. The loop ends when its ticker finds no client or its deadline is over, and at no other time;
    then the connection of every registered client is closed. Nothing that happens in between makes the
    broker panic, as long as nobody calls [Stop] or [GracefulStop] a second time (which panics) and no
    message is sent to a connection while it is being closed (which panics with or without a stop). *)
Theorem graceful_shutdown (d : option db) (l : limiter) (h : hooks) (evs1 evs2 : list event) (s : system) (t0 timeout : Z) :
  (∀ n, auto_id n ≠ "") →
  Forall event_ok (evs1 ++ evs2) → Forall (λ e, stops e = false) (evs1 ++ evs2) →
  run (new_system d l h) evs1 = Ok s → serve_state s ≠ NotServed →
  ∃ s', run s (EGracefulStop t0 timeout :: evs2) = Ok s' ∧
    IsReady s' = false ∧
    (∀ id, conns (br s) !! id = None → (∀ ln, (ln, id) ∉ backlog s) → conns (br s') !! id = None) ∧
    (done (br s') = false → ∃ s1, GracefulStop t0 timeout s = Ok s1 ∧ fold_res bstep (br s) (served_all s1 evs2) = Ok (br s')) ∧
    (done (br s') = true → ∃ pre e post sr sr', evs2 = pre ++ e :: post ∧
       run s (EGracefulStop t0 timeout :: pre) = Ok sr ∧ done (br sr) = false ∧ over t0 timeout sr e ∧
       step sr e = Ok sr' ∧ all_closed (br sr')) ∧
    (∀ pre e post sr, evs2 = pre ++ e :: post → run s (EGracefulStop t0 timeout :: pre) = Ok sr →
       over t0 timeout sr e → done (br s') = true).
Proof.
  intros Hauto [He1 He2]%Forall_app [Hp1 Hp2]%Forall_app Hr Hs.
  pose proof (run_going evs1 _ _ Hauto He1 Hp1 (new_going d l h) Hr) as Hg.
  destruct (graceful_stopping t0 timeout s Hg Hs) as (s1 & Hs1 & Hst & Hbr).
  destruct (run_stopping t0 timeout s evs2 Hauto s1 Hst He2 Hp2) as (s' & Hr2 & [Hst' Hd Hsv Hends]).
  assert (∀ evs, run s (EGracefulStop t0 timeout :: evs) = run s1 evs) as Hrun by (intros evs; cbn; by rewrite Hs1).
  exists s'. rewrite Hrun. split_and!.
  - done.
  - unfold IsReady. by rewrite (st_listeners _ _ _ _ Hst').
  - apply Hst'.
  - intros Hf. exists s1. split; [done|]. rewrite <- Hbr. auto.
  - intros Ht. destruct Hends as (pre & e & post & sr & sr' & Hrest); [by rewrite Hbr; apply Hg|done|].
    exists pre, e, post, sr, sr'. by rewrite Hrun.
  - intros pre e post sr -> Hpre Ho. rewrite Hrun in Hpre.
    apply Forall_app in He2 as [He3 [He4 He5]%Forall_cons], Hp2 as [Hp3 [Hp4 Hp5]%Forall_cons].
    destruct (run_stopping t0 timeout s pre Hauto s1 Hst) as (sr' & Hpre' & [Hstr _ _ _]); [done..|].
    rewrite Hpre in Hpre'. injection Hpre' as <-. eapply over_done; [done..|]. by rewrite events_app, Hpre in Hr2.
Qed.

(** *** What goes wrong *)

(** The channel [done] is closed once: a second stop, or one after the loop of [GracefulStop] has
    ended, panics. *)
Lemma second_stop_panics s s' : Stop s = Ok s' → Stop s' = Panic.
Proof.
  unfold Stop, close_done at 1. destruct (done (br s)); [done|]. cbn [mbind res_bind].
  destruct (dedup_stopped s); [done|]. cbn [mbind res_bind]. intros (r & _ & [= <-])%bind_Ok.
  unfold close_done. cbn. by rewrite force_close_done.
Qed.

Lemma drained_stop_panics s b s' : end_drain s b = Ok s' → Stop s' = Panic ∧ ∀ b', done b' = done (br s') → end_drain s' b' = Panic.
Proof.
  unfold end_drain. intros (b1 & Hb & [= <-])%bind_Ok. cbn. assert (done b1 = true) as Hd.
  { unfold close_done in Hb. destruct (done b); [done|]. by injection Hb as <-. }
  split; [|intros b' Hb'; unfold close_done; by rewrite Hb', Hd]. unfold Stop, close_done. cbn. by rewrite Hd.
Qed.

(** While the broker drains, every loop retries: [Accept] on its closed listener fails at once, and each
    round logs an error. *)
Lemma drain_spins n : ∀ s ln, ln ∈ loops s → done (br s) = false →
  ∃ s', run s (repeat (EAcceptError ln) n) = Ok s' ∧ accept_errors s' = (n + accept_errors s)%nat ∧ ln ∈ loops s'.
Proof.
  induction n as [|n IH]; intros s ln Hl Hd; [by exists s|]. cbn. rewrite bool_decide_true by done. rewrite Hd. cbn.
  destruct (IH (mkSystem (br s) (listeners s) (closed_lns s) (loops s) (serve_state s) (reaper s) (dedup_stopped s)
    (draining s) (S (accept_errors s)) (backlog s)) ln Hl Hd) as (s' & Hr & He & Hl'). exists s'. split_and!; [done|rewrite He; cbn; lia|done].
Qed.

End Lifecycle.
Arguments system db {_}.
(** ** A broker with two clients *)

#[local] Existing Instance open_env.

Definition start : system Storage.mem_db := new_system (Some empty_db) tt tt.

(** Client [a] (connection 1) keeps its session for ten seconds, client [b] (connection 2) does not. *)
Definition opening : list event :=
  [EServe [0%nat]; EAccept 0 1; EHandler (AConnect 0 1 (head CONNECT 0) (connect_data 5 "a" true (Some 10)));
   EHandler (APacket 0 1 (head SUBSCRIBE 0) (subscribe_data 5 "t" 1));
   EAccept 0 2; EHandler (AConnect 0 2 (head CONNECT 0) (connect_data 4 "b" true None))].
Definition open_system : system Storage.mem_db := match run start opening with Ok s => s | _ => start end.

(** Both clients leave between two ticks. *)
Definition leaving : list event :=
  [EHandler (APacket 0 2 (head PUBLISH 0) (publish_data "t" 0 0 [104; 105])); EAcceptError 0; EArrive 0 3; EAccept 0 3;
   ETick drain_tick; EHandler (AClose drain_tick 1); EHandler (AClose drain_tick 2); ETick Second].

Lemma opening_ok : Forall event_ok (opening ++ leaving).
Proof. repeat (constructor; [first [exact I|apply bytes_decide; by vm_compute]|]). constructor. Qed.

Lemma open_system_ok : run start opening = Ok open_system.
Proof.
  assert (is_ok (run start opening) = true) as Hok by (vm_compute; reflexivity).
  unfold open_system. by destruct (run start opening).
Qed.

Lemma both_left :
  ∃ sr, run open_system (EGracefulStop 0 (30 * Second) :: take 7 leaving) = Ok sr ∧ ClientCount (br sr) = 0 ∧
    draining sr = Some (mkDrain (30 * Second) Second).
Proof. apply ok_exists. vm_compute. split; reflexivity. Qed.

Lemma graceful_shutdown_witness :
  ∃ s', run open_system (EGracefulStop 0 (30 * Second) :: leaving) = Ok s' ∧ IsReady s' = false ∧
    conns (br s') !! 3%nat = None ∧ done (br s') = true.
Proof.
  destruct (graceful_shutdown (Some empty_db) (tt : @limiter open_env) (tt : @hooks open_env) opening leaving open_system 0 (30 * Second))
    as (s' & Hr & Hn & Hc & _ & _ & Ho);
    [done|apply opening_ok|repeat constructor|apply open_system_ok|vm_compute; discriminate|].
  exists s'. split_and!; [exact Hr|exact Hn|apply Hc; [vm_compute; reflexivity|]|].
  { assert (backlog open_system = ∅) as Hb by (vm_compute; reflexivity). intros ln. rewrite Hb. apply not_elem_of_empty. }
  assert (∃ sr, run open_system (EGracefulStop 0 (30 * Second) :: take 7 leaving) = Ok sr ∧ over 0 (30 * Second) sr (ETick Second)) as (sr & Hsr & Hov).
  { destruct both_left as (sr & Hsr & Hz & Hd). exists sr. split; [exact Hsr|]. split; [exact Hz|].
    exists (mkDrain (30 * Second) Second). split; [exact Hd|cbn; lia]. }
  exact (Ho (take 7 leaving) (ETick Second) [] sr eq_refl Hsr Hov).
Defined.

(** A connection that waits in the queue of a listener is accepted after the stop has begun, and its client
    is served. *)
Lemma queued_accepted_after_stop :
  ∃ s', run open_system [EArrive 0 3; EGracefulStop 0 (30 * Second); EAccept 0 3;
      EHandler (AConnect Second 3 (head CONNECT 0) (connect_data 4 "c" true None))] = Ok s' ∧
    IsReady s' = false ∧ clients (br s') !! "c" = Some 3%nat.
Proof. apply ok_exists. vm_compute. split; reflexivity. Qed.

(** A connection that has not sent its CONNECT is not waited for and stays open. *)
Lemma handshake_not_drained :
  ∃ s', run start [EServe [0%nat]; EAccept 0 1; EGracefulStop 0 (30 * Second); ETick drain_tick] = Ok s' ∧
    done (br s') = true ∧ c_connClosed <$> conns (br s') !! 1%nat = Some false.
Proof. apply ok_exists. vm_compute. split; reflexivity. Qed.

(** [GracefulStop] before [Serve] has stored its listeners: they are opened all the same, clients
    connect, and the loop ends without closing them. *)
Lemma stop_before_serve :
  ∃ s', run start (EGracefulStop 0 (30 * Second) :: EServe [0%nat] :: EAccept 0 1 :: [ETick drain_tick; EAccept 0 2;
      EHandler (AConnect Second 2 (head CONNECT 0) (connect_data 4 "b" true None))]) = Ok s' ∧
    done (br s') = true ∧ IsReady s' = true ∧ clients (br s') !! "b" = Some 2%nat ∧
    c_connClosed <$> conns (br s') !! 2%nat = Some false.
Proof. apply ok_exists. vm_compute. split_and!; reflexivity. Qed.

(** The session of a client whose connection the shutdown closes is not marked as disconnected: it
    is read again at the next start and never expires. *)
Lemma shutdown_session_never_expires :
  ∃ s', run open_system [EGracefulStop 0 Second; EDeadline Second; EHandler (AClose Second 1)] = Ok s' ∧
    ∃ ses, sess (br s') !! "a" = Some ses ∧ Sessions.ExpiryInterval ses = 10 ∧ ∀ now, Sessions.session_expired now ses = false.
Proof.
  assert (∃ s', run open_system [EGracefulStop 0 Second; EDeadline Second; EHandler (AClose Second 1)] = Ok s' ∧
    (λ ses, (Sessions.ExpiryInterval ses, Sessions.DisconnectedAt ses)) <$> sess (br s') !! "a" = Some (10, None))
    as (s' & Hs & Hm) by (apply ok_exists; vm_compute; reflexivity).
  exists s'. split; [exact Hs|]. apply fmap_Some in Hm as (ses & Hses & [= He Hd]).
  exists ses. split_and!; [exact Hses|by rewrite <- He|]. intros now. unfold Sessions.session_expired. by rewrite <- Hd.
Qed.

(** What [close] does to the store once the broker is done: only a part of it is skipped. The session of
    a client whose connection the shutdown closed is deleted in the store, which [main] closes as soon
    as [GracefulStop] has returned. *)
Lemma store_used_after_stop :
  ∃ s1, run open_system [EGracefulStop 0 Second; EDeadline Second] = Ok s1 ∧ done (br s1) = true ∧
    (λ d : Storage.mem_db, bool_decide (is_Some (d !! "s/b"))) <$> disk (br s1) = Some true ∧
    ∃ s2, run s1 [EHandler (AClose Second 2)] = Ok s2 ∧
      (λ d : Storage.mem_db, bool_decide (is_Some (d !! "s/b"))) <$> disk (br s2) = Some false.
Proof.
  assert (match run open_system [EGracefulStop 0 Second; EDeadline Second] with
    | Ok s1 => (done (br s1) = true ∧ (λ d : Storage.mem_db, bool_decide (is_Some (d !! "s/b"))) <$> disk (br s1) = Some true) ∧
        match run s1 [EHandler (AClose Second 2)] with
        | Ok s2 => (λ d : Storage.mem_db, bool_decide (is_Some (d !! "s/b"))) <$> disk (br s2) = Some false
        | _ => False
        end
    | _ => False
    end) as Hr by (vm_compute; split_and!; reflexivity).
  apply ok_exists in Hr as (s1 & Hs1 & [Hd Hb] & Hr). apply ok_exists in Hr as (s2 & Hs2 & Hr).
  exists s1. split; [exact Hs1|]. split; [exact Hd|]. split; [exact Hb|]. exists s2. split; [exact Hs2|exact Hr].
Qed.

End Lifecycle.
