(* ===== verification/Connections.v ===== *)
(** * The cluster's connection index ([internal/cluster/connections.go])

    Which node each device is connected to, kept in both directions. The specification is the
    plain map from devices to nodes; [ConnectionIndex_refines] says that both directions always
    agree with it. *)
From S2P Require Import Prelude.

Module Connections.

Record ConnectionIndex := mkConns {
  devices : gmap string string;
  byNode : gmap string (gset string);
  migrating : gmap string bool
}.

Definition NewConnectionIndex : ConnectionIndex := mkConns ∅ ∅ ∅.

(** Take a device out of a node's set, and the set out of the index once it is empty. *)
Definition drop_device (deviceID nodeID : string) (m : gmap string (gset string)) : gmap string (gset string) :=
  match m !! nodeID with
  | Some devs =>
      let devs := devs ∖ {[deviceID]} in
      if decide (size devs = 0%nat) then delete nodeID m else <[nodeID := devs]> m
  | None => m
  end.

Definition Add (idx : ConnectionIndex) (deviceID nodeID : string) : ConnectionIndex :=
  let bn :=
    match devices idx !! deviceID with
    | Some prev => if bool_decide (prev = nodeID) then byNode idx else drop_device deviceID prev (byNode idx)
    | None => byNode idx
    end in
  mkConns (<[deviceID := nodeID]> (devices idx))
    (<[nodeID := {[deviceID]} ∪ default ∅ (bn !! nodeID)]> bn) (migrating idx).

Definition Remove (idx : ConnectionIndex) (deviceID : string) : ConnectionIndex :=
  match devices idx !! deviceID with
  | None => idx
  | Some nodeID =>
      mkConns (delete deviceID (devices idx)) (drop_device deviceID nodeID (byNode idx)) (migrating idx)
  end.

Definition RemoveNode (idx : ConnectionIndex) (nodeID : string) : ConnectionIndex :=
  match byNode idx !! nodeID with
  | None => idx
  | Some devs =>
      mkConns (foldl (λ m d, delete d m) (devices idx) (elements devs)) (delete nodeID (byNode idx)) (migrating idx)
  end.

Definition Lookup (idx : ConnectionIndex) (deviceID : string) : option string := devices idx !! deviceID.

Definition NodeDevices (idx : ConnectionIndex) (nodeID : string) : list string :=
  match byNode idx !! nodeID with Some devs => elements devs | None => [] end.

Definition Count (idx : ConnectionIndex) : Z := Z.of_nat (size (devices idx)).

Definition SetMigrating (idx : ConnectionIndex) (deviceID : string) (b : bool) : ConnectionIndex :=
  mkConns (devices idx) (byNode idx)
    (if b then <[deviceID := true]> (migrating idx) else delete deviceID (migrating idx)).

Definition IsMigrating (idx : ConnectionIndex) (deviceID : string) : bool :=
  default false (migrating idx !! deviceID).

Definition MigratingDevices (idx : ConnectionIndex) : list string := (map_to_list (migrating idx)).*1.

Definition ClearAllMigrating (idx : ConnectionIndex) : ConnectionIndex :=
  mkConns (devices idx) (byNode idx) ∅.

(** ** Invariant *)

(** The reverse index holds exactly the devices of each node, and no empty set. *)
Definition reverse_of (devs : gmap string string) (bn : gmap string (gset string)) : Prop :=
  (∀ d n, devs !! d = Some n ↔ d ∈ default ∅ (bn !! n)) ∧ (∀ n s, bn !! n = Some s → s ≠ ∅).

Definition index_ok (idx : ConnectionIndex) : Prop := reverse_of (devices idx) (byNode idx).

Lemma drop_device_elem deviceID nodeID m d n :
  d ∈ default ∅ (drop_device deviceID nodeID m !! n) ↔
  d ∈ default ∅ (m !! n) ∧ ¬ (n = nodeID ∧ d = deviceID).
Proof.
  unfold drop_device. destruct (m !! nodeID) as [s|] eqn:Hs.
  - case_decide as Hsz.
    + apply size_empty_inv in Hsz. destruct (decide (n = nodeID)) as [->|Hn].
      * rewrite lookup_delete_eq, Hs. cbn. set_solver.
      * rewrite lookup_delete_ne by done. naive_solver.
    + destruct (decide (n = nodeID)) as [->|Hn].
      * rewrite lookup_insert_eq, Hs. cbn. set_solver.
      * rewrite lookup_insert_ne by done. naive_solver.
  - destruct (decide (n = nodeID)) as [->|Hn]; [rewrite Hs; set_solver|naive_solver].
Qed.

Lemma drop_device_nonempty deviceID nodeID m :
  (∀ n s, m !! n = Some s → s ≠ ∅) → ∀ n s, drop_device deviceID nodeID m !! n = Some s → s ≠ ∅.
Proof.
  intros Hm n s. unfold drop_device. destruct (m !! nodeID) as [s'|] eqn:Hs; [|by apply Hm].
  case_decide as Hsz.
  - intros [_ H]%lookup_delete_Some. by eapply Hm.
  - intros [[_ <-]|[_ H]]%lookup_insert_Some; [|by eapply Hm].
    intros He. apply Hsz. rewrite He. apply size_empty.
Qed.

Lemma reverse_drop devs bn deviceID nodeID :
  reverse_of devs bn → devs !! deviceID = Some nodeID →
  reverse_of (delete deviceID devs) (drop_device deviceID nodeID bn).
Proof.
  intros [Hr Hne] Hd. split; [|by apply drop_device_nonempty].
  intros d n. rewrite drop_device_elem, lookup_delete_Some, Hr. split; [naive_solver|].
  intros [Hin Hno]. split; [|done]. intros <-. apply Hr in Hin. naive_solver.
Qed.

Lemma reverse_insert devs bn deviceID nodeID :
  reverse_of devs bn → devs !! deviceID = None ∨ devs !! deviceID = Some nodeID →
  reverse_of (<[deviceID := nodeID]> devs) (<[nodeID := {[deviceID]} ∪ default ∅ (bn !! nodeID)]> bn).
Proof.
  intros [Hr Hne] Hd. split.
  - intros d n. rewrite lookup_insert_Some, Hr. destruct (decide (n = nodeID)) as [->|Hn].
    + rewrite lookup_insert_eq. unfold default, from_option, id. rewrite elem_of_union, elem_of_singleton.
      destruct (decide (deviceID = d)); naive_solver.
    + rewrite lookup_insert_ne by done. split; [naive_solver|].
      intros Hin. right. split; [|done]. intros ->. apply Hr in Hin. naive_solver.
  - intros n s [[_ <-]|[_ H]]%lookup_insert_Some; [set_solver|by eapply Hne].
Qed.

Lemma conn_Add_ok idx d n : index_ok idx → index_ok (Add idx d n).
Proof.
  intros Hok. unfold Add, index_ok in *. cbn. destruct (devices idx !! d) as [prev|] eqn:Hd.
  - case_bool_decide as Hp; [subst; apply reverse_insert; auto|].
    replace (<[d := n]> (devices idx)) with (<[d := n]> (delete d (devices idx)))
      by apply insert_delete_eq.
    apply reverse_insert; [by apply reverse_drop|]. left. apply lookup_delete_eq.
  - apply reverse_insert; auto.
Qed.

Lemma conn_Remove_ok idx d : index_ok idx → index_ok (Remove idx d).
Proof.
  intros Hok. unfold Remove. destruct (devices idx !! d) as [n|] eqn:Hd; [|done].
  by apply reverse_drop.
Qed.

Lemma foldl_delete {A} (m : gmap string A) (l : list string) d :
  foldl (λ m d, delete d m) m l !! d = if decide (d ∈ l) then None else m !! d.
Proof.
  revert m. induction l as [|x l IH]; intros m; cbn; [by rewrite decide_False by set_solver|].
  rewrite IH. destruct (decide (d = x)) as [->|Hx].
  - rewrite lookup_delete_eq. rewrite (decide_True (P := x ∈ x :: l)) by set_solver. by case_decide.
  - rewrite lookup_delete_ne by done. repeat case_decide; set_solver.
Qed.

Lemma RemoveNode_lookup idx n d : index_ok idx →
  Lookup (RemoveNode idx n) d = if decide (Lookup idx d = Some n) then None else Lookup idx d.
Proof.
  intros [Hr _]. unfold RemoveNode, Lookup. destruct (byNode idx !! n) as [s|] eqn:Hs; cbn.
  - rewrite foldl_delete. specialize (Hr d n). rewrite Hs in Hr. cbn in Hr.
    repeat case_decide; set_solver.
  - specialize (Hr d n). rewrite Hs in Hr. cbn in Hr. case_decide; set_solver.
Qed.

Lemma NodeDevices_elem idx n d : index_ok idx → d ∈ NodeDevices idx n ↔ Lookup idx d = Some n.
Proof.
  intros [Hr _]. unfold Lookup, NodeDevices. rewrite Hr.
  destruct (byNode idx !! n) as [s|]; cbn; [apply elem_of_elements|set_solver].
Qed.

Lemma RemoveNode_ok idx n : index_ok idx → index_ok (RemoveNode idx n).
Proof.
  intros Hok. pose proof (λ d, RemoveNode_lookup idx n d Hok) as Hl. destruct Hok as [Hr Hne].
  revert Hl. unfold RemoveNode, Lookup. destruct (byNode idx !! n) as [s|] eqn:Hs; [|done].
  cbn. intros Hl. split; cbn.
  - intros d n'. rewrite Hl. destruct (decide (n' = n)) as [->|Hn].
    + rewrite lookup_delete_eq. cbn. case_decide; set_solver.
    + rewrite lookup_delete_ne, <- Hr by done. case_decide; [|done]. split; congruence.
  - intros n' s' [_ H]%lookup_delete_Some. by eapply Hne.
Qed.

(** ** Operations and specification *)

Inductive cop := CAdd (d n : string) | CRemove (d : string) | CRemoveNode (n : string) |
  CSetMigrating (d : string) (b : bool) | CClear.

Definition cstep (idx : ConnectionIndex) (o : cop) : ConnectionIndex :=
  match o with
  | CAdd d n => Add idx d n
  | CRemove d => Remove idx d
  | CRemoveNode n => RemoveNode idx n
  | CSetMigrating d b => SetMigrating idx d b
  | CClear => ClearAllMigrating idx
  end.

(** The specification: where each device is, and which devices are marked. *)
Definition spec : Type := (string → option string) * (string → bool).

Definition sstep (s : spec) (o : cop) : spec :=
  match o with
  | CAdd d n => (λ d', if decide (d' = d) then Some n else s.1 d', s.2)
  | CRemove d => (λ d', if decide (d' = d) then None else s.1 d', s.2)
  | CRemoveNode n => (λ d', if decide (s.1 d' = Some n) then None else s.1 d', s.2)
  | CSetMigrating d b => (s.1, λ d', if decide (d' = d) then b else s.2 d')
  | CClear => (s.1, λ _, false)
  end.

Definition crun (ops : list cop) : ConnectionIndex := foldl cstep NewConnectionIndex ops.
Definition srun (ops : list cop) : spec := foldl sstep (λ _, None, λ _, false) ops.

Definition agrees (idx : ConnectionIndex) (s : spec) : Prop :=
  index_ok idx ∧ ∀ d, Lookup idx d = s.1 d ∧ IsMigrating idx d = s.2 d.

Lemma cstep_ok idx o : index_ok idx → index_ok (cstep idx o).
Proof. destruct o; eauto using conn_Add_ok, conn_Remove_ok, RemoveNode_ok. Qed.

Lemma cstep_agrees idx s o : agrees idx s → agrees (cstep idx o) (sstep s o).
Proof.
  intros [Hok Ha]. split; [by apply cstep_ok|]. intros d'. specialize (Ha d') as [Hl Hm].
  destruct o as [d n|d|n|d b|]; cbn [cstep sstep fst snd].
  - split; [|done]. unfold Lookup, Add in *. cbn.
    case_decide; subst; [apply lookup_insert_eq|by rewrite lookup_insert_ne].
  - unfold Remove. destruct (devices idx !! d) as [n|] eqn:Hd.
    + split; [|done]. unfold Lookup in *. cbn.
      case_decide; subst; [apply lookup_delete_eq|by rewrite lookup_delete_ne].
    + split; [|done]. case_decide; [by subst|done].
  - rewrite RemoveNode_lookup, Hl by done. split; [done|]. rewrite <- Hm.
    unfold RemoveNode. by destruct (byNode idx !! n).
  - split; [done|]. unfold IsMigrating, SetMigrating in *. cbn. destruct b.
    + case_decide; subst; [by rewrite lookup_insert_eq|by rewrite lookup_insert_ne].
    + case_decide; subst; [by rewrite lookup_delete_eq|by rewrite lookup_delete_ne].
  - by split.
Qed.

Lemma crun_agrees ops : agrees (crun ops) (srun ops).
Proof.
  enough (∀ idx s, agrees idx s → agrees (foldl cstep idx ops) (foldl sstep s ops)) as H.
  { apply H. split; [|by intros d]. split; [by intros d n|]. intros n s Hs. by destruct (lookup_empty_Some (M := gmap string) n s). }
  induction ops as [|o ops IH]; intros idx s Ha; [done|]. by apply IH, cstep_agrees.
Qed.

(** The connection index refines the map from devices to nodes: after any sequence of
    operations it looks every device and every mark up as the specification does, and the devices
    it lists for a node are exactly, and once each, the devices that are looked up there. *)
Theorem ConnectionIndex_refines (ops : list cop) (d n : string) :
  Lookup (crun ops) d = (srun ops).1 d ∧ IsMigrating (crun ops) d = (srun ops).2 d ∧
  (d ∈ NodeDevices (crun ops) n ↔ (srun ops).1 d = Some n) ∧ NoDup (NodeDevices (crun ops) n).
Proof.
  destruct (crun_agrees ops) as [Hok Ha]. destruct (Ha d) as [Hl Hm].
  split_and!; [done|done|..].
  - rewrite <- Hl. by apply NodeDevices_elem.
  - unfold NodeDevices. destruct (byNode (crun ops) !! n); [apply NoDup_elements|constructor].
Qed.

End Connections.
