(* ===== verification/Migration.v ===== *)
(** * Migrations ([internal/cluster/migration.go], [migration_executor.go])

    The record of a migration and its transitions, the coordinator that lists and cancels
    migrations, and the executor that moves the devices of one migration to another node. The
    executor talks to the broker through [MigrationBrokerAPI] and to the rest of the world
    (clock, peer transport) through [World]; [SessionLaws] is what it relies on of the broker, and
    the broker discharges it. *)
From S2P Require Import Prelude Storage Topic Subscriptions Delivery Offline OfflineFacts Sessions Retain Wills Packets Broker BrokerFacts Connections.
Import Connections.

Module Migration.

(** ** [migration.go] *)

Definition PhasePrepare : Z := 0.
Definition PhaseHandshake : Z := 1.
Definition PhaseMigrate : Z := 2.
Definition PhaseRedirect : Z := 3.
Definition PhaseCleanup : Z := 4.

Definition Phase_String (p : Z) : string :=
  if p =? PhasePrepare then "prepare" else if p =? PhaseHandshake then "handshake"
  else if p =? PhaseMigrate then "migrate" else if p =? PhaseRedirect then "redirect"
  else if p =? PhaseCleanup then "cleanup" else "unknown".

Inductive MigrationStatus := MigrationPending | MigrationRunning | MigrationCompleted | MigrationFailed
  | MigrationCancelled.

#[global] Instance MigrationStatus_eq_dec : EqDecision MigrationStatus.
Proof. solve_decision. Defined.

Definition status_string (s : MigrationStatus) : string :=
  match s with
  | MigrationPending => "pending" | MigrationRunning => "running" | MigrationCompleted => "completed"
  | MigrationFailed => "failed" | MigrationCancelled => "cancelled"
  end.

Record MigrationProgress := mkProgress { Total : Z; Migrated : Z; Failed : Z }.
Record MigrationConfig := mkConfig { BatchSize : Z; BatchInterval : Z; MaxRetries : Z }.

Definition DefaultMigrationConfig : MigrationConfig := mkConfig 1000 Second 3.

Record ShardMigration := mkMigration {
  mg_ID : string;
  FromNode : string;
  ToNode : string;
  AffectedDevices : list string;
  Phase : Z;
  Progress : MigrationProgress;
  Config : MigrationConfig;
  Status : MigrationStatus;
  Error : string;
  CreatedAt : Z;
  UpdatedAt : Z
}.

Definition NewShardMigration (now : Z) (id fromNode toNode : string) (devices : list string)
    (cfg : MigrationConfig) : ShardMigration :=
  mkMigration id fromNode toNode devices PhasePrepare (mkProgress (len devices) 0 0) cfg MigrationPending "" now now.

Definition with_state (m : ShardMigration) (now phase : Z) (p : MigrationProgress) (st : MigrationStatus)
    (err : string) : ShardMigration :=
  mkMigration (mg_ID m) (FromNode m) (ToNode m) (AffectedDevices m) phase p (Config m) st err (CreatedAt m) now.

Definition AdvancePhase (now : Z) (m : ShardMigration) : ShardMigration :=
  with_state m now (if Phase m <? PhaseCleanup then Phase m + 1 else Phase m) (Progress m)
    (match Status m with MigrationPending => MigrationRunning | st => st end) (Error m).

Definition MarkCompleted (now : Z) (m : ShardMigration) : ShardMigration :=
  with_state m now (Phase m) (Progress m) MigrationCompleted (Error m).
Definition MarkFailed (now : Z) (reason : string) (m : ShardMigration) : ShardMigration :=
  with_state m now (Phase m) (Progress m) MigrationFailed reason.
Definition Cancel (now : Z) (m : ShardMigration) : ShardMigration :=
  with_state m now (Phase m) (Progress m) MigrationCancelled (Error m).
Definition RecordMigrated (now n : Z) (m : ShardMigration) : ShardMigration :=
  let p := Progress m in with_state m now (Phase m) (mkProgress (Total p) (Migrated p + n) (Failed p)) (Status m) (Error m).
Definition RecordFailed (now n : Z) (m : ShardMigration) : ShardMigration :=
  let p := Progress m in with_state m now (Phase m) (mkProgress (Total p) (Migrated p) (Failed p + n)) (Status m) (Error m).

Definition IsTerminal (m : ShardMigration) : bool :=
  match Status m with MigrationCompleted | MigrationFailed | MigrationCancelled => true | _ => false end.

Record MigrationCoordinator := mkCoord { migrations : gmap string ShardMigration; maxParallel : Z }.

Definition NewMigrationCoordinator (n : Z) : MigrationCoordinator := mkCoord ∅ (if n <=? 0 then 3 else n).
Definition Submit (mc : MigrationCoordinator) (m : ShardMigration) : MigrationCoordinator :=
  mkCoord (<[mg_ID m := m]> (migrations mc)) (maxParallel mc).
Definition Coord_Get (mc : MigrationCoordinator) (id : string) : option ShardMigration := migrations mc !! id.
Definition Coord_List (mc : MigrationCoordinator) : list ShardMigration := (map_to_list (migrations mc)).*2.
Definition Coord_Cancel (now : Z) (mc : MigrationCoordinator) (id : string) : bool * MigrationCoordinator :=
  match migrations mc !! id with
  | None => (false, mc)
  | Some m => (true, mkCoord (<[id := Cancel now m]> (migrations mc)) (maxParallel mc))
  end.
Definition Coord_Count (mc : MigrationCoordinator) : Z := Z.of_nat (size (migrations mc)).
Definition ActiveCount (mc : MigrationCoordinator) : Z :=
  len (filter (λ m, Status m = MigrationRunning) (Coord_List mc)).
Definition CanStartMore (mc : MigrationCoordinator) : bool := ActiveCount mc <? maxParallel mc.
Definition CleanupTerminal (mc : MigrationCoordinator) : MigrationCoordinator :=
  mkCoord (filter (λ kv, IsTerminal kv.2 = false) (migrations mc)) (maxParallel mc).

(** ** [migration_executor.go] *)

Record MigrateDataMessage := mkMDM {
  mdm_DeviceID : string;
  mdm_Messages : list (string * list Z * Z);
  mdm_Session : option Broker.MigrateSessionData
}.

Class MigrationBrokerAPI (B : Type) := {
  DisconnectDevice : B → string → res B;
  GetOfflineMessages : Z → B → string → res (list (string * list Z * Z) * B);
  DeleteOfflineMessages : B → string → B;
  GetSessionData : B → string → option Broker.MigrateSessionData;
  DeleteSession : B → string → B
}.

(** The clock, the pause between batches and the peer transport, whose send reports an error. Nothing is
    assumed of them: what [SendMigrate] does, and what its success does not mean, is in [Peers]. *)
Class World (W : Type) := {
  Now : W → Z * W;
  Sleep : W → Z → W;
  SendMigrate : W → string → MigrateDataMessage → option string * W
}.

Section Executor.
Context {B W : Type} `{MigrationBrokerAPI B} `{World W}.

Record exec := mkExec { x_broker : B; connIdx : ConnectionIndex; world : W; mig : ShardMigration }.

Definition on_idx (e : exec) (f : ConnectionIndex → ConnectionIndex) : exec :=
  mkExec (x_broker e) (f (connIdx e)) (world e) (mig e).

(** A transition of the migration record, stamped with the time it happens at. *)
Definition stamp (e : exec) (f : Z → ShardMigration → ShardMigration) : exec :=
  let '(now, w) := Now (world e) in mkExec (x_broker e) (connIdx e) w (f now (mig e)).

(** [for retry := 0; retry <= MaxRetries; retry++], with [n] rounds left and the last error. *)
Fixpoint send_loop (n : nat) (w : W) (toNode : string) (msg : MigrateDataMessage) (sendErr : option string)
    : option string * W :=
  match n with
  | O => (sendErr, w)
  | S n =>
      let '(err, w) := SendMigrate w toNode msg in
      match err with None => (None, w) | Some e => send_loop n w toNode msg (Some e) end
  end.

(** One device: disconnect it, collect its data, send them, and delete them here once they have
    been sent. [true] when the device has been moved. *)
Definition migrate_device (e : exec) (deviceID : string) : res (bool * exec) :=
  b ← DisconnectDevice (x_broker e) deviceID;
  let '(now, w) := Now (world e) in
  '(msgs, b) ← GetOfflineMessages now b deviceID;
  let msg := mkMDM deviceID msgs (GetSessionData b deviceID) in
  let '(sendErr, w) := send_loop (Z.to_nat (MaxRetries (Config (mig e)) + 1)) w (ToNode (mig e)) msg None in
  match sendErr with
  | Some _ => Ok (false, mkExec b (connIdx e) w (mig e))
  | None => Ok (true, mkExec (DeleteSession (DeleteOfflineMessages b deviceID) deviceID) (connIdx e) w (mig e))
  end.

Fixpoint migrate_batch (e : exec) (batch : list string) (migrated failed : Z) : res (Z * Z * exec) :=
  match batch with
  | [] => Ok (migrated, failed, e)
  | d :: batch =>
      '(ok, e) ← migrate_device e d;
      if (ok : bool) then migrate_batch e batch (migrated + 1) failed
      else migrate_batch e batch migrated (failed + 1)
  end.

(** [for i := 0; i < len(devices); i += batchSize], with the devices from [i] on. *)
Fixpoint batches (fuel : nat) (e : exec) (batchSize : Z) (devices : list string) : res exec :=
  match devices with
  | [] => Ok e
  | _ =>
      match fuel with
      | O => NoFuel
      | S fuel =>
          let n := Z.to_nat batchSize in
          '(mf, e) ← migrate_batch e (take n devices) 0 0;
          let e := stamp e (λ now, RecordMigrated now mf.1) in
          let e := stamp e (λ now, RecordFailed now mf.2) in
          let rest := drop n devices in
          let e := match rest with
                   | [] => e
                   | _ => let i := BatchInterval (Config (mig e)) in
                          if 0 <? i then mkExec (x_broker e) (connIdx e) (Sleep (world e) i) (mig e) else e
                   end in
          batches fuel e batchSize rest
      end
  end.

Definition fail_reason (n : Z) : string := pretty n +:+ " devices failed to migrate".
Definition fail_error (m : ShardMigration) : string :=
  "migration " +:+ mg_ID m +:+ ": " +:+ pretty (Failed (Progress m)) +:+ " devices failed".

Definition Execute (e : exec) : res (option string * exec) :=
  let devices := AffectedDevices (mig e) in
  let e := stamp e AdvancePhase in
  let e := on_idx e (λ idx, foldl (λ idx d, SetMigrating idx d true) idx devices) in
  let e := stamp e AdvancePhase in
  let e := stamp e AdvancePhase in
  let batchSize := BatchSize (Config (mig e)) in
  let batchSize := if batchSize <=? 0 then 1000 else batchSize in
  e ← batches (length devices) e batchSize devices;
  let e := stamp e AdvancePhase in
  let e := on_idx e (λ idx, foldl (λ idx d, Remove (SetMigrating idx d false) d) idx devices) in
  let e := stamp e AdvancePhase in
  if 0 <? Failed (Progress (mig e)) then
    let e := stamp e (λ now, MarkFailed now (fail_reason (Failed (Progress (mig e))))) in
    Ok (Some (fail_error (mig e)), e)
  else Ok (None, stamp e MarkCompleted).

End Executor.
Arguments exec : clear implicits.

(** ** What the executor relies on *)

(** Only [DeleteSession] changes a session, and only the one it names. *)
Class SessionLaws (B : Type) `{MigrationBrokerAPI B} := {
  disconnect_session b d b' d' : DisconnectDevice b d = Ok b' → GetSessionData b' d' = GetSessionData b d';
  offline_session now b d msgs b' d' :
    GetOfflineMessages now b d = Ok (msgs, b') → GetSessionData b' d' = GetSessionData b d';
  delete_offline_session b d d' : GetSessionData (DeleteOfflineMessages b d) d' = GetSessionData b d';
  delete_session b d d' :
    GetSessionData (DeleteSession b d) d' = if decide (d' = d) then None else GetSessionData b d'
}.

(** The messages whose send reported no error, with the node they were sent to: the world with a record of
    them, which the executor does not see. *)
Record logged (W : Type) := mkLogged { inner : W; accepted : list (string * MigrateDataMessage) }.
Arguments mkLogged {W}.
Arguments inner {W}.
Arguments accepted {W}.

#[global] Instance logged_world {W} `{World W} : World (logged W) := {|
  Now w := let '(now, w') := Now (inner w) in (now, mkLogged w' (accepted w));
  Sleep w i := mkLogged (Sleep (inner w) i) (accepted w);
  SendMigrate w to msg :=
    let '(err, w') := SendMigrate (inner w) to msg in
    (err, mkLogged w' (match err with None => accepted w ++ [(to, msg)] | Some _ => accepted w end))
|}.

Definition with_log {B W} (e : exec B W) (l : list (string * MigrateDataMessage)) : exec B (logged W) :=
  mkExec (x_broker e) (connIdx e) (mkLogged (world e) l) (mig e).
Definition without_log {B W} (e : exec B (logged W)) : exec B W := mkExec (x_broker e) (connIdx e) (inner (world e)) (mig e).

(** Recording changes nothing of what the executor does. *)
Section Logging.
Context {B W : Type} `{MigrationBrokerAPI B} `{World W}.
Notation exec := (exec B W).
Notation lexec := (Migration.exec B (logged W)).

Lemma send_loop_logged n : ∀ (w : logged W) to msg err,
  send_loop n (inner w) to msg err = ((send_loop n w to msg err).1, inner (send_loop n w to msg err).2).
Proof.
  induction n as [|n IH]; intros w to msg err; [done|]. cbn. destruct (SendMigrate (inner w) to msg) as [[e|] w']; [|done].
  by rewrite <- IH.
Qed.

Lemma stamp_logged (e : lexec) f : without_log (stamp e f) = stamp (without_log e) f.
Proof. unfold stamp, without_log. cbn. by destruct (Now (inner (world e))). Qed.

Lemma migrate_device_logged (e : lexec) d :
  migrate_device (without_log e) d = (r ← migrate_device e d; Ok (r.1, without_log r.2)).
Proof.
  unfold migrate_device. cbn. destruct (DisconnectDevice (x_broker e) d) as [b| | |]; [cbn|done..].
  destruct (Now (inner (world e))) as [now w]. cbn. destruct (GetOfflineMessages now b d) as [[msgs b']| | |]; [cbn|done..].
  rewrite (send_loop_logged _ (mkLogged w (accepted (world e)))). cbn [inner]. by destruct (send_loop _ (mkLogged w _) _ _ _) as [[err|] w'].
Qed.

Lemma migrate_batch_logged batch : ∀ (e : lexec) m f,
  migrate_batch (without_log e) batch m f = (r ← migrate_batch e batch m f; Ok (r.1, without_log r.2)).
Proof.
  induction batch as [|d batch IH]; intros e m f; [done|]. cbn. rewrite migrate_device_logged.
  destruct (migrate_device e d) as [[ok e1]| | |]; [cbn|done..]. by destruct ok.
Qed.

Lemma batches_logged fuel : ∀ (e : lexec) n devs,
  batches fuel (without_log e) n devs = (r ← batches fuel e n devs; Ok (without_log r)).
Proof.
  induction fuel as [|fuel IH]; intros e n [|d devs]; [done..|]. cbn [batches]. rewrite migrate_batch_logged.
  destruct (migrate_batch e _ 0 0) as [[mf e1]| | |]; [cbn [mbind res_bind fst snd]|done..]. rewrite <- !stamp_logged.
  set (e2 := stamp (stamp e1 _) _). rewrite <- IH. f_equal. destruct (drop _ _); [done|]. cbn. by destruct (0 <? _).
Qed.

Lemma Execute_logged (e : lexec) : Execute (without_log e) = (r ← Execute e; Ok (r.1, without_log r.2)).
Proof.
  unfold Execute. cbv zeta. change (AffectedDevices (mig (without_log e))) with (AffectedDevices (mig e)).
  assert (∀ (e : lexec) f, without_log (on_idx e f) = on_idx (without_log e) f) as Hidx by done.
  rewrite <- stamp_logged, <- Hidx, <- !stamp_logged. set (e1 := stamp (stamp (on_idx _ _) _) _).
  change (mig (without_log e1)) with (mig e1). rewrite batches_logged. destruct (batches _ e1 _ _) as [e2| | |]; [cbn [mbind res_bind]|done..].
  rewrite <- stamp_logged, <- Hidx, <- stamp_logged. set (e3 := stamp (on_idx _ _) _). change (mig (without_log e3)) with (mig e3).
  destruct (0 <? _); cbn [mbind res_bind fst snd]; by rewrite <- stamp_logged.
Qed.

Lemma Execute_with_log (e : exec) err e' : Execute e = Ok (err, e') →
  ∃ sent, Execute (with_log e []) = Ok (err, with_log e' sent).
Proof.
  intros He. pose proof (Execute_logged (with_log e [])) as Hl.
  change (without_log (with_log e [])) with (mkExec (x_broker e) (connIdx e) (world e) (mig e)) in Hl.
  replace (mkExec (x_broker e) (connIdx e) (world e) (mig e)) with e in Hl by by destruct e. rewrite He in Hl.
  destruct (Execute (with_log e [])) as [[err' [b idx [w l] m]]| | |]; try done. injection Hl as -> ->. by exists l.
Qed.

End Logging.

Section Facts.
Context {B V : Type} `{SessionLaws B} `{World V}.
Notation W := (logged V).
Notation exec := (exec B W).

(** A send of the message to the node has reported no error. *)
Definition received (w : W) (m : string * MigrateDataMessage) : Prop := m ∈ accepted w.

Lemma send_received (w : W) n msg w' : SendMigrate w n msg = (None, w') → received w' (n, msg).
Proof. cbn. destruct (SendMigrate (inner w) n msg) as [[e|] w1]; [done|]. intros [= <-]. unfold received. cbn. set_solver. Qed.
Lemma send_keeps (w : W) n msg r w' m : SendMigrate w n msg = (r, w') → received w m → received w' m.
Proof. cbn. destruct (SendMigrate (inner w) n msg) as [[e|] w1]; intros [= _ <-]; unfold received; cbn; set_solver. Qed.
Lemma now_keeps (w : W) m : received w m → received (Now w).2 m.
Proof. cbn. by destruct (Now (inner w)). Qed.
Lemma sleep_keeps (w : W) i m : received w m → received (Sleep w i) m.
Proof. done. Qed.

Lemma send_loop_spec n : ∀ (w : W) to msg err r w',
  send_loop n w to msg err = (r, w') →
  (∀ m, received w m → received w' m) ∧ (err ≠ None ∨ n ≠ 0%nat → r = None → received w' (to, msg)).
Proof.
  induction n as [|n IH]; intros w to msg err r w'; cbn [send_loop].
  { intros [= <- <-]. split; [done|]. intros [?|?]; done. }
  destruct (SendMigrate w to msg) as [[e|] w1] eqn:Hs.
  - intros [Hk Hr]%IH. split; [|by intros _; apply Hr; left].
    intros m Hm. eapply Hk, send_keeps; eauto.
  - intros [= <- <-]. split; [|by intros _ _; eapply send_received].
    intros m Hm. by eapply send_keeps.
Qed.

(** The session a device had in [b0] is still here, or a send of it to the other node has reported no error. *)
Definition safe_at (b0 : B) (e : exec) (d : string) : Prop :=
  GetSessionData (x_broker e) d = GetSessionData b0 d ∨
  ∃ msg, received (world e) (ToNode (mig e), msg) ∧ mdm_DeviceID msg = d ∧ mdm_Session msg = GetSessionData b0 d.

Definition same_task (m m' : ShardMigration) : Prop :=
  AffectedDevices m' = AffectedDevices m ∧ Config m' = Config m ∧ ToNode m' = ToNode m ∧ mg_ID m' = mg_ID m ∧
  Phase m' = Phase m ∧ Total (Progress m') = Total (Progress m).

Definition handled (m : ShardMigration) : Z := Migrated (Progress m) + Failed (Progress m).

Record moved (b0 : B) (devs : list string) (e e' : exec) : Prop := {
  mv_safe d : safe_at b0 e d → safe_at b0 e' d;
  mv_frame d : d ∉ devs → GetSessionData (x_broker e') d = GetSessionData (x_broker e) d;
  mv_idx : connIdx e' = connIdx e;
  mv_task : same_task (mig e) (mig e')
}.

Lemma same_task_refl m : same_task m m.
Proof. done. Qed.
Lemma same_task_trans m1 m2 m3 : same_task m1 m2 → same_task m2 m3 → same_task m1 m3.
Proof. unfold same_task. intuition congruence. Qed.

Lemma moved_trans b0 ds1 ds2 e1 e2 e3 :
  moved b0 ds1 e1 e2 → moved b0 ds2 e2 e3 → moved b0 (ds1 ++ ds2) e1 e3.
Proof.
  intros [S1 F1 I1 T1] [S2 F2 I2 T2]. split; [by auto| |congruence|by eapply same_task_trans].
  intros d Hd. rewrite F2, F1; [done|set_solver..].
Qed.

Lemma moved_same b0 (e : exec) w m :
  (∀ msg, received (world e) msg → received w msg) → same_task (mig e) m →
  moved b0 [] e (mkExec (x_broker e) (connIdx e) w m).
Proof. intros Hw Hm. split; try done. intros d [Hd|(msg & ? & ?)]; [by left|right]. exists msg. cbn [mig world]. destruct Hm as (_ & _ & -> & _). auto. Qed.

Lemma stamp_eq (e : exec) f :
  stamp e f = mkExec (x_broker e) (connIdx e) (Now (world e)).2 (f (Now (world e)).1 (mig e)).
Proof. unfold stamp. by destruct (Now (world e)). Qed.

Lemma moved_stamp b0 (e : exec) f :
  (∀ now m, same_task m (f now m)) → moved b0 [] e (stamp e f).
Proof. intros Hf. rewrite stamp_eq. apply moved_same; [intros; by apply now_keeps|done]. Qed.

Lemma migrate_device_moved b0 e d ok e' : 0 ≤ MaxRetries (Config (mig e)) →
  migrate_device e d = Ok (ok, e') → moved b0 [d] e e' ∧ mig e' = mig e.
Proof.
  intros Hmax. unfold migrate_device.
  intros (b & Hb & Hr)%bind_Ok. revert Hr. destruct (Now (world e)) as [now w1] eqn:Hn.
  intros ([msgs b1] & Hg & Hr)%bind_Ok. revert Hr.
  set (msg := mkMDM d msgs _). destruct (send_loop _ w1 _ msg None) as [r w2] eqn:Hs.
  apply send_loop_spec in Hs as [Hk Hrcv].
  assert (∀ m, received (world e) m → received w2 m) as Hk'.
  { intros m Hm. apply Hk. pose proof (now_keeps (world e) m Hm) as Hm'. by rewrite Hn in Hm'. }
  assert (∀ d', GetSessionData b1 d' = GetSessionData (x_broker e) d') as Hsame.
  { intros d'. erewrite offline_session by done. by eapply disconnect_session. }
  destruct r; intros [= <- <-]; (split; [|done]).
  - split; cbn; [|auto|done|done]. intros d' [Hd|(m & ? & ?)]; [left|right; cbn; eauto]. cbn. by rewrite Hsame.
  - assert (received w2 (ToNode (mig e), msg)) as Hmsg by (apply Hrcv; [right; lia|done]).
    split; cbn; [| |done|done].
    + intros d' [Hd|(m & ? & ?)]; [|right; cbn; eauto]. destruct (decide (d' = d)) as [->|Hne].
      * right. exists msg. cbn. by rewrite Hsame.
      * left. cbn. by rewrite delete_session, decide_False, delete_offline_session, Hsame.
    + intros d' Hd. rewrite delete_session, decide_False, delete_offline_session, Hsame; [done|set_solver].
Qed.

Lemma migrate_batch_moved b0 batch : ∀ e m f m' f' e', 0 ≤ MaxRetries (Config (mig e)) →
  migrate_batch e batch m f = Ok (m', f', e') →
  moved b0 batch e e' ∧ mig e' = mig e ∧ m' + f' = m + f + len batch ∧ m ≤ m' ∧ f ≤ f'.
Proof.
  induction batch as [|d batch IH]; intros e m f m' f' e' Hmax; cbn.
  { intros [= <- <- <-]. split; [|rewrite len_nil; split; [done|lia]]. destruct e. by apply moved_same. }
  intros ([ok e1] & Hd & Hr)%bind_Ok. apply (migrate_device_moved b0) in Hd as [Hmv Heq]; [|done].
  rewrite len_cons. rewrite <- Heq in Hmax.
  destruct ok; apply IH in Hr as (Hmv' & Heq' & Hc); try done;
    (split; [by apply (moved_trans _ [d] batch e e1)|split; [congruence|lia]]).
Qed.

Definition pause (e : exec) (rest : list string) : exec :=
  match rest with
  | [] => e
  | _ => let i := BatchInterval (Config (mig e)) in
         if 0 <? i then mkExec (x_broker e) (connIdx e) (Sleep (world e) i) (mig e) else e
  end.

Lemma moved_pause b0 e rest : moved b0 [] e (pause e rest).
Proof.
  unfold pause. destruct rest; [by destruct e; apply moved_same|]. cbv zeta. case_match; destruct e;
    (apply moved_same; [|done]); [intros; by apply sleep_keeps|done].
Qed.

(** The record of the migration once the batches are done. *)
Definition counted (e e' : exec) (n : Z) : Prop :=
  handled (mig e') = handled (mig e) + n ∧ Failed (Progress (mig e)) ≤ Failed (Progress (mig e')) ∧
  Status (mig e') = Status (mig e) ∧ Error (mig e') = Error (mig e).

Lemma batches_moved b0 n fuel : ∀ e devs e', 0 < n → 0 ≤ MaxRetries (Config (mig e)) →
  batches fuel e n devs = Ok e' → moved b0 devs e e' ∧ counted e e' (len devs).
Proof.
  induction fuel as [|fuel IH]; intros e devs e' Hn Hmax.
  - destruct devs; [|done]. cbn. intros [= <-]. split; [by destruct e; apply moved_same|].
    unfold counted. rewrite len_nil. split; [lia|done].
  - destruct devs as [|d devs]; cbn [batches].
    { intros [= <-]. split; [by destruct e; apply moved_same|].
      unfold counted. rewrite len_nil. split; [lia|done]. }
    set (all := d :: devs). intros ([[m f] e1] & Hb & Hr)%bind_Ok.
    apply (migrate_batch_moved b0) in Hb as (Hmv & Heq & Hc & Hm0 & Hf0); [|done]. cbn [fst snd] in Hr.
    set (e2 := stamp e1 _) in Hr. set (e3 := stamp e2 _) in Hr.
    change (match drop (Z.to_nat n) all with [] => _ | _ :: _ => _ end) with (pause e3 (drop (Z.to_nat n) all)) in Hr.
    set (e4 := pause e3 _) in Hr.
    assert (moved b0 [] e1 e2) as M2 by by apply moved_stamp.
    assert (moved b0 [] e2 e3) as M3 by by apply moved_stamp.
    pose proof (moved_pause b0 e3 (drop (Z.to_nat n) all)) as M4. fold e4 in M4.
    assert (moved b0 (take (Z.to_nat n) all) e e4) as M.
    { rewrite <- (app_nil_r (take _ _)), <- (app_nil_r (_ ++ [])), <- (app_nil_r ((_ ++ []) ++ [])).
      eauto using moved_trans. }
    assert (mig e4 = mig e3) as H4 by (unfold e4, pause; by repeat case_match).
    assert (handled (mig e4) = handled (mig e) + len (take (Z.to_nat n) all) ∧
            Failed (Progress (mig e)) ≤ Failed (Progress (mig e4)) ∧
            Status (mig e4) = Status (mig e) ∧ Error (mig e4) = Error (mig e)) as C.
    { rewrite H4. unfold e3, e2. rewrite !stamp_eq. unfold handled. cbn. rewrite Heq. split_and!; [lia..|done|done]. }
    apply IH in Hr as [Hmv' (Hh & Hf & Hst & Her)]; [|done|destruct M as [_ _ _ (_ & -> & _)]; done].
    split.
    + rewrite <- (take_drop (Z.to_nat n) all). by eapply moved_trans.
    + destruct C as (C1 & C2 & C3 & C4). split_and!; [|lia|congruence|congruence].
      rewrite Hh, C1, <- Z.add_assoc, <- len_app, take_drop. done.
Qed.

(** Every call of the executor to the broker returns. *)
Definition calls_answer : Prop :=
  (∀ (b : B) d, is_ok (DisconnectDevice b d) = true) ∧ (∀ now (b : B) d, is_ok (GetOfflineMessages now b d) = true).

Lemma is_ok_true {A} (m : res A) : is_ok m = true → ∃ a, m = Ok a.
Proof. destruct m; eauto; done. Qed.

Lemma migrate_device_total (e : exec) d : calls_answer → ∃ r, migrate_device e d = Ok r.
Proof.
  intros [Hd Hg]. unfold migrate_device. destruct (is_ok_true _ (Hd (x_broker e) d)) as [b ->].
  cbn [mbind res_bind]. destruct (Now (world e)) as [now w].
  destruct (is_ok_true _ (Hg now b d)) as [[msgs b'] ->]. cbn [mbind res_bind].
  destruct (send_loop _ _ _ _ _) as [[|] w']; eauto.
Qed.

Lemma migrate_batch_total batch : calls_answer → ∀ (e : exec) m f, ∃ r, migrate_batch e batch m f = Ok r.
Proof.
  intros Hc. induction batch as [|d batch IH]; intros e m f; cbn; [eauto|].
  destruct (migrate_device_total e d Hc) as [[ok e1] ->]. cbn. destruct ok; apply IH.
Qed.

Lemma batches_total n : calls_answer → 0 < n → ∀ fuel (e : exec) devs, (length devs ≤ fuel)%nat →
  ∃ e', batches fuel e n devs = Ok e'.
Proof.
  intros Hc Hn fuel. induction fuel as [|fuel IH]; intros e devs Hl; destruct devs as [|d devs]; cbn -[take drop];
    [eauto|cbn in Hl; lia|eauto|].
  destruct (migrate_batch_total (take (Z.to_nat n) (d :: devs)) Hc e 0 0) as [[mf e1] ->].
  cbn [mbind res_bind]. apply IH. rewrite length_drop. cbn in Hl |- *. lia.
Qed.

Lemma unmark_lookup devs : ∀ idx d,
  let idx' := foldl (λ idx d, Remove (SetMigrating idx d false) d) idx devs in
  Lookup idx' d = (if decide (d ∈ devs) then None else Lookup idx d) ∧
  IsMigrating idx' d = (if decide (d ∈ devs) then false else IsMigrating idx d).
Proof.
  induction devs as [|x devs IH]; intros idx d; cbn; [by rewrite !decide_False by set_solver|].
  destruct (IH (Remove (SetMigrating idx x false) x) d) as [-> ->].
  assert (Lookup (Remove (SetMigrating idx x false) x) d = if decide (d = x) then None else Lookup idx d) as ->.
  { unfold Remove, Lookup, SetMigrating. cbn. destruct (devices idx !! x) eqn:Hx; cbn;
      (case_decide; [subst|by rewrite ?lookup_delete_ne]); [apply lookup_delete_eq|done]. }
  assert (IsMigrating (Remove (SetMigrating idx x false) x) d = if decide (d = x) then false else IsMigrating idx d) as ->.
  { unfold Remove, IsMigrating, SetMigrating. cbn. destruct (devices idx !! x); cbn;
      (case_decide; [subst; by rewrite lookup_delete_eq|by rewrite lookup_delete_ne]). }
  split; repeat case_decide; set_solver.
Qed.

Definition batch_size (e : exec) : Z :=
  if BatchSize (Config (mig e)) <=? 0 then 1000 else BatchSize (Config (mig e)).

Lemma batch_size_pos e : 0 < batch_size e.
Proof. unfold batch_size. destruct (Z.leb_spec (BatchSize (Config (mig e))) 0); lia. Qed.

(** The state in which the batches start: three phases on, every device marked. *)
Definition prepared (e : exec) : exec :=
  let e' := on_idx (stamp e AdvancePhase)
              (λ idx, foldl (λ idx d, SetMigrating idx d true) idx (AffectedDevices (mig e))) in
  stamp (stamp e' AdvancePhase) AdvancePhase.

Lemma Execute_split (e : exec) :
  Execute e =
  e1 ← batches (length (AffectedDevices (mig e))) (prepared e) (batch_size e) (AffectedDevices (mig e));
  let e2 := stamp (on_idx (stamp e1 AdvancePhase)
              (λ idx, foldl (λ idx d, Remove (SetMigrating idx d false) d) idx (AffectedDevices (mig e)))) AdvancePhase in
  if 0 <? Failed (Progress (mig e2)) then
    let e3 := stamp e2 (λ now, MarkFailed now (fail_reason (Failed (Progress (mig e2))))) in
    Ok (Some (fail_error (mig e3)), e3)
  else Ok (None, stamp e2 MarkCompleted).
Proof.
  unfold Execute. cbv zeta. unfold prepared, batch_size. rewrite !stamp_eq. unfold on_idx. cbn [mig]. done.
Qed.

Lemma prepared_same (e : exec) d :
  x_broker (prepared e) = x_broker e ∧ (received (world e) d → received (world (prepared e)) d) ∧
  Config (mig (prepared e)) = Config (mig e) ∧ Progress (mig (prepared e)) = Progress (mig e) ∧
  ToNode (mig (prepared e)) = ToNode (mig e).
Proof.
  unfold prepared. rewrite !stamp_eq. cbn -[Now]. split_and!; try done. intros Hd. by repeat apply now_keeps.
Qed.

Lemma Execute_total (e : exec) : calls_answer → ∃ err e', Execute e = Ok (err, e').
Proof.
  intros Hc. rewrite Execute_split. destruct (batches_total _ Hc (batch_size_pos e) (length (AffectedDevices (mig e))) (prepared e)
    (AffectedDevices (mig e)) (le_n _)) as [e1 ->].
  cbn [mbind res_bind]. cbv zeta. case_match; eauto.
Qed.

Lemma Execute_effects (e : exec) err e' : Execute e = Ok (err, e') → 0 ≤ MaxRetries (Config (mig e)) →
  ToNode (mig e') = ToNode (mig e) ∧
  (∀ d, safe_at (x_broker e) e' d) ∧
  (∀ d, d ∉ AffectedDevices (mig e) → GetSessionData (x_broker e') d = GetSessionData (x_broker e) d) ∧
  (∀ d, d ∈ AffectedDevices (mig e) → Lookup (connIdx e') d = None ∧ IsMigrating (connIdx e') d = false) ∧
  handled (mig e') = handled (mig e) + len (AffectedDevices (mig e)) ∧
  (if 0 <? Failed (Progress (mig e')) then Status (mig e') = MigrationFailed ∧ err ≠ None
   else Status (mig e') = MigrationCompleted ∧ err = None).
Proof.
  rewrite Execute_split. intros (e1 & Hb & Hr)%bind_Ok Hmax. cbv zeta in Hr.
  destruct (prepared_same e ("", mkMDM "" [] None)) as (Hpb & _ & Hcfg & Hprog & Hto).
  apply (batches_moved (x_broker e)) in Hb as [[S F I T] (Hh & _)];
    [|apply batch_size_pos|by rewrite Hcfg]. destruct T as (_ & _ & Hto1 & _). rewrite Hto in Hto1.
  rewrite !stamp_eq in Hr. unfold on_idx in Hr. cbn [x_broker connIdx world mig] in Hr.
  assert (∀ w m mg, ToNode mg = ToNode (mig e1) → (∀ msg, received (world e1) msg → received w msg) →
    ∀ d, safe_at (x_broker e) (mkExec (x_broker e1) m w mg) d) as Hsafe.
  { intros w m mg Hmg Hw d. destruct (S d) as [Hd|(msg & ? & ?)]; [left; by rewrite Hpb|by left|right]. exists msg. cbn [mig world]. rewrite Hmg. auto. }
  assert (handled (mig e1) = handled (mig e) + len (AffectedDevices (mig e))) as Hh'.
  { rewrite Hh. unfold handled. by rewrite Hprog. }
  assert (∀ d, d ∉ AffectedDevices (mig e) → GetSessionData (x_broker e1) d = GetSessionData (x_broker e) d) as Hfr.
  { intros d Hd. by rewrite F, Hpb. }
  destruct (0 <? _) eqn:Hf in Hr; injection Hr as <- <-; cbn -[fail_error Now] in *; rewrite Hf;
    (split_and!; [exact Hto1| |exact Hfr| |exact Hh'|done..]);
    try (intros d Hd; destruct (unmark_lookup (AffectedDevices (mig e)) (connIdx e1) d) as [-> ->];
         by rewrite !decide_True).
  + intros d. apply (Hsafe _ (connIdx e1)); [done|]. intros; by repeat apply now_keeps.
  + intros d. apply (Hsafe _ (connIdx e1)); [done|]. intros; by repeat apply now_keeps.
Qed.

End Facts.

Section Exact.
Context {B W : Type} `{SessionLaws B} `{World W}.
Notation exec := (exec B W).


End Exact.

(** ** The broker as the executor's broker *)

Section BrokerInstance.
Context {db : Type} `{Storage.Store db} `{Broker.Env}
  `{Offline.MessageJSON} `{Sessions.SessionJSON} `{Retain.RetainedJSON} `{Wills.WillJSON}.

#[global] Instance Broker_migration : MigrationBrokerAPI (Broker.Broker db) := {|
  DisconnectDevice b d := Broker.disconnectExisting b d;
  GetOfflineMessages now b d := Broker.GetOfflineMessages now b d;
  DeleteOfflineMessages b d := Broker.DeleteOfflineMessages b d;
  GetSessionData b d := Broker.GetSessionData b d;
  DeleteSession b d := Broker.DeleteSession b d
|}.

Lemma sess_session (b b' : Broker.Broker db) d :
  Broker.sess b' = Broker.sess b → Broker.GetSessionData b' d = Broker.GetSessionData b d.
Proof. unfold Broker.GetSessionData, Sessions.Get. cbn. by intros ->. Qed.

Lemma disconnectExisting_sess (b b' : Broker.Broker db) d :
  Broker.disconnectExisting b d = Ok b' → Broker.sess b' = Broker.sess b.
Proof.
  unfold Broker.disconnectExisting. case_match; [|by intros [= <-]].
  intros (c & _ & (c' & _ & [= <-])%bind_Ok)%bind_Ok. done.
Qed.

Lemma onReplicateOffline_sess now d msgs : ∀ b : Broker.Broker db,
  Broker.sess (Broker.onReplicateOffline now b d msgs) = Broker.sess b.
Proof.
  unfold Broker.onReplicateOffline. induction msgs as [|m msgs IH]; intros b; [done|]. cbn. by rewrite IH.
Qed.

#[global] Instance Broker_session_laws : SessionLaws (Broker.Broker db).
Proof.
  split; cbn.
  - intros b d b' d' Hb. by eapply sess_session, disconnectExisting_sess.
  - intros now b d msgs b' d' ([ms os] & _ & [= _ <-])%bind_Ok. apply sess_session.
    by rewrite onReplicateOffline_sess.
  - intros b d d'. by apply sess_session.
  - intros b d d'. unfold Broker.GetSessionData, Broker.DeleteSession, Sessions.Get, Sessions.Remove. cbn.
    case_decide; [subst; by rewrite lookup_delete_eq|by rewrite lookup_delete_ne].
Qed.

End BrokerInstance.

(** ** A concrete world: a clock, the answers of the peer to come, and what it has received *)

Record sim := mkSim { clock : Z; answers : list bool; log : list MigrateDataMessage }.

#[global] Instance sim_world : World sim := {|
  Now w := (clock w, mkSim (clock w + 1) (answers w) (log w));
  Sleep w i := mkSim (clock w + i) (answers w) (log w);
  SendMigrate w _ msg :=
    match answers w with
    | true :: a => (None, mkSim (clock w) a (msg :: log w))
    | _ => (Some "peer not connected", mkSim (clock w) (tl (answers w)) (log w))
    end
|}.

#[local] Existing Instance open_env.

(** Two devices of [sample_broker], of which the first is taken at the second attempt and the
    second is refused by the other node each time. *)
Definition sample_exec (retries : Z) : exec (Broker.Broker Storage.mem_db) sim :=
  mkExec BrokerFacts.sample_broker NewConnectionIndex (mkSim 10 [false; true] [])
    (NewShardMigration 9 "mig-1" "n1" "n2" ["a"; "b"] (mkConfig 1 1000 retries)).

Definition sample_result (retries : Z) : option string * exec (Broker.Broker Storage.mem_db) sim :=
  match Execute (sample_exec retries) with Ok r => r | _ => (None, sample_exec retries) end.

Lemma sample_result_ok : Execute (sample_exec 1) = Ok ((sample_result 1).1, (sample_result 1).2).
Proof.
  assert (is_ok (Execute (sample_exec 1)) = true) as Hok by (vm_compute; reflexivity).
  unfold sample_result. by destruct (Execute (sample_exec 1)) as [[err e]| | |].
Qed.


(** With a negative number of retries no send is tried and yet the data count as sent: the session
    is deleted here, no message has left, and the migration is reported as completed. *)
Lemma negative_retries_lose_sessions :
  is_Some (GetSessionData BrokerFacts.sample_broker "a") ∧
  GetSessionData (x_broker (sample_result (-1)).2) "a" = None ∧ log (world (sample_result (-1)).2) = [] ∧
  Status (mig (sample_result (-1)).2) = MigrationCompleted.
Proof. split; [by vm_compute; eexists|]. split_and!; by vm_compute. Qed.

End Migration.
