(* ===== verification/Ring.v ===== *)
(** * The hash ring and the ownership of devices

    Model of [internal/cluster/node.go], [ring.go] and [diff.go]: which node owns a device, and which
    devices change their owner when the ring changes. The package [github.com/serialx/hashring] is
    the class [HashRing]. *)
From S2P Require Import Prelude.

Module Ring.

(** ** [node.go] *)

Record NodeInfo := mkNode {
  ni_ID : string;
  Host : string;
  GossipPort : Z;
  TransportPort : Z;
  MQTTPort : Z;
  HTTPPort : Z;
  Region : string
}.

Definition GossipAddr (n : NodeInfo) : string := Host n +:+ ":" +:+ pretty (GossipPort n).
Definition MQTTAddr (n : NodeInfo) : string := Host n +:+ ":" +:+ pretty (MQTTPort n).

(** ** [ring.go] *)

(** What the ring uses of the package: a ring with weights gives each key one of its nodes, and a
    ring without nodes none. *)
Class HashRing := {
  hashring : Type;
  NewWithWeights : gmap string Z → hashring;
  GetNode : hashring → string → option string;
  GetNodes : hashring → string → Z → option (list string);
  GetNode_member : ∀ w key n, GetNode (NewWithWeights w) key = Some n → is_Some (w !! n);
  GetNode_total : ∀ w key, w ≠ ∅ → map_Forall (λ _ k, 0 < k) w → is_Some (GetNode (NewWithWeights w) key)
}.

Section Ring.
Context `{HashRing}.

Record Ring := mkRing { ring : hashring; r_nodes : gmap string NodeInfo; virtualNodes : Z }.

(** [hashring.New(nil)] is a ring without nodes. *)
Definition NewRing (v : Z) : Ring := mkRing (NewWithWeights ∅) ∅ (if v <=? 0 then 150 else v).

Definition node_map (l : list NodeInfo) : gmap string NodeInfo := foldl (λ m n, <[ni_ID n := n]> m) ∅ l.
Definition weights (v : Z) (l : list NodeInfo) : gmap string Z := foldl (λ m n, <[ni_ID n := v]> m) ∅ l.

Definition Update (r : Ring) (l : list NodeInfo) : Ring :=
  mkRing (NewWithWeights (weights (virtualNodes r) l)) (node_map l) (virtualNodes r).

Definition LocateDevice (r : Ring) (deviceID : string) : option NodeInfo :=
  match GetNode (ring r) deviceID with
  | None => None
  | Some nodeID => r_nodes r !! nodeID
  end.

Definition LocateDeviceN (r : Ring) (deviceID : string) (n : Z) : list NodeInfo :=
  match GetNodes (ring r) deviceID n with
  | None => []
  | Some ids => omap (r_nodes r !!.) ids
  end.

Definition IsLocal (r : Ring) (deviceID selfID : string) : bool :=
  match LocateDevice r deviceID with
  | None => true
  | Some primary => bool_decide (ni_ID primary = selfID)
  end.

Definition Size (r : Ring) : Z := Z.of_nat (size (r_nodes r)).

(** The values of the map, in any order. *)
Definition Snapshot (r : Ring) : Ring := Update (NewRing (virtualNodes r)) (map_to_list (r_nodes r)).*2.

(** ** [diff.go] *)

Notation changes := (gmap string (gmap string (list string))).

Definition diff_step (oldRing newRing : Ring) (result : changes) (deviceID : string) : changes :=
  match LocateDevice oldRing deviceID, LocateDevice newRing deviceID with
  | Some oldOwner, Some newOwner =>
      if bool_decide (ni_ID oldOwner = ni_ID newOwner) then result
      else
        let inner := default ∅ (result !! ni_ID oldOwner) in
        <[ni_ID oldOwner := <[ni_ID newOwner := default [] (inner !! ni_ID newOwner) ++ [deviceID]]> inner]> result
  | _, _ => result
  end.

Definition DiffOwnership (oldRing newRing : Ring) (deviceIDs : list string) : changes :=
  foldl (diff_step oldRing newRing) ∅ deviceIDs.

(** ** Facts *)

Lemma node_map_lookup l id n : NoDup (ni_ID <$> l) → node_map l !! id = Some n ↔ n ∈ l ∧ ni_ID n = id.
Proof.
  unfold node_map. induction l as [|x l IH] using rev_ind; [set_solver|]. rewrite foldl_app, fmap_app. cbn.
  intros (Hl & Hx & _)%NoDup_app. rewrite lookup_insert_Some, IH by done. rewrite elem_of_app, list_elem_of_singleton.
  split; [naive_solver|]. intros [[Hn|Hn] Hid]; [|subst; by left].
  destruct (decide (ni_ID x = id)) as [E|]; [|naive_solver]. exfalso.
  apply (Hx id); [apply list_elem_of_fmap; exists n; done|by apply list_elem_of_singleton].
Qed.

Lemma weights_lookup v l id : weights v l !! id = if decide (id ∈ ni_ID <$> l) then Some v else None.
Proof.
  unfold weights. induction l as [|x l IH] using rev_ind; [done|]. rewrite foldl_app, fmap_app. cbn.
  destruct (decide (ni_ID x = id)) as [<-|Hne].
  - rewrite lookup_insert_eq, decide_True by set_solver. done.
  - rewrite lookup_insert_ne, IH by done. repeat case_decide; try done; set_solver.
Qed.

(** A ring after [Update], or a new one. *)
Inductive updated (l : list NodeInfo) : Ring → Prop :=
  | updated_intro r : 0 < virtualNodes r → updated l (Update r l).

Lemma updated_locate l r d : updated l r → NoDup (ni_ID <$> l) → l ≠ [] → ∃ n, n ∈ l ∧ LocateDevice r d = Some n.
Proof.
  intros [r0 Hv] Hnd Hne. unfold LocateDevice, Update. cbn [ring r_nodes]. set (w := weights (virtualNodes r0) l).
  destruct (GetNode_total w d) as [id Hid].
  - destruct l as [|x l]; [done|]. intros E. assert (w !! ni_ID x = None) as Hx by (by rewrite E, lookup_empty).
    unfold w in Hx. rewrite weights_lookup, decide_True in Hx by set_solver. done.
  - intros id k. unfold w. rewrite weights_lookup. case_decide; [by intros [= <-]|done].
  - rewrite Hid. apply GetNode_member in Hid. unfold w in Hid. rewrite weights_lookup in Hid.
    case_decide as Hin; [|by destruct Hid]. apply list_elem_of_fmap in Hin as (n & -> & Hn). exists n. split; [done|].
    by apply node_map_lookup.
Qed.

Lemma Update_member r l d n : NoDup (ni_ID <$> l) → LocateDevice (Update r l) d = Some n → n ∈ l.
Proof.
  intros Hnd. unfold LocateDevice. cbn [ring r_nodes Update]. case_match; [|done]. intros Hn. by apply node_map_lookup in Hn as [? _].
Qed.

(** A snapshot gives each device the same owner. *)
Lemma Snapshot_locate l r d : updated l r → NoDup (ni_ID <$> l) → LocateDevice (Snapshot r) d = LocateDevice r d.
Proof.
  intros [r0 Hv] Hnd. unfold Snapshot. cbn [r_nodes virtualNodes Update].
  assert (∀ n, n ∈ (map_to_list (node_map l)).*2 ↔ n ∈ l) as Helem.
  { intros n. rewrite list_elem_of_fmap. split.
    - intros ([id n'] & -> & Hin%elem_of_map_to_list%node_map_lookup); [|done]. apply Hin.
    - intros Hn. exists (ni_ID n, n). split; [done|]. apply elem_of_map_to_list, node_map_lookup; done. }
  assert (NoDup (ni_ID <$> (map_to_list (node_map l)).*2)) as Hnd'.
  { rewrite <- list_fmap_compose. rewrite (list_fmap_ext _ fst); [apply NoDup_fst_map_to_list|].
    intros i [id n] Hi%list_elem_of_lookup_2%elem_of_map_to_list%node_map_lookup; [|done]. apply Hi. }
  unfold LocateDevice, Update. cbn [ring r_nodes virtualNodes NewRing].
  rewrite (proj2 (Z.leb_gt (virtualNodes r0) 0)) by done.
  assert (weights (virtualNodes r0) (map_to_list (node_map l)).*2 = weights (virtualNodes r0) l) as ->.
  { apply map_eq. intros id. rewrite !weights_lookup.
    assert (id ∈ ni_ID <$> (map_to_list (node_map l)).*2 ↔ id ∈ ni_ID <$> l) as Hid.
    { rewrite !list_elem_of_fmap. by setoid_rewrite Helem. }
    repeat case_decide; try done; naive_solver. }
  assert (node_map (map_to_list (node_map l)).*2 = node_map l) as ->; [|done].
  apply map_eq. intros id. apply option_eq. intros n. rewrite !node_map_lookup by done. by rewrite Helem.
Qed.

(** The order in which a node lists the members has no influence on the owners. *)
Lemma Update_perm r l l' : NoDup (ni_ID <$> l) → l' ≡ₚ l → Update r l' = Update r l.
Proof.
  intros Hnd Hp. unfold Update.
  assert (weights (virtualNodes r) l' = weights (virtualNodes r) l) as ->.
  { apply map_eq. intros id. rewrite !weights_lookup.
    assert (id ∈ ni_ID <$> l' ↔ id ∈ ni_ID <$> l) as Hid by (by rewrite Hp). repeat case_decide; naive_solver. }
  assert (node_map l' = node_map l) as ->; [|done].
  apply map_eq. intros id. apply option_eq. intros n. rewrite !node_map_lookup by (by rewrite ?Hp). by rewrite Hp.
Qed.

(** C36: every device has one owner: when each node of a cluster has built its ring from the
    members, in whatever order it lists them, exactly one of the nodes takes a device for its own,
    and every node locates the device there. *)
Theorem one_owner (v : Z) (l : list NodeInfo) (rings : string → Ring) (deviceID : string) :
  l ≠ [] → NoDup (ni_ID <$> l) →
  (∀ n, n ∈ l → ∃ l', l' ≡ₚ l ∧ rings (ni_ID n) = Update (NewRing v) l') →
  ∃ owner, owner ∈ l ∧
    (∀ n, n ∈ l → LocateDevice (rings (ni_ID n)) deviceID = Some owner) ∧
    (∀ n, n ∈ l → IsLocal (rings (ni_ID n)) deviceID (ni_ID n) = true ↔ n = owner).
Proof.
  intros Hne Hnd Hr.
  assert (0 < virtualNodes (NewRing v)) as Hv by (cbn; zcase; lia).
  destruct (updated_locate l (Update (NewRing v) l) deviceID (updated_intro l _ Hv) Hnd Hne) as (owner & Ho & Hloc).
  assert (∀ n, n ∈ l → LocateDevice (rings (ni_ID n)) deviceID = Some owner) as Hall.
  { intros n (l' & Hp & ->)%Hr. by rewrite (Update_perm _ l). }
  exists owner. split_and!; [done|done|]. intros n Hn. unfold IsLocal. rewrite (Hall n Hn), bool_decide_eq_true.
  split; [|by intros ->]. intros E. assert (node_map l !! ni_ID n = Some n) by (by apply node_map_lookup).
  assert (node_map l !! ni_ID n = Some owner) by (by apply node_map_lookup). congruence.
Qed.

(** The owner of a device, by its identifier. *)
Definition owner_id (r : Ring) (d : string) : option string := ni_ID <$> LocateDevice r d.

Definition listed (m : changes) (a b : string) : list string := default [] (m !! a ≫= (.!! b)).

Lemma diff_step_listed o n m d a b : listed (diff_step o n m d) a b =
  listed m a b ++ (if decide (owner_id o d = Some a ∧ owner_id n d = Some b ∧ a ≠ b) then [d] else []).
Proof.
  unfold diff_step, owner_id. destruct (LocateDevice o d) as [x|], (LocateDevice n d) as [y|]; cbn;
    try (rewrite decide_False by naive_solver; by rewrite app_nil_r).
  case_bool_decide as He; [rewrite decide_False by naive_solver; by rewrite app_nil_r|].
  unfold listed. destruct (decide (a = ni_ID x)) as [->|Ha].
  - rewrite lookup_insert_eq. cbn.
    assert (∀ b, default ∅ (m !! ni_ID x) !! b = m !! ni_ID x ≫= (.!! b)) as Hd by (by intros b'; destruct (m !! ni_ID x)).
    destruct (decide (b = ni_ID y)) as [->|Hb].
    + rewrite lookup_insert_eq. cbn. by rewrite Hd, decide_True by done.
    + rewrite lookup_insert_ne, Hd, decide_False by naive_solver. by rewrite app_nil_r.
  - rewrite lookup_insert_ne, decide_False by naive_solver. by rewrite app_nil_r.
Qed.

(** The difference of two rings is exact: under the nodes [a] and [b] it lists exactly the given
    devices that [a] owned before and [b], another node, owns now, in their order. *)
Lemma DiffOwnership_listed oldRing newRing deviceIDs a b :
  listed (DiffOwnership oldRing newRing deviceIDs) a b =
  filter (λ d, owner_id oldRing d = Some a ∧ owner_id newRing d = Some b ∧ a ≠ b) deviceIDs.
Proof.
  unfold DiffOwnership. induction deviceIDs as [|d l IH] using rev_ind; [done|].
  rewrite foldl_app, filter_app. cbn [foldl]. rewrite diff_step_listed, IH. f_equal.
Qed.

(** No entry of the difference is empty. *)
Lemma DiffOwnership_nonempty oldRing newRing deviceIDs a b :
  DiffOwnership oldRing newRing deviceIDs !! a ≫= (.!! b) ≠ Some [].
Proof.
  unfold DiffOwnership. induction deviceIDs as [|d l IH] using rev_ind; [done|].
  rewrite foldl_app. cbn [foldl]. set (m := foldl _ _ l) in *. unfold diff_step.
  repeat case_match; try done. destruct (decide (a = ni_ID n)) as [->|Ha].
  - rewrite lookup_insert_eq. cbn. destruct (decide (b = ni_ID n0)) as [->|Hb].
    + rewrite lookup_insert_eq. intros [=E]. by destruct (default [] _).
    + rewrite lookup_insert_ne by done. by destruct (m !! ni_ID n).
  - by rewrite lookup_insert_ne.
Qed.

End Ring.

(** A ring that gives every key to the first of its nodes in the order of their names. *)
#[local] Program Instance first_ring : HashRing := {|
  hashring := gmap string Z;
  NewWithWeights w := w;
  GetNode w _ := head (map_to_list w).*1;
  GetNodes w _ n := Some (take (Z.to_nat n) (map_to_list w).*1)
|}.
Next Obligation.
  cbn. intros w _ n Hh. assert (n ∈ (map_to_list w).*1) as Hin.
  { apply head_Some_elem_of. done. }
  apply list_elem_of_fmap in Hin as ([k z] & -> & Hk%elem_of_map_to_list). by eexists.
Qed.
Next Obligation.
  cbn. intros w _ Hne _. destruct (map_to_list w) as [|[k z] l] eqn:E; [|by exists k].
  by apply map_to_list_empty_iff in E.
Qed.

Lemma one_owner_witness :
  let l := [mkNode "n1" "h" 1 2 3 4 ""; mkNode "n2" "h" 1 2 3 4 ""] in
  let rings := λ id, Update (NewRing 0) (if bool_decide (id = "n1") then l else reverse l) in
  ∃ owner, owner ∈ l ∧ ∀ n, n ∈ l → LocateDevice (rings (ni_ID n)) "d" = Some owner.
Proof.
  intros l rings. destruct (one_owner 0 l rings "d") as (owner & Ho & Hl & _).
  - done.
  - apply (bool_decide_eq_true_1 _). vm_compute. reflexivity.
  - intros n _. unfold rings. case_bool_decide; [by exists l|]. exists (reverse l). split; [apply reverse_Permutation|done].
  - by exists owner.
Defined.

End Ring.
