(* ===== verification/RemoteSubs.v ===== *)
(** * Remote subscriptions and gossip

    Model of [internal/cluster/remote_subs.go] and of the messages of [gossip_broadcast.go]: the
    index of the filters that other nodes have subscribers for, its refinement of a relation
    between nodes and filters, and the handling of the broadcasts that feed it and the index of the
    connections. *)
From S2P Require Import Prelude Topic Subscriptions Connections.
Import TopicMatcher.

Module RemoteSubs.

Record RemoteMatch := mkRemoteMatch { rm_NodeID : string; rm_MaxQoS : Z }.

(** [subs]: filter to node to QoS; [nodes]: node to its filters. *)
Record RemoteSubIndex := mkRemote {
  subs : gmap string (gmap string Z);
  nodes : gmap string (gset string)
}.

Definition NewRemoteSubIndex : RemoteSubIndex := mkRemote ∅ ∅.

Definition Add (r : RemoteSubIndex) (nodeID topicFilter : string) (qos : Z) : RemoteSubIndex :=
  let nodeMap := default ∅ (subs r !! topicFilter) in
  let nodeMap := match nodeMap !! nodeID with
                 | Some existing => if existing <? qos then <[nodeID := qos]> nodeMap else nodeMap
                 | None => <[nodeID := qos]> nodeMap
                 end in
  mkRemote (<[topicFilter := nodeMap]> (subs r))
    (<[nodeID := {[topicFilter]} ∪ default ∅ (nodes r !! nodeID)]> (nodes r)).

(** [delete(nodeMap, nodeID)], and the filter with it when it was the last node. *)
Definition drop_node (nodeID filter : string) (s : gmap string (gmap string Z)) : gmap string (gmap string Z) :=
  match s !! filter with
  | None => s
  | Some nodeMap =>
      let nodeMap := delete nodeID nodeMap in
      if decide (nodeMap = ∅) then delete filter s else <[filter := nodeMap]> s
  end.

Definition Remove (r : RemoteSubIndex) (nodeID topicFilter : string) : RemoteSubIndex :=
  mkRemote (drop_node nodeID topicFilter (subs r))
    (match nodes r !! nodeID with
     | None => nodes r
     | Some filters =>
         let filters := filters ∖ {[topicFilter]} in
         if decide (filters = ∅) then delete nodeID (nodes r) else <[nodeID := filters]> (nodes r)
     end).

Definition RemoveNode (r : RemoteSubIndex) (nodeID : string) : RemoteSubIndex :=
  match nodes r !! nodeID with
  | None => r
  | Some filters =>
      mkRemote (foldl (λ s filter, drop_node nodeID filter s) (subs r) (elements filters)) (delete nodeID (nodes r))
  end.

(** [topicMatch] is a line-by-line copy of [TopicMatch], and the loops of [Match] keep the largest
    QoS per node as those of the subscription index do per client. *)
Definition node_entries (nodeMap : gmap string Z) : list Subscriptions.subscriptionEntry :=
  (λ nq, Subscriptions.mkEntry nq.1 nq.2) <$> map_to_list nodeMap.

Definition match_order (r : RemoteSubIndex) : list (string * list Subscriptions.subscriptionEntry) :=
  (λ fe, (fe.1, node_entries fe.2)) <$> map_to_list (subs r).

Definition Match (r : RemoteSubIndex) (topic : string) : list RemoteMatch :=
  (λ nq, mkRemoteMatch nq.1 nq.2) <$> map_to_list (Subscriptions.match_best (match_order r) topic).

(** ** Broadcasts ([gossip_broadcast.go], [handleBroadcastMsg] of [cluster.go]) *)

Record SubBroadcast := mkSubB { sb_Type : string; sb_NodeID : string; sb_TopicFilter : string; sb_QoS : Z }.
Record ConnBroadcast := mkConnB { cb_Type : string; cb_NodeID : string; cb_DeviceID : string }.

(** [Invalidates]: a newer broadcast takes the place of an older one in the queue. *)
Definition sub_Invalidates (b other : SubBroadcast) : bool :=
  bool_decide (sb_NodeID b = sb_NodeID other) && bool_decide (sb_TopicFilter b = sb_TopicFilter other).
Definition conn_Invalidates (b other : ConnBroadcast) : bool := bool_decide (cb_DeviceID b = cb_DeviceID other).

Definition HandleSubBroadcast (idx : RemoteSubIndex) (msg : SubBroadcast) : RemoteSubIndex :=
  if bool_decide (sb_Type msg = "sub") then Add idx (sb_NodeID msg) (sb_TopicFilter msg) (sb_QoS msg)
  else if bool_decide (sb_Type msg = "unsub") then Remove idx (sb_NodeID msg) (sb_TopicFilter msg)
  else idx.

Definition HandleConnBroadcast (idx : Connections.ConnectionIndex) (msg : ConnBroadcast) : Connections.ConnectionIndex :=
  if bool_decide (cb_Type msg = "conn") then Connections.Add idx (cb_DeviceID msg) (cb_NodeID msg)
  else if bool_decide (cb_Type msg = "disconn") then Connections.Remove idx (cb_DeviceID msg)
  else idx.

(** ** The relation between nodes and filters *)

Definition remote_qos (r : RemoteSubIndex) (n f : string) : option Z := subs r !! f ≫= (.!! n).

Record index_ok (r : RemoteSubIndex) : Prop := {
  ok_subs : ∀ f m, subs r !! f = Some m → m ≠ ∅;
  ok_nodes : ∀ n s, nodes r !! n = Some s → s ≠ ∅;
  ok_inverse : ∀ n f, is_Some (remote_qos r n f) ↔ f ∈ default ∅ (nodes r !! n)
}.

Inductive rop :=
  | RAdd (nodeID filter : string) (qos : Z)
  | RRemove (nodeID filter : string)
  | RRemoveNode (nodeID : string).

Definition rstep (r : RemoteSubIndex) (o : rop) : RemoteSubIndex :=
  match o with RAdd n f q => Add r n f q | RRemove n f => Remove r n f | RRemoveNode n => RemoveNode r n end.
Definition rrun (ops : list rop) : RemoteSubIndex := foldl rstep NewRemoteSubIndex ops.

(** The largest QoS that the node announced since it last took the filter back. *)
Definition sstep (s : string → string → option Z) (o : rop) : string → string → option Z :=
  λ n f, match o with
         | RAdd n' f' q => if decide (n = n' ∧ f = f') then Some (match s n f with Some x => Z.max x q | None => q end) else s n f
         | RRemove n' f' => if decide (n = n' ∧ f = f') then None else s n f
         | RRemoveNode n' => if decide (n = n') then None else s n f
         end.
Definition srun (ops : list rop) : string → string → option Z := foldl sstep (λ _ _, None) ops.

Lemma drop_node_lookup n f s n' f' :
  drop_node n f s !! f' ≫= (.!! n') = if decide (n' = n ∧ f' = f) then None else s !! f' ≫= (.!! n').
Proof.
  unfold drop_node. destruct (s !! f) as [m|] eqn:E.
  - destruct (decide (f' = f)) as [->|Hf].
    + rewrite E. cbn. case_decide as Hm.
      * rewrite lookup_delete_eq. cbn. case_decide as Hn; [done|].
        assert (delete n m !! n' = None) as Hl by (by rewrite Hm, lookup_empty).
        rewrite lookup_delete_ne in Hl by naive_solver. done.
      * rewrite lookup_insert_eq. cbn. case_decide as Hn; [destruct Hn as [-> _]; by rewrite lookup_delete_eq|].
        by rewrite lookup_delete_ne by naive_solver.
    + rewrite (decide_False (P := _ ∧ _)) by naive_solver. case_decide; [by rewrite lookup_delete_ne|by rewrite lookup_insert_ne].
  - case_decide as Hd; [|done]. destruct Hd as [-> ->]. by rewrite E.
Qed.

Lemma drop_node_nonempty n f s : (∀ f m, s !! f = Some m → m ≠ ∅) → ∀ f' m, drop_node n f s !! f' = Some m → m ≠ ∅.
Proof.
  intros Hs f' m. unfold drop_node. destruct (s !! f) as [m0|] eqn:E; [|apply Hs].
  case_decide as Hd.
  - rewrite lookup_delete_Some. intros [_ Hm]. by eapply Hs.
  - rewrite lookup_insert_Some. intros [[_ <-]|[_ Hm]]; [done|by eapply Hs].
Qed.

Lemma drop_all_lookup n l s n' f' :
  foldl (λ s f, drop_node n f s) s l !! f' ≫= (.!! n') = if decide (n' = n ∧ f' ∈ l) then None else s !! f' ≫= (.!! n').
Proof.
  revert s. induction l as [|f l IH]; intros s; cbn.
  - rewrite decide_False by set_solver. done.
  - rewrite IH, drop_node_lookup. repeat case_decide; try done; set_solver.
Qed.

Lemma drop_all_nonempty n l s : (∀ f m, s !! f = Some m → m ≠ ∅) →
  ∀ f' m, foldl (λ s f, drop_node n f s) s l !! f' = Some m → m ≠ ∅.
Proof. revert s. induction l as [|f l IH]; intros s Hs; cbn; [done|]. apply IH. by apply drop_node_nonempty. Qed.

Lemma Add_qos r n f q n' f' : remote_qos (Add r n f q) n' f' =
  if decide (n' = n ∧ f' = f) then Some (match remote_qos r n' f' with Some x => Z.max x q | None => q end) else remote_qos r n' f'.
Proof.
  unfold remote_qos, Add. cbn [subs]. destruct (decide (f' = f)) as [->|Hf].
  - rewrite lookup_insert_eq. cbn.
    assert (default ∅ (subs r !! f) !! n' = subs r !! f ≫= (.!! n')) as Hd by (by destruct (subs r !! f)).
    case_decide as Hn.
    + destruct Hn as [-> _]. rewrite Hd. destruct (subs r !! f ≫= _) as [x|] eqn:Ex; [|by rewrite lookup_insert_eq].
      zcase; [rewrite lookup_insert_eq|rewrite Hd]; f_equal; lia.
    + rewrite <- Hd. case_match; [zcase; [|done]|]; by rewrite lookup_insert_ne by naive_solver.
  - rewrite lookup_insert_ne, decide_False by naive_solver. done.
Qed.

Lemma Remove_qos r n f n' f' : remote_qos (Remove r n f) n' f' = if decide (n' = n ∧ f' = f) then None else remote_qos r n' f'.
Proof. apply drop_node_lookup. Qed.

Lemma RemoveNode_qos r n n' f' : index_ok r →
  remote_qos (RemoveNode r n) n' f' = if decide (n' = n) then None else remote_qos r n' f'.
Proof.
  intros Hok. unfold RemoveNode. destruct (nodes r !! n) as [fs|] eqn:E.
  - unfold remote_qos. cbn [subs]. rewrite drop_all_lookup. destruct (decide (n' = n)) as [->|Hn].
    + case_decide as Hf; [done|]. rewrite elem_of_elements in Hf. fold (remote_qos r n f').
      apply eq_None_not_Some. rewrite (ok_inverse r Hok), E. cbn. naive_solver.
    + by rewrite decide_False by naive_solver.
  - case_decide; [|done]. subst n'. apply eq_None_not_Some. rewrite (ok_inverse r Hok), E. set_solver.
Qed.

Lemma sets_insert (m : gmap string (gset string)) n f n' : 
  default ∅ (<[n := {[f]} ∪ default ∅ (m !! n)]> m !! n') =
  if decide (n' = n) then {[f]} ∪ default ∅ (m !! n') else default ∅ (m !! n').
Proof. case_decide as Hn; [subst; by rewrite lookup_insert_eq|by rewrite lookup_insert_ne]. Qed.

Lemma remote_Add_ok r n f q : index_ok r → index_ok (Add r n f q).
Proof.
  intros Hok. split.
  - intros f' m. cbn. rewrite lookup_insert_Some. intros [[_ <-]|[_ Hm]]; [|by eapply ok_subs].
    destruct (_ !! n) eqn:E; [zcase|]; try apply insert_non_empty. intros E'. by rewrite E', lookup_empty in E.
  - intros n' s. cbn. rewrite lookup_insert_Some. intros [[_ <-]|[_ Hs]]; [set_solver|by eapply ok_nodes].
  - intros n' f'. rewrite Add_qos. cbn [nodes Add]. rewrite sets_insert. pose proof (ok_inverse r Hok n' f') as Hi.
    destruct (decide (n' = n)), (decide (f' = f)); subst.
    + rewrite decide_True by done. split; [set_solver|by eexists].
    + rewrite decide_False by naive_solver. rewrite Hi. set_solver.
    + rewrite decide_False by naive_solver. done.
    + rewrite decide_False by naive_solver. done.
Qed.

Lemma remote_Remove_ok r n f : index_ok r → index_ok (Remove r n f).
Proof.
  intros Hok. split.
  - apply drop_node_nonempty, Hok.
  - intros n' s. cbn. destruct (nodes r !! n) as [fs|] eqn:E; [|by apply ok_nodes]. case_decide.
    + rewrite lookup_delete_Some. intros [_ Hs]. by eapply ok_nodes.
    + rewrite lookup_insert_Some. intros [[_ <-]|[_ Hs]]; [done|by eapply ok_nodes].
  - intros n' f'. rewrite Remove_qos. pose proof (ok_inverse r Hok n' f') as Hi. cbn [nodes Remove].
    destruct (decide (n' = n)) as [->|Hn].
    + destruct (nodes r !! n) as [fs|] eqn:E; cbn in Hi.
      * assert (default ∅ ((if decide (fs ∖ {[f]} = ∅) then delete n (nodes r) else <[n:=fs ∖ {[f]}]> (nodes r)) !! n) =
          fs ∖ {[f]}) as -> by (case_decide as Hd; [by rewrite lookup_delete_eq, Hd|by rewrite lookup_insert_eq]).
        case_decide as Hd; [destruct Hd as [_ ->]; split; [by intros [? ?]|set_solver]|]. rewrite Hi. set_solver.
      * rewrite E. cbn. case_decide; [split; [by intros [? ?]|set_solver]|done].
    + rewrite decide_False by naive_solver. rewrite Hi. destruct (nodes r !! n) as [fs|]; [|done].
      case_decide; [by rewrite lookup_delete_ne|by rewrite lookup_insert_ne].
Qed.

Lemma remote_RemoveNode_ok r n : index_ok r → index_ok (RemoveNode r n).
Proof.
  intros Hok. pose proof (λ n' f', RemoveNode_qos r n n' f' Hok) as Hq. unfold RemoveNode in *.
  destruct (nodes r !! n) as [fs|] eqn:E; [|done]. split.
  - apply drop_all_nonempty, Hok.
  - intros n' s. cbn. rewrite lookup_delete_Some. intros [_ Hs]. by eapply ok_nodes.
  - intros n' f'. rewrite Hq. cbn [nodes]. case_decide as Hn.
    + subst n'. rewrite lookup_delete_eq. split; [by intros [? ?]|set_solver].
    + rewrite lookup_delete_ne by done. apply Hok.
Qed.

Lemma rrun_refines ops : index_ok (rrun ops) ∧ ∀ n f, remote_qos (rrun ops) n f = srun ops n f.
Proof.
  unfold rrun, srun. induction ops as [|o ops [IH1 IH2]] using rev_ind.
  - split; [|done]. split; [done|done|]. intros n f. split; [by intros [? ?]|set_solver].
  - rewrite !foldl_app. cbn [foldl]. split.
    + destruct o; [by apply remote_Add_ok|by apply remote_Remove_ok|by apply remote_RemoveNode_ok].
    + intros n f. destruct o; cbn [rstep sstep]; rewrite ?Add_qos, ?Remove_qos, ?RemoveNode_qos by done; by rewrite IH2.
Qed.

(** [Match] gives a node the largest QoS of its filters that match. *)
Lemma Match_best (r : RemoteSubIndex) (topic : string) : Subscriptions.is_best
  (λ n q, ∃ f, TopicMatch f topic = true ∧ remote_qos r n f = Some q) (Subscriptions.match_best (match_order r) topic).
Proof.
  eapply Subscriptions.is_best_ext; [|apply Subscriptions.match_best_spec]. intros n q. unfold remote_qos, match_order. split.
  - intros (f & es & ([f' m] & [= -> ->] & Hm%elem_of_map_to_list)%list_elem_of_fmap & Ht & He).
    apply list_elem_of_fmap in He as ([n' q'] & [= -> ->] & Hn%elem_of_map_to_list). exists f'. by rewrite Hm.
  - intros (f & Ht & (m & Hm & Hn)%bind_Some). exists f, (node_entries m). split_and!; [|done|].
    + apply list_elem_of_fmap. exists (f, m). split; [done|]. by apply elem_of_map_to_list.
    + apply list_elem_of_fmap. exists (n, q). split; [done|]. by apply elem_of_map_to_list.
Qed.

Lemma remote_Match_elem (r : RemoteSubIndex) (topic n : string) (q : Z) :
  mkRemoteMatch n q ∈ Match r topic ↔ Subscriptions.match_best (match_order r) topic !! n = Some q.
Proof.
  unfold Match. rewrite list_elem_of_fmap. split; [intros ([n' q'] & [= -> ->] & Hx); by apply elem_of_map_to_list|].
  intros Hx. exists (n, q). split; [done|]. by apply elem_of_map_to_list.
Qed.

(** A topic is matched with each node that has a matching filter once, at the largest QoS of these. *)
Lemma Match_nodes (r : RemoteSubIndex) (topic : string) :
  NoDup (rm_NodeID <$> Match r topic) ∧
  ∀ n q, mkRemoteMatch n q ∈ Match r topic ↔
    (∃ f, TopicMatch f topic = true ∧ remote_qos r n f = Some q) ∧
    ∀ f q', TopicMatch f topic = true → remote_qos r n f = Some q' → q' ≤ q.
Proof.
  split.
  { unfold Match. rewrite <- list_fmap_compose. apply NoDup_fst_map_to_list. }
  intros n q. rewrite remote_Match_elem. pose proof (Match_best r topic n) as Hb.
  destruct (_ !! n) as [x|].
  - destruct Hb as [Hx Hmax]. split; [intros [= ->]; split; [done|naive_solver]|].
    intros [Hq Hq']. destruct Hx as (f & ? & ?). f_equal.
    apply Z.le_antisymm; [by eapply Hq'|naive_solver].
  - split; [done|]. intros [Hq _]. by apply Hb in Hq.
Qed.

Lemma Match_covers (r : RemoteSubIndex) (topic n f : string) (q : Z) :
  TopicMatch f topic = true → remote_qos r n f = Some q → ∃ m, mkRemoteMatch n m ∈ Match r topic ∧ q ≤ m.
Proof.
  intros Ht Hq. pose proof (Match_best r topic n) as Hb. setoid_rewrite remote_Match_elem.
  destruct (_ !! n) as [x|]; [|exfalso; by eapply Hb; exists f]. exists x. split; [done|]. apply Hb. by exists f.
Qed.

(** C35: the index of the remote subscriptions records what the nodes announced: after any
    history, a node is in it with a filter exactly when it announced the filter and has since neither
    taken it back nor left, with the largest QoS announced; the two maps are inverse to each
    other and have no empty entries. A topic is matched with each node that has a matching filter once,
    at the largest QoS of these filters, and with no other. *)
Theorem RemoteSubIndex_refines (ops : list rop) (topic : string) :
  index_ok (rrun ops) ∧ (∀ n f, remote_qos (rrun ops) n f = srun ops n f) ∧
  NoDup (rm_NodeID <$> Match (rrun ops) topic) ∧
  ∀ n q, mkRemoteMatch n q ∈ Match (rrun ops) topic ↔
    (∃ f, TopicMatch f topic = true ∧ srun ops n f = Some q) ∧
    ∀ f q', TopicMatch f topic = true → srun ops n f = Some q' → q' ≤ q.
Proof.
  destruct (rrun_refines ops) as [Hok Href]. split; [done|]. split; [done|].
  destruct (Match_nodes (rrun ops) topic) as [Hn Hm]. split; [done|]. intros n q. rewrite Hm. by setoid_rewrite Href.
Qed.

(** ** What the broadcasts lose *)

(** Each client of a node that unsubscribes makes the node take the filter back, also when another
    of its clients still has it: the node keeps the subscriber and the others no longer match it. *)
Lemma unsubscribe_hides_others (n f topic : string) : TopicMatch f topic = true →
  Subscriptions.mkMatch "c2" 0 ∈ Subscriptions.Match
    (Subscriptions.run [Subscriptions.OpAdd "c1" f 0; Subscriptions.OpAdd "c2" f 0; Subscriptions.OpRemove "c1" f]) topic ∧
  ∀ q, mkRemoteMatch n q ∉ Match (foldl HandleSubBroadcast NewRemoteSubIndex
    [mkSubB "sub" n f 0; mkSubB "sub" n f 0; mkSubB "unsub" n f 0]) topic.
Proof.
  intros Ht. split.
  - apply Subscriptions.Match_history. split.
    + exists f. split; [done|]. unfold Subscriptions.spec_run. cbn [foldl Subscriptions.spec_step].
      repeat case_decide; naive_solver.
    + intros f' q'. unfold Subscriptions.spec_run. cbn [foldl Subscriptions.spec_step].
      repeat case_decide; naive_solver lia.
  - intros q Hq. assert (Match (Remove (Add (Add NewRemoteSubIndex n f 0) n f 0) n f) topic = []) as E.
    { unfold Match, match_order. replace (subs _) with (∅ : gmap string (gmap string Z)); [done|].
      symmetry. apply map_eq. intros f'. rewrite lookup_empty. apply eq_None_not_Some. intros [m Hm].
      pose proof (remote_Remove_ok _ n f (remote_Add_ok _ n f 0 (remote_Add_ok _ n f 0 (proj1 (rrun_refines []))))) as Hok.
      apply (ok_subs _ Hok f' m Hm). apply map_eq. intros n'. rewrite lookup_empty.
      pose proof (Remove_qos (Add (Add NewRemoteSubIndex n f 0) n f 0) n f n' f') as Hr.
      unfold remote_qos at 1 in Hr. rewrite Hm in Hr. cbn in Hr. rewrite Hr, !Add_qos. by repeat case_decide. }
    change (foldl HandleSubBroadcast _ _) with (Remove (Add (Add NewRemoteSubIndex n f 0) n f 0) n f) in Hq.
    rewrite E in Hq. by apply not_elem_of_nil in Hq.
Qed.

(** The disconnection that the old node of a device announces after the device has moved removes
    the device, although it is connected to its new node. *)
Lemma stale_disconnect (idx : Connections.ConnectionIndex) (d a b : string) :
  Connections.Lookup (foldl HandleConnBroadcast idx [mkConnB "conn" b d; mkConnB "disconn" a d]) d = None.
Proof.
  change (foldl HandleConnBroadcast idx _) with (Connections.Remove (Connections.Add idx d b) d).
  unfold Connections.Lookup, Connections.Remove. cbn [Connections.devices Connections.Add].
  rewrite lookup_insert_eq. cbn [Connections.devices]. apply lookup_delete_eq.
Qed.

Lemma RemoteSubIndex_refines_sample :
  Match (rrun [RAdd "n1" "a/+" 0; RAdd "n1" "a/#" 2; RAdd "n1" "a/#" 1; RAdd "n2" "b" 1; RRemoveNode "n2"]) "a/x" =
  [mkRemoteMatch "n1" 2].
Proof. vm_compute. reflexivity. Qed.

End RemoteSubs.
