(* ===== verification/Takeover.v ===== *)
(** * Conflicts and takeovers of sessions

    Model of [internal/cluster/conflict.go] and [takeover.go]: which of two sessions of a client
    wins, what a node does with the request of another one, and the channels on which the answers
    to its own requests arrive. A channel is an entry of a heap, so that two requests for the same
    client and the handler of the answers share it as in the code. *)
From S2P Require Import Prelude.

Module Takeover.

(** ** [conflict.go] *)

Record SessionMeta := mkMeta { sm_ClientID : string; Epoch : Z; ConnectTimestamp : Z; sm_NodeID : string }.

(** [LWWResolver.Resolve]: the remote session wins. *)
Definition Resolve (local remote : SessionMeta) : bool :=
  if Epoch local <? Epoch remote then true
  else if Epoch remote <? Epoch local then false
  else if ConnectTimestamp local <? ConnectTimestamp remote then true
  else if ConnectTimestamp remote <? ConnectTimestamp local then false
  else false.

(** ** [takeover.go] *)

Record TakeoverRequest := mkReq { rq_ClientID : string; RequestNodeID : string; rq_ConnectTimestamp : Z; rq_Epoch : Z }.
Record TakeoverResponse := mkResp { rs_ClientID : string; Success : bool; Reason : string }.

(** A channel of capacity one: what it holds, and whether it was closed. *)
Record chan := mkChan { held : option TakeoverResponse; shut : bool }.

Record TakeoverManager := mkTM {
  selfID : string;
  sessions : gmap string SessionMeta;
  ackChans : gmap string nat;
  heap : gmap nat chan;
  fresh : nat
}.

Definition NewTakeoverManager (self : string) : TakeoverManager := mkTM self ∅ ∅ ∅ 0.

Definition SetLocalSession (tm : TakeoverManager) (clientID : string) (m : SessionMeta) : TakeoverManager :=
  mkTM (selfID tm) (<[clientID := m]> (sessions tm)) (ackChans tm) (heap tm) (fresh tm).
Definition RemoveLocalSession (tm : TakeoverManager) (clientID : string) : TakeoverManager :=
  mkTM (selfID tm) (delete clientID (sessions tm)) (ackChans tm) (heap tm) (fresh tm).

(** What a handler does outside: disconnect a local client, answer a node. *)
Inductive effect := Disconnect (clientID : string) | SendRaw (nodeID : string) (r : TakeoverResponse).

Definition HandleTakeoverRequest (tm : TakeoverManager) (req : TakeoverRequest) : TakeoverManager * list effect :=
  let remoteMeta := mkMeta (rq_ClientID req) (rq_Epoch req) (rq_ConnectTimestamp req) (RequestNodeID req) in
  let local := sessions tm !! rq_ClientID req in
  let exists_ := bool_decide (is_Some local) in
  let shouldYield := match local with None => true | Some m => Resolve m remoteMeta end in
  let tm := if shouldYield && exists_ then RemoveLocalSession tm (rq_ClientID req) else tm in
  if shouldYield then
    (tm, (if exists_ then [Disconnect (rq_ClientID req)] else []) ++
         [SendRaw (RequestNodeID req) (mkResp (rq_ClientID req) true "")])
  else (tm, [SendRaw (RequestNodeID req) (mkResp (rq_ClientID req) false "local session wins conflict resolution")]).

(** *** A request, in its steps *)

(** Until the request is sent: a new channel; the channel of an older request is closed. *)
Definition request_begin (tm : TakeoverManager) (clientID : string) : nat * TakeoverManager :=
  let h := match ackChans tm !! clientID with
           | Some old => alter (λ c, mkChan (held c) true) old (heap tm)
           | None => heap tm
           end in
  (fresh tm, mkTM (selfID tm) (sessions tm) (<[clientID := fresh tm]> (ackChans tm))
               (<[fresh tm := mkChan None false]> h) (S (fresh tm))).

(** The deferred function. *)
Definition request_end (tm : TakeoverManager) (clientID : string) : TakeoverManager :=
  mkTM (selfID tm) (sessions tm) (delete clientID (ackChans tm)) (heap tm) (fresh tm).

(** How the wait ends. *)
Inductive wait_end := SendFailed | Received | TimedOut.
Definition request_result (tm : TakeoverManager) (ch : nat) (w : wait_end) : option bool :=
  match w with
  | SendFailed | TimedOut => Some true
  | Received =>
      match heap tm !! ch with
      | Some c => match held c with
                  | Some r => Some (Success r)
                  | None => if shut c then Some true else None
                  end
      | None => None
      end
  end.

(** [HandleTakeoverResponse]: the look-up under the lock, and the send after it. *)
Definition response_lookup (tm : TakeoverManager) (r : TakeoverResponse) : option nat := ackChans tm !! rs_ClientID r.
Definition response_send (tm : TakeoverManager) (ch : nat) (r : TakeoverResponse) : res TakeoverManager :=
  match heap tm !! ch with
  | None => Ok tm
  | Some c =>
      if shut c then Panic
      else match held c with
           | None => Ok (mkTM (selfID tm) (sessions tm) (ackChans tm) (<[ch := mkChan (Some r) false]> (heap tm)) (fresh tm))
           | Some _ => Ok tm
           end
  end.
Definition HandleTakeoverResponse (tm : TakeoverManager) (r : TakeoverResponse) : res TakeoverManager :=
  match response_lookup tm r with Some ch => response_send tm ch r | None => Ok tm end.

(** ** Facts *)

(** The order of sessions: by epoch, then by the time of the connection. *)
Definition older (a b : SessionMeta) : Prop :=
  Epoch a < Epoch b ∨ Epoch a = Epoch b ∧ ConnectTimestamp a < ConnectTimestamp b.

Lemma Resolve_older l r : Resolve l r = true ↔ older l r.
Proof. unfold Resolve, older. repeat zcase; split; try done; lia. Qed.

Definition request_of (m : SessionMeta) : TakeoverRequest := mkReq (sm_ClientID m) (sm_NodeID m) (ConnectTimestamp m) (Epoch m).

(** The answer that a node sends to the other. *)
Definition granted (es : list effect) : bool :=
  existsb (λ e, match e with SendRaw _ r => Success r | Disconnect _ => false end) es.
Definition kicked (es : list effect) (c : string) : Prop := Disconnect c ∈ es.

(** C37: of two sessions of a client one survives: when two nodes each have a session of the client
    and each asks the other to give its own up, then the node with the older session (by epoch, then
    by time of connection) gives it up, disconnects its client and grants the request, and the
    other keeps its session and refuses. When epoch and time are equal both keep their session and
    refuse. *)
Theorem takeover_one_survivor (a b : TakeoverManager) (ma mb : SessionMeta) :
  sm_ClientID ma = sm_ClientID mb →
  sessions a !! sm_ClientID ma = Some ma → sessions b !! sm_ClientID ma = Some mb →
  let '(a', ea) := HandleTakeoverRequest a (request_of mb) in
  let '(b', eb) := HandleTakeoverRequest b (request_of ma) in
  let c := sm_ClientID ma in
  (older ma mb → sessions a' !! c = None ∧ kicked ea c ∧ granted ea = true ∧
                 sessions b' !! c = Some mb ∧ ¬ kicked eb c ∧ granted eb = false) ∧
  (Epoch ma = Epoch mb → ConnectTimestamp ma = ConnectTimestamp mb →
   sessions a' !! c = Some ma ∧ sessions b' !! c = Some mb ∧ granted ea = false ∧ granted eb = false).
Proof.
  intros Hc Ha Hb. unfold HandleTakeoverRequest. cbn [rq_ClientID request_of RequestNodeID rq_Epoch rq_ConnectTimestamp].
  rewrite <- Hc, Ha, Hb. rewrite !bool_decide_true by (by eexists).
  change (Resolve ma _) with (Resolve ma mb). change (Resolve mb _) with (Resolve mb ma).
  pose proof (Resolve_older ma mb) as H1. pose proof (Resolve_older mb ma) as H2. unfold older in *.
  destruct (Resolve ma mb), (Resolve mb ma); cbn [andb app]; cbv zeta; cbn [sessions RemoveLocalSession].
  - destruct (proj1 H1 eq_refl), (proj1 H2 eq_refl); lia.
  - rewrite lookup_delete_eq. unfold kicked. split; [intros _; split_and!; try done; set_solver|].
    destruct (proj1 H1 eq_refl); lia.
  - split; [|destruct (proj1 H2 eq_refl); lia]. intros Ho. by apply H1 in Ho.
  - split; [intros Ho; by apply H1 in Ho|done].
Qed.

Lemma takeover_one_survivor_witness :
  let ma := mkMeta "c" 1 10 "a" in let mb := mkMeta "c" 1 20 "b" in
  let '(a', ea) := HandleTakeoverRequest (SetLocalSession (NewTakeoverManager "a") "c" ma) (request_of mb) in
  let '(b', eb) := HandleTakeoverRequest (SetLocalSession (NewTakeoverManager "b") "c" mb) (request_of ma) in
  sessions a' !! "c" = None ∧ sessions b' !! "c" = Some mb ∧ granted ea = true ∧ granted eb = false.
Proof.
  intros ma mb. pose proof (takeover_one_survivor (SetLocalSession (NewTakeoverManager "a") "c" ma)
    (SetLocalSession (NewTakeoverManager "b") "c" mb) ma mb eq_refl eq_refl eq_refl) as H.
  destruct (HandleTakeoverRequest _ (request_of mb)) as [a' ea], (HandleTakeoverRequest _ (request_of ma)) as [b' eb].
  destruct H as [H _]. destruct H as (H1 & _ & H2 & H3 & _ & H4); [right; cbn; lia|]. done.
Defined.

(** The end of a request that was overtaken removes the channel of the newer one: its refusal is not
    received, and the newer request too ends as granted, by its timeout. *)
Lemma overtaken_request_loses_answer (self c reason : string) :
  let '(ch1, tm1) := request_begin (NewTakeoverManager self) c in
  let '(ch2, tm2) := request_begin tm1 c in
  request_result tm2 ch1 Received = Some true ∧
  let tm3 := request_end tm2 c in
  HandleTakeoverResponse tm3 (mkResp c false reason) = Ok tm3 ∧
  request_result tm3 ch2 Received = None ∧ request_result tm3 ch2 TimedOut = Some true.
Proof.
  cbn. rewrite lookup_insert_eq. unfold HandleTakeoverResponse, response_lookup. cbn.
  rewrite lookup_insert_ne, lookup_delete_eq, lookup_insert_eq by done. rewrite lookup_alter_eq, lookup_insert_eq. done.
Qed.

(** An answer that was looked up just before a newer request for the client begins is sent on a
    closed channel, which panics. *)
Lemma response_race_panics (self c : string) (r : TakeoverResponse) : rs_ClientID r = c →
  let '(ch1, tm1) := request_begin (NewTakeoverManager self) c in
  let '(_, tm2) := request_begin tm1 c in
  response_lookup tm1 r = Some ch1 ∧ response_send tm2 ch1 r = Panic.
Proof.
  intros <-. cbn. unfold response_lookup, response_send. cbn. rewrite !lookup_insert_eq. split; [done|]. cbn.
  rewrite lookup_insert_ne, lookup_alter_eq, lookup_insert_eq by done. done.
Qed.

End Takeover.
