(* ===== verification/Cluster.v ===== *)
(** * The cluster

    Model of [internal/cluster/cluster.go] and [replicator.go] over the ring, the indexes and the
    migrations: the events of the membership, the broadcasts in and out, the rebalancing after a
    change of the ring, and the replicas of a device. The members are what [memberlist] gives; the
    goroutines that an event starts are the outputs of its handler. *)
From S2P Require Import Prelude Topic Subscriptions Connections Storage Delivery Offline Sessions Retain Wills Broker Migration Ring RemoteSubs.
Import Ring RemoteSubs.

Module Cluster.

Inductive EventType := NodeJoin | NodeLeave | NodeUpdate.
Record MemberEvent := mkEvent { ev_Type : EventType; ev_Node : NodeInfo }.

Section Cluster.
Context `{HashRing}.

(** [peers] is the peer table of the transport: node to address. *)
Record Cluster := mkCluster {
  self : NodeInfo;
  cl_ring : Ring;
  remoteSubs : RemoteSubIndex;
  connections : Connections.ConnectionIndex;
  peers : gmap string string;
  coordinator : option Migration.MigrationCoordinator;
  autoRebalance : bool;
  migrationConfig : Migration.MigrationConfig;
  replicaCount : Z
}.

Definition set_coordinator (c : Cluster) (mc : Migration.MigrationCoordinator) : Cluster :=
  mkCluster (self c) (cl_ring c) (remoteSubs c) (connections c) (peers c) (Some mc) (autoRebalance c) (migrationConfig c)
    (replicaCount c).
Definition SetMigrationBrokerAPI (c : Cluster) : Cluster := set_coordinator c (Migration.NewMigrationCoordinator 3).

(** What the handlers start: broadcasts that are queued, wills to publish, migrations to execute. *)
Inductive output :=
  | QueueSub (m : SubBroadcast)
  | QueueConn (m : ConnBroadcast)
  | PublishWill (deviceID : string)
  | RemoteConnect (deviceID nodeID : string)
  | ExecuteMigration (m : Migration.ShardMigration).

Definition BroadcastSubscribe (c : Cluster) (filter : string) (qos : Z) : output :=
  QueueSub (mkSubB "sub" (ni_ID (self c)) filter qos).
Definition BroadcastUnsubscribe (c : Cluster) (filter : string) : output :=
  QueueSub (mkSubB "unsub" (ni_ID (self c)) filter 0).
Definition BroadcastConnect (c : Cluster) (deviceID : string) : output :=
  QueueConn (mkConnB "conn" (ni_ID (self c)) deviceID).
Definition BroadcastDisconnect (c : Cluster) (deviceID : string) : output :=
  QueueConn (mkConnB "disconn" (ni_ID (self c)) deviceID).

Definition rebroadcastLocalSubs (c : Cluster) (filters : list string) : list output :=
  (λ f, BroadcastSubscribe c f 2) <$> filters.
Definition rebroadcastLocalConnections (c : Cluster) (devices : list string) : list output :=
  BroadcastConnect c <$> devices.

(** A broadcast that was decoded. *)
Inductive broadcast := SubMsg (m : SubBroadcast) | ConnMsg (m : ConnBroadcast) | BadMsg.

Definition handleBroadcastMsg (c : Cluster) (b : broadcast) : Cluster * list output :=
  match b with
  | SubMsg m =>
      if bool_decide (sb_NodeID m = ni_ID (self c)) then (c, [])
      else (mkCluster (self c) (cl_ring c) (HandleSubBroadcast (remoteSubs c) m) (connections c) (peers c) (coordinator c)
              (autoRebalance c) (migrationConfig c) (replicaCount c), [])
  | ConnMsg m =>
      if bool_decide (cb_NodeID m = ni_ID (self c)) then (c, [])
      else (mkCluster (self c) (cl_ring c) (remoteSubs c) (HandleConnBroadcast (connections c) m) (peers c) (coordinator c)
              (autoRebalance c) (migrationConfig c) (replicaCount c),
            if bool_decide (cb_Type m = "conn") then [RemoteConnect (cb_DeviceID m) (cb_NodeID m)] else [])
  | BadMsg => (c, [])
  end.

(** What the broker provides: its filters and its devices, and whether wills are published. *)
Record providers := mkProv { localFilters : option (list string); localDevices : option (list string); willPublisher : bool }.

Definition migration_cfg (c : Cluster) : Migration.MigrationConfig :=
  if Migration.BatchSize (migrationConfig c) =? 0 then Migration.DefaultMigrationConfig else migrationConfig c.

(** The loop of [autoRebalanceAfterRingChange] runs beside the migrations that it has started and those of
    other calls: the order in which Go visits the targets, and for each round the time, in nanoseconds and
    in milliseconds, and what the other goroutines have done to the coordinator since the last one. *)
Record schedule := mkSchedule {
  sc_visit : list (string * list string) → list (string * list string);
  sc_now : nat → Z;
  sc_ms : nat → Z;
  sc_others : nat → Migration.MigrationCoordinator → Migration.MigrationCoordinator
}.

Definition auto_migration (c : Cluster) (s : schedule) (i : nat) (toNode : string) (deviceIDs : list string) : Migration.ShardMigration :=
  Migration.NewShardMigration (sc_now s i) ("auto-" +:+ ni_ID (self c) +:+ "-" +:+ toNode +:+ "-" +:+ pretty (sc_ms s i))
    (ni_ID (self c)) toNode deviceIDs (migration_cfg c).

Fixpoint rebalance_loop (c : Cluster) (s : schedule) (i : nat) (order : list (string * list string)) : Cluster * list output :=
  match order with
  | [] => (c, [])
  | (toNode, deviceIDs) :: order =>
      match coordinator c with
      | Some mc =>
          let mc := sc_others s i mc in
          if Migration.CanStartMore mc then
            let m := auto_migration c s i toNode deviceIDs in
            let '(c, outs) := rebalance_loop (set_coordinator c (Migration.Submit mc m)) s (S i) order in
            (c, ExecuteMigration m :: outs)
          else rebalance_loop (set_coordinator c mc) s (S i) order
      | None => rebalance_loop c s (S i) order
      end
  end.

Definition autoRebalanceAfterRingChange (c : Cluster) (oldRing : Ring) (s : schedule) (devices : list string)
    : Cluster * list output :=
  match devices with
  | [] => (c, [])
  | _ =>
      match DiffOwnership oldRing (cl_ring c) devices !! ni_ID (self c) with
      | None => (c, [])
      | Some myDiff => rebalance_loop c s 0 (sc_visit s (map_to_list myDiff))
      end
  end.

(** One round of [eventLoop]; [members] is what the membership says after the event, [s] the schedule of the
    rebalancing that it may start. *)
Definition handle_event (c : Cluster) (p : providers) (s : schedule) (members : list NodeInfo) (ev : MemberEvent)
    : Cluster * list output :=
  let oldRing := match coordinator c with
                 | Some _ => if autoRebalance c then Some (Snapshot (cl_ring c)) else None
                 | None => None
                 end in
  let n := ev_Node ev in
  let '(subs, conns, prs, outs) :=
    match ev_Type ev with
    | NodeJoin =>
        if bool_decide (ni_ID n = ni_ID (self c)) then (remoteSubs c, connections c, peers c, [])
        else (remoteSubs c, connections c,
              match peers c !! ni_ID n with
              | Some _ => peers c
              | None => <[ni_ID n := Host n +:+ ":" +:+ pretty (TransportPort n)]> (peers c)
              end,
              from_option (rebroadcastLocalSubs c) [] (localFilters p) ++
              from_option (rebroadcastLocalConnections c) [] (localDevices p))
    | NodeLeave =>
        (RemoteSubs.RemoveNode (remoteSubs c) (ni_ID n), Connections.RemoveNode (connections c) (ni_ID n),
         delete (ni_ID n) (peers c),
         if willPublisher p then PublishWill <$> Connections.NodeDevices (connections c) (ni_ID n) else [])
    | NodeUpdate => (remoteSubs c, connections c, peers c, [])
    end in
  let c := mkCluster (self c) (Ring.Update (cl_ring c) members) subs conns prs (coordinator c) (autoRebalance c)
             (migrationConfig c) (replicaCount c) in
  match oldRing, localDevices p with
  | Some old, Some devices =>
      let '(c, more) := autoRebalanceAfterRingChange c old s devices in (c, outs ++ more)
  | _, _ => (c, outs)
  end.

(** [TriggerMigration]: an error, or the migration. *)
Definition TriggerMigration (c : Cluster) (now ms : Z) (toNode : string) (deviceIDs : list string)
    : (string + Migration.ShardMigration) * Cluster :=
  match coordinator c with
  | None => (inl "migration not configured: call SetMigrationBrokerAPI first", c)
  | Some mc =>
      if Migration.CanStartMore mc then
        let id := "mig-" +:+ ni_ID (self c) +:+ "-" +:+ toNode +:+ "-" +:+ pretty ms in
        let m := Migration.NewShardMigration now id (ni_ID (self c)) toNode deviceIDs (migration_cfg c) in
        (inr m, set_coordinator c (Migration.Submit mc m))
      else (inl "max parallel migrations reached", c)
  end.

Definition cl_LocateDeviceN (c : Cluster) (deviceID : string) (n : Z) : list NodeInfo :=
  LocateDeviceN (cl_ring c) deviceID (if n <=? 0 then replicaCount c else n).
Definition cl_IsLocal (c : Cluster) (deviceID : string) : bool := IsLocal (cl_ring c) deviceID (ni_ID (self c)).

(** ** [replicator.go] *)

Definition replicaNodes (c : Cluster) (clientID : string) : list NodeInfo :=
  filter (λ n, ni_ID n ≠ ni_ID (self c)) (cl_LocateDeviceN c clientID (replicaCount c)).

Inductive replica_msg :=
  | ReplicateOfflineMessage (clientID : string) (entries : list (string * list Z * Z))
  | ReplicateOfflineAckMessage (clientID : string)
  | ReplicateWillMessage (clientID topic : string) (payload : list Z) (qos : Z) (retain : bool) (persistedAt : Z)
  | DeleteWillMessage (clientID : string).

(** Each of the functions of the replicator sends its message to every replica. *)
Definition send_replicas (c : Cluster) (clientID : string) (m : replica_msg) : list (string * replica_msg) :=
  (λ n, (ni_ID n, m)) <$> replicaNodes c clientID.
Definition ReplicateOffline (c : Cluster) (clientID : string) (entries : list (string * list Z * Z)) : list (string * replica_msg) :=
  send_replicas c clientID (ReplicateOfflineMessage clientID entries).
Definition ClearOfflineReplica (c : Cluster) (clientID : string) : list (string * replica_msg) :=
  send_replicas c clientID (ReplicateOfflineAckMessage clientID).
Definition ReplicateWill (c : Cluster) (now : Z) (clientID topic : string) (payload : list Z) (qos : Z) (retain : bool)
    : list (string * replica_msg) :=
  send_replicas c clientID (ReplicateWillMessage clientID topic payload qos retain now).
Definition DeleteWill (c : Cluster) (clientID : string) : list (string * replica_msg) :=
  send_replicas c clientID (DeleteWillMessage clientID).

(** ** Facts *)

(** Rebalancing only changes the coordinator, and only starts migrations. *)
Definition same_cluster (c c' : Cluster) : Prop :=
  self c' = self c ∧ cl_ring c' = cl_ring c ∧ remoteSubs c' = remoteSubs c ∧ connections c' = connections c ∧
  peers c' = peers c ∧ migrationConfig c' = migrationConfig c.

Lemma rebalance_same s order : ∀ c i, same_cluster c (rebalance_loop c s i order).1 ∧
  ∀ o, o ∈ (rebalance_loop c s i order).2 → ∃ m, o = ExecuteMigration m.
Proof.
  induction order as [|[to ds] order IH]; intros c i; [split; [done|set_solver]|]. cbn [rebalance_loop].
  destruct (coordinator c) as [mc|]; [|apply IH]. cbv zeta. destruct (Migration.CanStartMore _).
  - set (c1 := set_coordinator _ _). destruct (IH c1 (S i)) as [Hs Ho]. destruct (rebalance_loop c1 s (S i) order) as [c2 outs].
    cbn in *. split; [done|]. intros o [->|Hin]%elem_of_cons; [by eexists|by apply Ho].
  - destruct (IH (set_coordinator c (sc_others s i mc)) (S i)) as [Hs Ho]. by split.
Qed.

Lemma auto_same c old s ds : same_cluster c (autoRebalanceAfterRingChange c old s ds).1 ∧
  ∀ o, o ∈ (autoRebalanceAfterRingChange c old s ds).2 → ∃ m, o = ExecuteMigration m.
Proof.
  unfold autoRebalanceAfterRingChange. destruct ds as [|d ds]; [split; [done|set_solver]|].
  destruct (DiffOwnership _ _ _ !! _) as [m|]; [apply rebalance_same|split; [done|set_solver]].
Qed.

(** The indexes of the cluster are consistent, as every history of operations leaves them. *)
Definition indexes_ok (c : Cluster) : Prop := RemoteSubs.index_ok (remoteSubs c) ∧ Connections.index_ok (connections c).

(** C39: a node that leaves is forgotten and its wills are published: after the event no filter
    and no device of the node is left in the indexes, those of the other nodes are as before, the wills
    of exactly the devices that were connected to it are published, and no device is located on a node
    that is no longer a member. *)
Theorem node_leave_exact (c : Cluster) (p : providers) (s : schedule) (members : list NodeInfo) (n : NodeInfo) :
  indexes_ok c → willPublisher p = true → NoDup (ni_ID <$> members) →
  let '(c', outs) := handle_event c p s members (mkEvent NodeLeave n) in
  (∀ n' f, remote_qos (remoteSubs c') n' f = if decide (n' = ni_ID n) then None else remote_qos (remoteSubs c) n' f) ∧
  (∀ d, Connections.Lookup (connections c') d =
        if decide (Connections.Lookup (connections c) d = Some (ni_ID n)) then None else Connections.Lookup (connections c) d) ∧
  (∀ d, PublishWill d ∈ outs ↔ Connections.Lookup (connections c) d = Some (ni_ID n)) ∧
  (∀ d owner, LocateDevice (cl_ring c') d = Some owner → owner ∈ members).
Proof.
  intros [Hs Hc] Hw Hnd. unfold handle_event. cbn [ev_Type ev_Node]. rewrite Hw.
  set (c1 := mkCluster _ _ _ _ _ _ _ _ _). set (outs := PublishWill <$> _).
  assert (∀ d, PublishWill d ∈ outs ↔ Connections.Lookup (connections c) d = Some (ni_ID n)) as Ho.
  { intros d. rewrite <- Connections.NodeDevices_elem by done. unfold outs. rewrite list_elem_of_fmap. naive_solver. }
  assert (∀ c' more, same_cluster c1 c' → (∀ o, o ∈ more → ∃ m, o = ExecuteMigration m) →
    (∀ n' f, remote_qos (remoteSubs c') n' f = if decide (n' = ni_ID n) then None else remote_qos (remoteSubs c) n' f) ∧
    (∀ d, Connections.Lookup (connections c') d =
      if decide (Connections.Lookup (connections c) d = Some (ni_ID n)) then None else Connections.Lookup (connections c) d) ∧
    (∀ d, PublishWill d ∈ outs ++ more ↔ Connections.Lookup (connections c) d = Some (ni_ID n)) ∧
    (∀ d owner, LocateDevice (cl_ring c') d = Some owner → owner ∈ members)) as Hall.
  { intros c' more (_ & Hr & Hsub & Hcon & _) Hmore. rewrite Hr, Hsub, Hcon. cbn [cl_ring remoteSubs connections c1]. split_and!.
    - intros n' f. by apply RemoteSubs.RemoveNode_qos.
    - intros d. by apply Connections.RemoveNode_lookup.
    - intros d. rewrite elem_of_app, Ho. split; [|by left]. intros [?|[m Hm]%Hmore]; done.
    - intros d owner. by apply Update_member. }
  destruct (match coordinator c with Some _ => _ | None => _ end) as [old|], (localDevices p) as [ds|];
    try (rewrite <- (app_nil_r outs); by apply Hall; [|set_solver]).
  destruct (auto_same c1 old s ds) as [H1 H2]. destruct (autoRebalanceAfterRingChange c1 old s ds) as [c' more].
  by apply Hall.
Qed.

(** Submitting a migration that is not running does not use up the limit. *)
Lemma Submit_active mc m : Migration.Status m = Migration.MigrationPending →
  Migration.CanStartMore mc = true → Migration.CanStartMore (Migration.Submit mc m) = true.
Proof.
  unfold Migration.CanStartMore, Migration.ActiveCount, Migration.Coord_List. cbn [Migration.migrations Migration.maxParallel Migration.Submit].
  intros Hp. rewrite !Z.ltb_lt. intros Hlt. eapply Z.le_lt_trans; [|exact Hlt].
  assert (∀ (l k : list Migration.ShardMigration), l ≡ₚ k → len (filter (λ m, Migration.Status m = Migration.MigrationRunning) l) =
    len (filter (λ m, Migration.Status m = Migration.MigrationRunning) k)) as Hperm.
  { intros l k Hlk. unfold len. f_equal. by rewrite Hlk. }
  set (id := Migration.mg_ID m). set (M := Migration.migrations mc).
  rewrite (Hperm (map_to_list (<[id:=m]> M)).*2 (m :: (map_to_list (delete id M)).*2)); cycle 1.
  { rewrite <- insert_delete_eq. rewrite map_to_list_insert by apply lookup_delete_eq. done. }
  rewrite filter_cons, decide_False by (by rewrite Hp).
  destruct (M !! id) as [old|] eqn:E; [|by rewrite delete_id].
  rewrite (Hperm (map_to_list M).*2 (old :: (map_to_list (delete id M)).*2)); cycle 1.
  { rewrite <- (insert_delete_id M id old E) at 1. rewrite map_to_list_insert by apply lookup_delete_eq. done. }
  rewrite filter_cons. case_decide; rewrite ?len_cons; lia.
Qed.

(** The coordinator after a round that found [mc]. *)
Definition after_round (c : Cluster) (s : schedule) (i : nat) (r : string * list string) (mc : Migration.MigrationCoordinator) :=
  if Migration.CanStartMore mc then Migration.Submit mc (auto_migration c s i r.1 r.2) else mc.
(** The coordinator that each round finds, from the one that round [i] starts from. *)
Fixpoint found (c : Cluster) (s : schedule) (i : nat) (mc : Migration.MigrationCoordinator) (order : list (string * list string))
    : list (string * list string * Migration.MigrationCoordinator) :=
  match order with
  | [] => []
  | r :: order => (r, sc_others s i mc) :: found c s (S i) (after_round c s i r (sc_others s i mc)) order
  end.

Lemma found_fst c s order : ∀ i mc, (found c s i mc order).*1 = order.
Proof. induction order as [|r order IH]; intros i mc; [done|]. cbn. by rewrite IH. Qed.

Lemma found_chain c s order : ∀ i mc j r mc', found c s i mc order !! j = Some (r, mc') →
  mc' = sc_others s (i + j) (match j with
                             | O => mc
                             | S k => match found c s i mc order !! k with
                                      | Some (r', mc1) => after_round c s (i + k) r' mc1
                                      | None => mc
                                      end
                             end).
Proof.
  induction order as [|r0 order IH]; intros i mc j r mc'; [by destruct j|]. destruct j as [|j]; cbn [found lookup list_lookup].
  - intros [= <- <-]. by rewrite Nat.add_0_r.
  - intros Hj. rewrite <- Nat.add_succ_comm. rewrite (IH _ _ _ _ _ Hj). f_equal. destruct j as [|k]; [by rewrite Nat.add_0_r|].
    cbn [lookup list_lookup]. rewrite <- (Nat.add_succ_comm i k). destruct (found c s (S i) _ order !! k) as [[]|] eqn:E; [done|].
    apply lookup_ge_None in E. apply lookup_lt_Some in Hj. lia.
Qed.

(** The loop starts a migration in each round that finds room. *)
Lemma rebalance_started s order : ∀ c c0 i mc m, coordinator c = Some mc → self c = self c0 → migration_cfg c = migration_cfg c0 →
  ExecuteMigration m ∈ (rebalance_loop c s i order).2 ↔
  ∃ j r mc', found c0 s i mc order !! j = Some (r, mc') ∧ Migration.CanStartMore mc' = true ∧ m = auto_migration c0 s (i + j) r.1 r.2.
Proof.
  induction order as [|[to ds] order IH]; intros c c0 i mc m Hc Hs Hcfg; cbn [rebalance_loop found].
  { split; [intros Hx; by apply not_elem_of_nil in Hx|]. intros (j & r & mc' & Hj & _). by rewrite lookup_nil in Hj. }
  rewrite Hc. cbv zeta. unfold after_round. assert (∀ k, auto_migration c s k to ds = auto_migration c0 s k to ds) as Hm
    by (intros k; unfold auto_migration; by rewrite Hs, Hcfg).
  assert (∀ mc1 P, (∃ j r mc', found c0 s (S i) mc1 order !! j = Some (r, mc') ∧ Migration.CanStartMore mc' = true ∧ m = auto_migration c0 s (S i + j) r.1 r.2) ∨ P ↔
    P ∨ ∃ j r mc', found c0 s (S i) mc1 order !! j = Some (r, mc') ∧ Migration.CanStartMore mc' = true ∧ m = auto_migration c0 s (i + S j) r.1 r.2) as Hsh
    by (intros mc1 P; setoid_rewrite Nat.add_succ_comm; tauto).
  destruct (Migration.CanStartMore (sc_others s i mc)) eqn:Er; cbn [fst snd].
  - rewrite Hm. set (m0 := auto_migration c0 s i to ds). set (c1 := set_coordinator c _).
    specialize (IH c1 c0 (S i) (Migration.Submit (sc_others s i mc) m0) m eq_refl Hs Hcfg).
    destruct (rebalance_loop c1 s (S i) order) as [c2 outs]. cbn [snd] in *. rewrite elem_of_cons, IH. split.
    + intros [[= ->]|(j & r & mc' & Hj & H1 & H2)]; [exists 0%nat, (to, ds), (sc_others s i mc); by rewrite Nat.add_0_r|].
      exists (S j), r, mc'. by rewrite <- Nat.add_succ_comm.
    + intros ([|j] & r & mc' & Hj & H1 & H2); [injection Hj as <- <-; left; rewrite Nat.add_0_r in H2; by rewrite H2|].
      right. exists j, r, mc'. by rewrite Nat.add_succ_comm.
  - specialize (IH (set_coordinator c (sc_others s i mc)) c0 (S i) (sc_others s i mc) m eq_refl Hs Hcfg). rewrite IH. split.
    + intros (j & r & mc' & Hj & H1 & H2). exists (S j), r, mc'. by rewrite <- Nat.add_succ_comm.
    + intros ([|j] & r & mc' & Hj & H1 & H2); [injection Hj as <- <-; congruence|]. exists j, r, mc'. by rewrite Nat.add_succ_comm.
Qed.

(** When the others leave room, every round finds it: a migration that was submitted is not running yet. *)
Lemma found_room c s order : (∀ i mc, Migration.CanStartMore mc = true → Migration.CanStartMore (sc_others s i mc) = true) →
  ∀ i mc r mc', Migration.CanStartMore mc = true → (r, mc') ∈ found c s i mc order → Migration.CanStartMore mc' = true.
Proof.
  intros Ho. induction order as [|r0 order IH]; intros i mc r mc' Hm; [by intros ?%not_elem_of_nil|].
  cbn [found]. intros [[= -> ->]|Hin]%elem_of_cons; [by apply Ho|]. eapply IH; [|exact Hin]. unfold after_round. rewrite Ho by done.
  apply Submit_active; [done|by apply Ho].
Qed.


End Cluster.

(** ** A sample cluster *)

#[local] Existing Instance first_ring.

Definition node (id : string) : NodeInfo := mkNode id "h" 7000 8000 1883 8080 "".
Definition sample_cluster : Cluster :=
  mkCluster (node "n2") (Ring.Update (NewRing 0) [node "n2"; node "n3"])
    (rrun [RAdd "n3" "a" 1; RAdd "n4" "a" 0]) (Connections.crun [Connections.CAdd "d1" "n3"; Connections.CAdd "d2" "n4"])
    ∅ (Some (Migration.NewMigrationCoordinator 3)) true Migration.DefaultMigrationConfig 3.
(** Nothing else happens while the loop runs. *)
Definition quiet_schedule : schedule := mkSchedule (λ l, l) (λ _, 5) (λ _, 7) (λ _ mc, mc).
Definition sample_providers : providers := mkProv None (Some ["x"]) true.

Lemma node_leave_exact_witness :
  let '(c', outs) := handle_event sample_cluster sample_providers quiet_schedule [node "n2"] (mkEvent NodeLeave (node "n3")) in
  remote_qos (remoteSubs c') "n3" "a" = None ∧ PublishWill "d1" ∈ outs ∧ PublishWill "d2" ∉ outs.
Proof.
  pose proof (node_leave_exact sample_cluster sample_providers quiet_schedule [node "n2"] (node "n3")) as H.
  destruct (handle_event _ _ _ _ _) as [c' outs]. destruct H as (H1 & _ & H2 & _).
  - split; [apply rrun_refines|apply Connections.crun_agrees].
  - done.
  - apply (bool_decide_eq_true_1 _). vm_compute. reflexivity.
  - rewrite H1, !H2. split_and!; [done|vm_compute; reflexivity|]. vm_compute. congruence.
Defined.

Definition moving_cluster (n : Z) : Cluster :=
  mkCluster (node "n2") (Ring.Update (NewRing 0) [node "n1"; node "n2"]) NewRemoteSubIndex Connections.NewConnectionIndex ∅
    (Some (Migration.NewMigrationCoordinator n)) true Migration.DefaultMigrationConfig 3.


(** A migration that has begun to run before the loop comes to the next node takes up the limit: that node is
    skipped. *)
Lemma running_migration_skips :
  let c := moving_cluster 1 in
  let run_all mc := Migration.mkCoord (Migration.AdvancePhase 6 <$> Migration.migrations mc) (Migration.maxParallel mc) in
  let order := [("n1", ["x"]); ("n3", ["y"])] in
  length (rebalance_loop c quiet_schedule 0 order).2 = 2%nat ∧
  length (rebalance_loop c (mkSchedule (λ l, l) (λ _, 5) (λ _, 7) (λ _, run_all)) 0 order).2 = 1%nat.
Proof. split; vm_compute; reflexivity. Qed.

(** ** The membership ([membership.go]) *)

(** [json.Marshal] and [json.Unmarshal] on the description of a node. *)
Class NodeJSON := {
  Marshal : NodeInfo → list Z;
  UnmarshalNodeInfo : list Z → option NodeInfo;
  node_json_ok : NodeInfo → Prop;
  Unmarshal_Marshal n : node_json_ok n → UnmarshalNodeInfo (Marshal n) = Some n;
  Unmarshal_empty : UnmarshalNodeInfo [] = None
}.

Section Membership.
Context `{NodeJSON}.

(** A node as [memberlist] knows it: its name and its metadata. *)
Record mnode := mkMNode { mn_Name : string; mn_Meta : list Z }.

(** The metadata of a node that are over the limit are empty. *)
Definition NodeMeta (self : NodeInfo) (limit : Z) : list Z :=
  let data := Marshal self in if limit <? len data then [] else data.

Definition Members (l : list mnode) : list NodeInfo := omap (λ n, UnmarshalNodeInfo (mn_Meta n)) l.

(** The channel of the events: one that does not fit is dropped. *)
Definition event_queue : Z := 256.
Definition offer (events : list MemberEvent) (ev : MemberEvent) : list MemberEvent :=
  if len events <? event_queue then events ++ [ev] else events.

Definition NotifyJoin (events : list MemberEvent) (n : mnode) : list MemberEvent :=
  match UnmarshalNodeInfo (mn_Meta n) with None => events | Some info => offer events (mkEvent NodeJoin info) end.
Definition NotifyLeave (events : list MemberEvent) (n : mnode) : list MemberEvent :=
  offer events (mkEvent NodeLeave (default (mkNode (mn_Name n) "" 0 0 0 0 "") (UnmarshalNodeInfo (mn_Meta n)))).
Definition NotifyUpdate (events : list MemberEvent) (n : mnode) : list MemberEvent :=
  match UnmarshalNodeInfo (mn_Meta n) with None => events | Some info => offer events (mkEvent NodeUpdate info) end.

(** [NotifyMsg] and [GetBroadcasts] pass on what they get. *)
Definition NotifyMsg {M} (onMessage : list Z → option M) (data : list Z) : option M := if 0 <? len data then onMessage data else None.

(** Nodes whose description fits are seen as they are. *)
Lemma Members_exact (l : list NodeInfo) limit :
  Forall (λ n, node_json_ok n ∧ len (Marshal n) ≤ limit) l → Members ((λ n, mkMNode (ni_ID n) (NodeMeta n limit)) <$> l) = l.
Proof.
  induction 1 as [|n l [Hok Hlen] _ IH]; [done|]. unfold Members in *. cbn. unfold NodeMeta at 1.
  destruct (Z.ltb_spec limit (len (Marshal n))); [lia|]. rewrite Unmarshal_Marshal by done. by f_equal.
Qed.

(** A node whose description is over the limit is no member for the others, which neither hear of its
    coming. *)
Lemma oversized_node_invisible (n : NodeInfo) limit events : limit < len (Marshal n) →
  Members [mkMNode (ni_ID n) (NodeMeta n limit)] = [] ∧ NotifyJoin events (mkMNode (ni_ID n) (NodeMeta n limit)) = events.
Proof.
  intros Hl. unfold Members, NotifyJoin, NodeMeta. cbn. destruct (Z.ltb_spec limit (len (Marshal n))); [|lia].
  by rewrite Unmarshal_empty.
Qed.

(** The events are kept in order, and only a full channel drops one: also the leaving of a node, after
    which its peer, its filters and its devices stay. *)
Lemma offer_exact events ev : len events ≤ event_queue →
  len (offer events ev) ≤ event_queue ∧ (offer events ev = events ++ [ev] ∨ (offer events ev = events ∧ len events = event_queue)).
Proof. intros He. unfold offer. destruct (Z.ltb_spec (len events) event_queue); rewrite ?len_app, ?len_cons, ?len_nil; split; try lia; [by left|right; split; [done|lia]]. Qed.

Lemma full_channel_drops_leave events n : len events = event_queue → NotifyLeave events n = events.
Proof. intros He. unfold NotifyLeave, offer. destruct (Z.ltb_spec (len events) event_queue); [lia|done]. Qed.

End Membership.

End Cluster.
