(* ===== verification/RateLimit.v ===== *)
(** * Rate limiting

    Model of [internal/ratelimit]: the global, client and topic limiters, backpressure, the detector
    of malicious clients, the adaptive factor, and the limiter that chains them, with the clock as an
    argument. The token buckets of [golang.org/x/time/rate] are the class [RateLimiter]; the maps
    that the goroutines share are used one operation at a time. *)
From S2P Require Import Prelude Doubles.
Import Doubles.

Module RateLimit.

(** The events that a limiter allows, of a sequence of instants at which it is asked. *)
Fixpoint allowed {L} (allow : Z → L → bool * L) (l : L) (times : list Z) : Z :=
  match times with
  | [] => 0
  | t :: rest => let '(ok, l') := allow t l in (if ok then 1 else 0) + allowed allow l' rest
  end.

(** [rate.Limiter]: [NewLimiter r b] is a bucket of size [b], initially full and refilled at [r]
    tokens per second, as its documentation says: asked at instants between [t0] and [t1] it allows at
    most [b] events and those of the tokens of that time. *)
Class RateLimiter := {
  Limiter : Type;
  NewLimiter : number → Z → Limiter;
  Limiter_Allow : Z → Limiter → bool * Limiter;
  SetLimit : Z → Limiter → number → Limiter;
  Burst : Limiter → Z;
  Allow_rate : ∀ r b n t0 t1 times,
    0 ≤ b → 0 ≤ n → leb r (of_Z n) = true → Sorted Z.le times → Forall (λ t, t0 ≤ t ≤ t1) times → t0 ≤ t1 →
    allowed Limiter_Allow (NewLimiter r b) times ≤ b + (n * (t1 - t0)) `div` Second
}.

(** ** Configuration ([config.go]) *)

Record GlobalConfig := mkGlobal { IngressRate : number; IngressBurst : Z; ConnectRate : number; ConnectBurst : Z }.
Record ClientConfig := mkClientCfg { MsgRate : number; MsgBurst : Z; BlacklistTTL : Z; CleanupInterval : Z }.
Record TopicLimitEntry := mkEntry { MaxPublishRate : number; MaxBurst : Z }.
Record TopicConfig := mkTopicCfg {
  DefaultRate : number; DefaultBurst : Z; HotspotThreshold : number; HotspotWindow : Z;
  TopicConfigs : gmap string TopicLimitEntry
}.
Record BackpressureConfig := mkBPCfg {
  bp_Enabled : bool; QueueSizeMax : Z;
  CriticalThreshold : number; SevereThreshold : number; ModerateThreshold : number; bp_CheckInterval : Z
}.
Record AdaptiveConfig := mkACfg { ad_Enabled : bool; ad_CheckInterval : Z; HighLoad : number; MediumLoad : number; LowLoad : number }.
Record DetectorConfig := mkDCfg {
  de_Enabled : bool; HighRateThreshold : number; ScanThreshold : Z; ReconnectThreshold : Z; ScoreThreshold : number;
  DecayInterval : Z
}.
Record Config := mkConfig {
  Enabled : bool;
  Global : GlobalConfig;
  Client : ClientConfig;
  Topic : TopicConfig;
  Backpressure : BackpressureConfig;
  Adaptive : AdaptiveConfig;
  Detector : DetectorConfig;
  MaxMessageSize : Z
}.

Definition tenths (n : Z) : number := div (of_Z n) (of_Z 10).
Definition DefaultConfig : Config :=
  mkConfig false
    (mkGlobal (of_Z 10000000) 20000000 (of_Z 1000) 2000)
    (mkClientCfg (of_Z 100) 200 (60 * Second) (5 * 60 * Second))
    (mkTopicCfg (of_Z 0) 0 (of_Z 100000) (10 * Second) ∅)
    (mkBPCfg false 100000 (tenths 9) (tenths 7) (tenths 5) Second)
    (mkACfg false (5 * Second) (tenths 9) (tenths 7) (tenths 3))
    (mkDCfg false (of_Z 10000) 100 20 (of_Z 80) (5 * 60 * Second))
    (256 * 1024).

(** ** Errors and levels ([limiter.go]) *)

Definition BPLevelNone : Z := 0.
Definition BPLevelMild : Z := 1.
Definition BPLevelModerate : Z := 2.
Definition BPLevelSevere : Z := 3.
Definition BPLevelCritical : Z := 4.

Inductive limit_error :=
  | ErrGlobalIngressLimit | ErrGlobalConnectLimit | ErrClientRateLimit | ErrClientBlacklisted | ErrTopicRateLimit
  | ErrTopicHotspot | ErrMessageTooLarge | ErrBackpressure | ErrTenantRateLimit.

Section Limiters.
Context `{RateLimiter}.

(** ** The layers *)

Record GlobalLimiter := mkGL { ingress : Limiter; connect : Limiter }.
Definition NewGlobalLimiter (cfg : GlobalConfig) : GlobalLimiter :=
  mkGL (NewLimiter (IngressRate cfg) (IngressBurst cfg)) (NewLimiter (ConnectRate cfg) (ConnectBurst cfg)).
Definition AllowIngress (now : Z) (gl : GlobalLimiter) : option limit_error * GlobalLimiter :=
  let '(ok, l) := Limiter_Allow now (ingress gl) in
  (if ok then None else Some ErrGlobalIngressLimit, mkGL l (connect gl)).
Definition global_AllowConnect (now : Z) (gl : GlobalLimiter) : option limit_error * GlobalLimiter :=
  let '(ok, l) := Limiter_Allow now (connect gl) in
  (if ok then None else Some ErrGlobalConnectLimit, mkGL (ingress gl) l).
Definition SetScaleFactor (now : Z) (gl : GlobalLimiter) (factor : number) : GlobalLimiter :=
  let baseIngress := div (of_Z (Burst (ingress gl))) (of_Z 2) in
  mkGL (SetLimit now (ingress gl) (mul baseIngress factor)) (connect gl).

Record ClientLimiter := mkCL { cl_limiters : gmap string Limiter; blacklist : gmap string Z; cl_config : ClientConfig }.
Definition NewClientLimiter (cfg : ClientConfig) : ClientLimiter := mkCL ∅ ∅ cfg.
Definition Blacklist (now : Z) (cl : ClientLimiter) (clientID : string) : ClientLimiter :=
  mkCL (cl_limiters cl) (<[clientID := now + BlacklistTTL (cl_config cl)]> (blacklist cl)) (cl_config cl).
Definition IsBlacklisted (now : Z) (cl : ClientLimiter) (clientID : string) : bool * ClientLimiter :=
  match blacklist cl !! clientID with
  | None => (false, cl)
  | Some expiry =>
      if expiry <? now then (false, mkCL (cl_limiters cl) (delete clientID (blacklist cl)) (cl_config cl))
      else (true, cl)
  end.
Definition RemoveClient (cl : ClientLimiter) (clientID : string) : ClientLimiter :=
  mkCL (delete clientID (cl_limiters cl)) (delete clientID (blacklist cl)) (cl_config cl).
Definition getOrCreateLimiter (cl : ClientLimiter) (clientID : string) : Limiter :=
  default (NewLimiter (MsgRate (cl_config cl)) (MsgBurst (cl_config cl))) (cl_limiters cl !! clientID).
Definition AllowMessage (now : Z) (cl : ClientLimiter) (clientID : string) : option limit_error * ClientLimiter :=
  let '(listed, cl) := IsBlacklisted now cl clientID in
  if listed then (Some ErrClientBlacklisted, cl)
  else
    let '(ok, l) := Limiter_Allow now (getOrCreateLimiter cl clientID) in
    (if ok then None else Some ErrClientRateLimit,
     mkCL (<[clientID := l]> (cl_limiters cl)) (blacklist cl) (cl_config cl)).

Record topicCounter := mkCounter { count : Z; windowEnd : Z }.
Record TopicLimiter := mkTL { tl_limiters : gmap string Limiter; counters : gmap string topicCounter; tl_config : TopicConfig }.
Definition NewTopicLimiter (cfg : TopicConfig) : TopicLimiter := mkTL ∅ ∅ cfg.

(** The rate and burst that apply to a topic: its own entry, or the defaults when they set a limit. *)
Definition topic_limit (cfg : TopicConfig) (topic : string) : option (number * Z) :=
  match TopicConfigs cfg !! topic with
  | Some e => Some (MaxPublishRate e, MaxBurst e)
  | None => if ltb (of_Z 0) (DefaultRate cfg) then Some (DefaultRate cfg, DefaultBurst cfg) else None
  end.
Definition topic_getOrCreateLimiter (tl : TopicLimiter) (topic : string) (r : number) (burst : Z) : Limiter :=
  default (NewLimiter r burst) (tl_limiters tl !! topic).
Definition topic_AllowPublish (now : Z) (tl : TopicLimiter) (topic : string) : option limit_error * TopicLimiter :=
  match topic_limit (tl_config tl) topic with
  | None => (None, tl)
  | Some (r, burst) =>
      let '(ok, l) := Limiter_Allow now (topic_getOrCreateLimiter tl topic r burst) in
      (if ok then None else Some ErrTopicRateLimit,
       mkTL (<[topic := l]> (tl_limiters tl)) (counters tl) (tl_config tl))
  end.
Definition RecordPublish (now : Z) (tl : TopicLimiter) (topic : string) : TopicLimiter :=
  let windowEnd_ := now + HotspotWindow (tl_config tl) in
  let counter := default (mkCounter 0 windowEnd_) (counters tl !! topic) in
  let counter := if windowEnd counter <? now then mkCounter 0 windowEnd_ else counter in
  mkTL (tl_limiters tl) (<[topic := mkCounter (count counter + 1) (windowEnd counter)]> (counters tl)) (tl_config tl).
Definition IsHotspot (tl : TopicLimiter) (topic : string) : bool :=
  match counters tl !! topic with
  | None => false
  | Some c => ltb (HotspotThreshold (tl_config tl)) (of_Z (count c))
  end.

(** *** Backpressure and the adaptive factor *)

Record BackpressureController := mkBP { level : Z; bp_config : BackpressureConfig }.
Definition NewBackpressureController (cfg : BackpressureConfig) : BackpressureController := mkBP BPLevelNone cfg.
Definition bp_Update (bp : BackpressureController) (currentQueueSize : Z) : BackpressureController :=
  if bp_Enabled (bp_config bp) then
    let ratio := div (of_Z currentQueueSize) (of_Z (QueueSizeMax (bp_config bp))) in
    mkBP (if leb (CriticalThreshold (bp_config bp)) ratio then BPLevelCritical
          else if leb (SevereThreshold (bp_config bp)) ratio then BPLevelSevere
          else if leb (ModerateThreshold (bp_config bp)) ratio then BPLevelModerate
          else BPLevelNone) (bp_config bp)
  else mkBP BPLevelNone (bp_config bp).

Record AdaptiveController := mkAC { scaleFactor : number; ac_config : AdaptiveConfig }.
Definition NewAdaptiveController (cfg : AdaptiveConfig) : AdaptiveController := mkAC (of_Z 1) cfg.
Definition UpdateLoad (ac : AdaptiveController) (load : number) : AdaptiveController :=
  let cfg := ac_config ac in
  mkAC (if ad_Enabled cfg then
          if ltb (HighLoad cfg) load then tenths 5
          else if ltb (MediumLoad cfg) load then tenths 8
          else if ltb load (LowLoad cfg) then tenths 12
          else of_Z 1
        else of_Z 1) cfg.

(** [math.Min] *)
Definition is_neg_inf (x : number) : bool := match x with SpecFloat.S754_infinity true => true | _ => false end.
Definition is_nan (x : number) : bool := match x with SpecFloat.S754_nan => true | _ => false end.
Definition math_Min (x y : number) : number :=
  if is_neg_inf x || is_neg_inf y then SpecFloat.S754_infinity true
  else if is_nan x || is_nan y then SpecFloat.S754_nan
  else match x, y with
       | SpecFloat.S754_zero true, SpecFloat.S754_zero _ => x
       | SpecFloat.S754_zero false, SpecFloat.S754_zero _ => y
       | _, _ => if ltb x y then x else y
       end.

(** The load of the system as one number; products and sums are rounded one by one. *)
Definition CalcSystemLoad (cpuUsage memUsage : number) (goroutineCount gcPauseNs : Z) : number :=
  let goroutineLoad := math_Min (div (of_Z goroutineCount) (of_Z 100000)) (of_Z 1) in
  let gcLoad := math_Min (mul (div (of_Z gcPauseNs) (of_Z 1000000000)) (of_Z 10)) (of_Z 1) in
  let load := add (add (add (mul cpuUsage (tenths 4)) (mul memUsage (tenths 3))) (mul goroutineLoad (tenths 2))) (mul gcLoad (tenths 1)) in
  math_Min load (of_Z 1).

(** The load is at most 1, whatever is measured, unless it is not a number. *)
Lemma load_at_most_one cpu mem goroutines pause : let load := CalcSystemLoad cpu mem goroutines pause in
  is_nan load = true ∨ leb load (of_Z 1) = true.
Proof.
  cbn zeta. unfold CalcSystemLoad. cbv zeta. generalize (add (add (add (mul cpu (tenths 4)) (mul mem (tenths 3)))
    (mul (math_Min (div (of_Z goroutines) (of_Z 100000)) (of_Z 1)) (tenths 2)))
    (mul (math_Min (mul (div (of_Z pause) (of_Z 1000000000)) (of_Z 10)) (of_Z 1)) (tenths 1))).
  intros x. unfold math_Min. assert (Hl : ∀ y, ltb x y = true → leb x y = true).
  { intros y. unfold ltb, leb, SpecFloat.SFltb, SpecFloat.SFleb. by destruct (SpecFloat.SFcompare x y) as [[]|]. }
  destruct (is_neg_inf x || is_neg_inf (of_Z 1)); [right; vm_compute; reflexivity|].
  destruct (is_nan x || is_nan (of_Z 1)); [by left|]. right.
  assert (Hz : leb (if ltb x (of_Z 1) then x else of_Z 1) (of_Z 1) = true).
  { destruct (ltb x (of_Z 1)) eqn:E; [by apply Hl|vm_compute; reflexivity]. }
  destruct x as [[]| | |]; exact Hz.
Qed.

(** *** The detector *)

Record clientStats := mkStats {
  messageCount : Z; topicSet : gset string; reconnects : Z; score : number; lastEvaluated : Z; windowStart : Z }.
Record MaliciousDetector := mkDet { stats : gmap string clientStats; de_config : DetectorConfig }.
Definition NewMaliciousDetector (cfg : DetectorConfig) : MaliciousDetector := mkDet ∅ cfg.

Definition get_stats (now : Z) (d : MaliciousDetector) (clientID : string) : clientStats :=
  default (mkStats 0 ∅ 0 (of_Z 0) zeroTime now) (stats d !! clientID).
Definition set_stats (d : MaliciousDetector) (clientID : string) (s : clientStats) : MaliciousDetector :=
  mkDet (<[clientID := s]> (stats d)) (de_config d).
Definition RecordMessage (now : Z) (d : MaliciousDetector) (clientID : string) : MaliciousDetector :=
  let s := get_stats now d clientID in
  set_stats d clientID (mkStats (messageCount s + 1) (topicSet s) (reconnects s) (score s) (lastEvaluated s) (windowStart s)).
Definition RecordSubscribe (now : Z) (d : MaliciousDetector) (clientID topic : string) : MaliciousDetector :=
  let s := get_stats now d clientID in
  set_stats d clientID (mkStats (messageCount s) ({[topic]} ∪ topicSet s) (reconnects s) (score s) (lastEvaluated s) (windowStart s)).
Definition RecordReconnect (now : Z) (d : MaliciousDetector) (clientID : string) : MaliciousDetector :=
  let s := get_stats now d clientID in
  set_stats d clientID (mkStats (messageCount s) (topicSet s) (reconnects s + 1) (score s) (lastEvaluated s) (windowStart s)).

Definition score_of (cfg : DetectorConfig) (s : clientStats) : number :=
  let x := of_Z 0 in
  let x := if ltb (HighRateThreshold cfg) (of_Z (messageCount s)) then add x (of_Z 50) else x in
  let x := if ScanThreshold cfg <? Z.of_nat (size (topicSet s)) then add x (of_Z 30) else x in
  if ReconnectThreshold cfg <? reconnects s then add x (of_Z 20) else x.
Definition Evaluate (now : Z) (d : MaliciousDetector) (clientID : string) : MaliciousDetector :=
  if de_Enabled (de_config d) then
    match stats d !! clientID with
    | None => d
    | Some s => set_stats d clientID (mkStats 0 ∅ 0 (score_of (de_config d) s) now (windowStart s))
    end
  else d.
Definition Score (d : MaliciousDetector) (clientID : string) : number :=
  match stats d !! clientID with None => of_Z 0 | Some s => score s end.
Definition IsMalicious (d : MaliciousDetector) (clientID : string) : bool :=
  if de_Enabled (de_config d) then leb (ScoreThreshold (de_config d)) (Score d clientID) else false.
Definition Decay (d : MaliciousDetector) : MaliciousDetector :=
  mkDet ((λ s, let x := div (score s) (of_Z 2) in
               mkStats (messageCount s) (topicSet s) (reconnects s) (if ltb x (of_Z 1) then of_Z 0 else x)
                 (lastEvaluated s) (windowStart s)) <$> stats d) (de_config d).

(** ** The chain of the layers *)

(** The tenant limiter is the one that allows everything. *)
Record AggregateRateLimiter := mkAgg {
  global : GlobalLimiter;
  client : ClientLimiter;
  topic_ : TopicLimiter;
  bp : BackpressureController;
  adaptive : AdaptiveController;
  detector : MaliciousDetector;
  config : Config
}.

Definition NewAggregateRateLimiter (cfg : Config) : AggregateRateLimiter :=
  mkAgg (NewGlobalLimiter (Global cfg)) (NewClientLimiter (Client cfg)) (NewTopicLimiter (Topic cfg))
    (NewBackpressureController (Backpressure cfg)) (NewAdaptiveController (Adaptive cfg))
    (NewMaliciousDetector (Detector cfg)) cfg.

Definition with_global (a : AggregateRateLimiter) (g : GlobalLimiter) : AggregateRateLimiter :=
  mkAgg g (client a) (topic_ a) (bp a) (adaptive a) (detector a) (config a).
Definition with_client (a : AggregateRateLimiter) (c : ClientLimiter) : AggregateRateLimiter :=
  mkAgg (global a) c (topic_ a) (bp a) (adaptive a) (detector a) (config a).
Definition with_topic (a : AggregateRateLimiter) (t : TopicLimiter) : AggregateRateLimiter :=
  mkAgg (global a) (client a) t (bp a) (adaptive a) (detector a) (config a).
Definition with_detector (a : AggregateRateLimiter) (d : MaliciousDetector) : AggregateRateLimiter :=
  mkAgg (global a) (client a) (topic_ a) (bp a) (adaptive a) d (config a).

Definition AllowPublish (now : Z) (a : AggregateRateLimiter) (clientID topic : string) (payloadSize : Z)
    : option limit_error * AggregateRateLimiter :=
  if negb (Enabled (config a)) then (None, a)
  else if BPLevelSevere <=? level (bp a) then (Some ErrBackpressure, a)
  else if IsMalicious (detector a) clientID then (Some ErrClientBlacklisted, a)
  else if MaxMessageSize (config a) <? payloadSize then (Some ErrMessageTooLarge, a)
  else
    let '(err, g) := AllowIngress now (global a) in
    let a := with_global a g in
    match err with
    | Some e => (Some e, a)
    | None =>
        let '(err, c) := AllowMessage now (client a) clientID in
        let a := with_client a c in
        match err with
        | Some e => (Some e, a)
        | None =>
            let '(err, t) := topic_AllowPublish now (topic_ a) topic in
            let a := with_topic a t in
            match err with
            | Some e => (Some e, a)
            | None =>
                let a := with_topic a (RecordPublish now (topic_ a) topic) in
                (None, with_detector a (RecordMessage now (detector a) clientID))
            end
        end
    end.

Definition AllowConnect (now : Z) (a : AggregateRateLimiter) (clientID : string) : option limit_error * AggregateRateLimiter :=
  if negb (Enabled (config a)) then (None, a)
  else if BPLevelMild <=? level (bp a) then (Some ErrBackpressure, a)
  else let '(err, g) := global_AllowConnect now (global a) in (err, with_global a g).

Definition AllowSubscribe (now : Z) (a : AggregateRateLimiter) (clientID topic : string) : option limit_error * AggregateRateLimiter :=
  if negb (Enabled (config a)) then (None, a)
  else if BPLevelModerate <=? level (bp a) then (Some ErrBackpressure, a)
  else (None, with_detector a (RecordSubscribe now (detector a) clientID topic)).

Definition GetBackpressureLevel (a : AggregateRateLimiter) : Z := level (bp a).
Definition UpdateBackpressure (a : AggregateRateLimiter) (queueSize : Z) : AggregateRateLimiter :=
  mkAgg (global a) (client a) (topic_ a) (bp_Update (bp a) queueSize) (adaptive a) (detector a) (config a).
Definition agg_RecordReconnect (now : Z) (a : AggregateRateLimiter) (clientID : string) : AggregateRateLimiter :=
  if Enabled (config a) then with_detector a (RecordReconnect now (detector a) clientID) else a.
Definition EvaluateClient (now : Z) (a : AggregateRateLimiter) (clientID : string) : AggregateRateLimiter :=
  if Enabled (config a) then with_detector a (Evaluate now (detector a) clientID) else a.
Definition BlacklistClient (now : Z) (a : AggregateRateLimiter) (clientID : string) : AggregateRateLimiter :=
  if Enabled (config a) then with_client a (Blacklist now (client a) clientID) else a.

(** ** Runs of the limiter *)

(** The methods the broker can call, each at an instant; [accepts] tells whether a publish went through. *)
Inductive op :=
  | Publish (clientID topic : string) (payloadSize : Z)
  | Connect (clientID : string)
  | Subscribe (clientID topic : string)
  | Update (queueSize : Z)
  | Reconnect (clientID : string)
  | EvaluateOp (clientID : string)
  | BlacklistOp (clientID : string).

Definition step (now : Z) (a : AggregateRateLimiter) (o : op) : bool * AggregateRateLimiter :=
  match o with
  | Publish c t n => let '(err, a') := AllowPublish now a c t n in (bool_decide (err = None), a')
  | Connect c => (false, (AllowConnect now a c).2)
  | Subscribe c t => (false, (AllowSubscribe now a c t).2)
  | Update n => (false, UpdateBackpressure a n)
  | Reconnect c => (false, agg_RecordReconnect now a c)
  | EvaluateOp c => (false, EvaluateClient now a c)
  | BlacklistOp c => (false, BlacklistClient now a c)
  end.

(** Whether the operation is a publish that [sel] selects by client and topic. *)
Definition selects (sel : string → string → bool) (o : op) : bool :=
  match o with Publish c t _ => sel c t | _ => false end.

(** The publishes accepted in a run that [sel] selects. *)
Fixpoint accepted (sel : string → string → bool) (a : AggregateRateLimiter) (ops : list (Z * op)) : Z :=
  match ops with
  | [] => 0
  | (now, o) :: rest =>
      let '(ok, a') := step now a o in
      (if ok && selects sel o then 1 else 0) + accepted sel a' rest
  end.

(** ** The bounds *)

(** A layer's bucket over one step: not asked, and no selected publish went through, or asked once, and
    a selected publish went through only if the bucket allowed it. *)
Definition asked (proj : AggregateRateLimiter → Limiter) (sel : string → string → bool) (now : Z)
    (a : AggregateRateLimiter) (o : op) : Prop :=
  let '(ok, a') := step now a o in
  (proj a' = proj a ∧ ok && selects sel o = false) ∨
  (proj a' = (Limiter_Allow now (proj a)).2 ∧ (ok && selects sel o = true → (Limiter_Allow now (proj a)).1 = true)).

(** The publishes a layer selects are at most the events its bucket allows at some of the instants. *)
Lemma accepted_allowed proj sel (I : AggregateRateLimiter → Prop) :
  (∀ now a o, I a → asked proj sel now a o ∧ I (step now a o).2) →
  ∀ ops a, I a → ∃ times, sublist times (map fst ops) ∧ accepted sel a ops ≤ allowed Limiter_Allow (proj a) times.
Proof.
  intros Hstep. induction ops as [|[now o] ops IH]; intros a Ha; [by exists []|].
  pose proof (Hstep now a o Ha) as [Hask HI]. unfold asked in Hask. cbn [accepted map fst].
  destruct (step now a o) as [ok a']. destruct (IH a' HI) as (times & Hsub & Hle).
  destruct Hask as [[Hp Hn]|[Hp Hn]]; rewrite Hp in Hle.
  - exists times. split; [by constructor|]. rewrite Hn. lia.
  - exists (now :: times). split; [by constructor|]. cbn [allowed].
    destruct (Limiter_Allow now (proj a)) as [g l]; cbn [fst snd] in *.
    destruct (ok && selects sel o); [rewrite Hn by done|destruct g]; lia.
Qed.

(** *** The steps of the three layers *)

Definition ingress_bucket (a : AggregateRateLimiter) : Limiter := ingress (global a).
Definition client_bucket (c : string) (a : AggregateRateLimiter) : Limiter := getOrCreateLimiter (client a) c.
Definition topic_bucket (t : string) (r : number) (b : Z) (a : AggregateRateLimiter) : Limiter :=
  topic_getOrCreateLimiter (topic_ a) t r b.

(** The limiter is switched on, and its client and topic settings are those of [cfg]. *)
Definition configured (cfg : Config) (a : AggregateRateLimiter) : Prop :=
  config a = cfg ∧ cl_config (client a) = Client cfg ∧ tl_config (topic_ a) = Topic cfg.

#[local] Arguments topic_limit : simpl never.
#[local] Hint Unfold AllowPublish AllowConnect AllowSubscribe AllowIngress global_AllowConnect AllowMessage IsBlacklisted
  topic_AllowPublish agg_RecordReconnect EvaluateClient BlacklistClient UpdateBackpressure Blacklist RecordPublish : limits.

(** Every branch of an operation of the limiter. *)
Ltac branches :=
  autounfold with limits; repeat (case_match; simplify_eq/=).

(** A step that did not ask the bucket, or whose answer is known. *)
Ltac answered :=
  try match goal with E : Limiter_Allow ?now ?l = _ |- context [Limiter_Allow ?now ?l] => rewrite E end; eauto.

Lemma step_configured cfg now a o : configured cfg a → configured cfg (step now a o).2.
Proof. unfold configured. intros (Hc & Hcl & Ht). destruct o; cbn; branches; done. Qed.

Lemma ingress_asked cfg now a o :
  Enabled cfg = true → configured cfg a → asked ingress_bucket (λ _ _, true) now a o.
Proof.
  intros Hen (Hc & _). unfold asked, ingress_bucket.
  destruct o; cbn; autounfold with limits; rewrite ?Hc, ?Hen; cbn; branches; eauto.
Qed.

Lemma client_asked cfg c now a o :
  Enabled cfg = true → configured cfg a → asked (client_bucket c) (λ c' _, bool_decide (c' = c)) now a o.
Proof.
  intros Hen (Hc & Hcl & _). unfold asked, client_bucket, getOrCreateLimiter.
  destruct o as [c' t n| | | | | |]; cbn; autounfold with limits; rewrite ?Hc, ?Hen; cbn;
    [destruct (decide (c' = c)) as [->|Hne]; [rewrite bool_decide_true by done|rewrite bool_decide_false by done]|..];
    branches; unfold getOrCreateLimiter in *; simplify_map_eq; answered.
Qed.

Lemma topic_asked cfg t r b now a o :
  Enabled cfg = true → topic_limit (Topic cfg) t = Some (r, b) → configured cfg a →
  asked (topic_bucket t r b) (λ _ t', bool_decide (t' = t)) now a o.
Proof.
  intros Hen Hlim (Hc & _ & Ht). rewrite <- Ht in Hlim. unfold asked, topic_bucket, topic_getOrCreateLimiter.
  destruct o as [c t' n| | | | | |]; cbn; autounfold with limits; rewrite ?Hc, ?Hen; cbn;
    [destruct (decide (t' = t)) as [->|Hne];
      [rewrite bool_decide_true, Hlim by done|rewrite bool_decide_false by done]|..];
    branches; unfold topic_getOrCreateLimiter in *; simplify_map_eq; answered.
Qed.

Lemma sublist_StronglySorted (l1 l2 : list Z) : sublist l1 l2 → StronglySorted Z.le l2 → StronglySorted Z.le l1.
Proof.
  induction 1 as [|x l1 l2 Hs IH|x l1 l2 Hs IH]; inversion 1 as [|?? Hss Hall]; subst; auto.
  constructor; [auto|]. rewrite Forall_forall in Hall |- *. eauto using elem_of_sublist.
Qed.

(** The bounds of one layer. *)
Lemma layer_bound cfg proj sel r b n t0 t1 ops :
  (∀ now a o, configured cfg a → asked proj sel now a o) →
  proj (NewAggregateRateLimiter cfg) = NewLimiter r b →
  0 ≤ b → 0 ≤ n → leb r (of_Z n) = true → Sorted Z.le (map fst ops) → Forall (λ t, t0 ≤ t ≤ t1) (map fst ops) → t0 ≤ t1 →
  accepted sel (NewAggregateRateLimiter cfg) ops ≤ b + (n * (t1 - t0)) `div` Second.
Proof.
  intros Hask Hnew Hb Hn Hr Hsort Hin Ht.
  destruct (accepted_allowed proj sel (configured cfg)
    (λ now a o Ha, conj (Hask now a o Ha) (step_configured cfg now a o Ha)) ops (NewAggregateRateLimiter cfg))
    as (times & Hsub & Hle); [done|].
  rewrite Hnew in Hle. etrans; [exact Hle|]. apply Allow_rate; try done.
  - apply StronglySorted_Sorted. eapply sublist_StronglySorted; [exact Hsub|].
    by apply Sorted_StronglySorted; [intros ??? ; lia|].
  - rewrite Forall_forall in Hin |- *. intros t Hel. apply Hin. eauto using elem_of_sublist.
Qed.

(** C18: When rate limiting is on, then whatever the broker calls on the limiter between two instants, in
    any order and with backpressure, detection and blacklisting at any point, the publishes that go
    through are at most the global burst and the tokens the global rate gives in that time; those of
    one client are at most the client burst and rate; and those on one topic are at most the burst and
    rate that apply to the topic. *)
Theorem publish_rates_bounded cfg ops t0 t1 :
  Enabled cfg = true → Sorted Z.le (map fst ops) → Forall (λ t, t0 ≤ t ≤ t1) (map fst ops) → t0 ≤ t1 →
  let a := NewAggregateRateLimiter cfg in
  (∀ n, 0 ≤ IngressBurst (Global cfg) → 0 ≤ n → leb (IngressRate (Global cfg)) (of_Z n) = true →
     accepted (λ _ _, true) a ops ≤ IngressBurst (Global cfg) + (n * (t1 - t0)) `div` Second) ∧
  (∀ c n, 0 ≤ MsgBurst (Client cfg) → 0 ≤ n → leb (MsgRate (Client cfg)) (of_Z n) = true →
     accepted (λ c' _, bool_decide (c' = c)) a ops ≤ MsgBurst (Client cfg) + (n * (t1 - t0)) `div` Second) ∧
  (∀ t r b n, topic_limit (Topic cfg) t = Some (r, b) → 0 ≤ b → 0 ≤ n → leb r (of_Z n) = true →
     accepted (λ _ t', bool_decide (t' = t)) a ops ≤ b + (n * (t1 - t0)) `div` Second).
Proof.
  intros Hen Hsort Hin Ht a. split_and!.
  - intros n Hb Hn Hr. apply (layer_bound cfg ingress_bucket _ (IngressRate (Global cfg))); try done.
    intros. by apply (ingress_asked cfg).
  - intros c n Hb Hn Hr. apply (layer_bound cfg (client_bucket c) _ (MsgRate (Client cfg))); try done.
    intros. by apply (client_asked cfg).
  - intros t r b n Hl Hb Hn Hr. apply (layer_bound cfg (topic_bucket t r b) _ r); try done.
    intros. by apply (topic_asked cfg).
Qed.

(** A publish that the client's layer refuses has already taken a token of the global bucket. *)
Lemma refused_takes_global now a c t n :
  Enabled (config a) = true → level (bp a) < BPLevelSevere → IsMalicious (detector a) c = false → n ≤ MaxMessageSize (config a) →
  (Limiter_Allow now (ingress (global a))).1 = true →
  (AllowMessage now (client a) c).1 ≠ None →
  (AllowPublish now a c t n).1 = (AllowMessage now (client a) c).1 ∧
  ingress (global (AllowPublish now a c t n).2) = (Limiter_Allow now (ingress (global a))).2.
Proof.
  intros Hen Hlev Hm Hn Hg Hc. unfold AllowPublish, AllowIngress. rewrite Hen, Hm. cbn.
  rewrite (proj2 (Z.leb_gt _ _)) by done. rewrite (proj2 (Z.ltb_ge _ _)) by done.
  destruct (Limiter_Allow now (ingress (global a))) as [ok l]. cbn in *. subst ok.
  destruct (AllowMessage now (client a) c) as [[e|] cl]; done.
Qed.

(** The level named mild, from which connections are refused, is never set: connections are refused
    exactly when subscriptions are. *)
Lemma no_mild_level b q : level (bp_Update b q) ≠ BPLevelMild.
Proof. unfold bp_Update. repeat case_match; done. Qed.

Lemma connect_refused_with_subscribe now a q c c' t :
  let a' := UpdateBackpressure a q in
  (AllowSubscribe now a' c' t).1 = Some ErrBackpressure → (AllowConnect now a' c).1 = Some ErrBackpressure.
Proof.
  cbn. unfold AllowSubscribe, AllowConnect. intros Hs. repeat case_match; simplify_eq/=; try done.
  all: unfold BPLevelMild, BPLevelModerate in *; lia.
Qed.

(** The broker calls the three methods of the limiter's interface only. *)
Definition broker_op (o : op) : bool :=
  match o with Publish _ _ _ | Connect _ | Subscribe _ _ => true | _ => false end.

Definition quiet (a : AggregateRateLimiter) : Prop :=
  level (bp a) = BPLevelNone ∧ blacklist (client a) = ∅ ∧
  map_Forall (λ _ s, score s = of_Z 0) (stats (detector a)).

Lemma set_stats_quiet now d c s :
  map_Forall (λ _ s, score s = of_Z 0) (stats d) → score s = score (get_stats now d c) →
  map_Forall (λ _ s, score s = of_Z 0) (stats (set_stats d c s)).
Proof.
  intros Hd Hs. apply map_Forall_insert_2; [|done]. rewrite Hs. unfold get_stats.
  destruct (stats d !! c) eqn:E; cbn; [|done]. exact (Hd c _ E).
Qed.

(** Whatever the settings of backpressure and detection, the calls of the broker never raise the level,
    never blacklist a client and never give one a score: these layers refuse nothing. *)
Lemma broker_quiet now a o : broker_op o = true → quiet a → quiet (step now a o).2.
Proof.
  unfold quiet. intros Ho (Hl & Hb & Hs).
  destruct o; cbn in *; try done; autounfold with limits; cbn; rewrite ?Hb, ?lookup_empty;
    repeat (case_match; simplify_eq/=); split_and!; try done; by apply (set_stats_quiet now).
Qed.

Lemma New_quiet cfg : quiet (NewAggregateRateLimiter cfg).
Proof. done. Qed.

End Limiters.

(** A bucket that is never refilled, for concrete runs. *)
#[local] Instance plain_bucket : RateLimiter.
Proof.
  refine {| Limiter := Z; NewLimiter := λ _ b, b; Limiter_Allow := λ _ l, (0 <? l, if 0 <? l then l - 1 else l);
            SetLimit := λ _ l _, l; Burst := λ l, l |}.
  intros r b n t0 t1 times Hb Hn _ _ _ Ht.
  assert (Hd : 0 ≤ (n * (t1 - t0)) `div` Second) by (apply Z.div_pos; [nia|done]).
  enough (allowed (λ (_ : Z) l, (0 <? l, if 0 <? l then l - 1 else l)) b times ≤ b) by lia.
  clear Hd Hn Ht. revert b Hb. induction times as [|t times IH]; intros b Hb; [done|]. cbn.
  destruct (Z.ltb_spec 0 b); [specialize (IH (b - 1)); lia|specialize (IH b); lia].
Defined.

Definition sample_config : Config :=
  mkConfig true (Global DefaultConfig) (mkClientCfg (of_Z 5) 2 (60 * Second) (300 * Second))
    (mkTopicCfg (of_Z 0) 0 (of_Z 100) (10 * Second) {["hot" := mkEntry (of_Z 1) 1]})
    (Backpressure DefaultConfig) (Adaptive DefaultConfig) (Detector DefaultConfig) 100.
Definition sample_ops : list (Z * op) :=
  [(1, Publish "a" "hot" 10); (1, Publish "a" "hot" 10); (2, Publish "a" "cold" 10); (2, Publish "b" "cold" 10);
   (3, Publish "b" "cold" 200); (3, BlacklistOp "b"); (4, Publish "b" "cold" 10); (5, Publish "c" "cold" 10)].

Lemma publish_rates_bounded_witness :
  accepted (λ _ _, true) (NewAggregateRateLimiter sample_config) sample_ops = 3 ∧
  accepted (λ _ _, true) (NewAggregateRateLimiter sample_config) sample_ops ≤ 20000000 + (10000000 * (5 - 1)) `div` Second ∧
  accepted (λ c' _, bool_decide (c' = "a")) (NewAggregateRateLimiter sample_config) sample_ops ≤ 2 + (5 * (5 - 1)) `div` Second ∧
  accepted (λ _ t', bool_decide (t' = "hot")) (NewAggregateRateLimiter sample_config) sample_ops ≤ 1 + (1 * (5 - 1)) `div` Second.
Proof.
  split; [vm_compute; reflexivity|].
  destruct (publish_rates_bounded sample_config sample_ops 1 5) as (Hg & Hc & Ht).
  - reflexivity.
  - cbn. repeat first [apply Sorted_cons|apply Sorted_nil|apply HdRel_cons|apply HdRel_nil]; lia.
  - cbn. repeat first [apply Forall_cons; split|apply Forall_nil]; lia.
  - lia.
  - split_and!.
    + apply Hg; [vm_compute; discriminate|lia|vm_compute; reflexivity].
    + apply Hc; [vm_compute; discriminate|lia|vm_compute; reflexivity].
    + apply (Ht "hot" (of_Z 1) 1 1); [vm_compute; reflexivity|lia|lia|vm_compute; reflexivity].
Defined.

End RateLimit.
