(* ===== verification/Peers.v ===== *)
(** * The transport between the nodes

    Model of [internal/cluster/peer_transport.go] and of [Cluster.Forward]: frames on a stream, the
    table of the peers with their connections and breakers, the handling of a frame, the calls that
    wait for an acknowledgement, and the removal of those that nobody waits for any more. The nodes
    with the streams between them are a system of steps. A [peerConn] and a channel are entries of a
    heap, since the goroutines that hold them share them with the tables.

    [encoding/json] on the messages is the class [WireJSON]; the QUIC library is the streams: what is
    written on one end is read at the other end in order, until the connection is lost. *)
From S2P Require Import Prelude Frame Storage Delivery Offline Sessions Retain Wills Broker Migration Doubles Breaker.
Import Frame.

Module Peers.

(** ** Frames *)

Definition maxFrame : Z := 10 * 1024 * 1024.

Definition writeFrame (data : list Z) : list Z := PutUint32 (u32 (len data)) ++ data.

Definition readFrame (r : reader) : res (list Z * reader) :=
  '(header, r) ← ReadFull r 4;
  length ← Uint32 header;
  if maxFrame <? length then Err (ErrText ("frame too large: " +:+ pretty length +:+ " bytes"))
  else ReadFull r length.

(** ** Messages *)

Definition MsgForward : string := "forward".
Definition MsgForwardAck : string := "forward_ack".
Definition MsgMigrateData : string := "migrate_data".
Definition MsgMigrateAck : string := "migrate_ack".

Record ForwardMessage := mkForward {
  fm_ID : Z; fm_Topic : string; fm_Payload : list Z; fm_QoS : Z; fm_Retain : bool; fm_Forwarded : bool }.
Record MigrateAckMessage := mkMigrateAck { ma_DeviceID : string; ma_Success : bool }.

(** A message with its type. Those that the transport only passes on are their type and their JSON. *)
Inductive message :=
  | Forward (m : ForwardMessage)
  | ForwardAck (id : Z)
  | MigrateData (m : Migration.MigrateDataMessage)
  | MigrateAck (m : MigrateAckMessage)
  | Raw (type : string) (data : list Z).

Definition type_of (m : message) : string :=
  match m with
  | Forward _ => MsgForward | ForwardAck _ => MsgForwardAck
  | MigrateData _ => MsgMigrateData | MigrateAck _ => MsgMigrateAck
  | Raw t _ => t
  end.

(** [json.Unmarshal] into each of the structures; [Peek] is the structure with the type only. *)
Class WireJSON := {
  Marshal : message → list Z;
  Peek : list Z → option string;
  Unmarshal_Forward : list Z → option ForwardMessage;
  Unmarshal_ForwardAck : list Z → option Z;
  Unmarshal_MigrateData : list Z → option Migration.MigrateDataMessage;
  Unmarshal_MigrateAck : list Z → option MigrateAckMessage;
  (** The messages that survive: strings in UTF-8, and values that fit their types. *)
  json_ok : message → Prop;
  Peek_Marshal m : json_ok m → Peek (Marshal m) = Some (type_of m);
  Forward_Marshal m : json_ok (Forward m) → Unmarshal_Forward (Marshal (Forward m)) = Some m;
  ForwardAck_Marshal id : json_ok (ForwardAck id) → Unmarshal_ForwardAck (Marshal (ForwardAck id)) = Some id;
  MigrateData_Marshal m : json_ok (MigrateData m) → Unmarshal_MigrateData (Marshal (MigrateData m)) = Some m;
  MigrateAck_Marshal m : json_ok (MigrateAck m) → Unmarshal_MigrateAck (Marshal (MigrateAck m)) = Some m;
  (** An acknowledgement is a small message that repeats a part of the one it answers. *)
  ack_ok m : json_ok (Forward m) → json_ok (ForwardAck (fm_ID m)) ∧ len (Marshal (ForwardAck (fm_ID m))) ≤ maxFrame;
  migrate_ack_ok m : json_ok (MigrateData m) → len (Marshal (MigrateData m)) ≤ maxFrame →
    json_ok (MigrateAck (mkMigrateAck (Migration.mdm_DeviceID m) true)) ∧
    len (Marshal (MigrateAck (mkMigrateAck (Migration.mdm_DeviceID m) true))) ≤ maxFrame
}.

(** FNV-1a with 64 bits. *)
Definition fnv_offset : Z := 14695981039346656037.
Definition fnv_prime : Z := 1099511628211.
Definition fnv64a (h : Z) (data : list Z) : Z := foldl (λ h b, u64 (Z.lxor h b * fnv_prime)) h data.
Definition migrationAckKey (deviceID : string) : Z :=
  fnv64a (fnv64a fnv_offset (bytes_of "migrate:")) (bytes_of deviceID).

(** ** State *)

Record ackWaiter := mkWaiter { w_ch : nat; createdAt : Z }.

Record peerConn := mkPeer {
  pc_nodeID : string;
  pc_addr : string;
  pc_stream : option nat;                     (* the stream, and with it the connection *)
  pc_closed : bool;
  pc_done : bool;                             (* [close(pc.done)] was executed *)
  pc_breaker : option Breaker.CircuitBreaker
}.

Record PeerTransport := mkPT {
  msgID : Z;
  peerConns : gmap nat peerConn;              (* every [*peerConn] in use *)
  peers : gmap string nat;
  pt_done : bool;                             (* [close(pt.done)] was executed *)
  ackWaiters : gmap Z ackWaiter;
  chans : gmap nat bool;                      (* every acknowledgement channel: is it closed? *)
  cbConfig : option Breaker.Config;
  registry : gset string;                     (* the types with a registered handler *)
  forwardHandler : bool;                      (* [cluster.forwardHandler] is set *)
  migrateHandler : bool                       (* [pt.migrateHandler] is set *)
}.

Definition NewPeerTransport : PeerTransport := mkPT 0 ∅ ∅ false ∅ ∅ None ∅ false false.

Definition set_msgID (pt : PeerTransport) x := mkPT x (peerConns pt) (peers pt) (pt_done pt) (ackWaiters pt) (chans pt) (cbConfig pt) (registry pt)
  (forwardHandler pt) (migrateHandler pt).
Definition set_conns (pt : PeerTransport) x := mkPT (msgID pt) x (peers pt) (pt_done pt) (ackWaiters pt) (chans pt) (cbConfig pt) (registry pt)
  (forwardHandler pt) (migrateHandler pt).
Definition set_peers (pt : PeerTransport) x := mkPT (msgID pt) (peerConns pt) x (pt_done pt) (ackWaiters pt) (chans pt) (cbConfig pt) (registry pt)
  (forwardHandler pt) (migrateHandler pt).
Definition set_waiters (pt : PeerTransport) x := mkPT (msgID pt) (peerConns pt) (peers pt) (pt_done pt) x (chans pt) (cbConfig pt) (registry pt)
  (forwardHandler pt) (migrateHandler pt).
Definition set_chans (pt : PeerTransport) x := mkPT (msgID pt) (peerConns pt) (peers pt) (pt_done pt) (ackWaiters pt) x (cbConfig pt) (registry pt)
  (forwardHandler pt) (migrateHandler pt).

Definition RegisterHandler (pt : PeerTransport) (msgType : string) : PeerTransport :=
  mkPT (msgID pt) (peerConns pt) (peers pt) (pt_done pt) (ackWaiters pt) (chans pt) (cbConfig pt) ({[msgType]} ∪ registry pt)
    (forwardHandler pt) (migrateHandler pt).

(** [Cluster.SetForwardHandler], to which the handler of the transport passes a message, and [SetMigrateHandler]. *)
Definition SetForwardHandler (pt : PeerTransport) : PeerTransport :=
  mkPT (msgID pt) (peerConns pt) (peers pt) (pt_done pt) (ackWaiters pt) (chans pt) (cbConfig pt) (registry pt) true (migrateHandler pt).
Definition SetMigrateHandler (pt : PeerTransport) : PeerTransport :=
  mkPT (msgID pt) (peerConns pt) (peers pt) (pt_done pt) (ackWaiters pt) (chans pt) (cbConfig pt) (registry pt) (forwardHandler pt) true.

Definition NextID (pt : PeerTransport) : Z * PeerTransport :=
  let id := u64 (msgID pt + 1) in (id, set_msgID pt id).

(** [close(ch)], which panics on a closed channel. *)
Definition close_chan (pt : PeerTransport) (ch : nat) : res PeerTransport :=
  match chans pt !! ch with
  | Some false => Ok (set_chans pt (<[ch := true]> (chans pt)))
  | _ => Panic
  end.

(** *** Peers *)

Definition AddPeer (pt : PeerTransport) (nodeID addr : string) : PeerTransport :=
  match peers pt !! nodeID with
  | Some _ => pt
  | None =>
      let p := fresh (dom (peerConns pt)) in
      set_peers (set_conns pt (<[p := mkPeer nodeID addr None false false (Breaker.New <$> cbConfig pt)]> (peerConns pt)))
        (<[nodeID := p]> (peers pt))
  end.

Definition with_stream (pc : peerConn) (s : option nat) : peerConn :=
  mkPeer (pc_nodeID pc) (pc_addr pc) s (pc_closed pc) (pc_done pc) (pc_breaker pc).
Definition with_breaker (pc : peerConn) (b : option Breaker.CircuitBreaker) : peerConn :=
  mkPeer (pc_nodeID pc) (pc_addr pc) (pc_stream pc) (pc_closed pc) (pc_done pc) b.
Definition with_end (pc : peerConn) : peerConn :=
  mkPeer (pc_nodeID pc) (pc_addr pc) (pc_stream pc) true true (pc_breaker pc).

(** [backoff *= 2], at most [maxBackoff]. *)
Definition next_backoff (backoff : Z) : Z := Z.min (backoff * 2) (30 * Second).

(** One round of [connectPeer]: the loop ends, waits and tries again, or has a stream that it reads
    until it is lost. It looks whether it should end before it dials, and again when a dial has failed;
    a peer that is removed during a dial that succeeds still gets the stream. *)
Inductive dialing := DialFailed | Opened (stream : nat).
Inductive round := Ended | Retry (backoff : Z) | Reading.
Definition may_dial (pt : PeerTransport) (p : nat) : bool :=
  match peerConns pt !! p with None => false | Some pc => negb (pt_done pt || pc_done pc) end.
Definition connectPeer (pt : PeerTransport) (p : nat) (backoff : Z) (d : dialing) : round * PeerTransport :=
  match peerConns pt !! p with
  | None => (Ended, pt)
  | Some pc =>
      match d with
      | DialFailed => (if may_dial pt p then Retry (next_backoff backoff) else Ended, pt)
      | Opened s => (Reading, set_conns pt (<[p := with_stream pc (Some s)]> (peerConns pt)))
      end
  end.
(** The stream was lost. *)
Definition connection_lost (pt : PeerTransport) (p : nat) : round * PeerTransport :=
  match peerConns pt !! p with
  | None => (Ended, pt)
  | Some pc => (Retry Second, set_conns pt (<[p := with_stream pc None]> (peerConns pt)))
  end.

Definition RemovePeer (pt : PeerTransport) (nodeID : string) : res PeerTransport :=
  match peers pt !! nodeID with
  | None => Ok pt
  | Some p =>
      let pt := set_peers pt (delete nodeID (peers pt)) in
      match peerConns pt !! p with
      | Some pc => if pc_done pc then Panic else Ok (set_conns pt (<[p := with_end pc]> (peerConns pt)))
      | None => Panic
      end
  end.

Definition Stop (pt : PeerTransport) : res PeerTransport :=
  if pt_done pt then Panic
  else
    let listed := (map_to_list (peers pt)).*2 in
    let stop_one pc := if negb (pc_closed pc) then if pc_done pc then None else Some (with_end pc) else Some pc in
    foldl (λ r p, pt ← r;
             match peerConns pt !! p ≫= stop_one with
             | Some pc => Ok (set_conns pt (<[p := pc]> (peerConns pt)))
             | None => Panic
             end)
      (Ok (mkPT (msgID pt) (peerConns pt) ∅ true (ackWaiters pt) (chans pt) (cbConfig pt) (registry pt) (forwardHandler pt) (migrateHandler pt))) listed.

Definition SetCircuitBreakerConfig (pt : PeerTransport) (cfg : Breaker.Config) : PeerTransport :=
  let listed := (map_to_list (peers pt)).*2 in
  mkPT (msgID pt) (foldl (λ m p, alter (λ pc, with_breaker pc (Some (Breaker.New cfg))) p m) (peerConns pt) listed)
    (peers pt) (pt_done pt) (ackWaiters pt) (chans pt) (Some cfg) (registry pt) (forwardHandler pt) (migrateHandler pt).

(** *** Sending *)

Inductive send_error :=
  | ErrNotFound (nodeID : string)
  | ErrNotConnected (nodeID : string)
  | ErrCircuitOpen
  | ErrWrite
  | ErrFailed (attempts : Z) (cause : send_error)
  | ErrTimeout
  | ErrShutdown.

Section Json.
Context `{WireJSON}.

(** What is written on a stream. *)
Definition written : Type := option (nat * list Z).

(** [pc.breaker.AllowOrError()] of a peer that has a breaker. *)
Definition breaker_allows (now : Z) (pc : peerConn) : bool * peerConn :=
  match pc_breaker pc with
  | None => (true, pc)
  | Some cb => let '(err, cb) := Breaker.AllowOrError now cb in (bool_decide (err = None), with_breaker pc (Some cb))
  end.
Definition record_failure (now : Z) (pc : peerConn) : peerConn := with_breaker pc (Breaker.RecordFailure now <$> pc_breaker pc).
Definition record_success (pc : peerConn) : peerConn := with_breaker pc (Breaker.RecordSuccess <$> pc_breaker pc).

(** [Send] and [SendRaw]; [writes] tells whether the stream takes the frame. *)
Definition SendRaw (now : Z) (pt : PeerTransport) (nodeID : string) (msg : message) (writes : bool)
    : option send_error * written * PeerTransport :=
  match peers pt !! nodeID with
  | None => (Some (ErrNotFound nodeID), None, pt)
  | Some p =>
      match peerConns pt !! p with
      | None => (Some (ErrNotFound nodeID), None, pt)
      | Some pc =>
          let '(ok, pc) := breaker_allows now pc in
          let put pc := set_conns pt (<[p := pc]> (peerConns pt)) in
          if negb ok then (Some ErrCircuitOpen, None, put pc)
          else match pc_stream pc with
               | None => (Some (ErrNotConnected nodeID), None, put (record_failure now pc))
               | Some s =>
                   if writes then (None, Some (s, writeFrame (Marshal msg)), put (record_success pc))
                   else (Some ErrWrite, None, put (record_failure now pc))
               end
      end
  end.
Definition Send (now : Z) (pt : PeerTransport) (nodeID : string) (m : ForwardMessage) (writes : bool) :=
  SendRaw now pt nodeID (Forward m) writes.

(** [pt.ackWaiters[key] = &ackWaiter{...}] with a new channel. *)
Definition register (now : Z) (pt : PeerTransport) (key : Z) : nat * PeerTransport :=
  let ch := fresh (dom (chans pt)) in
  (ch, set_waiters (set_chans pt (<[ch := false]> (chans pt))) (<[key := mkWaiter ch now]> (ackWaiters pt))).
Definition unregister (pt : PeerTransport) (key : Z) : PeerTransport := set_waiters pt (delete key (ackWaiters pt)).

(** *** Calls that wait *)

(** [SendReliable] with its number of retries, and [SendMigrate]. *)
Inductive request :=
  | Reliable (m : ForwardMessage) (maxRetries : Z)
  | Migrate (m : Migration.MigrateDataMessage).

Definition msg_of (q : request) : message := match q with Reliable m _ => Forward m | Migrate m => MigrateData m end.
(** The key under which the acknowledgement of a message is waited for. *)
Definition ack_key (m : message) : Z :=
  match m with
  | Forward m => fm_ID m
  | MigrateData m => migrationAckKey (Migration.mdm_DeviceID m)
  | _ => 0
  end.
Definition key_of (q : request) : Z := ack_key (msg_of q).

(** Where a call is: before an attempt, with its channel registered (and the connection it looked
    up), waiting on the channel, or returned. *)
Inductive cphase :=
  | Trying (attempt : Z)
  | Registered (attempt : Z) (ch : nat) (pc : option nat)
  | Waiting (attempt : Z) (ch : nat)
  | Returned (err : option send_error).
Record call := mkCall { c_node : string; c_req : request; c_phase : cphase }.
Definition to (c : call) (p : cphase) : call := mkCall (c_node c) (c_req c) p.

Definition begin (now : Z) (pt : PeerTransport) (nodeID : string) (q : request) : PeerTransport * call :=
  match q with
  | Migrate _ => (pt, mkCall nodeID q (Trying 0))
  | Reliable _ _ =>
      match peers pt !! nodeID ≫= λ p, (p,.) <$> peerConns pt !! p with
      | None => (pt, mkCall nodeID q (Trying 0))
      | Some (p, pc) =>
          let '(ok, pc) := breaker_allows now pc in
          (set_conns pt (<[p := pc]> (peerConns pt)), mkCall nodeID q (if ok then Trying 0 else Returned (Some ErrCircuitOpen)))
      end
  end.

(** After a failed attempt: the next one, or the error. *)
Definition again (q : request) (attempt : Z) (err : send_error) : cphase :=
  match q with
  | Reliable _ maxRetries => if attempt <? maxRetries then Trying (attempt + 1) else Returned (Some err)
  | Migrate _ => Returned (Some err)
  end.

(** The next step of a call that does not wait, or whose channel is closed. *)
Definition call_step (now : Z) (writes : bool) (pt : PeerTransport) (c : call) : written * PeerTransport * call :=
  let key := key_of (c_req c) in
  match c_phase c with
  | Trying attempt =>
      match c_req c with
      | Reliable _ maxRetries =>
          if maxRetries <? attempt then (None, pt, to c (Returned None))
          else let '(ch, pt) := register now pt key in (None, pt, to c (Registered attempt ch None))
      | Migrate _ =>
          match peers pt !! c_node c with
          | None => (None, pt, to c (Returned (Some (ErrNotFound (c_node c)))))
          | Some p => let '(ch, pt) := register now pt key in (None, pt, to c (Registered attempt ch (Some p)))
          end
      end
  | Registered attempt ch pc =>
      match c_req c with
      | Reliable m _ =>
          let '(err, w, pt) := Send now pt (c_node c) m writes in
          match err with
          | None => (w, pt, to c (Waiting attempt ch))
          | Some ErrCircuitOpen => (w, unregister pt key, to c (Returned (Some ErrCircuitOpen)))
          | Some e => (w, unregister pt key, to c (again (c_req c) attempt (ErrFailed (attempt + 1) e)))
          end
      | Migrate m =>
          match (pc ≫= λ p, peerConns pt !! p) ≫= pc_stream with
          | None => (None, unregister pt key, to c (Returned (Some (ErrNotConnected (c_node c)))))
          | Some s =>
              if writes then (Some (s, writeFrame (Marshal (MigrateData m))), pt, to c (Waiting attempt ch))
              else (None, unregister pt key, to c (Returned (Some ErrWrite)))
          end
      end
  | Waiting attempt ch =>
      if bool_decide (chans pt !! ch = Some true) then (None, pt, to c (Returned None)) else (None, pt, c)
  | Returned _ => (None, pt, c)
  end.

Definition call_timeout (pt : PeerTransport) (c : call) : PeerTransport * call :=
  match c_phase c with
  | Waiting attempt _ => (unregister pt (key_of (c_req c)), to c (again (c_req c) attempt ErrTimeout))
  | _ => (pt, c)
  end.
Definition call_shutdown (pt : PeerTransport) (c : call) : call :=
  match c_phase c with
  | Waiting _ _ => if pt_done pt then to c (Returned (Some ErrShutdown)) else c
  | _ => c
  end.

(** [Cluster.Forward]: the message without acknowledgement, or a call with three retries. *)
Definition forward_msg (pt : PeerTransport) (m : ForwardMessage) : ForwardMessage * PeerTransport :=
  let '(id, pt) := if fm_ID m =? 0 then NextID pt else (fm_ID m, pt) in
  (mkForward id (fm_Topic m) (fm_Payload m) (fm_QoS m) (fm_Retain m) true, pt).

(** *** Receiving *)

(** What is read from a frame, for a handler. *)
Inductive handled :=
  | HForward (m : ForwardMessage)
  | HMigrate (m : Migration.MigrateDataMessage)
  | HRaw (type : string) (data : list Z).

(** Acknowledge what is waited for under a key. *)
Definition acknowledge (pt : PeerTransport) (key : Z) : res PeerTransport :=
  match ackWaiters pt !! key with
  | None => Ok pt
  | Some w => pt ← close_chan pt (w_ch w); Ok (unregister pt key)
  end.

(** One round of [handleConn] up to the call of a handler: the new state, the frames written on the same
    stream, and what a handler is to be called with. *)
Definition handle_frame (pt : PeerTransport) (data : list Z) : res (PeerTransport * list Z * list handled) :=
  match Peek data with
  | None => Ok (pt, [], [])
  | Some t =>
      if String.eqb t MsgForward then
        match Unmarshal_Forward data with
        | None => Ok (pt, [], [])
        | Some m => Ok (pt, if 0 <? fm_QoS m then writeFrame (Marshal (ForwardAck (fm_ID m))) else [], [HForward m])
        end
      else if String.eqb t MsgForwardAck then
        pt ← acknowledge pt (default 0 (Unmarshal_ForwardAck data)); Ok (pt, [], [])
      else if String.eqb t MsgMigrateData then
        match Unmarshal_MigrateData data with
        | None => Ok (pt, [], [])
        | Some m => Ok (pt, writeFrame (Marshal (MigrateAck (mkMigrateAck (Migration.mdm_DeviceID m) true))), [HMigrate m])
        end
      else if String.eqb t MsgMigrateAck then
        pt ← acknowledge pt (migrationAckKey (default "" (ma_DeviceID <$> Unmarshal_MigrateAck data))); Ok (pt, [], [])
      else Ok (pt, [], if bool_decide (t ∈ registry pt) then [HRaw t data] else [])
  end.

(** The end of the round: the handler is called, if it is set. *)
Definition is_handled (pt : PeerTransport) (h : handled) : bool :=
  match h with HForward _ => forwardHandler pt | HMigrate _ => migrateHandler pt | HRaw _ _ => true end.

(** One tick of [cleanupStaleAckWaiters]. *)
Definition maxAge : Z := 120 * Second.
Definition is_stale (now : Z) (w : ackWaiter) : bool := maxAge <? now - createdAt w.
Definition cleanup_one (now : Z) (pt : PeerTransport) (kw : Z * ackWaiter) : res PeerTransport :=
  if is_stale now kw.2 then
    pt ← (if bool_decide (chans pt !! w_ch kw.2 = Some true) then Ok pt else close_chan pt (w_ch kw.2));
    Ok (unregister pt kw.1)
  else Ok pt.
Definition cleanupStaleAckWaiters (now : Z) (pt : PeerTransport) : res PeerTransport :=
  foldl (λ r kw, pt ← r; cleanup_one now pt kw) (Ok pt) (map_to_list (ackWaiters pt)).

(** ** The nodes and the streams between them *)

(** A stream that the connection [l_pc] of node [l_from] has opened to node [l_to], with the bytes that
    were written and not read yet, in both directions. The address of a peer is one of its node. *)
Record link := mkLink { l_from : string; l_pc : nat; l_to : string; fwd : list Z; back : list Z }.

Record system := mkSys {
  nodes : gmap string PeerTransport;
  links : gmap nat link;
  next : nat;                            (* streams that were not opened yet *)
  calls : gmap nat (string * call);      (* the calls of every node, also those that have returned *)
  running : gmap (nat * bool) (string * string * handled)
    (* what was read from a stream, at the node that accepted it or at the other one, and is to be handled:
       who sent it to whom; the next frame is read after that *)
}.

Inductive label :=
  | LAddPeer (a nodeID addr : string)
  | LRemovePeer (a nodeID : string)
  | LConnect (a : string) (p : nat)                             (* a dial succeeds, and a stream is opened *)
  | LLost (s : nat)                                             (* the connection breaks *)
  | LReset (a : string) (p : nat)                               (* its owner notices *)
  | LForward (a : string) (i : nat) (nodeID topic : string) (payload : list Z) (qos : Z) (retain : bool) (now : Z) (writes : bool)
  | LMigrate (a : string) (i : nat) (nodeID : string) (m : Migration.MigrateDataMessage)
  | LRaw (a nodeID type : string) (data : list Z) (now : Z) (writes : bool)
  | LStep (i : nat) (now : Z) (writes : bool)
  | LTimeout (i : nat)
  | LShutdown (i : nat)
  | LRecv (s : nat)                                             (* the node that accepted reads a frame *)
  | LRecvBack (s : nat)                                         (* the node that dialled reads a frame *)
  | LHandle (s : nat) (accepted : bool)                         (* the handler of what was read there *)
  | LSetForward (a : string)
  | LSetMigrate (a : string)
  | LCleanup (a : string) (now : Z)
  | LStop (a : string).

Inductive event :=
  | Sent (a b : string) (m : message)
  | Read (a b : string) (h : handled)       (* [b] has read a message of [a], and written the acknowledgement *)
  | Got (a b : string) (h : handled)        (* a handler of [b] is called with it *)
  | Ignored (a b : string) (h : handled)    (* [b] has no handler for it *)
  | Stale (a : string) (key : Z).           (* a waiter was given up *)

Definition set_node (sys : system) (a : string) (pt : PeerTransport) : system :=
  mkSys (<[a := pt]> (nodes sys)) (links sys) (next sys) (calls sys) (running sys).
Definition set_links (sys : system) x : system := mkSys (nodes sys) x (next sys) (calls sys) (running sys).
Definition set_running (sys : system) x : system := mkSys (nodes sys) (links sys) (next sys) (calls sys) x.
Definition set_call (sys : system) (i : nat) (a : string) (c : call) : system :=
  mkSys (nodes sys) (links sys) (next sys) (<[i := (a, c)]> (calls sys)) (running sys).

(** Bytes written on a stream; on a broken one they are lost. *)
Definition put (sys : system) (w : written) : system :=
  match w with
  | None => sys
  | Some (s, bs) =>
      match links sys !! s with
      | None => sys
      | Some l => set_links sys (<[s := mkLink (l_from l) (l_pc l) (l_to l) (fwd l ++ bs) (back l)]> (links sys))
      end
  end.
Definition sent (w : written) (e : event) : list event := match w with Some _ => [e] | None => [] end.

(** Node [b] has read [h] from a stream with [a]. *)
Definition got (a b : string) (hs : list handled) : list event := Read a b <$> hs.
Definition to_handle (sys : system) (k : nat * bool) (a b : string) (hs : list handled) : system :=
  match hs with h :: _ => set_running sys (<[k := (a, b, h)]> (running sys)) | [] => sys end.

Definition stale_keys (now : Z) (pt : PeerTransport) : list Z :=
  (filter (λ kw, is_stale now kw.2 = true) (map_to_list (ackWaiters pt))).*1.

(** The steps. One that names a node, a connection, a call or a stream that is not there does nothing;
    the owner of a transport stops it once. The goroutines of a stopped node end at their next round:
    here they may still take steps, so the runs of the code are among these. *)
Definition sys_step (sys : system) (l : label) : res (list event * system) :=
  match l with
  | LAddPeer a n addr =>
      match nodes sys !! a with None => Ok ([], sys) | Some pt => Ok ([], set_node sys a (AddPeer pt n addr)) end
  | LRemovePeer a n =>
      match nodes sys !! a with
      | None => Ok ([], sys)
      | Some pt => pt ← RemovePeer pt n; Ok ([], set_node sys a pt)
      end
  | LConnect a p =>
      match nodes sys !! a with
      | None => Ok ([], sys)
      | Some pt =>
          match connectPeer pt p Second (Opened (next sys)), peerConns pt !! p with
          | (Reading, pt), Some pc =>
              Ok ([], mkSys (<[a := pt]> (nodes sys)) (<[next sys := mkLink a p (pc_nodeID pc) [] []]> (links sys))
                        (S (next sys)) (calls sys) (running sys))
          | _, _ => Ok ([], sys)
          end
      end
  | LLost s => Ok ([], set_links sys (delete s (links sys)))
  | LReset a p =>
      match nodes sys !! a with
      | None => Ok ([], sys)
      | Some pt =>
          let links' := match peerConns pt !! p ≫= pc_stream with Some s => delete s (links sys) | None => links sys end in
          Ok ([], set_links (set_node sys a (connection_lost pt p).2) links')
      end
  | LForward a i n topic payload qos retain now writes =>
      match nodes sys !! a, calls sys !! i with
      | Some pt, None =>
          let '(m, pt) := forward_msg pt (mkForward 0 topic payload qos retain false) in
          if qos =? 0 then
            let '(_, w, pt) := Send now pt n m writes in
            Ok (sent w (Sent a n (Forward m)), put (set_node sys a pt) w)
          else
            let '(pt, c) := begin now pt n (Reliable m 3) in
            Ok ([], set_call (set_node sys a pt) i a c)
      | _, _ => Ok ([], sys)
      end
  | LMigrate a i n m =>
      match nodes sys !! a, calls sys !! i with
      | Some pt, None => Ok ([], set_call sys i a (begin 0 pt n (Migrate m)).2)
      | _, _ => Ok ([], sys)
      end
  | LRaw a n t data now writes =>
      match nodes sys !! a with
      | None => Ok ([], sys)
      | Some pt =>
          let '(_, w, pt) := SendRaw now pt n (Raw t data) writes in
          Ok (sent w (Sent a n (Raw t data)), put (set_node sys a pt) w)
      end
  | LStep i now writes =>
      match calls sys !! i with
      | None => Ok ([], sys)
      | Some (a, c) =>
          match nodes sys !! a with
          | None => Ok ([], sys)
          | Some pt =>
              let '(w, pt, c') := call_step now writes pt c in
              Ok (sent w (Sent a (c_node c) (msg_of (c_req c))), put (set_call (set_node sys a pt) i a c') w)
          end
      end
  | LTimeout i =>
      match calls sys !! i with
      | None => Ok ([], sys)
      | Some (a, c) =>
          match nodes sys !! a with
          | None => Ok ([], sys)
          | Some pt => let '(pt, c) := call_timeout pt c in Ok ([], set_call (set_node sys a pt) i a c)
          end
      end
  | LShutdown i =>
      match calls sys !! i with
      | None => Ok ([], sys)
      | Some (a, c) =>
          match nodes sys !! a with
          | None => Ok ([], sys)
          | Some pt => Ok ([], set_call sys i a (call_shutdown pt c))
          end
      end
  | LRecv s =>
      match links sys !! s with
      | None => Ok ([], sys)
      | Some l =>
          match fwd l, nodes sys !! l_to l, running sys !! (s, true) with
          | [], _, _ | _, None, _ | _, _, Some _ => Ok ([], sys)
          | bs, Some pt, None =>
              match readFrame bs with
              | Ok (data, rest) =>
                  '(pt, reply, hs) ← handle_frame pt data;
                  Ok (got (l_from l) (l_to l) hs,
                      to_handle (set_links (set_node sys (l_to l) pt)
                        (<[s := mkLink (l_from l) (l_pc l) (l_to l) rest (back l ++ reply)]> (links sys)))
                        (s, true) (l_from l) (l_to l) hs)
              | _ => Ok ([], set_links sys (delete s (links sys)))
              end
          end
      end
  | LRecvBack s =>
      match links sys !! s with
      | None => Ok ([], sys)
      | Some l =>
          match back l, nodes sys !! l_from l, running sys !! (s, false) with
          | [], _, _ | _, None, _ | _, _, Some _ => Ok ([], sys)
          | bs, Some pt, None =>
              match readFrame bs with
              | Ok (data, rest) =>
                  '(pt, reply, hs) ← handle_frame pt data;
                  Ok (got (l_to l) (l_from l) hs,
                      to_handle (set_links (set_node sys (l_from l) pt)
                        (<[s := mkLink (l_from l) (l_pc l) (l_to l) (fwd l ++ reply) rest]> (links sys)))
                        (s, false) (l_to l) (l_from l) hs)
              | _ => Ok ([], set_links sys (delete s (links sys)))
              end
          end
      end
  | LHandle s accepted =>
      match running sys !! (s, accepted) with
      | None => Ok ([], sys)
      | Some (a, b, h) =>
          let sys := set_running sys (delete (s, accepted) (running sys)) in
          Ok ([if default true ((λ pt, is_handled pt h) <$> nodes sys !! b) then Got a b h else Ignored a b h], sys)
      end
  | LSetForward a =>
      match nodes sys !! a with None => Ok ([], sys) | Some pt => Ok ([], set_node sys a (SetForwardHandler pt)) end
  | LSetMigrate a =>
      match nodes sys !! a with None => Ok ([], sys) | Some pt => Ok ([], set_node sys a (SetMigrateHandler pt)) end
  | LCleanup a now =>
      match nodes sys !! a with
      | None => Ok ([], sys)
      | Some pt => pt' ← cleanupStaleAckWaiters now pt; Ok (Stale a <$> stale_keys now pt, set_node sys a pt')
      end
  | LStop a =>
      match nodes sys !! a with
      | None => Ok ([], sys)
      | Some pt => if pt_done pt then Ok ([], sys) else pt ← Stop pt; Ok ([], set_node sys a pt)
      end
  end.

Fixpoint run (sys : system) (ls : list label) : res (list event * system) :=
  match ls with
  | [] => Ok ([], sys)
  | l :: ls => '(o1, sys) ← sys_step sys l; '(o2, sys) ← run sys ls; Ok (o1 ++ o2, sys)
  end.

(** ** Frames are read as they were written *)

Lemma readFrame_write data r : len data ≤ maxFrame → readFrame (writeFrame data ++ r) = Ok (data, r).
Proof.
  intros Hl. pose proof (len_nonneg data). unfold maxFrame in Hl. unfold readFrame, writeFrame. rewrite <- app_assoc.
  replace 4 with (len (PutUint32 (u32 (len data)))) at 1 by apply len_PutUint32.
  rewrite ReadFull_app. cbn [mbind res_bind].
  assert (Hu : u32 (len data) = len data) by (unfold u32; apply Z.mod_small; lia).
  rewrite Uint32_PutUint32, Hu by (rewrite Hu; unfold u32_ok; lia). cbn [mbind res_bind].
  unfold maxFrame. destruct (Z.ltb_spec (10 * 1024 * 1024) (len data)); [lia|]. apply ReadFull_app.
Qed.

Lemma readFrame_large data r : maxFrame < len data < 4294967296 → ∃ e, readFrame (writeFrame data ++ r) = Err e.
Proof.
  intros Hl. unfold maxFrame in Hl. unfold readFrame, writeFrame. rewrite <- app_assoc.
  replace 4 with (len (PutUint32 (u32 (len data)))) at 1 by apply len_PutUint32.
  rewrite ReadFull_app. cbn [mbind res_bind].
  assert (Hu : u32 (len data) = len data) by (unfold u32; apply Z.mod_small; lia).
  rewrite Uint32_PutUint32, Hu by (rewrite Hu; unfold u32_ok; lia). cbn [mbind res_bind].
  unfold maxFrame. destruct (Z.ltb_spec (10 * 1024 * 1024) (len data)); [eauto|lia].
Qed.

Lemma writeFrame_nonnil data : writeFrame data ≠ [].
Proof. unfold writeFrame. intros Hn%(f_equal len). rewrite len_app, len_PutUint32, len_nil in Hn. pose proof (len_nonneg data). lia. Qed.

(** ** What holds in every run *)

Definition frame_of (m : message) : list Z := writeFrame (Marshal m).
(** A message that can be framed: its length fits the header. *)
Definition msg_ok (m : message) : Prop := json_ok m ∧ len (Marshal m) < 4294967296.
(** What the node that dialled writes: everything but acknowledgements. *)
Definition is_request (m : message) : Prop :=
  match m with
  | Forward _ | MigrateData _ => True
  | Raw t _ => t ∉ [MsgForward; MsgForwardAck; MsgMigrateData; MsgMigrateAck]
  | _ => False
  end.

(** The key that the handled message is acknowledged with, if it is. *)
Definition handled_key (h : handled) : option Z :=
  match h with
  | HForward m => if 0 <? fm_QoS m then Some (fm_ID m) else None
  | HMigrate m => Some (migrationAckKey (Migration.mdm_DeviceID m))
  | HRaw _ _ => None
  end.

Definition answered (out : list event) (a : string) (key : Z) : Prop :=
  (∃ b h, Read a b h ∈ out ∧ handled_key h = Some key) ∨ Stale a key ∈ out.
Definition ack_for (out : list event) (a b : string) (m : message) : Prop :=
  match m with
  | ForwardAck id => ∃ h, Read a b h ∈ out ∧ handled_key h = Some id
  | MigrateAck x => ∃ h, Read a b h ∈ out ∧ handled_key h = Some (migrationAckKey (ma_DeviceID x))
  | _ => False
  end.

Definition chan_of (c : call) : option nat :=
  match c_phase c with Registered _ ch _ | Waiting _ ch => Some ch | _ => None end.

(** One node: the channels that are waited for are open and different from each other, and the
    listed connections are not ended. *)
Record node_ok (pt : PeerTransport) : Prop := {
  n_open : ∀ k w, ackWaiters pt !! k = Some w → chans pt !! w_ch w = Some false;
  n_inj : ∀ k w k' w', ackWaiters pt !! k = Some w → ackWaiters pt !! k' = Some w' → w_ch w = w_ch w' → k = k';
  n_peer : ∀ n p, peers pt !! n = Some p →
    ∃ pc, peerConns pt !! p = Some pc ∧ pc_nodeID pc = n ∧ pc_done pc = false ∧ pc_closed pc = false
}.

(** The streams of node [a] that are not broken lead where its connections say. *)
Definition streams_ok (sys : system) (a : string) (pt : PeerTransport) : Prop :=
  ∀ p pc s, peerConns pt !! p = Some pc → pc_stream pc = Some s →
    (s < next sys)%nat ∧ ∀ l, links sys !! s = Some l → l_from l = a ∧ l_to l = pc_nodeID pc.

Definition link_ok (out : list event) (l : link) : Prop :=
  (∃ ms, fwd l = ms ≫= frame_of ∧
     Forall (λ m, msg_ok m ∧ is_request m ∧ Sent (l_from l) (l_to l) m ∈ out) ms) ∧
  (∃ ms, back l = ms ≫= frame_of ∧
     Forall (λ m, json_ok m ∧ len (Marshal m) ≤ maxFrame ∧ ack_for out (l_from l) (l_to l) m) ms).

(** A call of node [a] that has a channel: once the channel is closed its key has been answered, and a
    waiter with this channel waits for its key. *)
Definition call_ok (bound : Z) (out : list event) (a : string) (pt : PeerTransport) (c : call) : Prop :=
  (∀ ch, chan_of c = Some ch →
     (∃ b, chans pt !! ch = Some b ∧ (b = true → answered out a (key_of (c_req c)))) ∧
     ∀ k w, ackWaiters pt !! k = Some w → w_ch w = ch → k = key_of (c_req c)) ∧
  (∀ n ch p, c_phase c = Registered n ch (Some p) → ∃ pc, peerConns pt !! p = Some pc ∧ pc_nodeID pc = c_node c) ∧
  (c_phase c = Returned None → answered out a (key_of (c_req c))) ∧
  msg_ok (msg_of (c_req c)) ∧
  match c_req c with
  | Reliable m r => r = 3 ∧ 0 < fm_QoS m ∧ 1 ≤ fm_ID m ≤ msgID pt
  | Migrate m => bound < migrationAckKey (Migration.mdm_DeviceID m)
  end ∧
  (∀ n, c_phase c = Trying n → n ≤ 3).

(** After [n] steps; no key of a migration is as small as [bound]. *)
Record inv (bound n : Z) (sys : system) (out : list event) : Prop := {
  i_node : ∀ a pt, nodes sys !! a = Some pt → node_ok pt ∧ streams_ok sys a pt ∧ 0 ≤ msgID pt ≤ n;
  i_link : ∀ s l, links sys !! s = Some l → (s < next sys)%nat ∧ link_ok out l;
  i_call : ∀ i a c, calls sys !! i = Some (a, c) → ∃ pt, nodes sys !! a = Some pt ∧ call_ok bound out a pt c;
  i_uniq : ∀ i j a c c' m m' r r', calls sys !! i = Some (a, c) → calls sys !! j = Some (a, c') →
    c_req c = Reliable m r → c_req c' = Reliable m' r' → fm_ID m = fm_ID m' → i = j;
  i_got : ∀ a b h, Read a b h ∈ out → match h with HForward m => Sent a b (Forward m) ∈ out | HMigrate m => Sent a b (MigrateData m) ∈ out | HRaw _ _ => True end;
  i_sent : ∀ a b m, Sent a b m ∈ out →
    match m with
    | Forward fm => 0 < fm_QoS fm → ∃ i c r, calls sys !! i = Some (a, c) ∧ c_node c = b ∧ c_req c = Reliable fm r
    | MigrateData mm => bound < migrationAckKey (Migration.mdm_DeviceID mm)
    | _ => True
    end
}.

(** *** More events *)

Lemma answered_app out o a k : answered out a k → answered (out ++ o) a k.
Proof. unfold answered. set_solver. Qed.
Lemma ack_for_app out o a b m : ack_for out a b m → ack_for (out ++ o) a b m.
Proof. destruct m; cbn; set_solver. Qed.
Lemma link_ok_app out o l : link_ok out l → link_ok (out ++ o) l.
Proof.
  intros [(ms & Hf & H1) (ms' & Hb & H2)]. split; [exists ms|exists ms']; (split; [done|]); (eapply Forall_impl; [eassumption|]);
    cbn; intros m; [set_solver|]. intros (? & ? & ?). eauto using ack_for_app.
Qed.
Lemma call_ok_app bound out o a pt c : call_ok bound out a pt c → call_ok bound (out ++ o) a pt c.
Proof.
  intros (H1 & H2 & H3 & H4). split; [|split; [done|split; [|done]]].
  - intros ch Hch. destruct (H1 ch Hch) as [(b & Hb & Ha) Hw]. split; [|done]. exists b. eauto using answered_app.
  - eauto using answered_app.
Qed.

(** The events that a step may add: handled messages that were sent, and messages of the calls. *)
Definition event_ok (bound : Z) (sys : system) (out : list event) (e : event) : Prop :=
  match e with
  | Read a b (HForward m) => Sent a b (Forward m) ∈ out
  | Read a b (HMigrate m) => Sent a b (MigrateData m) ∈ out
  | Sent a b (Forward m) => 0 < fm_QoS m → ∃ i c r, calls sys !! i = Some (a, c) ∧ c_node c = b ∧ c_req c = Reliable m r
  | Sent a b (MigrateData m) => bound < migrationAckKey (Migration.mdm_DeviceID m)
  | _ => True
  end.

Lemma inv_events bound n sys out o : inv bound n sys out → Forall (event_ok bound sys out) o → inv bound n sys (out ++ o).
Proof.
  intros [H1 H2 H3 H4 H5 H6] Ho. rewrite Forall_forall in Ho. constructor; eauto.
  - intros s l Hl. destruct (H2 s l Hl). eauto using link_ok_app.
  - intros i a c Hc. destruct (H3 i a c Hc) as (pt & Hpt & Hok). eauto using call_ok_app.
  - intros a b h [Hin|Hin]%elem_of_app; [apply H5 in Hin|apply Ho in Hin; cbn in Hin]; destruct h; set_solver.
  - intros a b m [Hin|Hin]%elem_of_app; [by apply H6 in Hin|apply Ho in Hin; cbn in Hin]; by destruct m.
Qed.

(** *** A node changes *)

(** What the calls of a node can rely on when its state goes from [pt] to [pt']. *)
Record evolves (out : list event) (a : string) (pt pt' : PeerTransport) : Prop := {
  ev_chan : ∀ ch b, chans pt !! ch = Some b → ∃ b', chans pt' !! ch = Some b' ∧
    (b' = true → b = true ∨ ∃ k w, ackWaiters pt !! k = Some w ∧ w_ch w = ch ∧ answered out a k);
  ev_wait : ∀ k w, ackWaiters pt' !! k = Some w → ackWaiters pt !! k = Some w ∨ chans pt !! w_ch w = None;
  ev_conn : ∀ p pc, peerConns pt !! p = Some pc → ∃ pc', peerConns pt' !! p = Some pc' ∧ pc_nodeID pc' = pc_nodeID pc;
  ev_id : msgID pt ≤ msgID pt'
}.

Lemma evolves_refl out a pt : evolves out a pt pt.
Proof. constructor; [eauto..|lia]. Qed.

Lemma evolves_trans out a pt1 pt2 pt3 : evolves out a pt1 pt2 → evolves out a pt2 pt3 → evolves out a pt1 pt3.
Proof.
  intros [A1 A2 A3 A4] [B1 B2 B3 B4]. constructor; [| | |lia].
  - intros ch b Hb. destruct (A1 ch b Hb) as (b2 & Hb2 & H12). destruct (B1 ch b2 Hb2) as (b3 & Hb3 & H23).
    exists b3. split; [done|]. intros Ht. destruct (H23 Ht) as [->|(k & w & Hw & Hch & Hans)]; [by apply H12|].
    right. destruct (A2 k w Hw) as [?|Hn]; [eauto|]. congruence.
  - intros k w Hw. destruct (B2 k w Hw) as [Hw2|Hn]; [by apply A2|]. right.
    destruct (chans pt1 !! w_ch w) as [b|] eqn:E; [|done]. destruct (A1 _ _ E) as (b' & Hb' & _). congruence.
  - intros p pc Hp. destruct (A3 p pc Hp) as (pc2 & Hp2 & E2). destruct (B3 p pc2 Hp2) as (pc3 & Hp3 & E3).
    exists pc3. split; [done|congruence].
Qed.

Lemma evolves_call bound out a pt pt' c : evolves out a pt pt' → call_ok bound out a pt c → call_ok bound out a pt' c.
Proof.
  intros [E1 E2 E3 E4] (H1 & H2 & H3 & H4 & H5 & H6). split_and!; try done.
  - intros ch Hch. destruct (H1 ch Hch) as [(b & Hb & Ha) Hw]. destruct (E1 ch b Hb) as (b' & Hb' & Hc). split.
    + exists b'. split; [done|]. intros Ht. destruct (Hc Ht) as [->|(k & w & Hk & Hk' & Hans)]; [by apply Ha|].
      by rewrite <- (Hw k w Hk Hk').
    + intros k w Hk Hk'. destruct (E2 k w Hk) as [Hk2|Hn]; [by apply (Hw k w)|]. congruence.
  - intros n ch p Hph. destruct (H2 n ch p Hph) as (pc & Hpc & En). destruct (E3 p pc Hpc) as (pc' & Hpc' & E). exists pc'.
    split; [done|congruence].
  - destruct (c_req c); [|done]. lia.
Qed.

Lemma inv_node bound n n' sys out a pt pt' :
  inv bound n sys out → nodes sys !! a = Some pt → evolves out a pt pt' →
  node_ok pt' → streams_ok sys a pt' → n ≤ n' → msgID pt' ≤ n' → inv bound n' (set_node sys a pt') out.
Proof.
  intros [H1 H2 H3 H4 H5 H6] Ha Hev Hok Hst Hn Hid. constructor; cbn; eauto.
  - intros b ptb. destruct (decide (b = a)) as [->|Hne].
    + rewrite lookup_insert_eq. intros [= <-]. destruct (H1 a pt Ha) as (_ & _ & Hm). pose proof (ev_id _ _ _ _ Hev).
      split_and!; [done|exact Hst|lia..].
    + rewrite lookup_insert_ne by done. intros Hb. destruct (H1 b ptb Hb) as (? & ? & ?). split_and!; try done; lia.
  - intros i b c Hc. destruct (H3 i b c Hc) as (ptb & Hb & Hcok). destruct (decide (b = a)) as [->|Hne].
    + exists pt'. rewrite lookup_insert_eq. split; [done|]. assert (ptb = pt) as -> by congruence. by eapply evolves_call.
    + exists ptb. by rewrite lookup_insert_ne.
Qed.

(** *** The links and the calls change *)

Lemma streams_ok_links sys sys' a pt : streams_ok sys a pt → (next sys ≤ next sys')%nat →
  (∀ s l, (s < next sys)%nat → links sys' !! s = Some l → ∃ l0, links sys !! s = Some l0 ∧ l_from l = l_from l0 ∧ l_to l = l_to l0) →
  streams_ok sys' a pt.
Proof.
  intros Hst Hn Hl p pc s Hp Hs. destruct (Hst p pc s Hp Hs) as [Hlt Hs']. split; [lia|].
  intros l Hls. destruct (Hl s l Hlt Hls) as (l0 & Hl0 & -> & ->). by apply Hs'.
Qed.

Lemma inv_links bound n sys out ls :
  inv bound n sys out →
  (∀ s l, ls !! s = Some l → link_ok out l ∧ ∃ l0, links sys !! s = Some l0 ∧ l_from l = l_from l0 ∧ l_to l = l_to l0) →
  inv bound n (set_links sys ls) out.
Proof.
  intros [H1 H2 H3 H4 H5 H6] Hls. constructor; cbn; eauto.
  - intros a pt Ha. destruct (H1 a pt Ha) as (Hok & Hst & Hm). split_and!; try done; try lia.
    eapply streams_ok_links; [exact Hst|done|]. cbn. intros s l _ Hl. by apply Hls.
  - intros s l Hl. destruct (Hls s l Hl) as (Hok & l0 & Hl0 & _). split; [|done]. by apply (H2 s l0).
Qed.

Lemma inv_links_delete bound n sys out s : inv bound n sys out → inv bound n (set_links sys (delete s (links sys))) out.
Proof.
  intros Hi. apply inv_links; [done|]. intros s' l [_ Hl]%lookup_delete_Some. destruct (i_link _ _ _ _ Hi s' l Hl). eauto.
Qed.

Lemma inv_link bound n sys out s l l' :
  inv bound n sys out → links sys !! s = Some l → l_from l' = l_from l → l_to l' = l_to l → link_ok out l' →
  inv bound n (set_links sys (<[s := l']> (links sys))) out.
Proof.
  intros Hi Hs Hf Ht Hok. apply inv_links; [done|]. intros s' l0. destruct (decide (s' = s)) as [->|Hne].
  - rewrite lookup_insert_eq. intros [= <-]. eauto.
  - rewrite lookup_insert_ne by done. intros Hl. destruct (i_link _ _ _ _ Hi s' l0 Hl). eauto.
Qed.

(** What is to be handled is no part of the invariant. *)
Lemma inv_running bound n sys out x : inv bound n sys out → inv bound n (set_running sys x) out.
Proof. intros [H1 H2 H3 H4 H5 H6]. by constructor. Qed.
Lemma inv_to_handle bound n sys out k a b hs : inv bound n sys out → inv bound n (to_handle sys k a b hs) out.
Proof. destruct hs; [done|apply inv_running]. Qed.

(** A call goes on, with the same request. *)
Lemma inv_call bound n sys out i a c c' pt :
  inv bound n sys out → calls sys !! i = Some (a, c) → c_req c' = c_req c → c_node c' = c_node c →
  nodes sys !! a = Some pt → call_ok bound out a pt c' → inv bound n (set_call sys i a c') out.
Proof.
  intros [H1 H2 H3 H4 H5 H6] Hc Hr Hn Ha Hok.
  assert (Hsame : ∀ j b x, <[i := (a, c')]> (calls sys) !! j = Some (b, x) →
    ∃ y, calls sys !! j = Some (b, y) ∧ c_req x = c_req y ∧ c_node x = c_node y).
  { intros j b x. destruct (decide (j = i)) as [->|]; [rewrite lookup_insert_eq; intros [= <- <-]; eauto|].
    rewrite lookup_insert_ne by done. eauto. }
  constructor; cbn; eauto.
  - intros j b x. destruct (decide (j = i)) as [->|]; [rewrite lookup_insert_eq; intros [= <- <-]; eauto|].
    rewrite lookup_insert_ne by done. apply H3.
  - intros j k b x y m m' r r' Hj Hk Hm Hm' Hid. destruct (Hsame j b x Hj) as (x' & Hx & E1 & _).
    destruct (Hsame k b y Hk) as (y' & Hy & E2 & _). rewrite E1 in Hm. rewrite E2 in Hm'. by eapply H4.
  - intros a0 b m Hin. specialize (H6 a0 b m Hin). destruct m; try done. intros Hq. destruct (H6 Hq) as (j & x & r & Hj & E1 & E2).
    destruct (decide (j = i)) as [->|]; [|exists j, x, r; by rewrite lookup_insert_ne].
    exists i, c', r. rewrite lookup_insert_eq. rewrite Hc in Hj. injection Hj as <- <-. split_and!; [done|congruence..].
Qed.

(** *** The operations of a node *)

(** [pt'] is a good successor of [pt] in a system. *)
Record good (out : list event) (sys : system) (a : string) (pt pt' : PeerTransport) : Prop := {
  g_ev : evolves out a pt pt';
  g_ok : node_ok pt';
  g_st : streams_ok sys a pt'
}.

Lemma good_refl out sys a pt : node_ok pt → streams_ok sys a pt → good out sys a pt pt.
Proof. intros. constructor; [apply evolves_refl|done..]. Qed.

Lemma good_handlers out sys a pt : node_ok pt → streams_ok sys a pt →
  good out sys a pt (SetForwardHandler pt) ∧ good out sys a pt (SetMigrateHandler pt).
Proof. intros [] Hs. split; (constructor; [constructor; [eauto..|done]|by constructor|exact Hs]). Qed.

Lemma good_trans out sys a pt1 pt2 pt3 : good out sys a pt1 pt2 → good out sys a pt2 pt3 → good out sys a pt1 pt3.
Proof. intros [A1 A2 A3] [B1 B2 B3]. constructor; [by eapply evolves_trans|done..]. Qed.

(** Only the stream or the breaker of a connection changes. *)
Lemma good_conn out sys a pt p pc pc' :
  node_ok pt → streams_ok sys a pt → peerConns pt !! p = Some pc →
  pc_nodeID pc' = pc_nodeID pc → pc_done pc' = pc_done pc → pc_closed pc' = pc_closed pc →
  (∀ s, pc_stream pc' = Some s → pc_stream pc = Some s) →
  good out sys a pt (set_conns pt (<[p := pc']> (peerConns pt))).
Proof.
  intros [N1 N2 N3] Hst Hp E1 E2 E3 E4. constructor.
  - constructor; cbn; [eauto..| |lia]. intros q qc Hq. destruct (decide (q = p)) as [->|].
    + rewrite lookup_insert_eq. exists pc'. split; [done|congruence].
    + rewrite lookup_insert_ne by done. eauto.
  - constructor; cbn; eauto. intros n q Hq. destruct (N3 n q Hq) as (qc & Hqc & ? & ? & ?).
    destruct (decide (q = p)) as [->|]; [|exists qc; by rewrite lookup_insert_ne].
    rewrite lookup_insert_eq. exists pc'. split_and!; congruence.
  - intros q qc s. cbn. destruct (decide (q = p)) as [->|].
    + rewrite lookup_insert_eq. intros [= <-] Hs. rewrite E1. by apply (Hst p pc s); [|apply E4].
    + rewrite lookup_insert_ne by done. apply Hst.
Qed.

(** Operations on the waiters and their channels only. *)
Lemma streams_same sys a pt pt' : peerConns pt' = peerConns pt → streams_ok sys a pt → streams_ok sys a pt'.
Proof. intros E Hst p pc s. rewrite E. apply Hst. Qed.

Lemma good_unregister out sys a pt key : node_ok pt → streams_ok sys a pt → good out sys a pt (unregister pt key).
Proof.
  intros [N1 N2 N3] Hst. constructor; [constructor; cbn; [eauto|..]; [|eauto|lia]|constructor; cbn|done].
  - intros k w [_ Hk]%lookup_delete_Some. eauto.
  - intros k w [_ Hk]%lookup_delete_Some. eauto.
  - intros k w k' w' [_ Hk]%lookup_delete_Some [_ Hk']%lookup_delete_Some. eauto.
  - eauto.
Qed.

Lemma good_register out sys a now pt key : node_ok pt → streams_ok sys a pt →
  good out sys a pt (register now pt key).2 ∧
  chans (register now pt key).2 !! (register now pt key).1 = Some false ∧
  ∀ k w, ackWaiters (register now pt key).2 !! k = Some w → w_ch w = (register now pt key).1 → k = key.
Proof.
  intros [N1 N2 N3] Hst. unfold register. cbn. set (ch := fresh (dom (chans pt))).
  assert (Hch : chans pt !! ch = None) by (apply not_elem_of_dom, is_fresh).
  assert (Hold : ∀ k w, ackWaiters pt !! k = Some w → w_ch w ≠ ch) by (intros k w Hw E; specialize (N1 k w Hw); congruence).
  split_and!; [constructor; [constructor; cbn|constructor; cbn|done]|by rewrite lookup_insert_eq|].
  - intros c b Hb. exists b. rewrite lookup_insert_ne by congruence. eauto.
  - intros k w. destruct (decide (k = key)) as [->|]; [rewrite lookup_insert_eq; intros [= <-]; by right|].
    rewrite lookup_insert_ne by done. by left.
  - eauto.
  - lia.
  - intros k w. destruct (decide (k = key)) as [->|].
    + rewrite lookup_insert_eq. intros [= <-]. cbn. by rewrite lookup_insert_eq.
    + rewrite lookup_insert_ne by done. intros Hw. rewrite lookup_insert_ne by (symmetry; eauto). eauto.
  - intros k w k' w'. destruct (decide (k = key)) as [->|], (decide (k' = key)) as [->|]; rewrite ?lookup_insert_eq, ?lookup_insert_ne by done.
    + done.
    + intros [= <-] Hw' E. by destruct (Hold k' w' Hw').
    + intros Hw [= <-] E. by destruct (Hold k w Hw).
    + eauto.
  - eauto.
  - intros k w. destruct (decide (k = key)) as [->|]; [done|]. rewrite lookup_insert_ne by done. intros Hw E. by destruct (Hold k w Hw).
Qed.

(** Closing the channel of a waiter whose key is answered, and forgetting the waiter. *)
Lemma good_close out sys a pt key w :
  node_ok pt → streams_ok sys a pt → ackWaiters pt !! key = Some w → answered out a key →
  close_chan pt (w_ch w) = Ok (set_chans pt (<[w_ch w := true]> (chans pt))) ∧
  good out sys a pt (unregister (set_chans pt (<[w_ch w := true]> (chans pt))) key).
Proof.
  intros [N1 N2 N3] Hst Hw Hans. unfold close_chan. rewrite (N1 key w Hw). split; [done|].
  constructor; [constructor; cbn|constructor; cbn|done].
  - intros ch b Hb. destruct (decide (ch = w_ch w)) as [->|]; [|exists b; rewrite lookup_insert_ne by done; eauto].
    exists true. rewrite lookup_insert_eq. split; [done|]. right. eauto.
  - intros k w' [_ Hk]%lookup_delete_Some. by left.
  - eauto.
  - lia.
  - intros k w' [Hne Hk]%lookup_delete_Some. rewrite lookup_insert_ne; [eauto|]. intros E. apply Hne. eapply N2; eauto.
  - intros k w1 k' w2 [_ Hk]%lookup_delete_Some [_ Hk']%lookup_delete_Some. eauto.
  - eauto.
Qed.

Lemma good_acknowledge out sys a pt key :
  node_ok pt → streams_ok sys a pt → answered out a key →
  ∃ pt', acknowledge pt key = Ok pt' ∧ good out sys a pt pt' ∧ msgID pt' = msgID pt.
Proof.
  intros Hok Hst Hans. unfold acknowledge. destruct (ackWaiters pt !! key) as [w|] eqn:E; [|by eauto using good_refl].
  destruct (good_close out sys a pt key w Hok Hst E Hans) as [-> Hg]. cbn [mbind res_bind]. eauto.
Qed.

Lemma good_cleanup out sys a now pt :
  node_ok pt → streams_ok sys a pt → (∀ k, k ∈ stale_keys now pt → Stale a k ∈ out) →
  ∃ pt', cleanupStaleAckWaiters now pt = Ok pt' ∧ good out sys a pt pt' ∧ msgID pt' = msgID pt.
Proof.
  intros Hok Hst Hstale. unfold cleanupStaleAckWaiters.
  assert (Hl : Forall (λ kw, ackWaiters pt !! kw.1 = Some kw.2 ∧ (is_stale now kw.2 = true → Stale a kw.1 ∈ out)) (map_to_list (ackWaiters pt))).
  { apply Forall_forall. intros [k w] Hin. split; [by apply elem_of_map_to_list|]. intros Hs. apply Hstale.
    unfold stale_keys. apply list_elem_of_fmap. exists (k, w). split; [done|]. by apply list_elem_of_filter. }
  pose proof (NoDup_fst_map_to_list (ackWaiters pt)) as Hnd. revert Hl Hnd.
  generalize (map_to_list (ackWaiters pt)). intros l Hl Hnd. clear Hstale.
  assert (Hgen : ∀ pt1, good out sys a pt pt1 → msgID pt1 = msgID pt → (∀ kw, kw ∈ l → ackWaiters pt1 !! kw.1 = Some kw.2) →
    ∃ pt', foldl (λ r kw, pt ← r; cleanup_one now pt kw) (Ok pt1) l = Ok pt' ∧ good out sys a pt pt' ∧ msgID pt' = msgID pt);
    [|eapply Hgen; [by apply good_refl|done|]; intros kw Hin; by apply (proj1 (Forall_forall _ l) Hl)].
  induction l as [|[k w] l IH]; intros pt1 Hg Hid Hin; cbn [foldl]; [eauto|].
  apply Forall_cons in Hl as [[_ Hs] Hl]. cbn in Hnd. apply NoDup_cons in Hnd as [Hk Hnd].
  assert (Hw : ackWaiters pt1 !! k = Some w) by (apply (Hin (k, w)); set_solver).
  cbn [mbind res_bind]. unfold cleanup_one. cbn [fst snd]. destruct (is_stale now w) eqn:Hst'; [|apply IH; try done; set_solver].
  destruct Hg as [Gev Gok Gst]. rewrite bool_decide_false by (rewrite (n_open _ Gok k w Hw); done).
  destruct (good_close out sys a pt1 k w Gok Gst Hw) as [-> Hg']; [right; by apply Hs|]. cbn [mbind res_bind].
  apply IH; [done|done|eapply good_trans; [constructor; eassumption|exact Hg']|done|].
  intros [k' w'] Hin'. cbn. rewrite lookup_delete_ne; [apply (Hin (k', w')); set_solver|].
  intros ->. apply Hk. apply list_elem_of_fmap. by exists (k', w').
Qed.

Lemma good_AddPeer out sys a pt n addr : node_ok pt → streams_ok sys a pt → good out sys a pt (AddPeer pt n addr).
Proof.
  intros Hok Hst. unfold AddPeer. destruct (peers pt !! n) eqn:En; [by apply good_refl|]. destruct Hok as [N1 N2 N3].
  set (p := fresh (dom (peerConns pt))). assert (Hp : peerConns pt !! p = None) by (apply not_elem_of_dom, is_fresh).
  constructor; [constructor; cbn|constructor; cbn|].
  - eauto.
  - eauto.
  - intros q qc Hq. exists qc. by rewrite lookup_insert_ne by congruence.
  - lia.
  - eauto.
  - eauto.
  - intros m q. destruct (decide (m = n)) as [->|].
    + rewrite lookup_insert_eq. intros [= <-]. rewrite lookup_insert_eq. eauto.
    + rewrite lookup_insert_ne by done. intros Hq. destruct (N3 m q Hq) as (qc & Hqc & ?). exists qc.
      by rewrite lookup_insert_ne by congruence.
  - intros q qc s. cbn. destruct (decide (q = p)) as [->|]; [rewrite lookup_insert_eq; by intros [= <-]|].
    rewrite lookup_insert_ne by done. apply Hst.
Qed.

(** A connection that is no longer listed is ended. *)
Lemma good_end out sys a pt n p pc :
  node_ok pt → streams_ok sys a pt → peers pt !! n = Some p → peerConns pt !! p = Some pc → pc_nodeID pc = n →
  good out sys a pt (set_conns (set_peers pt (delete n (peers pt))) (<[p := with_end pc]> (peerConns pt))).
Proof.
  intros [N1 N2 N3] Hst Hn Hp Hid. constructor; [constructor; cbn|constructor; cbn|]; [eauto|eauto| |lia|eauto|eauto| |].
  - intros q qc Hq. destruct (decide (q = p)) as [->|]; [|exists qc; by rewrite lookup_insert_ne].
    rewrite lookup_insert_eq. exists (with_end pc). split; [done|]. cbn. congruence.
  - intros m q [Hne Hq]%lookup_delete_Some. destruct (N3 m q Hq) as (qc & Hqc & Hm & ?). exists qc.
    rewrite lookup_insert_ne; [done|]. intros ->. congruence.
  - intros q qc s. cbn. destruct (decide (q = p)) as [->|]; [|rewrite lookup_insert_ne by done; apply Hst].
    rewrite lookup_insert_eq. intros [= <-] Hs. cbn in *. by apply (Hst p pc).
Qed.

Lemma good_RemovePeer out sys a pt n : node_ok pt → streams_ok sys a pt →
  ∃ pt', RemovePeer pt n = Ok pt' ∧ good out sys a pt pt' ∧ msgID pt' = msgID pt.
Proof.
  intros Hok Hst. unfold RemovePeer. destruct (peers pt !! n) as [p|] eqn:En; [|eauto using good_refl].
  destruct (n_peer _ Hok n p En) as (pc & Hpc & Hid & Hd & Hcl). cbn. rewrite Hpc, Hd.
  eexists. split; [done|]. split; [by apply (good_end out sys a pt n p pc)|done].
Qed.

Lemma good_Stop out sys a pt : node_ok pt → streams_ok sys a pt → pt_done pt = false →
  ∃ pt', Stop pt = Ok pt' ∧ good out sys a pt pt' ∧ msgID pt' = msgID pt.
Proof.
  intros Hok Hst Hd. unfold Stop. rewrite Hd. set (f := λ r p, _).
  assert (Hl : ∀ p, p ∈ (map_to_list (peers pt)).*2 → ∃ pc, peerConns pt !! p = Some pc ∧ pc_done pc = false ∧ pc_closed pc = false).
  { intros p ([n q] & -> & Hin%elem_of_map_to_list)%list_elem_of_fmap. destruct (n_peer _ Hok n q Hin) as (pc & ? & ? & ? & ?). eauto. }
  revert Hl. generalize ((map_to_list (peers pt)).*2). intros l Hl.
  set (base := mkPT _ _ ∅ true _ _ _ _ _ _).
  assert (Hbase : good out sys a pt base).
  { destruct Hok as [N1 N2 N3]. constructor; [constructor; cbn; [eauto..|lia]|constructor; cbn; [eauto..|]|exact Hst].
    intros n p. by rewrite lookup_empty. }
  assert (Hgen : ∀ pt1, good out sys a pt pt1 → msgID pt1 = msgID pt → peers pt1 = ∅ →
    (∀ p, p ∈ l → ∃ pc, peerConns pt1 !! p = Some pc ∧ (pc_closed pc = false → pc_done pc = false)) →
    ∃ pt', foldl f (Ok pt1) l = Ok pt' ∧ good out sys a pt pt' ∧ msgID pt' = msgID pt);
    [|eapply Hgen; [exact Hbase|done|done|]; intros p Hp; destruct (Hl p Hp) as (pc & ? & ? & ?); eauto].
  clear Hl Hbase base. induction l as [|p l IH]; intros pt1 Hg Hid Hpe Hin; cbn [foldl]; [eauto|].
  destruct (Hin p) as (pc & Hpc & Hdone); [set_solver|]. unfold f at 2. cbn [mbind res_bind]. rewrite Hpc. cbn [mbind option_bind].
  assert (Hstop : ∃ pc', (if negb (pc_closed pc) then if pc_done pc then None else Some (with_end pc) else Some pc) = Some pc' ∧
    pc_nodeID pc' = pc_nodeID pc ∧ (∀ s, pc_stream pc' = Some s → pc_stream pc = Some s) ∧ (pc_closed pc' = false → pc_done pc' = false)).
  { destruct (pc_closed pc) eqn:Ec; cbn; [exists pc; split_and!; try done; by rewrite Ec|].
    rewrite Hdone by done. by exists (with_end pc). }
  destruct Hstop as (pc' & -> & E1 & E2 & E3). apply IH; [|done|done|].
  - destruct Hg as [Gev Gok Gst]. eapply good_trans; [constructor; eassumption|]. destruct Gok as [N1 N2 N3].
    constructor; [constructor; cbn; [eauto|eauto| |lia]|constructor; cbn; [eauto..|]|].
    + intros q qc Hq. destruct (decide (q = p)) as [->|]; [|exists qc; by rewrite lookup_insert_ne].
      rewrite lookup_insert_eq. exists pc'. split; [done|congruence].
    + rewrite Hpe. intros m q. by rewrite lookup_empty.
    + intros q qc s. cbn. destruct (decide (q = p)) as [->|]; [|rewrite lookup_insert_ne by done; apply Gst].
      rewrite lookup_insert_eq. intros [= <-] Hs. rewrite E1. apply (Gst p pc); [done|]. by apply E2.
  - intros q Hq. cbn. destruct (decide (q = p)) as [->|]; [rewrite lookup_insert_eq; eauto|]. rewrite lookup_insert_ne by done.
    apply Hin. set_solver.
Qed.

(** *** Sending *)

Lemma breaker_allows_same now pc : let pc' := (breaker_allows now pc).2 in
  pc_nodeID pc' = pc_nodeID pc ∧ pc_done pc' = pc_done pc ∧ pc_closed pc' = pc_closed pc ∧ pc_stream pc' = pc_stream pc.
Proof. unfold breaker_allows. destruct (pc_breaker pc) as [cb|]; [|done]. by destruct (Breaker.AllowOrError now cb). Qed.

(** The stream of a node's listed peer. *)
Definition writes_to (pt : PeerTransport) (n : string) (w : written) (m : message) : Prop :=
  ∀ s bs, w = Some (s, bs) → bs = frame_of m ∧ ∃ p pc, peerConns pt !! p = Some pc ∧ pc_nodeID pc = n ∧ pc_stream pc = Some s.

Lemma good_SendRaw out sys a now pt n m writes : node_ok pt → streams_ok sys a pt →
  let '(err, w, pt') := SendRaw now pt n m writes in
  good out sys a pt pt' ∧ msgID pt' = msgID pt ∧ writes_to pt' n w m ∧ (err = None → is_Some w).
Proof.
  intros Hok Hst. unfold SendRaw. destruct (peers pt !! n) as [p|] eqn:En; [|by split_and!; [apply good_refl|..]].
  destruct (n_peer _ Hok n p En) as (pc & Hpc & Hid & _). rewrite Hpc.
  pose proof (breaker_allows_same now pc) as (E1 & E2 & E3 & E4). destruct (breaker_allows now pc) as [ok pc1]. cbn in E1, E2, E3, E4.
  assert (Hgood : ∀ pc2, pc_nodeID pc2 = pc_nodeID pc1 → pc_done pc2 = pc_done pc1 → pc_closed pc2 = pc_closed pc1 →
    pc_stream pc2 = pc_stream pc1 → good out sys a pt (set_conns pt (<[p := pc2]> (peerConns pt)))).
  { intros pc2 ????. apply (good_conn out sys a pt p pc pc2); try congruence; try done. }
  destruct ok; cbn [negb]; [|by split_and!; [apply Hgood|..]].
  destruct (pc_stream pc1) as [s|] eqn:Es; [|by split_and!; [apply Hgood; cbn|..]].
  destruct writes; split_and!; try done; try (apply Hgood; done).
  - intros s' bs [= <- <-]. split; [done|]. exists p, (record_success pc1). cbn. rewrite lookup_insert_eq. split_and!; try done. congruence.
Qed.

Lemma SendRaw_error now pt n m writes e : (SendRaw now pt n m writes).1.1 = Some e → (SendRaw now pt n m writes).1.2 = None.
Proof.
  unfold SendRaw. destruct (peers pt !! n); [|done]. destruct (peerConns pt !! _) as [pc|]; [|done].
  destruct (breaker_allows now pc) as [[] pc1]; cbn; [|done]. destruct (pc_stream pc1), writes; done.
Qed.

Lemma good_begin bound out sys a now pt n q : node_ok pt → streams_ok sys a pt → msg_ok (msg_of q) →
  match q with Reliable m r => r = 3 ∧ 0 < fm_QoS m ∧ 1 ≤ fm_ID m ≤ msgID pt | Migrate m => bound < migrationAckKey (Migration.mdm_DeviceID m) end →
  let '(pt', c) := begin now pt n q in
  good out sys a pt pt' ∧ msgID pt' = msgID pt ∧ c_req c = q ∧ c_node c = n ∧ call_ok bound out a pt' c.
Proof.
  intros Hok Hst Hmsg Hq.
  assert (Hcall : ∀ pt' ph, msgID pt' = msgID pt → (ph = Trying 0 ∨ ph = Returned (Some ErrCircuitOpen)) → call_ok bound out a pt' (mkCall n q ph)).
  { intros pt' ph Hid Hph. unfold call_ok, chan_of. cbn. rewrite Hid. split_and!; try (destruct Hph as [-> | ->]; done).
    intros k ->. destruct Hph as [E|E]; [injection E as ->; lia|done]. }
  unfold begin. destruct q as [m r|m]; [|by split_and!; [apply good_refl|..|apply Hcall; auto]].
  destruct (peers pt !! n) as [p|] eqn:En; cbn; [|by split_and!; [apply good_refl|..|apply Hcall; auto]].
  destruct (peerConns pt !! p) as [pc|] eqn:Ep; cbn; [|by split_and!; [apply good_refl|..|apply Hcall; auto]].
  pose proof (breaker_allows_same now pc) as (E1 & E2 & E3 & E4). destruct (breaker_allows now pc) as [ok pc1]. cbn in E1, E2, E3, E4.
  split_and!; try done; [|apply Hcall; destruct ok; auto].
  apply (good_conn out sys a pt p pc pc1); try done. intros s. congruence.
Qed.

(** What is written arrives at the stream of the right node. *)
Lemma inv_put bound n sys out a b pt w m :
  inv bound n sys out → nodes sys !! a = Some pt → writes_to pt b w m → msg_ok m → is_request m →
  (is_Some w → Sent a b m ∈ out) → inv bound n (put sys w) out.
Proof.
  intros Hi Ha Hw Hm Hack Hsent. unfold put. destruct w as [[s bs]|]; [|done].
  destruct (links sys !! s) as [l|] eqn:El; [|done]. destruct (Hw s bs eq_refl) as (-> & p & pc & Hp & Hid & Hs).
  destruct (i_node _ _ _ _ Hi a pt Ha) as (_ & Hst & _). destruct (Hst p pc s Hp Hs) as [_ Hl]. destruct (Hl l El) as [Ef Et].
  destruct (i_link _ _ _ _ Hi s l El) as [_ [(ms & Hf & Hms) Hb]].
  apply (inv_link _ _ _ _ s l); try done. split; [|exact Hb]. exists (ms ++ [m]). cbn. rewrite Hf. split.
  - rewrite bind_app. cbn. by rewrite app_nil_r.
  - apply Forall_app. split; [done|]. constructor; [|done]. split_and!; [done..|]. rewrite Ef, Et, Hid. apply Hsent. eauto.
Qed.

(** *** Calls *)

Lemma call_ok_to bound out a pt c ph : call_ok bound out a pt c →
  (∀ ch, chan_of (to c ph) = Some ch → (∃ b, chans pt !! ch = Some b ∧ (b = true → answered out a (key_of (c_req c)))) ∧
     ∀ k w, ackWaiters pt !! k = Some w → w_ch w = ch → k = key_of (c_req c)) →
  (∀ n ch p, ph = Registered n ch (Some p) → ∃ pc, peerConns pt !! p = Some pc ∧ pc_nodeID pc = c_node c) →
  (ph = Returned None → answered out a (key_of (c_req c))) → (∀ n, ph = Trying n → n ≤ 3) →
  call_ok bound out a pt (to c ph).
Proof. intros (_ & _ & _ & H4 & H5 & _) ????. by split_and!. Qed.

(** A call that returns an error. *)
Lemma call_ok_error bound out a pt c e : call_ok bound out a pt c → call_ok bound out a pt (to c (Returned (Some e))).
Proof. intros Hc. by apply call_ok_to. Qed.

Lemma call_ok_again bound out a pt c n e : call_ok bound out a pt c → call_ok bound out a pt (to c (again (c_req c) n e)).
Proof.
  intros Hc. pose proof Hc as (_ & _ & _ & _ & Hq & _). unfold again. destruct (c_req c) as [m r|m] eqn:Er; [|by apply call_ok_error].
  destruct Hq as [-> _]. destruct (Z.ltb_spec n 3); [|by apply call_ok_error].
  apply call_ok_to; try done. intros k [= <-]. lia.
Qed.

(** The channel was registered, by now or before. *)
Lemma call_ok_registered bound out sys a now pt c n pc :
  node_ok pt → streams_ok sys a pt → call_ok bound out a pt c →
  (∀ p, pc = Some p → ∃ x, peerConns pt !! p = Some x ∧ pc_nodeID x = c_node c) →
  let '(ch, pt') := register now pt (key_of (c_req c)) in
  good out sys a pt pt' ∧ msgID pt' = msgID pt ∧ call_ok bound out a pt' (to c (Registered n ch pc)).
Proof.
  intros Hok Hst Hc Hp. destruct (register now pt (key_of (c_req c))) as [ch pt'] eqn:E.
  destruct (good_register out sys a now pt (key_of (c_req c)) Hok Hst) as (Hg & Hch & Hw). rewrite E in Hg, Hch, Hw. cbn in Hg, Hch, Hw.
  split; [done|]. split; [unfold register in E; by injection E as <- <-|].
  apply call_ok_to; try done.
  - by eapply evolves_call; [apply Hg|].
  - cbn. intros ch' [= <-]. split; [by exists false|done].
  - intros n' ch' p [= <- <- ->]. destruct (Hp p eq_refl) as (x & Hx & Hn). destruct (ev_conn _ _ _ _ (g_ev _ _ _ _ _ Hg) p x Hx) as (x' & Hx' & E').
    exists x'. split; [done|congruence].
Qed.

Definition step_ok bound out sys a pt c (r : written * PeerTransport * call) : Prop :=
  let '(w, pt', c') := r in
  good out sys a pt pt' ∧ msgID pt' = msgID pt ∧ c_req c' = c_req c ∧ c_node c' = c_node c ∧
  call_ok bound out a pt' c' ∧ writes_to pt' (c_node c) w (msg_of (c_req c)).

Lemma step_ok_unregister bound out sys a pt pt1 c ph :
  good out sys a pt pt1 → msgID pt1 = msgID pt → call_ok bound out a pt1 (to c ph) →
  step_ok bound out sys a pt c (None, unregister pt1 (key_of (c_req c)), to c ph).
Proof.
  intros Hg Hid Hc. assert (Hg' : good out sys a pt1 (unregister pt1 (key_of (c_req c)))) by (apply good_unregister; apply Hg).
  split_and!; try done; [by eapply good_trans|]. by eapply evolves_call; [apply Hg'|].
Qed.

Lemma step_ok_waiting bound out sys a pt c n ch pc : node_ok pt → streams_ok sys a pt → call_ok bound out a pt c →
  c_phase c = Registered n ch pc → ∀ pt1 w, good out sys a pt pt1 → msgID pt1 = msgID pt →
  writes_to pt1 (c_node c) w (msg_of (c_req c)) → step_ok bound out sys a pt c (w, pt1, to c (Waiting n ch)).
Proof.
  intros Hok Hst Hc Hph pt1 w Hg Hid Hw. split_and!; try done.
  assert (Hc1 : call_ok bound out a pt1 c) by (by eapply evolves_call; [apply Hg|]).
  apply call_ok_to; try done. cbn. intros ch' [= <-]. apply Hc1. unfold chan_of. by rewrite Hph.
Qed.

Lemma call_step_ok bound out sys a now writes pt c : node_ok pt → streams_ok sys a pt → call_ok bound out a pt c →
  step_ok bound out sys a pt c (call_step now writes pt c).
Proof.
  intros Hok Hst Hc. pose proof Hc as (Hchan & Hreg & Hret & _ & Hq & Htry). pose proof (good_refl out sys a pt Hok Hst) as Hrefl.
  unfold call_step. destruct (c_phase c) as [n|n ch pc|n ch|e] eqn:Hph.
  - destruct (c_req c) as [m r|m] eqn:Er.
    + destruct Hq as [-> _]. specialize (Htry n eq_refl). destruct (Z.ltb_spec 3 n); [lia|]. rewrite <- Er.
      pose proof (call_ok_registered bound out sys a now pt c n None Hok Hst Hc) as Hr.
      destruct (register now pt (key_of (c_req c))) as [ch pt']. destruct Hr as (? & ? & ?); [done|]. by split_and!.
    + destruct (peers pt !! c_node c) as [p|] eqn:Ep; [|split_and!; try done; by apply call_ok_error].
      destruct (n_peer _ Hok _ _ Ep) as (x & Hx & Hid & _). rewrite <- Er.
      pose proof (call_ok_registered bound out sys a now pt c n (Some p) Hok Hst Hc) as Hr.
      destruct (register now pt (key_of (c_req c))) as [ch pt']. destruct Hr as (? & ? & ?); [intros ? [= <-]; eauto|]. by split_and!.
  - destruct (c_req c) as [m r|m] eqn:Er; rewrite <- Er.
    + pose proof (good_SendRaw out sys a now pt (c_node c) (Forward m) writes Hok Hst) as Hs. unfold Send.
      destruct (SendRaw now pt (c_node c) (Forward m) writes) as [[err w] pt'] eqn:Es. destruct Hs as (Hg & Hid & Hw & _).
      assert (Hc1 : call_ok bound out a pt' c) by (by eapply evolves_call; [apply Hg|]).
      destruct err as [e|]; [|eapply step_ok_waiting; try done; by rewrite Er].
      assert (w = None) as -> by (pose proof (SendRaw_error now pt (c_node c) (Forward m) writes e) as He; rewrite Es in He; by apply He).
      destruct e; apply step_ok_unregister; auto using call_ok_error, call_ok_again.
    + destruct ((pc ≫= λ p, peerConns pt !! p) ≫= pc_stream) as [s|] eqn:Es; [|apply step_ok_unregister; auto using call_ok_error].
      destruct writes; [|apply step_ok_unregister; auto using call_ok_error].
      eapply step_ok_waiting; try done. rewrite Er. intros s' bs [= <- <-]. split; [done|].
      destruct pc as [p|]; [|done]. cbn in Es. destruct (peerConns pt !! p) as [x|] eqn:Ex; [|done]. cbn in Es.
      destruct (Hreg n ch p eq_refl) as (x' & Hx' & Hn). exists p, x. split_and!; congruence.
  - case_bool_decide as Hcl; [|by split_and!]. split_and!; try done. apply call_ok_to; try done. intros _.
    destruct (Hchan ch) as [(b & Hb & Ha) _]; [unfold chan_of; by rewrite Hph|]. apply Ha. congruence.
  - by split_and!.
Qed.

(** *** Receiving *)

Ltac types := repeat match goal with |- context [String.eqb ?x ?y] => destruct (String.eqb_spec x y) end.

(** A request is handled once and answered with its acknowledgement. *)
Lemma handle_frame_request out pt a b m : msg_ok m → is_request m → len (Marshal m) ≤ maxFrame → Sent a b m ∈ out →
  ∃ acks hs, handle_frame pt (Marshal m) = Ok (pt, acks ≫= frame_of, hs) ∧
    (∀ bound sys, Forall (event_ok bound sys out) (got a b hs)) ∧
    Forall (λ x, json_ok x ∧ len (Marshal x) ≤ maxFrame ∧ ack_for (out ++ got a b hs) a b x) acks.
Proof.
  intros [Hj _] Hr Hl Hs. unfold handle_frame. rewrite Peek_Marshal by done. destruct m as [m| |m| |t d]; try done; cbn [type_of].
  - rewrite String.eqb_refl, Forward_Marshal by done. destruct (ack_ok m Hj) as [Ho1 Ho2].
    exists (if 0 <? fm_QoS m then [ForwardAck (fm_ID m)] else []), [HForward m]. split_and!.
    + destruct (0 <? fm_QoS m); cbn; [by rewrite app_nil_r|done].
    + intros bound sys. by constructor.
    + destruct (0 <? fm_QoS m) eqn:Eq; [|done]. constructor; [|done]. split_and!; [done..|].
      exists (HForward m). cbn. rewrite Eq. set_solver.
  - types; try done. rewrite MigrateData_Marshal by done. destruct (migrate_ack_ok m Hj Hl) as [Ho1 Ho2].
    exists [MigrateAck (mkMigrateAck (Migration.mdm_DeviceID m) true)], [HMigrate m]. split_and!.
    + cbn. by rewrite app_nil_r.
    + intros bound sys. by constructor.
    + constructor; [|done]. split_and!; [done..|]. exists (HMigrate m). set_solver.
  - cbn in Hr. types; [set_solver..|]. exists [], (if bool_decide (t ∈ registry pt) then [HRaw t (Marshal (Raw t d))] else []).
    split_and!; [done| |done]. intros bound sys. by destruct (bool_decide _); constructor.
Qed.

(** An acknowledgement ends the wait for its key. *)
Lemma handle_frame_ack out sys pt a b m : node_ok pt → streams_ok sys a pt → json_ok m → ack_for out a b m →
  ∃ pt', handle_frame pt (Marshal m) = Ok (pt', [], []) ∧ good out sys a pt pt' ∧ msgID pt' = msgID pt.
Proof.
  intros Hok Hst Hj Ha. unfold handle_frame. rewrite Peek_Marshal by done. destruct m as [| id | | x |]; try done; cbn [type_of]; types; try done.
  - rewrite ForwardAck_Marshal by done. destruct Ha as (h & Hin & Hk).
    destruct (good_acknowledge out sys a pt id Hok Hst) as (pt' & E & ?); [left; eauto|]. exists pt'. change (default 0 (Some id)) with id. by rewrite E.
  - rewrite MigrateAck_Marshal by done. destruct Ha as (h & Hin & Hk).
    destruct (good_acknowledge out sys a pt (migrationAckKey (ma_DeviceID x)) Hok Hst) as (pt' & E & ?); [left; eauto|].
    exists pt'. change (default "" (ma_DeviceID <$> Some x)) with (ma_DeviceID x). by rewrite E.
Qed.

(** *** The steps *)

Definition label_ok (bound : Z) (l : label) : Prop :=
  match l with
  | LForward _ _ _ topic payload qos retain _ _ => 0 ≤ qos ∧ ∀ id, msg_ok (Forward (mkForward id topic payload qos retain true))
  | LMigrate _ _ _ m => msg_ok (MigrateData m) ∧ bound < migrationAckKey (Migration.mdm_DeviceID m)
  | LRaw _ _ t data _ _ => msg_ok (Raw t data) ∧ is_request (Raw t data)
  | _ => True
  end.

Lemma inv_later bound n sys out : inv bound n sys out → inv bound (n + 1) sys out.
Proof. intros [H1 H2 H3 H4 H5 H6]. constructor; auto. intros a pt Ha. destruct (H1 a pt Ha) as (? & ? & ?). split_and!; try done; lia. Qed.

Lemma inv_good bound n sys out a pt pt' :
  inv bound n sys out → nodes sys !! a = Some pt → good out sys a pt pt' → msgID pt' ≤ n + 1 → inv bound (n + 1) (set_node sys a pt') out.
Proof. intros Hi Ha [G1 G2 G3] Hid. eapply inv_node; try done. lia. Qed.

(** The invariant holds after a step that succeeds. *)
Definition next_inv (bound n : Z) (out : list event) (r : res (list event * system)) : Prop :=
  ∃ o sys', r = Ok (o, sys') ∧ inv bound (n + 1) sys' (out ++ o).

Lemma next_silent bound n sys out : inv bound (n + 1) sys out → next_inv bound n out (Ok ([], sys)).
Proof. intros Hi. exists [], sys. by rewrite app_nil_r. Qed.

(** A step that changes one node only. *)
Lemma next_node bound n sys out a pt (r : res PeerTransport) :
  inv bound n sys out → nodes sys !! a = Some pt →
  (∃ pt', r = Ok pt' ∧ good out sys a pt pt' ∧ msgID pt' = msgID pt) →
  next_inv bound n out (pt ← r; Ok ([], set_node sys a pt)).
Proof.
  intros Hi Ha (pt' & -> & Hg & Hid). cbn [mbind res_bind]. apply next_silent. eapply inv_good; try done.
  destruct (i_node _ _ _ _ Hi a pt Ha) as (_ & _ & ?). lia.
Qed.

(** A new call. *)
Lemma inv_new_call bound n sys out i a c pt :
  inv bound n sys out → calls sys !! i = None → nodes sys !! a = Some pt → call_ok bound out a pt c →
  (∀ j c' m m' r r', calls sys !! j = Some (a, c') → c_req c = Reliable m r → c_req c' = Reliable m' r' → fm_ID m' < fm_ID m) →
  inv bound n (set_call sys i a c) out.
Proof.
  intros [H1 H2 H3 H4 H5 H6] Hi Ha Hc Hid. constructor; cbn; eauto.
  - intros j b x. destruct (decide (j = i)) as [->|]; [rewrite lookup_insert_eq; intros [= <- <-]; eauto|].
    rewrite lookup_insert_ne by done. apply H3.
  - intros j k b x y m m' r r'. destruct (decide (j = i)) as [->|], (decide (k = i)) as [->|];
      rewrite ?lookup_insert_eq, ?lookup_insert_ne by done; [done|..].
    + intros [= <- <-] Hk Hm Hm' E. specialize (Hid k y m m' r r' Hk Hm Hm'). lia.
    + intros Hj [= <- <-] Hm Hm' E. specialize (Hid j x m' m r' r Hj Hm' Hm). lia.
    + apply H4.
  - intros a0 b m Hin. specialize (H6 a0 b m Hin). destruct m; try done. intros Hq. destruct (H6 Hq) as (j & x & r & Hj & E1 & E2).
    exists j, x, r. rewrite lookup_insert_ne by congruence. done.
Qed.

Lemma step_connect bound n sys out a p : inv bound n sys out → next_inv bound n out (sys_step sys (LConnect a p)).
Proof.
  intros Hi. cbn. destruct (nodes sys !! a) as [pt|] eqn:Ha; [|by apply next_silent, inv_later].
  unfold connectPeer. destruct (peerConns pt !! p) as [pc|] eqn:Hp; [|by apply next_silent, inv_later].
  apply next_silent.
  apply inv_later in Hi. destruct Hi as [H1 H2 H3 H4 H5 H6]. constructor; cbn; eauto.
  - intros b ptb. destruct (decide (b = a)) as [->|].
    + rewrite lookup_insert_eq. intros [= <-]. destruct (H1 a pt Ha) as ([N1 N2 N3] & Hst & Hm). split_and!; cbn; try lia.
      * constructor; cbn; eauto. intros m q Hq. destruct (N3 m q Hq) as (qc & Hqc & ? & ? & ?).
        destruct (decide (q = p)) as [->|]; [|exists qc; by rewrite lookup_insert_ne].
        rewrite lookup_insert_eq. exists (with_stream pc (Some (next sys))). cbn. split_and!; congruence.
      * intros q qc s. cbn. destruct (decide (q = p)) as [->|].
        -- rewrite lookup_insert_eq. intros [= <-] [= <-]. cbn. split; [lia|]. intros l. rewrite lookup_insert_eq. by intros [= <-].
        -- rewrite lookup_insert_ne by done. intros Hq Hs. destruct (Hst q qc s Hq Hs) as [Hlt Hl]. split; [lia|].
           intros l. rewrite lookup_insert_ne by lia. apply Hl.
    + rewrite lookup_insert_ne by done. intros Hb. destruct (H1 b ptb Hb) as (? & Hst & ?). split_and!; try done; try lia.
      eapply streams_ok_links; [exact Hst|cbn; lia|]. cbn. intros s l Hlt. rewrite lookup_insert_ne by lia. eauto.
  - intros s l. destruct (decide (s = next sys)) as [->|].
    + rewrite lookup_insert_eq. intros [= <-]. split; [lia|]. split; exists []; by split.
    + rewrite lookup_insert_ne by done. intros Hl. destruct (H2 s l Hl). split; [lia|done].
  - intros i b c Hc. destruct (H3 i b c Hc) as (ptb & Hb & Hcok). destruct (decide (b = a)) as [->|].
    + assert (ptb = pt) as -> by congruence. eexists. rewrite lookup_insert_eq. split; [done|].
      eapply evolves_call; [|exact Hcok]. constructor; cbn; [eauto..| |lia]. intros q qc Hq.
      destruct (decide (q = p)) as [->|]; [|exists qc; by rewrite lookup_insert_ne].
      rewrite lookup_insert_eq. eexists. split; [done|]. cbn. congruence.
    + exists ptb. by rewrite lookup_insert_ne.
Qed.

Lemma step_recv bound n sys out s : inv bound n sys out → next_inv bound n out (sys_step sys (LRecv s)).
Proof.
  intros Hi%inv_later. cbn [sys_step]. destruct (links sys !! s) as [l|] eqn:El; [|by apply next_silent].
  destruct (i_link _ _ _ _ Hi s l El) as [_ [(ms & Hf & Hms) (ms' & Hb & Hms')]].
  destruct ms as [|m ms]; [rewrite Hf; by apply next_silent|].
  change (fwd l = writeFrame (Marshal m) ++ (ms ≫= frame_of)) in Hf.
  destruct (fwd l) as [|z zs] eqn:Ez; [by apply next_silent|]. destruct (nodes sys !! l_to l) as [pt|] eqn:Et; [|by apply next_silent].
  destruct (running sys !! (s, true)) eqn:Erun; [by apply next_silent|].
  apply Forall_cons in Hms as [(Hm & Hr & Hs) Hms]. rewrite Hf.
  destruct (Z_le_gt_dec (len (Marshal m)) maxFrame) as [Hl|Hl].
  2:{ destruct (readFrame_large (Marshal m) (ms ≫= frame_of)) as [e ->]; [destruct Hm; lia|]. by apply next_silent, inv_links_delete. }
  rewrite readFrame_write by done.
  destruct (handle_frame_request out pt (l_from l) (l_to l) m Hm Hr Hl Hs) as (acks & hs & -> & Hev & Hacks). cbn [mbind res_bind].
  eexists _, _. split; [done|]. apply inv_to_handle. apply (inv_events _ _ _ _ (got (l_from l) (l_to l) hs)) in Hi; [|apply Hev].
  apply (inv_node _ (n + 1) (n + 1) _ _ (l_to l) pt pt) in Hi; [|done|apply evolves_refl|by apply (i_node _ _ _ _ Hi _ _ Et)|
    by apply (i_node _ _ _ _ Hi _ _ Et)|lia|destruct (i_node _ _ _ _ Hi _ _ Et) as (_ & _ & ?); lia].
  eapply inv_link in Hi; [exact Hi|exact El|done|done|]. split; cbn.
  - exists ms. split; [done|]. eapply Forall_impl; [exact Hms|]. cbn. set_solver.
  - exists (ms' ++ acks). rewrite Hb, bind_app. split; [done|]. apply Forall_app. split; [|done].
    eapply Forall_impl; [exact Hms'|]. cbn. intros x (? & ? & ?). eauto using ack_for_app.
Qed.

Lemma step_recv_back bound n sys out s : inv bound n sys out → next_inv bound n out (sys_step sys (LRecvBack s)).
Proof.
  intros Hi. cbn [sys_step]. destruct (links sys !! s) as [l|] eqn:El; [|by apply next_silent, inv_later].
  destruct (i_link _ _ _ _ Hi s l El) as [_ [(ms & Hf & Hms) (ms' & Hb & Hms')]].
  destruct ms' as [|m ms']; [rewrite Hb; by apply next_silent, inv_later|].
  change (back l = writeFrame (Marshal m) ++ (ms' ≫= frame_of)) in Hb.
  destruct (back l) as [|z zs] eqn:Ez; [by apply next_silent, inv_later|].
  destruct (nodes sys !! l_from l) as [pt|] eqn:Et; [|by apply next_silent, inv_later].
  destruct (running sys !! (s, false)) eqn:Erun; [by apply next_silent, inv_later|].
  apply Forall_cons in Hms' as [(Hm & Hl & Ha) Hms']. rewrite Hb, readFrame_write by done.
  destruct (i_node _ _ _ _ Hi _ _ Et) as (Hok & Hst & Hid).
  destruct (handle_frame_ack out sys pt _ _ m Hok Hst Hm Ha) as (pt' & -> & Hg & Hid'). cbn [mbind res_bind]. apply next_silent.
  eapply inv_good in Hi; [|exact Et|exact Hg|lia]. eapply inv_link in Hi; [exact Hi|exact El|done|done|]. split; cbn.
  - exists ms. by rewrite app_nil_r.
  - exists ms'. done.
Qed.

Lemma step_handle bound n sys out s acc : inv bound n sys out → next_inv bound n out (sys_step sys (LHandle s acc)).
Proof.
  intros Hi%inv_later. cbn [sys_step]. destruct (running sys !! (s, acc)) as [[[a b] h]|]; [|by apply next_silent].
  eexists _, _. split; [done|]. apply inv_events; [by apply inv_running|]. constructor; [|done]. by case_match.
Qed.

(** A message without acknowledgement. *)
Lemma step_send bound n sys out a pt b now m writes :
  inv bound (n + 1) sys out → nodes sys !! a = Some pt → msg_ok m → is_request m → event_ok bound sys out (Sent a b m) →
  next_inv bound n out (let '(_, w, pt) := SendRaw now pt b m writes in Ok (sent w (Sent a b m), put (set_node sys a pt) w)).
Proof.
  intros Hi Ha Hm Hr He. destruct (i_node _ _ _ _ Hi a pt Ha) as (Hok & Hst & Hid).
  pose proof (λ out, good_SendRaw out sys a now pt b m writes Hok Hst) as Hs.
  destruct (SendRaw now pt b m writes) as [[err w] pt']. eexists _, _. split; [done|].
  destruct (Hs (out ++ sent w (Sent a b m))) as ([G1 G2 G3] & Hid' & Hw & _).
  apply (inv_events _ _ _ _ (sent w (Sent a b m))) in Hi; [|destruct w; cbn; auto].
  eapply (inv_put _ _ _ _ a b pt'); [|by apply lookup_insert_eq|done..|].
  - eapply inv_node; try done. lia.
  - intros [x ->]. cbn. set_solver.
Qed.

Lemma set_node_twice sys a pt pt' : set_node (set_node sys a pt) a pt' = set_node sys a pt'.
Proof. unfold set_node. cbn. by rewrite insert_insert_eq. Qed.

Lemma step_forward bound n sys out a i b topic payload qos retain now writes :
  0 ≤ n → n + 1 < 18446744073709551616 → inv bound n sys out → label_ok bound (LForward a i b topic payload qos retain now writes) →
  next_inv bound n out (sys_step sys (LForward a i b topic payload qos retain now writes)).
Proof.
  intros Hn0 Hn Hi [Hq Hm]. cbn [sys_step]. destruct (nodes sys !! a) as [pt|] eqn:Ha; [|by apply next_silent, inv_later].
  destruct (calls sys !! i) eqn:Ec; [by apply next_silent, inv_later|]. unfold forward_msg, NextID. cbn [fm_ID Z.eqb fm_Topic fm_Payload fm_QoS fm_Retain].
  destruct (i_node _ _ _ _ Hi a pt Ha) as (Hok & Hst & Hid).
  assert (Hu : u64 (msgID pt + 1) = msgID pt + 1) by (unfold u64; apply Z.mod_small; lia). rewrite Hu.
  set (pt1 := set_msgID pt (msgID pt + 1)). set (m := mkForward (msgID pt + 1) topic payload qos retain true).
  assert (Hg : ∀ out, good out sys a pt pt1).
  { intros out'. destruct Hok as [N1 N2 N3]. constructor; [constructor; cbn; [eauto..|lia]|by constructor|done]. }
  pose proof (inv_good _ _ _ _ a pt pt1 Hi Ha (Hg out)) as Hi1. cbn in Hi1. specialize (Hi1 ltac:(lia)).
  assert (Ha1 : nodes (set_node sys a pt1) !! a = Some pt1) by (by apply lookup_insert_eq).
  destruct (Z.eqb_spec qos 0) as [->|Hq0].
  - pose proof (step_send bound n _ out a pt1 b now (Forward m) writes Hi1 Ha1 (Hm _)) as Hs. unfold Send.
    destruct (SendRaw now pt1 b (Forward m) writes) as [[err w] pt']. rewrite set_node_twice in Hs. apply Hs; [done|].
    cbn. lia.
  - destruct (i_node _ _ _ _ Hi1 a pt1 Ha1) as (Hok1 & Hst1 & Hid1).
    pose proof (good_begin bound out (set_node sys a pt1) a now pt1 b (Reliable m 3) Hok1 Hst1 (Hm _)) as Hb.
    destruct (begin now pt1 b (Reliable m 3)) as [pt' c]. destruct Hb as ([G1 G2 G3] & Hid' & Hr & Hnode & Hc); [cbn; lia|].
    apply next_silent. eapply (inv_node _ _ (n + 1) _ _ a pt1 pt') in Hi1; [|done..|lia|cbn in *; lia].
    rewrite set_node_twice in Hi1. eapply inv_new_call; [exact Hi1|done|by apply lookup_insert_eq|done|].
    intros j c' m0 m' r r' Hj Hm0 Hm' . rewrite Hr in Hm0. injection Hm0 as <- <-. cbn in Hj |- *.
    destruct (i_call _ _ _ _ Hi j a c' Hj) as (pt2 & Ha2 & (_ & _ & _ & _ & Hid2 & _)). rewrite Hm' in Hid2.
    assert (pt2 = pt) as -> by congruence. lia.
Qed.

Lemma step_migrate bound n sys out a i b m :
  inv bound n sys out → label_ok bound (LMigrate a i b m) → next_inv bound n out (sys_step sys (LMigrate a i b m)).
Proof.
  intros Hi%inv_later [Hm Hk]. cbn [sys_step]. destruct (nodes sys !! a) as [pt|] eqn:Ha; [|by apply next_silent].
  destruct (calls sys !! i) eqn:Ec; [by apply next_silent|]. apply next_silent. destruct (i_node _ _ _ _ Hi a pt Ha) as (Hok & Hst & _).
  destruct (good_begin bound out sys a 0 pt b (Migrate m) Hok Hst Hm Hk) as (_ & _ & _ & _ & Hc).
  by eapply inv_new_call.
Qed.

Lemma step_call bound n sys out i now writes : inv bound n sys out → next_inv bound n out (sys_step sys (LStep i now writes)).
Proof.
  intros Hi%inv_later. cbn [sys_step]. destruct (calls sys !! i) as [[a c]|] eqn:Ec; [|by apply next_silent].
  destruct (nodes sys !! a) as [pt|] eqn:Ha; [|by apply next_silent]. destruct (i_node _ _ _ _ Hi a pt Ha) as (Hok & Hst & Hid).
  destruct (i_call _ _ _ _ Hi i a c Ec) as (pt0 & Ha0 & Hc). assert (pt0 = pt) as -> by congruence.
  pose proof (λ o, call_step_ok bound (out ++ o) sys a now writes pt c Hok Hst (call_ok_app _ _ o _ _ _ Hc)) as Hs.
  destruct (call_step now writes pt c) as [[w pt'] c']. eexists _, _. split; [done|].
  set (o := sent w (Sent a (c_node c) (msg_of (c_req c)))).
  destruct (Hs o) as ([G1 G2 G3] & Hid' & Hr & Hn & Hc' & Hw). destruct Hc as (_ & _ & _ & Hm & Hq & _).
  apply (inv_events _ _ _ _ o) in Hi.
  2:{ unfold o. destruct w; cbn; [constructor; [|done]|done]. destruct (c_req c) as [m r|m] eqn:Er; cbn; [|done]. intros _. eauto 6. }
  eapply (inv_put _ _ _ _ a (c_node c) pt' w (msg_of (c_req c))); try done.
  - eapply (inv_call _ _ _ _ i a c c' pt'); try done; [|by apply lookup_insert_eq]. eapply inv_node; try done. lia.
  - by apply lookup_insert_eq.
  - by destruct (c_req c).
  - intros [x Hx]. unfold o. rewrite Hx. cbn. set_solver.
Qed.

Lemma step_timeout bound n sys out i : inv bound n sys out → next_inv bound n out (sys_step sys (LTimeout i)).
Proof.
  intros Hi%inv_later. cbn [sys_step]. destruct (calls sys !! i) as [[a c]|] eqn:Ec; [|by apply next_silent].
  destruct (nodes sys !! a) as [pt|] eqn:Ha; [|by apply next_silent]. destruct (i_node _ _ _ _ Hi a pt Ha) as (Hok & Hst & Hid).
  destruct (i_call _ _ _ _ Hi i a c Ec) as (pt0 & Ha0 & Hc). assert (pt0 = pt) as -> by congruence.
  unfold call_timeout. destruct (c_phase c) eqn:Hph;
    try (apply next_silent; eapply (inv_call _ _ _ _ i a c c pt); try done; [|by apply lookup_insert_eq];
         eapply inv_node; try done; [apply evolves_refl|lia..]).
  apply next_silent. pose proof (good_unregister out sys a pt (key_of (c_req c)) Hok Hst) as [G1 G2 G3].
  eapply (inv_call _ _ _ _ i a c _ (unregister pt (key_of (c_req c)))); try done; [|by apply lookup_insert_eq|].
  - eapply inv_node; try done. cbn. lia.
  - eapply evolves_call; [exact G1|]. by apply call_ok_again.
Qed.

Lemma step_shutdown bound n sys out i : inv bound n sys out → next_inv bound n out (sys_step sys (LShutdown i)).
Proof.
  intros Hi%inv_later. cbn [sys_step]. destruct (calls sys !! i) as [[a c]|] eqn:Ec; [|by apply next_silent].
  destruct (nodes sys !! a) as [pt|] eqn:Ha; [|by apply next_silent]. apply next_silent.
  destruct (i_call _ _ _ _ Hi i a c Ec) as (pt0 & Ha0 & Hc). assert (pt0 = pt) as -> by congruence.
  unfold call_shutdown. eapply inv_call; try done; destruct (c_phase c); try done; destruct (pt_done pt); auto using call_ok_error.
Qed.

Lemma step_cleanup bound n sys out a now : inv bound n sys out → next_inv bound n out (sys_step sys (LCleanup a now)).
Proof.
  intros Hi%inv_later. cbn [sys_step]. destruct (nodes sys !! a) as [pt|] eqn:Ha; [|by apply next_silent].
  destruct (i_node _ _ _ _ Hi a pt Ha) as (Hok & Hst & Hid). set (o := Stale a <$> stale_keys now pt).
  destruct (good_cleanup (out ++ o) sys a now pt Hok Hst) as (pt' & -> & [G1 G2 G3] & Hid').
  { intros k Hk. apply elem_of_app. right. unfold o. apply list_elem_of_fmap. eauto. }
  eexists _, _. split; [done|]. eapply inv_node; try done; [|lia]. apply inv_events; [done|]. unfold o. apply Forall_fmap, Forall_true. done.
Qed.

Lemma step_reset bound n sys out a p : inv bound n sys out → next_inv bound n out (sys_step sys (LReset a p)).
Proof.
  intros Hi%inv_later. cbn [sys_step]. destruct (nodes sys !! a) as [pt|] eqn:Ha; [|by apply next_silent]. apply next_silent.
  destruct (i_node _ _ _ _ Hi a pt Ha) as (Hok & Hst & Hid).
  assert (Hi' : inv bound (n + 1) (set_node sys a (connection_lost pt p).2) out).
  { unfold connection_lost. destruct (peerConns pt !! p) as [pc|] eqn:Ep; cbn.
    - destruct (good_conn out sys a pt p pc (with_stream pc None)) as [G1 G2 G3]; try done. eapply inv_node; try done. cbn. lia.
    - eapply inv_node; try done; [apply evolves_refl|lia]. }
  destruct (peerConns pt !! p ≫= pc_stream) as [s|]; [by apply (inv_links_delete _ _ _ _ s) in Hi'|].
  exact Hi'.
Qed.

Lemma sys_step_ok bound n sys out l :
  0 ≤ n → n + 1 < 18446744073709551616 → inv bound n sys out → label_ok bound l → next_inv bound n out (sys_step sys l).
Proof.
  intros Hn0 Hn Hi Hl. assert (Hnode := i_node _ _ _ _ Hi). destruct l as [a b addr|a b|a p|s|a p|a i b topic payload qos retain now writes|a i b m|a b t d now writes|i now writes|i|i|s|s|s acc|a|a|a now|a].
  - cbn. destruct (nodes sys !! a) as [pt|] eqn:Ha; [|by apply next_silent, inv_later]. destruct (Hnode a pt Ha) as (? & ? & ?).
    apply (next_node bound n sys out a pt (Ok (AddPeer pt b addr))); try done. eexists. split; [done|]. split; [by apply good_AddPeer|].
    unfold AddPeer. by destruct (peers pt !! b).
  - cbn [sys_step]. destruct (nodes sys !! a) as [pt|] eqn:Ha; [|by apply next_silent, inv_later]. destruct (Hnode a pt Ha) as (? & ? & ?).
    apply (next_node bound n sys out a pt); try done. by apply good_RemovePeer.
  - by apply step_connect.
  - apply next_silent. by apply inv_links_delete, inv_later.
  - by apply step_reset.
  - by apply step_forward.
  - by apply step_migrate.
  - destruct Hl. cbn [sys_step]. destruct (nodes sys !! a) as [pt|] eqn:Ha; [|by apply next_silent, inv_later].
    apply step_send; auto using inv_later. done.
  - by apply step_call.
  - by apply step_timeout.
  - by apply step_shutdown.
  - by apply step_recv.
  - by apply step_recv_back.
  - by apply step_handle.
  - cbn [sys_step]. destruct (nodes sys !! a) as [pt|] eqn:Ha; [|by apply next_silent, inv_later].
    apply (next_node bound n sys out a pt (Ok (SetForwardHandler pt))); [done..|]. destruct (Hnode a pt Ha) as (? & ? & _).
    eexists. split; [done|]. split; [by eapply good_handlers|done].
  - cbn [sys_step]. destruct (nodes sys !! a) as [pt|] eqn:Ha; [|by apply next_silent, inv_later].
    apply (next_node bound n sys out a pt (Ok (SetMigrateHandler pt))); [done..|]. destruct (Hnode a pt Ha) as (? & ? & _).
    eexists. split; [done|]. split; [by eapply good_handlers|done].
  - by apply step_cleanup.
  - cbn [sys_step]. destruct (nodes sys !! a) as [pt|] eqn:Ha; [|by apply next_silent, inv_later]. destruct (Hnode a pt Ha) as (? & ? & ?).
    destruct (pt_done pt) eqn:Ed; [by apply next_silent, inv_later|]. apply (next_node bound n sys out a pt); try done. by apply good_Stop.
Qed.

(** Nodes that have just started. *)
Definition started (names : list string) : system :=
  mkSys (list_to_map ((λ a, (a, NewPeerTransport)) <$> names)) ∅ 0 ∅ ∅.


Lemma started_inv bound names : inv bound 0 (started names) [].
Proof.
  assert (Hn : ∀ a pt, nodes (started names) !! a = Some pt → pt = NewPeerTransport).
  { intros a pt Hl%elem_of_list_to_map_2%list_elem_of_fmap. by destruct Hl as (? & [= -> ->] & _). }
  constructor; cbn; try (intros *; rewrite lookup_empty; done); try (intros *; set_solver).
  intros a pt ->%Hn. split_and!; [constructor|..]; cbn; try (intros *; rewrite lookup_empty; done); try lia.
  intros ???. cbn. by rewrite lookup_empty.
Qed.

Lemma peers_run_ok ls : ∀ bound n sys out, 0 ≤ n → n + len ls < 18446744073709551616 → inv bound n sys out → Forall (label_ok bound) ls →
  ∃ o sys', run sys ls = Ok (o, sys') ∧ inv bound (n + len ls) sys' (out ++ o).
Proof.
  induction ls as [|l ls IH]; intros bound n sys out Hn Hlen Hi Hls.
  - exists [], sys. rewrite app_nil_r, len_nil, Z.add_0_r. done.
  - rewrite len_cons in *. pose proof (len_nonneg ls). apply Forall_cons in Hls as [Hl Hls].
    destruct (sys_step_ok bound n sys out l) as (o & sys1 & E & Hi1); [lia|lia|done|done|].
    destruct (IH bound (n + 1) sys1 (out ++ o)) as (o' & sys2 & E' & Hi2); [lia|lia|done|done|].
    exists (o ++ o'), sys2. cbn [run]. rewrite E. cbn [mbind res_bind]. rewrite E'. cbn [mbind res_bind]. split; [done|].
    rewrite app_assoc. by replace (n + (1 + len ls)) with (n + 1 + len ls) by lia.
Qed.

(** A call that has returned without an error was answered: by the handling of its own message. *)
Lemma answered_forward bound n sys out i a c m r : inv bound n sys out → n ≤ bound →
  calls sys !! i = Some (a, c) → c_req c = Reliable m r → answered out a (fm_ID m) →
  Read a (c_node c) (HForward m) ∈ out ∨ Stale a (fm_ID m) ∈ out.
Proof.
  intros Hi Hn Hc Hr [(b & h & Hin & Hk)|]; [left|by right].
  destruct (i_call _ _ _ _ Hi i a c Hc) as (pt & Ha & (_ & _ & _ & _ & Hid & _)). rewrite Hr in Hid.
  destruct (i_node _ _ _ _ Hi a pt Ha) as (_ & _ & Hm). pose proof (i_got _ _ _ _ Hi a b h Hin) as Hs.
  destruct h as [m'|m'|]; cbn in Hk; [|injection Hk as Hk; apply (i_sent _ _ _ _ Hi) in Hs; cbn in Hs; lia|done].
  destruct (Z.ltb_spec 0 (fm_QoS m')) as [Hq|]; [|done]. injection Hk as Hk.
  destruct (i_sent _ _ _ _ Hi a b (Forward m') Hs Hq) as (j & c' & r' & Hj & <- & Hr').
  assert (i = j) as <- by (by eapply (i_uniq _ _ _ _ Hi)).
  rewrite Hc in Hj. injection Hj as <-. rewrite Hr in Hr'. by injection Hr' as <- <-.
Qed.

Lemma answered_migrate bound n sys out i a c m : inv bound n sys out → n ≤ bound →
  calls sys !! i = Some (a, c) → c_req c = Migrate m → answered out a (migrationAckKey (Migration.mdm_DeviceID m)) →
  (∃ b m', Read a b (HMigrate m') ∈ out ∧
     migrationAckKey (Migration.mdm_DeviceID m') = migrationAckKey (Migration.mdm_DeviceID m)) ∨
  Stale a (migrationAckKey (Migration.mdm_DeviceID m)) ∈ out.
Proof.
  intros Hi Hn Hc Hr [(b & h & Hin & Hk)|]; [left|by right].
  destruct (i_call _ _ _ _ Hi i a c Hc) as (pt & Ha & (_ & _ & _ & _ & Hid & _)). rewrite Hr in Hid.
  destruct (i_node _ _ _ _ Hi a pt Ha) as (_ & _ & Hm). pose proof (i_got _ _ _ _ Hi a b h Hin) as Hs.
  destruct h as [m'|m'|]; cbn in Hk; [|injection Hk as Hk; eauto|done].
  destruct (Z.ltb_spec 0 (fm_QoS m')) as [Hq|]; [|done]. injection Hk as Hk.
  destruct (i_sent _ _ _ _ Hi a b (Forward m') Hs Hq) as (j & c' & r' & Hj & <- & Hr').
  destruct (i_call _ _ _ _ Hi j a c' Hj) as (pt' & Ha' & (_ & _ & _ & _ & Hid' & _)). rewrite Hr' in Hid'.
  assert (pt' = pt) as -> by congruence. lia.
Qed.

(** A frame of more than 10 MB is written without an error, and ends the connection of its reader. *)
Lemma large_frame_breaks sys s l m rest pt : links sys !! s = Some l → nodes sys !! l_to l = Some pt →
  running sys !! (s, true) = None → fwd l = frame_of m ++ rest → maxFrame < len (Marshal m) < 4294967296 →
  sys_step sys (LRecv s) = Ok ([], set_links sys (delete s (links sys))).
Proof.
  intros Hl Hpt Hrun Hf Hlen. cbn [sys_step]. rewrite Hl. destruct (readFrame_large (Marshal m) rest Hlen) as [e He].
  pose proof (writeFrame_nonnil (Marshal m)) as Hn. unfold frame_of in Hf. rewrite Hf, Hpt, Hrun.
  destruct (writeFrame (Marshal m)) as [|z zs]; [contradiction|]. cbn [app] in He |- *. rewrite He. reflexivity.
Qed.

(** *** What was read is handled *)

Definition handlers (pt : PeerTransport) : bool * bool := (forwardHandler pt, migrateHandler pt).

Lemma acknowledge_handlers pt key pt' : acknowledge pt key = Ok pt' → handlers pt' = handlers pt.
Proof.
  unfold acknowledge, close_chan. destruct (ackWaiters pt !! key); [|by intros [= <-]].
  destruct (chans pt !! _) as [[]|]; try done. by intros [= <-].
Qed.
Lemma handle_frame_handlers pt data pt' r hs : handle_frame pt data = Ok (pt', r, hs) → handlers pt' = handlers pt ∧ (length hs ≤ 1)%nat.
Proof.
  unfold handle_frame. destruct (Peek data) as [t|]; [|intros [= <- _ <-]; auto].
  repeat (case_match; try (intros [= <- _ <-]; by auto)); intros (pt1 & Ha%acknowledge_handlers & [= <- _ <-])%bind_Ok; auto.
Qed.
Lemma remove_handlers pt n pt' : RemovePeer pt n = Ok pt' → handlers pt' = handlers pt.
Proof. unfold RemovePeer. repeat (case_match; try done); by intros [= <-]. Qed.
Lemma SendRaw_handlers now pt n m writes : handlers (SendRaw now pt n m writes).2 = handlers pt.
Proof. unfold SendRaw. repeat (case_match; try done). Qed.
Lemma begin_handlers now pt n q : handlers (begin now pt n q).1 = handlers pt.
Proof. unfold begin. repeat (case_match; try done). Qed.
Lemma call_step_handlers now writes pt c : handlers (call_step now writes pt c).1.2 = handlers pt.
Proof.
  unfold call_step. destruct (c_phase c) as [n| | |];
    [destruct (c_req c) as [m r|m]; [by destruct (r <? n)|by destruct (peers pt !! c_node c)]|destruct (c_req c) as [m r|m]|..]; try (by repeat case_match).
  pose proof (SendRaw_handlers now pt (c_node c) (Forward m) writes) as Hs. unfold Send.
  destruct (SendRaw now pt (c_node c) (Forward m) writes) as [[[[]|] w] pt']; done.
Qed.
Lemma foldl_handlers {A} (f : PeerTransport → A → res PeerTransport) l pt :
  (∀ pt a pt', f pt a = Ok pt' → handlers pt' = handlers pt) →
  ∀ r, (∀ y, r = Ok y → handlers y = handlers pt) → ∀ x, foldl (λ r a, pt ← r; f pt a) r l = Ok x → handlers x = handlers pt.
Proof.
  intros Hf. induction l as [|a l IH]; intros r Hr x; [apply Hr|]. cbn. apply IH. intros y (pt1 & Hr1%Hr & Hy%Hf)%bind_Ok. congruence.
Qed.
Lemma cleanup_handlers now pt pt' : cleanupStaleAckWaiters now pt = Ok pt' → handlers pt' = handlers pt.
Proof.
  apply foldl_handlers; [|by intros y [= <-]]. intros pt1 kw pt2. unfold cleanup_one, close_chan.
  destruct (is_stale _ _); [|by intros [= <-]]. case_bool_decide; cbn; [by intros [= <-]|].
  destruct (chans pt1 !! _) as [[]|]; try done. by intros [= <-].
Qed.
Lemma Stop_handlers pt pt' : Stop pt = Ok pt' → handlers pt' = handlers pt.
Proof.
  unfold Stop. destruct (pt_done pt); [done|]. cbv zeta. apply foldl_handlers; [|by intros y [= <-]].
  intros pt1 p pt2. case_match; [|done]. by intros [= <-].
Qed.

(** A node keeps the handlers that it has. *)
Definition keeps_handlers (sys sys' : system) : Prop := ∀ b pt, nodes sys !! b = Some pt →
  ∃ pt', nodes sys' !! b = Some pt' ∧ (forwardHandler pt = true → forwardHandler pt' = true) ∧
    (migrateHandler pt = true → migrateHandler pt' = true).

Lemma keeps_same_nodes sys sys' : nodes sys' = nodes sys → keeps_handlers sys sys'.
Proof. intros Hn b pt Hb. exists pt. by rewrite Hn. Qed.
Lemma keeps_one sys sys' a pt pt' : nodes sys !! a = Some pt → nodes sys' = <[a := pt']> (nodes sys) →
  handlers pt' = handlers pt → keeps_handlers sys sys'.
Proof.
  intros Ha Hn Hh b ptb Hb. rewrite Hn. destruct (decide (b = a)) as [->|Hne]; [|exists ptb; by rewrite lookup_insert_ne].
  rewrite lookup_insert_eq. exists pt'. assert (ptb = pt) as -> by congruence. unfold handlers in Hh. injection Hh as -> ->. done.
Qed.
Lemma put_nodes sys w : nodes (put sys w) = nodes sys ∧ running (put sys w) = running sys.
Proof. unfold put. destruct w as [[s bs]|]; [|done]. by destruct (links sys !! s). Qed.
Lemma to_handle_nodes sys k a b hs : nodes (to_handle sys k a b hs) = nodes sys.
Proof. by destruct hs. Qed.

(** Steps that read and handle nothing. *)
Definition quiet (l : label) : bool := match l with LRecv _ | LRecvBack _ | LHandle _ _ => false | _ => true end.
Definition reads (e : event) : bool := match e with Sent _ _ _ | Stale _ _ => false | _ => true end.

Lemma step_quiet sys l o sys' : quiet l = true → sys_step sys l = Ok (o, sys') →
  running sys' = running sys ∧ Forall (λ e, reads e = false) o ∧ keeps_handlers sys sys'.
Proof.
  assert (∀ sys1, nodes sys1 = nodes sys → running sys1 = running sys → running sys1 = running sys ∧ Forall (λ e, reads e = false) [] ∧ keeps_handlers sys sys1) as Hsame
    by (intros; split_and!; [done..|by apply keeps_same_nodes]).
  assert (∀ a pt pt' o' sys1, nodes sys !! a = Some pt → handlers pt' = handlers pt → nodes sys1 = <[a := pt']> (nodes sys) → running sys1 = running sys →
    Forall (λ e, reads e = false) o' → running sys1 = running sys ∧ Forall (λ e, reads e = false) o' ∧ keeps_handlers sys sys1) as Hone
    by (intros; split_and!; [done..|by eapply keeps_one]).
  assert (∀ w e, reads e = false → Forall (λ e, reads e = false) (sent w e)) as Hsent by (intros [|] e He; by repeat constructor).
  destruct l as [a b addr|a b|a p|s|a p|a i b topic payload qos retain now writes|a i b m|a b t d now writes|i now writes|i|i|s|s|s acc|a|a|a now|a];
    cbn [quiet sys_step]; try done; intros _.
  - destruct (nodes sys !! a) as [pt|] eqn:Ha; intros [= <- <-]; [|by apply Hsame]. apply (Hone a pt (AddPeer pt b addr)); try done. unfold AddPeer. by destruct (peers pt !! b).
  - destruct (nodes sys !! a) as [pt|] eqn:Ha; [|intros [= <- <-]; by apply Hsame]. intros (pt' & Hr%remove_handlers & [= <- <-])%bind_Ok. by apply (Hone a pt pt').
  - destruct (nodes sys !! a) as [pt|] eqn:Ha; [|intros [= <- <-]; by apply Hsame]. unfold connectPeer.
    destruct (peerConns pt !! p); intros [= <- <-]; [|by apply Hsame]. eapply (Hone a pt (set_conns pt _)); done.
  - intros [= <- <-]. by apply Hsame.
  - destruct (nodes sys !! a) as [pt|] eqn:Ha; intros [= <- <-]; [|by apply Hsame]. apply (Hone a pt (connection_lost pt p).2); try done. unfold connection_lost. by destruct (peerConns pt !! p).
  - destruct (nodes sys !! a) as [pt|] eqn:Ha; [|intros [= <- <-]; by apply Hsame]. destruct (calls sys !! i); [intros [= <- <-]; by apply Hsame|].
    destruct (forward_msg pt _) as [m pt1] eqn:Hfm.
    assert (handlers pt1 = handlers pt) as H1' by (unfold forward_msg in Hfm; cbn in Hfm; by injection Hfm as _ <-). destruct (qos =? 0).
    + pose proof (SendRaw_handlers now pt1 b (Forward m) writes) as Hs. unfold Send. destruct (SendRaw now pt1 b (Forward m) writes) as [[e w] pt2].
      intros [= <- <-]. destruct (put_nodes (set_node sys a pt2) w) as [E1 E2]. eapply (Hone a pt pt2); [done|cbn [fst snd] in Hs; congruence|by rewrite E1|by rewrite E2|by apply Hsent].
    + pose proof (begin_handlers now pt1 b (Reliable m 3)) as Hs. destruct (begin now pt1 b (Reliable m 3)) as [pt2 c]. intros [= <- <-].
      eapply (Hone a pt pt2); [done|cbn [fst snd] in Hs; congruence|done..].
  - destruct (nodes sys !! a) as [pt|] eqn:Ha; [|intros [= <- <-]; by apply Hsame]. destruct (calls sys !! i); intros [= <- <-]; by apply Hsame.
  - destruct (nodes sys !! a) as [pt|] eqn:Ha; [|intros [= <- <-]; by apply Hsame].
    pose proof (SendRaw_handlers now pt b (Raw t d) writes) as Hs. destruct (SendRaw now pt b (Raw t d) writes) as [[e w] pt2].
    intros [= <- <-]. destruct (put_nodes (set_node sys a pt2) w) as [E1 E2]. eapply (Hone a pt pt2); [done|done|by rewrite E1|by rewrite E2|by apply Hsent].
  - destruct (calls sys !! i) as [[a c]|]; [|intros [= <- <-]; by apply Hsame]. destruct (nodes sys !! a) as [pt|] eqn:Ha; [|intros [= <- <-]; by apply Hsame].
    pose proof (call_step_handlers now writes pt c) as Hs. destruct (call_step now writes pt c) as [[w pt2] c'].
    intros [= <- <-]. destruct (put_nodes (set_call (set_node sys a pt2) i a c') w) as [E1 E2].
    eapply (Hone a pt pt2); [done|done|by rewrite E1|by rewrite E2|by apply Hsent].
  - destruct (calls sys !! i) as [[a c]|]; [|intros [= <- <-]; by apply Hsame]. destruct (nodes sys !! a) as [pt|] eqn:Ha; [|intros [= <- <-]; by apply Hsame].
    assert (handlers (call_timeout pt c).1 = handlers pt) as Ht by (unfold call_timeout; by destruct (c_phase c)).
    destruct (call_timeout pt c) as [pt' c']. intros [= <- <-]. by apply (Hone a pt pt').
  - destruct (calls sys !! i) as [[a c]|]; [|intros [= <- <-]; by apply Hsame]. destruct (nodes sys !! a); intros [= <- <-]; by apply Hsame.
  - destruct (nodes sys !! a) as [pt|] eqn:Ha; intros [= <- <-]; [|by apply Hsame]. split_and!; [done..|]. intros b ptb Hb. cbn.
    destruct (decide (b = a)) as [->|]; [rewrite lookup_insert_eq|by exists ptb; rewrite lookup_insert_ne]. eexists. split; [done|]. cbn. split; [done|]. congruence.
  - destruct (nodes sys !! a) as [pt|] eqn:Ha; intros [= <- <-]; [|by apply Hsame]. split_and!; [done..|]. intros b ptb Hb. cbn.
    destruct (decide (b = a)) as [->|]; [rewrite lookup_insert_eq|by exists ptb; rewrite lookup_insert_ne]. eexists. split; [done|]. cbn. split; [|done]. congruence.
  - destruct (nodes sys !! a) as [pt|] eqn:Ha; [|intros [= <- <-]; by apply Hsame]. intros (pt' & Hr%cleanup_handlers & [= <- <-])%bind_Ok.
    apply (Hone a pt pt'); [done..|]. apply Forall_fmap, Forall_true. done.
  - destruct (nodes sys !! a) as [pt|] eqn:Ha; [|intros [= <- <-]; by apply Hsame]. destruct (pt_done pt); [intros [= <- <-]; by apply Hsame|].
    intros (pt' & Hr%Stop_handlers & [= <- <-])%bind_Ok. by apply (Hone a pt pt').
Qed.

(** What was read is handled, or is about to be, or there was no handler; and nothing else is handled. *)
Record traced (sys : system) (out : list event) : Prop := {
  tr_running : ∀ k a b h, running sys !! k = Some (a, b, h) → Read a b h ∈ out;
  tr_read : ∀ a b h, Read a b h ∈ out →
    (∃ k, running sys !! k = Some (a, b, h)) ∨ Got a b h ∈ out ∨ Ignored a b h ∈ out;
  tr_got : ∀ a b h, Got a b h ∈ out ∨ Ignored a b h ∈ out → Read a b h ∈ out
}.

Lemma traced_quiet sys sys' out o : traced sys out → running sys' = running sys → Forall (λ e, reads e = false) o → traced sys' (out ++ o).
Proof.
  intros [T1 T2 T3] Hr Ho. rewrite Forall_forall in Ho. assert (∀ e, reads e = true → e ∈ out ++ o → e ∈ out) as Hold.
  { intros e He [?|Hin%Ho]%elem_of_app; [done|congruence]. }
  constructor; rewrite ?Hr.
  - intros k a b h Hk. apply elem_of_app. left. eauto.
  - intros a b h Hin%Hold; [|done]. destruct (T2 a b h Hin) as [?|[?|?]]; [by left|right; left|right; right]; apply elem_of_app; by left.
  - intros a b h [Hin%Hold|Hin%Hold]; [|done| |done]; apply elem_of_app; left; apply T3; auto.
Qed.

Lemma traced_read sys out k a b hs : (length hs ≤ 1)%nat → running sys !! k = None → traced sys out →
  traced (to_handle sys k a b hs) (out ++ got a b hs).
Proof.
  intros Hl Hk Ht. destruct hs as [|h [|]]; [cbn; by rewrite app_nil_r| |cbn in Hl; lia]. destruct Ht as [T1 T2 T3]. unfold got. cbn.
  constructor; cbn.
  - intros k' a' b' h'. destruct (decide (k' = k)) as [->|]; [rewrite lookup_insert_eq; intros [= <- <- <-]; set_solver|].
    rewrite lookup_insert_ne by done. intros Hk'%T1. set_solver.
  - intros a' b' h' [Hin|[= -> -> ->]%list_elem_of_singleton]%elem_of_app; [|left; exists k; by rewrite lookup_insert_eq].
    destruct (T2 a' b' h' Hin) as [[k' Hk']|[?|?]]; [|set_solver..]. left. exists k'. rewrite lookup_insert_ne by congruence. done.
  - intros a' b' h' [Hin|Hin]; apply elem_of_app in Hin as [Hin|Hin%list_elem_of_singleton]; try done; apply elem_of_app; left; apply T3; auto.
Qed.

Lemma traced_links sys out ls : traced sys out → traced (set_links sys ls) out.
Proof. intros []. by constructor. Qed.
Lemma traced_node sys out a pt : traced sys out → traced (set_node sys a pt) out.
Proof. intros []. by constructor. Qed.

Lemma traced_handle sys out s acc a b h (called : bool) : running sys !! (s, acc) = Some (a, b, h) → traced sys out →
  traced (set_running sys (delete (s, acc) (running sys))) (out ++ [if called then Got a b h else Ignored a b h]).
Proof.
  intros Hk [T1 T2 T3]. assert (∀ x, x ∈ out → x ∈ out ++ [if called then Got a b h else Ignored a b h]) as Hkeep by set_solver. constructor; cbn.
  - intros k' a' b' h' [_ Hk']%lookup_delete_Some. eauto.
  - intros a' b' h' [Hin|Hin%list_elem_of_singleton]%elem_of_app; [|by destruct called].
    destruct (T2 a' b' h' Hin) as [[k' Hk']|[?|?]]; [|auto..]. destruct (decide (k' = (s, acc))) as [->|Hne].
    + rewrite Hk in Hk'. injection Hk' as <- <- <-. right. destruct called; [left|right]; set_solver.
    + left. exists k'. by rewrite lookup_delete_ne.
  - intros a' b' h' [Hin|Hin]; apply elem_of_app in Hin as [Hin|Hin%list_elem_of_singleton]; try (apply Hkeep, T3; by auto);
      destruct called; try done; injection Hin as -> -> ->; apply Hkeep; eauto.
Qed.

Lemma step_traced sys out l o sys' : traced sys out → sys_step sys l = Ok (o, sys') →
  traced sys' (out ++ o) ∧ keeps_handlers sys sys'.
Proof.
  intros Ht Hs. destruct (quiet l) eqn:Hq.
  { destruct (step_quiet sys l o sys' Hq Hs) as (Hr & Ho & Hk). split; [by eapply traced_quiet|done]. }
  assert (Hnone : Ok ([], sys) = Ok (o, sys') → traced sys' (out ++ o) ∧ keeps_handlers sys sys')
    by (intros [= <- <-]; rewrite app_nil_r; split; [done|by apply keeps_same_nodes]).
  assert (Hlost : ∀ ls, Ok ([], set_links sys ls) = Ok (o, sys') → traced sys' (out ++ o) ∧ keeps_handlers sys sys')
    by (intros ls [= <- <-]; rewrite app_nil_r; split; [by apply traced_links|by apply keeps_same_nodes]).
  destruct l as [| | | | | | | | | | |s|s|s acc| | | |]; try done; cbn [sys_step] in Hs.
  - destruct (links sys !! s) as [l|]; [|auto]. destruct (fwd l) as [|z zs]; [auto|]. destruct (nodes sys !! l_to l) as [pt|] eqn:Hn; [|auto].
    destruct (running sys !! (s, true)) eqn:Hr; [auto|]. destruct (readFrame (z :: zs)) as [[data rest]| | |]; [|eauto..].
    apply bind_Ok in Hs as ([[pt' reply] hs] & Hh & [= <- <-]). apply handle_frame_handlers in Hh as [Hh Hl]. split.
    + apply traced_read; [done|done|]. by apply traced_links, traced_node.
    + eapply (keeps_one sys _ (l_to l) pt pt'); [done| |done]. by rewrite to_handle_nodes.
  - destruct (links sys !! s) as [l|]; [|auto]. destruct (back l) as [|z zs]; [auto|]. destruct (nodes sys !! l_from l) as [pt|] eqn:Hn; [|auto].
    destruct (running sys !! (s, false)) eqn:Hr; [auto|]. destruct (readFrame (z :: zs)) as [[data rest]| | |]; [|eauto..].
    apply bind_Ok in Hs as ([[pt' reply] hs] & Hh & [= <- <-]). apply handle_frame_handlers in Hh as [Hh Hl]. split.
    + apply traced_read; [done|done|]. by apply traced_links, traced_node.
    + eapply (keeps_one sys _ (l_from l) pt pt'); [done| |done]. by rewrite to_handle_nodes.
  - destruct (running sys !! (s, acc)) as [[[a b] h]|] eqn:Hr; [|auto]. injection Hs as <- <-.
    split; [by apply traced_handle|by apply keeps_same_nodes].
Qed.

Lemma run_traced ls : ∀ sys out o sys', traced sys out → run sys ls = Ok (o, sys') → traced sys' (out ++ o) ∧ keeps_handlers sys sys'.
Proof.
  induction ls as [|l ls IH]; intros sys out o sys' Ht Hr.
  { injection Hr as <- <-. rewrite app_nil_r. split; [done|by apply keeps_same_nodes]. }
  cbn [run] in Hr. apply bind_Ok in Hr as ([o1 s1] & Hs & Hr). apply bind_Ok in Hr as ([o2 s2] & Hr & [= <- <-]).
  destruct (step_traced sys out l o1 s1 Ht Hs) as [Ht1 Hk1]. destruct (IH s1 (out ++ o1) o2 s2 Ht1 Hr) as [Ht2 Hk2]. rewrite app_assoc. split; [done|].
  intros b pt Hb. destruct (Hk1 b pt Hb) as (pt1 & Hb1 & F1 & M1). destruct (Hk2 b pt1 Hb1) as (pt2 & Hb2 & F2 & M2). exists pt2. auto.
Qed.

Lemma sys_run_app ls1 ls2 sys : run sys (ls1 ++ ls2) = ('(o1, sys) ← run sys ls1; '(o2, sys) ← run sys ls2; Ok (o1 ++ o2, sys)).
Proof.
  revert sys. induction ls1 as [|l ls1 IH]; intros sys; cbn [app run mbind res_bind]; [by destruct (run sys ls2) as [[]| | |]|].
  destruct (sys_step sys l) as [[o s1]| | |]; cbn [mbind res_bind]; [|done..]. rewrite IH. destruct (run s1 ls1) as [[o1 s2]| | |]; cbn [mbind res_bind]; [|done..].
  destruct (run s2 ls2) as [[o2 s3]| | |]; cbn [mbind res_bind]; [|done..]. by rewrite app_assoc.
Qed.

(** A node that has the handler ignores nothing any more. *)
Lemma run_handled ls : ∀ sys o sys' b pt h, nodes sys !! b = Some pt → is_handled pt h = true → run sys ls = Ok (o, sys') →
  ∀ a, Ignored a b h ∉ o.
Proof.
  induction ls as [|l ls IH]; intros sys o sys' b pt h Hb Hh Hr a; [injection Hr as <- _; by apply not_elem_of_nil|].
  cbn [run] in Hr. apply bind_Ok in Hr as ([o1 s1] & Hs & Hr). apply bind_Ok in Hr as ([o2 s2] & Hr & [= <- <-]).
  assert (∃ pt1, nodes s1 !! b = Some pt1 ∧ is_handled pt1 h = true) as (pt1 & Hb1 & Hh1).
  { assert (keeps_handlers sys s1) as Hk.
    { destruct (quiet l) eqn:Hq; [by eapply step_quiet|]. destruct l as [| | | | | | | | | | |s|s|s acc| | | |]; try done; cbn [sys_step] in Hs.
      - repeat (case_match; try (injection Hs as <- <-; by apply keeps_same_nodes)). apply bind_Ok in Hs as ([[pt' reply] hs] & Hf & [= <- <-]).
        apply handle_frame_handlers in Hf as [Hf _]. eapply keeps_one; [done|by rewrite to_handle_nodes|done].
      - repeat (case_match; try (injection Hs as <- <-; by apply keeps_same_nodes)). apply bind_Ok in Hs as ([[pt' reply] hs] & Hf & [= <- <-]).
        apply handle_frame_handlers in Hf as [Hf _]. eapply keeps_one; [done|by rewrite to_handle_nodes|done].
      - repeat (case_match; try (injection Hs as <- <-; by apply keeps_same_nodes)). }
    destruct (Hk b pt Hb) as (pt1 & Hb1 & F & M). exists pt1. split; [done|]. destruct h; cbn in *; auto. }
  intros [Hin|Hin]%elem_of_app; [|by eapply (IH s1 o2 s2 b pt1 h Hb1 Hh1 Hr a)].
  destruct (quiet l) eqn:Hq.
  { destruct (step_quiet sys l o1 s1 Hq Hs) as (_ & Ho & _). rewrite Forall_forall in Ho. by apply Ho in Hin. }
  destruct l as [| | | | | | | | | | |s|s|s acc| | | |]; try done; cbn [sys_step] in Hs.
  - repeat (case_match; try (injection Hs as <- <-; by apply not_elem_of_nil in Hin)). apply bind_Ok in Hs as ([[pt' reply] hs] & _ & [= <- <-]).
    apply list_elem_of_fmap in Hin as (? & ? & _). done.
  - repeat (case_match; try (injection Hs as <- <-; by apply not_elem_of_nil in Hin)). apply bind_Ok in Hs as ([[pt' reply] hs] & _ & [= <- <-]).
    apply list_elem_of_fmap in Hin as (? & ? & _). done.
  - destruct (running sys !! (s, acc)) as [[[a' b'] h']|]; [|injection Hs as <- <-; by apply not_elem_of_nil in Hin].
    injection Hs as <- <-. apply list_elem_of_singleton in Hin. case_match eqn:Hd; [done|]. injection Hin as -> -> ->.
    rewrite Hb in Hd. cbn in Hd. congruence.
Qed.

Lemma started_traced names : traced (started names) [].
Proof. constructor; cbn; [intros *; by rewrite lookup_empty|set_solver..]. Qed.

Lemma started_node names b : b ∈ names → is_Some (nodes (started names) !! b).
Proof.
  intros Hb. apply elem_of_dom. cbn. rewrite dom_list_to_map_L, <- list_fmap_compose. apply elem_of_list_to_set, list_elem_of_fmap. by exists b.
Qed.

Lemma set_handled names b ls1 l ls2 out sys : b ∈ names → l = LSetForward b ∨ l = LSetMigrate b →
  run (started names) (ls1 ++ l :: ls2) = Ok (out, sys) →
  ∃ o1 s1 o2, run (started names) ls1 = Ok (o1, s1) ∧ out = o1 ++ o2 ∧
    (l = LSetForward b → ∀ a m, Ignored a b (HForward m) ∉ o2) ∧
    (l = LSetMigrate b → ∀ a m, Ignored a b (HMigrate m) ∉ o2).
Proof.
  intros [pt Hb]%started_node Hl Hr. rewrite sys_run_app in Hr. apply bind_Ok in Hr as ([o1 s1] & H1' & Hr). apply bind_Ok in Hr as ([o2 s2] & Hr & [= <- <-]).
  destruct (run_traced ls1 _ [] o1 s1 (started_traced names) H1') as [_ Hk]. destruct (Hk b pt Hb) as (pt1 & Hb1 & _).
  exists o1, s1, o2. split; [done|]. split; [done|]. cbn [run] in Hr.
  split; intros ->; cbn [sys_step] in Hr; rewrite Hb1 in Hr; cbn [mbind res_bind] in Hr; apply bind_Ok in Hr as ([o3 s3] & Hr & [= <- _]);
    intros a m; (eapply run_handled; [|..|exact Hr]; [cbn; apply lookup_insert_eq|done]).
Qed.


End Json.

(** ** An encoding, and a run *)

Definition a_migration : Migration.MigrateDataMessage := Migration.mkMDM "dev" [("t", [7], 1)] None.
Definition z_of (b : bool) : Z := if b then 1 else 0.

(** Not JSON, but an encoding with the properties that are used. *)
Definition plain_marshal (m : message) : list Z :=
  match m with
  | Forward m => [1; fm_ID m; fm_QoS m; z_of (fm_Retain m); z_of (fm_Forwarded m); slen (fm_Topic m)] ++ bytes_of (fm_Topic m) ++ fm_Payload m
  | ForwardAck id => [2; id]
  | MigrateData _ => [3]
  | MigrateAck m => 4 :: z_of (ma_Success m) :: bytes_of (ma_DeviceID m)
  | Raw t _ => 5 :: bytes_of t
  end.
Definition plain_peek (d : list Z) : option string :=
  match d with
  | 1 :: _ => Some MsgForward | 2 :: _ => Some MsgForwardAck | 3 :: _ => Some MsgMigrateData
  | 4 :: _ => Some MsgMigrateAck | 5 :: t => Some (string_of t) | _ => None
  end.
Definition plain_forward (d : list Z) : option ForwardMessage :=
  match d with
  | _ :: id :: q :: r :: f :: n :: d => Some (mkForward id (string_of (take (Z.to_nat n) d)) (drop (Z.to_nat n) d) q (r =? 1) (f =? 1))
  | _ => None
  end.
Definition plain_ack (d : list Z) : option Z := match d with [_; id] => Some id | _ => None end.
Definition plain_migrate_ack (d : list Z) : option MigrateAckMessage :=
  match d with _ :: b :: d => Some (mkMigrateAck (string_of d) (b =? 1)) | _ => None end.

#[local] Instance plain_wire : WireJSON.
Proof.
  refine (Build_WireJSON plain_marshal plain_peek plain_forward plain_ack (λ _, Some a_migration) plain_migrate_ack
    (λ m, match m with MigrateData m => m = a_migration | _ => True end) _ _ _ _ _ _ _).
  - intros [| | | |t d] _; try done. cbn. by rewrite string_of_bytes_of.
  - intros [id t p q r f] _. cbn -[bytes_of string_of slen]. rewrite <- len_bytes_of. unfold len.
    rewrite Nat2Z.id, take_app_length, drop_app_length, string_of_bytes_of. by destruct r, f.
  - done.
  - intros m ->. done.
  - intros [d b] _. cbn -[bytes_of string_of]. rewrite string_of_bytes_of. by destruct b.
  - intros m _. by vm_compute.
  - intros m -> _. by vm_compute.
Defined.

(** A forward and a migration between two nodes, with all the frames read. *)
Definition a_run : list label :=
  [LSetForward "b"; LAddPeer "a" "b" "10.0.0.2"; LConnect "a" 0; LForward "a" 0 "b" "t" [1] 1 false 5 true; LStep 0 5 true; LStep 0 5 true; LRecv 0;
   LHandle 0 true; LRecvBack 0; LStep 0 6 true; LMigrate "a" 1 "b" a_migration; LStep 1 7 true; LStep 1 7 true; LRecv 0; LHandle 0 true; LRecvBack 0; LStep 1 8 true].


(** A peer that is removed while it is dialled keeps the connection that was opened for it: nothing closes
    it any more. *)
Lemma removed_during_dial :
  ∃ out sys s1, run (started ["a"; "b"]) [LAddPeer "a" "b" "10.0.0.2"] = Ok ([], s1) ∧
    ((λ pt, may_dial pt 0) <$> nodes s1 !! "a") = Some true ∧
    run s1 [LRemovePeer "a" "b"; LConnect "a" 0] = Ok (out, sys) ∧ (peers <$> nodes sys !! "a") = Some ∅ ∧ is_Some (links sys !! 0%nat).
Proof. eexists _, _, _. split; [vm_compute; reflexivity|]. split; [vm_compute; reflexivity|]. split; [vm_compute; reflexivity|]. split; [vm_compute; reflexivity|]. vm_compute. eauto. Qed.

(** The waiter of a call that is cleaned up counts as acknowledged: nothing was read, and the call
    returns without an error. *)
Lemma stale_counts_as_ack :
  ∃ out sys, run (started ["a"; "b"])
      [LAddPeer "a" "b" "10.0.0.2"; LConnect "a" 0; LForward "a" 0 "b" "t" [1] 1 false 0 true; LStep 0 0 true; LStep 0 0 true;
       LCleanup "a" (121 * Second); LStep 0 (121 * Second) true] = Ok (out, sys) ∧
    (c_phase ∘ snd <$> calls sys !! 0%nat) = Some (Returned None) ∧ ∀ b h, Read "a" b h ∉ out.
Proof. eexists _, _. split; [vm_compute; reflexivity|]. split; [done|]. intros b h Hin. set_solver. Qed.

(** A message with QoS 2 whose acknowledgement is late is handled twice by the other node. *)
Lemma retry_delivers_twice : let m := mkForward 1 "t" [1] 2 false true in
  ∃ sys, run (started ["a"; "b"])
      [LSetForward "b"; LAddPeer "a" "b" "10.0.0.2"; LConnect "a" 0; LForward "a" 0 "b" "t" [1] 2 false 0 true; LStep 0 0 true; LStep 0 0 true;
       LRecv 0; LHandle 0 true; LTimeout 0; LStep 0 0 true; LStep 0 0 true; LRecv 0; LHandle 0 true] =
    Ok ([Sent "a" "b" (Forward m); Read "a" "b" (HForward m); Got "a" "b" (HForward m);
         Sent "a" "b" (Forward m); Read "a" "b" (HForward m); Got "a" "b" (HForward m)], sys).
Proof. eexists. vm_compute. reflexivity. Qed.

(** Nothing in the program sets the handler of migrations: a migration is acknowledged, its sender takes it as
    done, and nobody handles it. *)
Lemma migration_acked_unhandled :
  ∃ out sys, run (started ["a"; "b"])
      [LSetForward "b"; LAddPeer "a" "b" "10.0.0.2"; LConnect "a" 0; LMigrate "a" 0 "b" a_migration; LStep 0 7 true; LStep 0 7 true;
       LRecv 0; LHandle 0 true; LRecvBack 0; LStep 0 8 true] = Ok (out, sys) ∧
    (c_phase ∘ snd <$> calls sys !! 0%nat) = Some (Returned None) ∧
    out = [Sent "a" "b" (MigrateData a_migration); Read "a" "b" (HMigrate a_migration); Ignored "a" "b" (HMigrate a_migration)].
Proof. eexists _, _. split; [vm_compute; reflexivity|]. split; reflexivity. Qed.

(** The acknowledgement of a forward is written before its handler is called. *)
Lemma acked_before_handled : let m := mkForward 1 "t" [1] 1 false true in
  ∃ out sys, run (started ["a"; "b"])
      [LSetForward "b"; LAddPeer "a" "b" "10.0.0.2"; LConnect "a" 0; LForward "a" 0 "b" "t" [1] 1 false 0 true; LStep 0 0 true; LStep 0 0 true;
       LRecv 0; LRecvBack 0; LStep 0 8 true] = Ok (out, sys) ∧
    (c_phase ∘ snd <$> calls sys !! 0%nat) = Some (Returned None) ∧ out = [Sent "a" "b" (Forward m); Read "a" "b" (HForward m)].
Proof. eexists _, _. split; [vm_compute; reflexivity|]. split; reflexivity. Qed.

(** A forward that arrives before the broker has attached itself to the cluster is acknowledged and dropped. *)
Lemma early_forward_dropped : let m := mkForward 1 "t" [1] 1 false true in
  ∃ out sys, run (started ["a"; "b"])
      [LAddPeer "a" "b" "10.0.0.2"; LConnect "a" 0; LForward "a" 0 "b" "t" [1] 1 false 0 true; LStep 0 0 true; LStep 0 0 true;
       LRecv 0; LHandle 0 true; LSetForward "b"; LRecvBack 0; LStep 0 8 true] = Ok (out, sys) ∧
    (c_phase ∘ snd <$> calls sys !! 0%nat) = Some (Returned None) ∧
    out = [Sent "a" "b" (Forward m); Read "a" "b" (HForward m); Ignored "a" "b" (HForward m)].
Proof. eexists _, _. split; [vm_compute; reflexivity|]. split; reflexivity. Qed.

End Peers.
