(* ===== verification/Rules.v ===== *)
(** * The rule engine

    Model of [internal/rule]: the rules file and its validation ([rule.go]), the compiled filters
    ([cel.go]), the evaluation of a message ([engine.go]), the executor of the actions with its bounded
    pool of workers ([action.go]), and the interceptor ([interceptor.go]). Evaluations run on the
    goroutines of the clients and actions on goroutines of their own, so the engine is also a system
    of steps, in which these interleave.

    [yaml.Unmarshal] is the list of rules it gives, or an error. The package [github.com/google/cel-go]
    and the decoder of [encoding/json] are the class [Cel]. *)
From S2P Require Import Prelude Topic Interceptors.
Import TopicMatcher Interceptors.

Module Rules.

(** ** Rules ([rule.go]) *)

Record Source := mkSource { src_Topic : string }.
Record Action := mkAction { Type_ : string; TargetTopic : string; WebhookURL : string }.
Record Rule := mkRule { ID : string; Enabled : bool; Source_ : Source; Filter : string; Actions : list Action }.

#[global] Instance Source_eq_dec : EqDecision Source.
Proof. solve_decision. Defined.
#[global] Instance Action_eq_dec : EqDecision Action.
Proof. solve_decision. Defined.
#[global] Instance Rule_eq_dec : EqDecision Rule.
Proof. solve_decision. Defined.

Inductive rule_error :=
  | ErrRead
  | ErrYAML
  | ErrMissingID (index : nat)
  | ErrMissingTopic (id : string)
  | ErrMissingTarget (id : string) (action : nat)
  | ErrMissingURL (id : string) (action : nat)
  | ErrUnknownType (id : string) (action : nat) (type_ : string)
  | ErrCompile (id filter : string)
  | ErrProgram (id filter : string).

Fixpoint check_actions (id : string) (j : nat) (actions : list Action) : option rule_error :=
  match actions with
  | [] => None
  | a :: actions' =>
      if String.eqb (Type_ a) "publish" then
        if String.eqb (TargetTopic a) "" then Some (ErrMissingTarget id j) else check_actions id (S j) actions'
      else if String.eqb (Type_ a) "webhook" then
        if String.eqb (WebhookURL a) "" then Some (ErrMissingURL id j) else check_actions id (S j) actions'
      else Some (ErrUnknownType id j (Type_ a))
  end.

Fixpoint check_rules (i : nat) (rules : list Rule) : option rule_error :=
  match rules with
  | [] => None
  | r :: rules' =>
      if String.eqb (ID r) "" then Some (ErrMissingID i)
      else if String.eqb (src_Topic (Source_ r)) "" then Some (ErrMissingTopic (ID r))
      else match check_actions (ID r) 0 (Actions r) with
           | Some err => Some err
           | None => check_rules (S i) rules'
           end
  end.

Definition ParseRules (data : option (list Rule)) : rule_error + list Rule :=
  match data with
  | None => inl ErrYAML
  | Some rules => match check_rules 0 rules with Some err => inl err | None => inr rules end
  end.

(** The file: absent, or its content. *)
Definition LoadRulesFromFile (file : option (option (list Rule))) : rule_error + list Rule :=
  match file with None => inl ErrRead | Some data => ParseRules data end.

(** ** Filters ([cel.go]) *)

(** The value of an expression: a boolean, or one of another type. *)
Inductive cel_value := CelBool (b : bool) | CelOther.

(** The variables of an expression. *)
Record activation (J : Type) := mkActivation { act_payload : J; act_topic : string; act_qos : Z; act_clientID : string }.
Arguments mkActivation {J} _ _ _ _.

(** [env.Compile], [env.Program] and [Program.Eval] of cel-go, in the environment of [newCELEnv], and
    [json.Unmarshal] into an interface. The literal [true] is an expression of CEL and evaluates to true. *)
Class Cel := {
  JSON : Type;
  Unmarshal : list Z → option JSON;
  Ast : Type;
  Program : Type;
  Compile : string → option Ast;
  Program_of : Ast → option Program;
  Eval : Program → activation JSON → option cel_value;
  true_literal : ∃ ast p, Compile "true" = Some ast ∧ Program_of ast = Some p ∧ ∀ act, Eval p act = Some (CelBool true)
}.

Section Engine.
Context `{Cel}.

Record compiledRule := mkCompiled { rule : Rule; program : Program }.

Definition compileRule (r : Rule) : rule_error + compiledRule :=
  let r := if String.eqb (Filter r) "" then mkRule (ID r) (Enabled r) (Source_ r) "true" (Actions r) else r in
  match Compile (Filter r) with
  | None => inl (ErrCompile (ID r) (Filter r))
  | Some ast =>
      match Program_of ast with
      | None => inl (ErrProgram (ID r) (Filter r))
      | Some prg => inr (mkCompiled r prg)
      end
  end.

(** A published message as the engine sees it. *)
Record message := mkMessage { m_topic : string; m_payload : list Z; m_qos : Z; m_clientID : string }.

#[global] Instance message_eq_dec : EqDecision message.
Proof. solve_decision. Defined.

(** [None]: an error. *)
Definition evaluate (cr : compiledRule) (m : message) : option bool :=
  match Unmarshal (m_payload m) with
  | None => Some false
  | Some payloadMap =>
      match Eval (program cr) (mkActivation payloadMap (m_topic m) (m_qos m) (m_clientID m)) with
      | None => None
      | Some (CelBool result) => Some result
      | Some CelOther => None
      end
  end.

(** ** Actions ([action.go]) *)

Record ActionExecutorConfig := mkAECfg { WorkerPoolSize : Z; WebhookTimeout : Z }.

(** A started action: the goroutine that executes it holds a slot of the pool. *)
Record task := mkTask { t_rule : string; t_msg : message; t_action : Action }.

(** The slots of the semaphore in use are those of the running actions. *)
Record ActionExecutor := mkAE { publishFn : bool; capacity : Z; httpTimeout : Z; running : list task }.

Definition NewActionExecutor (publishFn : bool) (cfg : ActionExecutorConfig) : ActionExecutor :=
  mkAE publishFn (if WorkerPoolSize cfg <=? 0 then 64 else WorkerPoolSize cfg)
    (if WebhookTimeout cfg <=? 0 then 5 * Second else WebhookTimeout cfg) [].

(** The body of a webhook; the timestamp is the instant that is printed. *)
Record webhookPayload := mkPayload { RuleID : string; Topic : string; Payload : list Z; ClientID : string; Timestamp : Z }.

(** What an action does: a message routed by the broker, or a request. *)
Inductive effect :=
  | Published (topic : string) (payload : list Z) (qos : Z)
  | Posted (url : string) (body : webhookPayload)
  | ActionError.

(** One action of a matched rule: started, or dropped when the pool is full. *)
Definition start (ae : ActionExecutor) (t : task) : bool * ActionExecutor :=
  if Z.of_nat (length (running ae)) <? capacity ae
  then (true, mkAE (publishFn ae) (capacity ae) (httpTimeout ae) (running ae ++ [t]))
  else (false, ae).

(** The actions with, for each, whether it was started. *)
Fixpoint Execute (ae : ActionExecutor) (ruleID : string) (m : message) (actions : list Action)
    : list (bool * task) * ActionExecutor :=
  match actions with
  | [] => ([], ae)
  | action :: actions' =>
      let '(ok, ae1) := start ae (mkTask ruleID m action) in
      let '(out, ae2) := Execute ae1 ruleID m actions' in
      ((ok, mkTask ruleID m action) :: out, ae2)
  end.

Definition executePublish (ae : ActionExecutor) (action : Action) (m : message) : list effect :=
  if publishFn ae then [Published (TargetTopic action) (m_payload m) (m_qos m)] else [].

(** What [Post] of the HTTP client comes to: an answer with a status, or an error, before or after the
    request was sent. *)
Inductive response := Answered (status : Z) | PostFailed (sent : bool).

(** [json.Marshal] fails on a raw payload that is not JSON. *)
Definition executeWebhook (now : Z) (r : response) (t : task) : list effect :=
  match Unmarshal (m_payload (t_msg t)) with
  | None => []
  | Some _ =>
      let post := Posted (WebhookURL (t_action t))
                    (mkPayload (t_rule t) (m_topic (t_msg t)) (m_payload (t_msg t)) (m_clientID (t_msg t)) now) in
      match r with
      | PostFailed sent => (if sent then [post] else []) ++ [ActionError]
      | Answered status => post :: (if 400 <=? status then [ActionError] else [])
      end
  end.

Definition executeOne (now : Z) (r : response) (ae : ActionExecutor) (t : task) : list effect :=
  if String.eqb (Type_ (t_action t)) "publish" then executePublish ae (t_action t) (t_msg t)
  else if String.eqb (Type_ (t_action t)) "webhook" then executeWebhook now r t
  else [].

(** ** The engine ([engine.go]) *)

Definition maxHopCount : Z := 5.

(** The text of [topicMatch] is that of the broker's [TopicMatch]. *)
Definition topicMatch (filter topic : string) : bool := TopicMatch filter topic.

(** Where a call of [Evaluate] is: it has counted itself, runs through the rules, through the actions
    of a matched rule, or is about to leave. *)
Inductive phase :=
  | Entered (depth : Z)
  | Looping (rules : list compiledRule)
  | Acting (ruleID : string) (actions : list Action) (rules : list compiledRule)
  | Leaving.

Record Engine := mkEngine {
  rules : list compiledRule;
  depth : Z;
  executor : ActionExecutor;
  calls : gmap nat (message * phase)
}.

Definition NewEngine (publishFn : bool) (cfg : ActionExecutorConfig) : Engine :=
  mkEngine [] 0 (NewActionExecutor publishFn cfg) ∅.

Fixpoint compile_all (rawRules : list Rule) : rule_error + list compiledRule :=
  match rawRules with
  | [] => inr []
  | r :: rawRules' =>
      if negb (Enabled r) then compile_all rawRules'
      else match compileRule r with
           | inl err => inl err
           | inr cr => match compile_all rawRules' with inl err => inl err | inr compiled => inr (cr :: compiled) end
           end
  end.

Definition setRules (e : Engine) (rawRules : list Rule) : option rule_error * Engine :=
  match compile_all rawRules with
  | inl err => (Some err, e)
  | inr compiled => (None, mkEngine compiled (depth e) (executor e) (calls e))
  end.

Definition LoadRules (e : Engine) (file : option (option (list Rule))) : option rule_error * Engine :=
  match LoadRulesFromFile file with inl err => (Some err, e) | inr rawRules => setRules e rawRules end.

Definition RuleCount (e : Engine) : Z := Z.of_nat (length (rules e)).

(** The rule is for the topic and its filter holds. *)
Definition matched (m : message) (cr : compiledRule) : bool :=
  topicMatch (src_Topic (Source_ (rule cr))) (m_topic m) &&
  match evaluate cr m with Some true => true | _ => false end.

Fixpoint eval_loop (ae : ActionExecutor) (m : message) (rules : list compiledRule) : list (bool * task) * ActionExecutor :=
  match rules with
  | [] => ([], ae)
  | cr :: rules' =>
      if matched m cr then
        let '(out1, ae1) := Execute ae (ID (rule cr)) m (Actions (rule cr)) in
        let '(out2, ae2) := eval_loop ae1 m rules' in
        (out1 ++ out2, ae2)
      else eval_loop ae m rules'
  end.

(** A call with nothing in between. *)
Definition Evaluate (e : Engine) (m : message) : list (bool * task) * Engine :=
  if maxHopCount <? depth e + 1 then ([], e)
  else
    let '(out, ae) := eval_loop (executor e) m (rules e) in
    (out, mkEngine (rules e) (depth e) ae (calls e)).

(** ** The interceptor ([interceptor.go]) *)

(** The engine is the part of the interceptors' state that [engine] reads and [set_engine] writes. *)
Definition RuleInterceptor_OnPublish {S} (engine : S → Engine) (set_engine : S → Engine → S) : hook S PublishEvent :=
  λ now s evt,
    let m := mkMessage (pe_Topic evt) (pe_Payload evt) (pe_QoS evt) (pe_ClientID evt) in
    mkCalled (Returned None) now (set_engine s (Evaluate (engine s) m).2) evt.

(** ** The engine as a system of steps *)

Inductive label :=
  | Enter (i : nat) (m : message)
  | Advance (i : nat)
  | Finish (k : nat) (now : Z) (r : response)
  | Load (file : option (option (list Rule))).

#[global] Instance response_eq_dec : EqDecision response.
Proof. solve_decision. Defined.

#[global] Instance label_eq_dec : EqDecision label.
Proof. solve_decision. Defined.

Inductive event :=
  | Attempt (i : nat) (t : task) (started : bool)
  | Finished (t : task) (effects : list effect).

Definition with_call (e : Engine) (i : nat) (m : message) (p : phase) : Engine :=
  mkEngine (rules e) (depth e) (executor e) (<[i := (m, p)]> (calls e)).

(** The next step of call [i] for message [m] in phase [p]. *)
Definition advance (e : Engine) (i : nat) (m : message) (p : phase) : list event * Engine :=
  match p with
  | Entered d => ([], with_call e i m (if maxHopCount <? d then Leaving else Looping (rules e)))
  | Looping [] => ([], with_call e i m Leaving)
  | Looping (cr :: todo) =>
      ([], with_call e i m (if matched m cr then Acting (ID (rule cr)) (Actions (rule cr)) todo else Looping todo))
  | Acting ruleID [] todo => ([], with_call e i m (Looping todo))
  | Acting ruleID (a :: actions) todo =>
      let '(ok, ae) := start (executor e) (mkTask ruleID m a) in
      ([Attempt i (mkTask ruleID m a) ok],
       mkEngine (rules e) (depth e) ae (<[i := (m, Acting ruleID actions todo)]> (calls e)))
  | Leaving => ([], mkEngine (rules e) (depth e - 1) (executor e) (delete i (calls e)))
  end.

(** Labels of calls and tasks that do not exist, and of a call that exists already, do nothing. *)
Definition estep (e : Engine) (l : label) : list event * Engine :=
  match l with
  | Enter i m =>
      match calls e !! i with
      | Some _ => ([], e)
      | None => ([], mkEngine (rules e) (depth e + 1) (executor e) (<[i := (m, Entered (depth e + 1))]> (calls e)))
      end
  | Advance i =>
      match calls e !! i with
      | None => ([], e)
      | Some (m, p) => advance e i m p
      end
  | Finish k now r =>
      match running (executor e) !! k with
      | None => ([], e)
      | Some t =>
          let ae := executor e in
          ([Finished t (executeOne now r ae t)],
           mkEngine (rules e) (depth e)
             (mkAE (publishFn ae) (capacity ae) (httpTimeout ae) (delete k (running ae))) (calls e))
      end
  | Load file => ([], (LoadRules e file).2)
  end.

Fixpoint run (e : Engine) (ls : list label) : list event * Engine :=
  match ls with
  | [] => ([], e)
  | l :: ls' => let '(out1, e1) := estep e l in let '(out2, e2) := run e1 ls' in (out1 ++ out2, e2)
  end.

(** ** What a run does *)

(** The actions that the rules [rs] ask for a message. *)
Definition wanted (m : message) (rs : list compiledRule) : list task :=
  rs ≫= λ cr, if matched m cr then mkTask (ID (rule cr)) m <$> Actions (rule cr) else [].

(** The actions that a call has still to attempt once it has read the rules. *)
Definition left_over (m : message) (p : phase) : list task :=
  match p with
  | Entered _ | Leaving => []
  | Looping rs => wanted m rs
  | Acting ruleID actions rs => (mkTask ruleID m <$> actions) ++ wanted m rs
  end.

Definition attempts (i : nat) (out : list event) : list task :=
  omap (λ ev, match ev with Attempt j t _ => if decide (j = i) then Some t else None | _ => None end) out.
Definition launched (out : list event) : list task :=
  omap (λ ev, match ev with Attempt _ t true => Some t | _ => None end) out.
Definition completed (out : list event) : list task :=
  omap (λ ev, match ev with Finished t _ => Some t | _ => None end) out.

Definition after (e : Engine) (ls : list label) : Engine := (run e ls).2.
Definition is_enter (i : nat) (l : label) : bool := match l with Enter j _ => bool_decide (j = i) | _ => false end.

Lemma run_app e ls1 ls2 :
  run e (ls1 ++ ls2) = ((run e ls1).1 ++ (run (after e ls1) ls2).1, after (after e ls1) ls2).
Proof.
  unfold after. revert e. induction ls1 as [|l ls1 IH]; intros e; cbn; [by destruct (run e ls2)|].
  destruct (estep e l) as [out1 e1]. rewrite IH. destruct (run e1 ls1) as [out2 e2]. cbn.
  by rewrite app_assoc.
Qed.

(** *** The sequential call and the steps *)

Lemma Execute_tasks ae rid m actions : (Execute ae rid m actions).1.*2 = mkTask rid m <$> actions.
Proof.
  revert ae. induction actions as [|a actions IH]; intros ae; cbn; [done|].
  destruct (start ae _) as [ok ae1]. specialize (IH ae1). destruct (Execute ae1 rid m actions) as [out ae2].
  cbn in *. by rewrite IH.
Qed.

Lemma eval_loop_tasks ae m rs : (eval_loop ae m rs).1.*2 = wanted m rs.
Proof.
  revert ae. induction rs as [|cr rs IH]; intros ae; cbn; [done|]. destruct (matched m cr); [|apply IH].
  pose proof (Execute_tasks ae (ID (rule cr)) m (Actions (rule cr))) as Hx.
  destruct (Execute ae _ m _) as [out1 ae1]. specialize (IH ae1). destruct (eval_loop ae1 m rs) as [out2 ae2].
  cbn in *. by rewrite fmap_app, Hx, IH.
Qed.

(** *** The pool *)

Definition pool_ok (e : Engine) : Prop := Z.of_nat (length (running (executor e))) ≤ capacity (executor e).

Lemma setRules_executor e rs : executor (setRules e rs).2 = executor e ∧ calls (setRules e rs).2 = calls e ∧ depth (setRules e rs).2 = depth e.
Proof. unfold setRules. by destruct (compile_all rs). Qed.

Lemma LoadRules_executor e f : executor (LoadRules e f).2 = executor e ∧ calls (LoadRules e f).2 = calls e ∧ depth (LoadRules e f).2 = depth e.
Proof. unfold LoadRules. destruct (LoadRulesFromFile f); [done|apply setRules_executor]. Qed.

Lemma estep_pool e l :
  pool_ok e →
  pool_ok (estep e l).2 ∧ capacity (executor (estep e l).2) = capacity (executor e) ∧
  running (executor e) ++ launched (estep e l).1 ≡ₚ completed (estep e l).1 ++ running (executor (estep e l).2).
Proof.
  unfold pool_ok. intros Hok. destruct l as [i m|i|k now r|f]; cbn.
  - destruct (calls e !! i); cbn; by rewrite app_nil_r.
  - destruct (calls e !! i) as [[m p]|]; cbn; [|by rewrite app_nil_r].
    destruct p as [d|[|cr rs]|rid [|a acts] rs|]; cbn; rewrite ?app_nil_r; try done.
    unfold start. destruct (Z.ltb_spec (Z.of_nat (length (running (executor e)))) (capacity (executor e))); cbn.
    + rewrite length_app; cbn. split_and!; try done; lia.
    + by rewrite app_nil_r.
  - destruct (running (executor e) !! k) as [t|] eqn:E; cbn; rewrite app_nil_r; [|done].
    rewrite length_delete by eauto. split_and!; try done; [lia|]. by apply delete_Permutation.
  - destruct (LoadRules_executor e f) as (-> & _ & _). by rewrite app_nil_r.
Qed.

(** The pool over a run: every started action is finished or running. *)
Lemma run_pool ls e :
  pool_ok e →
  pool_ok (after e ls) ∧ capacity (executor (after e ls)) = capacity (executor e) ∧
  running (executor e) ++ launched (run e ls).1 ≡ₚ completed (run e ls).1 ++ running (executor (after e ls)).
Proof.
  unfold after, launched, completed. revert e.
  induction ls as [|l ls IH]; intros e Hok; cbn; [by rewrite app_nil_r|].
  destruct (estep_pool e l Hok) as (Hok1 & Hcap & Hper). unfold launched, completed in Hper.
  destruct (estep e l) as [out1 e1] eqn:E1; cbn in *. destruct (IH e1 Hok1) as (Hok2 & Hcap2 & Hper2).
  destruct (run e1 ls) as [out2 e2]; cbn in *. split_and!; [done|congruence|].
  rewrite !omap_app, app_assoc, Hper, <- !app_assoc. by rewrite Hper2.
Qed.

(** The actions that the events of a list have started and not finished. *)
Definition busy (out : list event) : Z := Z.of_nat (length (launched out)) - Z.of_nat (length (completed out)).

Lemma busy_app out1 out2 : busy (out1 ++ out2) = busy out1 + busy out2.
Proof. unfold busy, launched, completed. rewrite !omap_app, !length_app. lia. Qed.

Lemma estep_busy e l : pool_ok e →
  Z.of_nat (length (running (executor (estep e l).2))) = Z.of_nat (length (running (executor e))) + busy (estep e l).1.
Proof.
  intros Hok. destruct (estep_pool e l Hok) as (_ & _ & Hper). apply Permutation_length in Hper.
  rewrite !length_app in Hper. unfold busy. lia.
Qed.

(** A step has at most one event, and an attempt starts its action exactly when a worker is free. *)
Lemma estep_event e l : (estep e l).1 = [] ∨
  ∃ ev, (estep e l).1 = [ev] ∧ ∀ i t ok, ev = Attempt i t ok → ok = (Z.of_nat (length (running (executor e))) <? capacity (executor e)).
Proof.
  destruct l as [i m|i|k now r|f]; cbn.
  - destruct (calls e !! i); by left.
  - destruct (calls e !! i) as [[m p]|]; [|by left]. destruct p as [d|[|cr rs]|rid [|a acts] rs|]; cbn; try by left.
    unfold start. right. destruct (_ <? _) eqn:E; cbn; (eexists; split; [done|]); by intros ??? [= _ _ <-].
  - destruct (running (executor e) !! k); [|by left]. right. eexists. by split.
  - by left.
Qed.

(** What becomes of an attempt depends on the pool at that moment. *)
Lemma run_fate ls e out1 i t ok out2 : pool_ok e → (run e ls).1 = out1 ++ Attempt i t ok :: out2 →
  ok = (Z.of_nat (length (running (executor e))) + busy out1 <? capacity (executor e)).
Proof.
  revert e out1. induction ls as [|l ls IH]; intros e out1 Hok; cbn; [by destruct out1|].
  destruct (estep_pool e l Hok) as (Hok1 & Hcap & _). pose proof (estep_busy e l Hok) as Hb.
  pose proof (estep_event e l) as Hev. destruct (estep e l) as [o e1]; cbn in *.
  destruct (run e1 ls) as [o2 e2] eqn:E2; cbn. intros Heq.
  assert (Hrest : ∀ out1', o2 = out1' ++ Attempt i t ok :: out2 → out1 = o ++ out1' →
    ok = (Z.of_nat (length (running (executor e))) + busy out1 <? capacity (executor e))).
  { intros out1' Ho ->. rewrite (IH e1 out1' Hok1 ltac:(by rewrite E2)), busy_app, Hb, Hcap. f_equal. lia. }
  destruct Hev as [->|(ev & -> & Hf)]; [by apply (Hrest out1)|].
  destruct out1 as [|ev' out1]; cbn in Heq; injection Heq as -> Heq.
  - rewrite Z.add_0_r. by eapply Hf.
  - by apply (Hrest out1).
Qed.

(** *** One call *)

Definition has_read (p : phase) : Prop := match p with Entered _ => False | _ => True end.
Definition rest (e : Engine) (i : nat) : list task :=
  match calls e !! i with Some (m, p) => left_over m p | None => [] end.

(** Steps that are not those of call [i] leave it as it is. *)
Lemma estep_other e l i :
  l ≠ Advance i → (calls e !! i = None → is_enter i l = false) →
  calls (estep e l).2 !! i = calls e !! i ∧ attempts i (estep e l).1 = [].
Proof.
  intros Hadv Hent. destruct l as [j m|j|k now r|f]; cbn in *.
  - destruct (calls e !! j) eqn:Ej; [done|]. cbn. split; [|done].
    rewrite lookup_insert_ne; [done|]. intros ->. specialize (Hent Ej). by rewrite bool_decide_true in Hent.
  - assert (j ≠ i) by congruence. destruct (calls e !! j) as [[m p]|]; [|done].
    destruct p as [d|[|cr rs]|rid [|a acts] rs|]; cbn; try (by rewrite lookup_insert_ne).
    + destruct (start _ _) as [ok ae]; cbn. rewrite lookup_insert_ne by done. split; [done|].
      unfold attempts. cbn. by rewrite decide_False.
    + by rewrite lookup_delete_ne.
  - by destruct (running (executor e) !! k).
  - destruct (LoadRules_executor e f) as (_ & -> & _). done.
Qed.

(** A call that has read the rules: what a step attempts and what is left afterwards is what was left. *)
Lemma estep_call e l i m p :
  calls e !! i = Some (m, p) → has_read p →
  attempts i (estep e l).1 ++ rest (estep e l).2 i = left_over m p ∧
  (calls (estep e l).2 !! i = None ∨ ∃ p', calls (estep e l).2 !! i = Some (m, p') ∧ has_read p').
Proof.
  intros Hc Hp. destruct (decide (l = Advance i)) as [->|Hne].
  - cbn. rewrite Hc. unfold rest.
    destruct p as [d|[|cr rs]|rid [|a acts] rs|]; cbn; try done; rewrite ?lookup_insert_eq, ?lookup_delete_eq; eauto.
    + destruct (matched m cr); cbn; split; eauto.
    + destruct (start _ _) as [ok ae]; cbn. rewrite lookup_insert_eq, decide_True by done. eauto.
  - destruct (estep_other e l i Hne) as (Hsame & ->); [congruence|]. unfold rest. rewrite Hsame, Hc. eauto.
Qed.

Lemma run_gone ls e i :
  calls e !! i = None → existsb (is_enter i) ls = false →
  calls (after e ls) !! i = None ∧ attempts i (run e ls).1 = [].
Proof.
  unfold after, attempts. revert e. induction ls as [|l ls IH]; intros e Hc Hno; [done|]. cbn in *.
  apply orb_false_iff in Hno as [Hl Hno].
  assert (Hn : calls (estep e l).2 !! i = None ∧ attempts i (estep e l).1 = []).
  { destruct (decide (l = Advance i)) as [->|Hne]; [cbn; by rewrite Hc|].
    rewrite <- Hc. by apply estep_other. }
  destruct Hn as [Hn Ha]. unfold attempts in Ha. destruct (estep e l) as [out1 e1]; cbn in *.
  destruct (IH e1 Hn Hno) as [H1 H2]. destruct (run e1 ls) as [out2 e2]; cbn in *. split; [done|].
  by rewrite omap_app, Ha, H2.
Qed.

Lemma run_call ls e i m p :
  calls e !! i = Some (m, p) → has_read p → existsb (is_enter i) ls = false →
  attempts i (run e ls).1 ++ rest (after e ls) i = left_over m p.
Proof.
  revert e p. induction ls as [|l ls IH]; intros e p Hc Hp Hno.
  - unfold rest, after. cbn. by rewrite Hc.
  - cbn in Hno. apply orb_false_iff in Hno as [_ Hno].
    destruct (estep_call e l i m p Hc Hp) as [Heq Hcase]. rewrite <- Heq. clear Heq.
    unfold after. cbn. destruct (estep e l) as [out1 e1]; cbn in *.
    assert (Hr : attempts i (run e1 ls).1 ++ rest (after e1 ls) i = rest e1 i).
    { destruct Hcase as [Hn|(p' & Hc' & Hp')].
      - destruct (run_gone ls e1 i Hn Hno) as [H1 H2]. unfold rest. by rewrite H1, H2, Hn.
      - rewrite (IH e1 p' Hc' Hp' Hno). unfold rest. by rewrite Hc'. }
    rewrite <- Hr. unfold after. destruct (run e1 ls) as [out2 e2]; cbn. unfold attempts.
    by rewrite omap_app, app_assoc.
Qed.

(** A call that has only counted itself: once it has left, it has attempted nothing if the count was
    too high, and otherwise what the rules ask for that were active at some moment of the call. *)
Lemma run_entered ls e i m d :
  calls e !! i = Some (m, Entered d) → existsb (is_enter i) ls = false → calls (after e ls) !! i = None →
  ∃ ls1, ls1 `prefix_of` ls ∧
    attempts i (run e ls).1 = if maxHopCount <? d then [] else wanted m (rules (after e ls1)).
Proof.
  revert e. induction ls as [|l ls IH]; intros e Hc Hno Hgone.
  { unfold after in Hgone. cbn in Hgone. congruence. }
  cbn in Hno. apply orb_false_iff in Hno as [Hl Hno].
  destruct (decide (l = Advance i)) as [->|Hne].
  - exists []. split; [apply prefix_nil|]. unfold after in Hgone |- *. cbn in Hgone |- *. rewrite Hc in Hgone |- *. cbn in Hgone |- *.
    set (e1 := with_call e i m _) in *.
    pose proof (run_call ls e1 i m (if maxHopCount <? d then Leaving else Looping (rules e))) as Hrun.
    unfold rest, after in Hrun. destruct (run e1 ls) as [out2 e2]; cbn in *. rewrite Hgone, app_nil_r in Hrun.
    rewrite Hrun; [by destruct (maxHopCount <? d)| |by destruct (maxHopCount <? d)|done].
    subst e1. cbn. by rewrite lookup_insert_eq.
  - destruct (estep_other e l i Hne) as [Hsame Hatt]; [congruence|].
    unfold after in Hgone. cbn in Hgone |- *. destruct (estep e l) as [out1 e1] eqn:E1; cbn in *.
    destruct (IH e1) as (ls1 & Hpre & Hres); [congruence|done| |].
    { unfold after. by destruct (run e1 ls). }
    exists (l :: ls1). split; [by apply prefix_cons|]. unfold after in *. cbn. rewrite E1.
    destruct (run e1 ls1) as [? ?], (run e1 ls) as [out2 e2]; cbn in *. unfold attempts in *.
    by rewrite omap_app, Hatt, Hres.
Qed.

(** *** The call without interruption is a run of the steps *)

Definition attempt_of (i : nat) (x : bool * task) : event := Attempt i x.2 x.1.

Lemma acting_steps actions e i m rid rs :
  calls e !! i = Some (m, Acting rid actions rs) →
  run e (replicate (length actions) (Advance i)) =
    (attempt_of i <$> (Execute (executor e) rid m actions).1,
     mkEngine (rules e) (depth e) (Execute (executor e) rid m actions).2 (<[i := (m, Acting rid [] rs)]> (calls e))).
Proof.
  revert e. induction actions as [|a actions IH]; intros e Hc; cbn.
  - rewrite insert_id by done. by destruct e.
  - rewrite Hc. cbn. destruct (start (executor e) (mkTask rid m a)) as [ok ae].
    rewrite IH; [|cbn; by rewrite lookup_insert_eq]. cbn. rewrite insert_insert_eq.
    by destruct (Execute ae rid m actions).
Qed.

Lemma looping_steps rs e i m :
  calls e !! i = Some (m, Looping rs) →
  ∃ n, run e (replicate n (Advance i)) =
    (attempt_of i <$> (eval_loop (executor e) m rs).1,
     mkEngine (rules e) (depth e) (eval_loop (executor e) m rs).2 (<[i := (m, Leaving)]> (calls e))).
Proof.
  revert e. induction rs as [|cr rs IH]; intros e Hc.
  - exists 1%nat. cbn. by rewrite Hc.
  - destruct (matched m cr) eqn:Hm.
    + set (e1 := with_call e i m (Acting (ID (rule cr)) (Actions (rule cr)) rs)).
      pose proof (acting_steps (Actions (rule cr)) e1 i m (ID (rule cr)) rs (lookup_insert_eq _ _ _)) as Hact.
      cbn in Hact.
      rewrite insert_insert_eq in Hact. cbn [eval_loop]. rewrite Hm.
      destruct (Execute (executor e) (ID (rule cr)) m (Actions (rule cr))) as [out1 ae1]. cbn in Hact.
      set (e2 := mkEngine (rules e) (depth e) ae1 (<[i := (m, Looping rs)]> (calls e))).
      destruct (IH e2) as [n Hn]; [cbn; by rewrite lookup_insert_eq|]. cbn in Hn. rewrite insert_insert_eq in Hn.
      exists (S (length (Actions (rule cr)) + S n)). cbn. rewrite Hc. cbn. rewrite Hm. fold e1.
      rewrite replicate_add, run_app. unfold after. rewrite Hact. cbn. rewrite lookup_insert_eq. cbn.
      unfold with_call; cbn. rewrite insert_insert_eq. fold e2. rewrite Hn. destruct (eval_loop ae1 m rs). cbn. by rewrite fmap_app.
    + destruct (IH (with_call e i m (Looping rs))) as [n Hn]; [cbn; by rewrite lookup_insert_eq|].
      exists (S n). cbn in Hn |- *. rewrite Hc. cbn. rewrite Hm, Hn. cbn. by rewrite insert_insert_eq.
Qed.

Lemma Evaluate_steps e i m :
  calls e !! i = None →
  ∃ n, run e (Enter i m :: replicate n (Advance i)) = (attempt_of i <$> (Evaluate e m).1, (Evaluate e m).2).
Proof.
  intros Hc. unfold Evaluate. destruct (maxHopCount <? depth e + 1) eqn:Hd.
  - exists 2%nat. cbn. rewrite Hc. cbn. rewrite lookup_insert_eq. cbn. rewrite Hd. cbn.
    rewrite lookup_insert_eq. cbn. rewrite !delete_insert_eq, delete_id by done.
    rewrite Z.add_simpl_r. by destruct e.
  - set (e1 := mkEngine (rules e) (depth e + 1) (executor e) (<[i := (m, Looping (rules e))]> (calls e))).
    destruct (looping_steps (rules e) e1 i m) as [n Hn]; [cbn; by rewrite lookup_insert_eq|].
    exists (S (n + 1)). cbn. rewrite Hc. cbn. rewrite lookup_insert_eq. cbn. rewrite Hd. cbn. unfold with_call. cbn.
    rewrite insert_insert_eq. fold e1. rewrite replicate_add, run_app. unfold after. rewrite Hn. cbn.
    rewrite lookup_insert_eq. cbn. rewrite insert_insert_eq, delete_insert_eq, delete_id, Z.add_simpl_r by done.
    destruct (eval_loop (executor e) m (rules e)). cbn. by rewrite app_nil_r.
Qed.

(** *** Validated rules *)

Definition action_ok (a : Action) : Prop :=
  (Type_ a = "publish" ∧ TargetTopic a ≠ "") ∨ (Type_ a = "webhook" ∧ WebhookURL a ≠ "").
Definition rule_ok (r : Rule) : Prop := Forall action_ok (Actions r).
Definition task_ok (t : task) : Prop := action_ok (t_action t) ∧ Unmarshal (m_payload (t_msg t)) ≠ None.

Lemma check_actions_ok id j actions : check_actions id j actions = None → Forall action_ok actions.
Proof.
  revert j. induction actions as [|a actions IH]; intros j; cbn; [constructor|].
  repeat (case_match; try done); intros Hr; constructor; try (by eapply IH); unfold action_ok;
    rewrite ?String.eqb_eq, ?String.eqb_neq in *; auto.
Qed.

Lemma check_rules_ok i rs : check_rules i rs = None → Forall rule_ok rs.
Proof.
  revert i. induction rs as [|r rs IH]; intros i; cbn; [constructor|].
  repeat (case_match; try done). intros Hr. constructor; [by eapply check_actions_ok|by eapply IH].
Qed.

Lemma compile_all_ok rs compiled :
  compile_all rs = inr compiled → Forall rule_ok rs → Forall (λ cr, rule_ok (rule cr)) compiled.
Proof.
  revert compiled. induction rs as [|r rs IH]; intros compiled; cbn; [intros [= <-]; constructor|].
  intros Hc [Hr Hrs]%Forall_cons. destruct (Enabled r); cbn in Hc; [|by apply IH].
  unfold compileRule in Hc. repeat (case_match; simplify_eq/=); constructor; eauto.
Qed.

Definition phase_ok (m : message) (p : phase) : Prop :=
  match p with
  | Entered _ | Leaving => True
  | Looping rs => Forall (λ cr, rule_ok (rule cr)) rs
  | Acting _ actions rs =>
      Forall action_ok actions ∧ Unmarshal (m_payload m) ≠ None ∧ Forall (λ cr, rule_ok (rule cr)) rs
  end.

Record engine_ok (e : Engine) : Prop := {
  ok_rules : Forall (λ cr, rule_ok (rule cr)) (rules e);
  ok_tasks : Forall task_ok (running (executor e));
  ok_calls : map_Forall (λ _ c, phase_ok c.1 c.2) (calls e);
  ok_depth : depth e = Z.of_nat (size (calls e))
}.

Lemma matched_json m cr : matched m cr = true → Unmarshal (m_payload m) ≠ None.
Proof. unfold matched, evaluate. rewrite andb_true_iff. intros [_ Hm] Hn. by rewrite Hn in Hm. Qed.

Lemma LoadRules_ok e f : engine_ok e → engine_ok (LoadRules e f).2.
Proof.
  intros [Hr Ht Hc Hd]. unfold LoadRules, LoadRulesFromFile, ParseRules, setRules.
  destruct f as [[rs|]|]; [|done..]. destruct (check_rules 0 rs) eqn:Hk; [done|].
  destruct (compile_all rs) as [err|compiled] eqn:Hcomp; [done|]. constructor; try done.
  eapply compile_all_ok; eauto using check_rules_ok.
Qed.

Lemma with_call_ok e i m p q :
  engine_ok e → calls e !! i = Some (m, q) → phase_ok m p → engine_ok (with_call e i m p).
Proof.
  intros [Hr Ht Hc Hd] Hi Hp. constructor; cbn; try done.
  - by apply map_Forall_insert_2.
  - rewrite map_size_insert_Some by eauto. done.
Qed.

Lemma estep_ok e l : engine_ok e → engine_ok (estep e l).2.
Proof.
  intros Hok. destruct l as [i m|i|k now r|f]; cbn.
  - destruct (calls e !! i) eqn:E; [done|]. destruct Hok as [Hr Ht Hc Hd]. constructor; cbn; try done.
    + by apply map_Forall_insert_2.
    + rewrite map_size_insert_None by done. lia.
  - destruct (calls e !! i) as [[m p]|] eqn:E; [|done].
    pose proof (ok_calls e Hok i _ E) as Hp. cbn in Hp.
    destruct p as [d|[|cr rs]|rid [|a acts] rs|]; cbn.
    + eapply with_call_ok; eauto. destruct (maxHopCount <? d); cbn; [done|apply Hok].
    + by eapply with_call_ok; eauto.
    + eapply with_call_ok; eauto. cbn in Hp. apply Forall_cons in Hp as [Hcr Hrs].
      destruct (matched m cr) eqn:Hm; cbn; eauto using matched_json.
    + eapply with_call_ok; eauto. apply Hp.
    + destruct Hp as (Ha & Hj & Hrs). apply Forall_cons in Ha as [Ha Hacts].
      assert (Hw : engine_ok (with_call e i m (Acting rid acts rs))) by (eapply with_call_ok; eauto; done).
      destruct Hw as [Hr Ht Hc Hd]. unfold start. destruct (_ <? _); cbn; constructor; cbn; try done.
      apply Forall_app. split; [done|]. by constructor.
    + destruct Hok as [Hr Ht Hc Hd]. constructor; cbn; try done.
      * by apply map_Forall_delete.
      * rewrite map_size_delete_Some by eauto.
        assert (size (calls e) ≠ 0%nat) by (apply map_size_ne_0_lookup; eauto). lia.
  - destruct (running (executor e) !! k) eqn:E; [|done]. destruct Hok as [Hr Ht Hc Hd]. constructor; cbn; try done.
    by apply Forall_delete.
  - by apply LoadRules_ok.
Qed.

Lemma run_engine_ok ls e : engine_ok e → engine_ok (after e ls).
Proof.
  unfold after. revert e. induction ls as [|l ls IH]; intros e Hok; cbn; [done|].
  pose proof (estep_ok e l Hok) as Hok1. destruct (estep e l) as [out1 e1]. specialize (IH e1 Hok1).
  by destruct (run e1 ls).
Qed.

(** *** What a finished action did *)

Definition done_by (now : Z) (r : response) (t : task) : list effect :=
  let m := t_msg t in
  if String.eqb (Type_ (t_action t)) "publish" then [Published (TargetTopic (t_action t)) (m_payload m) (m_qos m)]
  else
    let post := Posted (WebhookURL (t_action t)) (mkPayload (t_rule t) (m_topic m) (m_payload m) (m_clientID m) now) in
    match r with
    | Answered status => if status <? 400 then [post] else [post; ActionError]
    | PostFailed true => [post; ActionError]
    | PostFailed false => [ActionError]
    end.

Lemma executeOne_done now r ae t : publishFn ae = true → task_ok t → executeOne now r ae t = done_by now r t.
Proof.
  intros Hp [Ha Hj]. unfold executeOne, executePublish, executeWebhook, done_by. rewrite Hp.
  destruct Ha as [[-> _]|[-> _]]; cbn; [done|]. destruct (Unmarshal _); [|done].
  destruct r as [status|[]]; [|done..]. by destruct (Z.leb_spec 400 status), (Z.ltb_spec status 400); try lia.
Qed.

Lemma estep_publishFn e l : publishFn (executor (estep e l).2) = publishFn (executor e).
Proof.
  destruct l as [i m|i|k now r|f]; cbn; try (repeat case_match; done).
  - destruct (calls e !! i) as [[m p]|]; [|done]. destruct p as [d|[|cr rs]|rid [|a acts] rs|]; cbn; try done.
    unfold start. by destruct (_ <? _).
  - by destruct (LoadRules_executor e f) as (-> & _ & _).
Qed.

Lemma run_finished ls e t effects :
  engine_ok e → publishFn (executor e) = true → Finished t effects ∈ (run e ls).1 → ∃ now r, effects = done_by now r t.
Proof.
  revert e. induction ls as [|l ls IH]; intros e Hok Hp Hin; cbn in Hin; [set_solver|].
  pose proof (estep_ok e l Hok) as Hok1. pose proof (estep_publishFn e l) as Hp1.
  destruct (estep e l) as [out1 e1] eqn:E1; cbn in *.
  assert (Hin' : Finished t effects ∈ out1 ∨ Finished t effects ∈ (run e1 ls).1).
  { destruct (run e1 ls); cbn in *. by apply elem_of_app. }
  destruct Hin' as [Hin'|Hin']; [|eapply IH; eauto; congruence].
  destruct l as [i m|i|k now r|f]; cbn in E1.
  - destruct (calls e !! i); simplify_eq; set_solver.
  - destruct (calls e !! i) as [[m p]|]; [|simplify_eq; set_solver].
    unfold advance in E1. repeat (case_match; simplify_eq/=); set_solver.
  - destruct (running (executor e) !! k) eqn:Hk; simplify_eq; [|set_solver].
    apply list_elem_of_singleton in Hin' as [= -> ->]. exists now, r. apply executeOne_done; [done|].
    by apply (Forall_lookup_1 _ _ _ _ (ok_tasks e Hok) Hk).
  - simplify_eq. set_solver.
Qed.

Lemma New_ok b cfg : engine_ok (NewEngine b cfg) ∧ pool_ok (NewEngine b cfg).
Proof.
  split; [constructor; cbn; try done; constructor|].
  unfold pool_ok. cbn. destruct (Z.leb_spec (WorkerPoolSize cfg) 0); lia.
Qed.


(** A message that is published while five others are being evaluated is not evaluated, though none of
    them comes from an action: the count is of the calls in progress, on whatever connection. *)
Lemma concurrent_not_evaluated e m : engine_ok e → (5 ≤ size (calls e))%nat → Evaluate e m = ([], e).
Proof.
  intros Hok Hsize. unfold Evaluate, maxHopCount. rewrite (ok_depth e Hok).
  destruct (Z.ltb_spec 5 (Z.of_nat (size (calls e)) + 1)); [done|lia].
Qed.

(** A rule without filter is matched by every JSON message on its topic, and by no other message. *)
Lemma unfiltered_matches r m cr :
  Filter r = "" → compileRule r = inr cr →
  matched m cr = topicMatch (src_Topic (Source_ r)) (m_topic m) && bool_decide (is_Some (Unmarshal (m_payload m))).
Proof.
  intros Hf. unfold compileRule, matched, evaluate. rewrite Hf. cbn.
  destruct true_literal as (ast & p & -> & -> & Hev). intros [= <-]. cbn. f_equal.
  destruct (Unmarshal (m_payload m)); [by rewrite Hev|done].
Qed.

Lemma unfiltered_compiles r : Filter r = "" → ∃ cr, compileRule r = inr cr.
Proof. intros Hf. unfold compileRule. rewrite Hf. cbn. destruct true_literal as (ast & p & -> & -> & _). eauto. Qed.

(** A failed load keeps the active rules. *)
Lemma LoadRules_failed e f err : (LoadRules e f).1 = Some err → (LoadRules e f).2 = e.
Proof.
  unfold LoadRules, setRules. destruct (LoadRulesFromFile f); [done|]. by destruct (compile_all _).
Qed.

(** The interceptor lets every message through as it is. *)
Lemma RuleInterceptor_passes {S} (get : S → Engine) set now s ev :
  let c := RuleInterceptor_OnPublish get set now s ev in
  end_ c = Returned None ∧ evt c = ev.
Proof. done. Qed.

End Engine.

(** Filters that are the literals [true] and [false], and payloads of digits, for concrete runs. *)
#[local] Instance literals : Cel.
Proof.
  refine {| JSON := Z; Unmarshal := λ l, match l with [d] => if (48 <=? d) && (d <=? 57) then Some (d - 48) else None | _ => None end;
            Ast := bool; Program := bool;
            Compile := λ s, if String.eqb s "true" then Some true else if String.eqb s "false" then Some false else None;
            Program_of := Some; Eval := λ p _, Some (CelBool p) |}.
  by exists true, true.
Defined.

Definition sample_rules : list Rule :=
  [mkRule "r1" true (mkSource "a/+") "" [mkAction "publish" "alerts" ""; mkAction "webhook" "" "http://h"];
   mkRule "r2" true (mkSource "a/#") "false" [mkAction "publish" "never" ""];
   mkRule "r3" false (mkSource "#") "" [mkAction "publish" "off" ""]].
Definition sample_message : message := mkMessage "a/b" [55] 1 "c1".
Definition sample_labels : list label :=
  [Load (Some (Some sample_rules)); Enter 0 sample_message; Advance 0; Advance 0; Enter 1 sample_message; Advance 0; Advance 1;
   Advance 0; Finish 0 7 (Answered 200); Advance 0; Advance 0; Advance 0; Advance 0;
   Advance 1; Advance 1; Finish 0 8 (Answered 200); Advance 1; Finish 0 9 (PostFailed false)].


End Rules.
