(* ===== verification/Tenants.v ===== *)
(** * Tenants

    Model of [internal/tenant]: the definitions of the tenants ([tenant.go]), the manager with its
    connection counts, rate limiters and client mapping ([manager.go]), and the interceptor that
    keeps the topics of the tenants apart ([interceptor.go]), with what it promises about the
    matching of topics, and what remains of it behind the executor of the chain.

    [yaml.Unmarshal] is the list of tenants it gives, or an error. The token buckets of
    [golang.org/x/time/rate] are the class [RateLimiter]. *)
From S2P Require Import Prelude Doubles Breaker Interceptors Topic Subscriptions.
Import Interceptors TopicMatcher.

Module Tenants.

(** ** Definitions of tenants ([tenant.go]) *)

Record Tenant := mkTenant {
  t_ID : string;
  MaxConnections : Z;
  MaxMessageRate : Z;
  MaxMessageSize : Z;
  TopicPrefix : string
}.

(** The loop of [ParseTenants] over the tenants of the file. *)
Fixpoint parse_loop (seen : gset string) (l : list Tenant) : string + list Tenant :=
  match l with
  | [] => inr []
  | t :: l =>
      if bool_decide (t_ID t = "") then inl "tenant_id cannot be empty"
      else if bool_decide (t_ID t ∈ seen) then inl ("duplicate tenant_id: " +:+ t_ID t)
      else
        let t := if bool_decide (TopicPrefix t = "")
                 then mkTenant (t_ID t) (MaxConnections t) (MaxMessageRate t) (MaxMessageSize t) (t_ID t) else t in
        match parse_loop ({[t_ID t]} ∪ seen) l with inl err => inl err | inr l => inr (t :: l) end
  end.

Definition ParseTenants (yaml : string + list Tenant) : string + list Tenant :=
  match yaml with
  | inl err => inl ("failed to parse tenants YAML: " +:+ err)
  | inr l => parse_loop ∅ l
  end.

(** ** The manager ([manager.go]) *)

(** [rate.Limiter]: [Inf_limiter] is [rate.NewLimiter(rate.Inf, 0)]. *)
Class RateLimiter := {
  Limiter : Type;
  NewLimiter : Z → Z → Limiter;
  Inf_limiter : Limiter;
  Limiter_Allow : Z → Limiter → bool * Limiter;
  (** The documentation of [rate.Inf]: it allows all events, even if the burst is zero. *)
  Inf_allows : ∀ now, Limiter_Allow now Inf_limiter = (true, Inf_limiter)
}.

Section Manager.
Context `{RateLimiter}.

Record tenantState := mkState { t_config : Tenant; connections : Z; rateLimiter : Limiter }.

Definition defaultTenant : tenantState := mkState (mkTenant "" 0 0 0 "") 0 Inf_limiter.

(** [default_] is the value of the variable [defaultTenant]. *)
Record TenantManager := mkManager {
  tenants : gmap string tenantState;
  clients : gmap string string;
  default_ : tenantState
}.

Definition NewManager : TenantManager := mkManager ∅ ∅ defaultTenant.

Definition limiter_for (t : Tenant) : Limiter :=
  if 0 <? MaxMessageRate t then NewLimiter (MaxMessageRate t) (MaxMessageRate t) else Inf_limiter.

Definition load_tenant (old : gmap string tenantState) (new : gmap string tenantState) (t : Tenant) : gmap string tenantState :=
  match old !! t_ID t with
  | Some existing => <[t_ID t := mkState t (connections existing) (limiter_for t)]> new
  | None => <[t_ID t := mkState t 0 (limiter_for t)]> new
  end.

Definition LoadTenantsFromBytes (m : TenantManager) (yaml : string + list Tenant) : option string * TenantManager :=
  match ParseTenants yaml with
  | inl err => (Some err, m)
  | inr parsed => (None, mkManager (foldl (load_tenant (tenants m)) ∅ parsed) (clients m) (default_ m))
  end.

Definition TenantCount (m : TenantManager) : Z := Z.of_nat (size (tenants m)).

Definition effectiveTenantID (tenantID : string) : string := if bool_decide (tenantID = "") then "default" else tenantID.

(** [fmt]'s [%q] of an identifier that has no character to escape. *)
Definition quoted (s : string) : string := String "034" (s +:+ String "034" "").

(** [getState] gives a pointer: [upd_state] changes what it points to. *)
Definition getState (m : TenantManager) (tenantID : string) : tenantState :=
  if bool_decide (tenantID = "") then default_ m else default (default_ m) (tenants m !! tenantID).
Definition upd_state (m : TenantManager) (tenantID : string) (st : tenantState) : TenantManager :=
  if bool_decide (tenantID ≠ "" ∧ is_Some (tenants m !! tenantID))
  then mkManager (<[tenantID := st]> (tenants m)) (clients m) (default_ m)
  else mkManager (tenants m) (clients m) st.
Definition add_connections (m : TenantManager) (tenantID : string) (n : Z) : TenantManager :=
  let st := getState m tenantID in
  upd_state m tenantID (mkState (t_config st) (connections st + n) (rateLimiter st)).

(** The quota test of [TryConnect], and what follows it. *)
Definition quota_ok (m : TenantManager) (tenantID : string) : bool :=
  let st := getState m tenantID in
  negb ((0 <? MaxConnections (t_config st)) && (MaxConnections (t_config st) <=? connections st)).
Definition commit_connect (m : TenantManager) (clientID tenantID : string) : TenantManager :=
  let m := add_connections m tenantID 1 in
  mkManager (tenants m) (<[clientID := tenantID]> (clients m)) (default_ m).

Definition TryConnect (m : TenantManager) (clientID tenantID : string) : option string * TenantManager :=
  if quota_ok m tenantID then (None, commit_connect m clientID tenantID)
  else
    let st := getState m tenantID in
    (Some ("tenant " +:+ quoted (effectiveTenantID tenantID) +:+ " connection quota exhausted (" +:+ pretty (connections st) +:+
           "/" +:+ pretty (MaxConnections (t_config st)) +:+ ")"), m).

(** The method [OnDisconnect] of the manager. *)
Definition release (m : TenantManager) (clientID : string) : TenantManager :=
  match clients m !! clientID with
  | None => m
  | Some tenantID =>
      add_connections (mkManager (tenants m) (delete clientID (clients m)) (default_ m)) tenantID (-1)
  end.

Definition CheckPublish (now : Z) (m : TenantManager) (clientID : string) (payloadSize : Z) : option string * TenantManager :=
  match clients m !! clientID with
  | None => (None, m)
  | Some tenantID =>
      let st := getState m tenantID in
      if (0 <? MaxMessageSize (t_config st)) && (MaxMessageSize (t_config st) <? payloadSize) then
        (Some ("tenant " +:+ quoted (effectiveTenantID tenantID) +:+ " message size " +:+ pretty payloadSize +:+
               " exceeds limit " +:+ pretty (MaxMessageSize (t_config st))), m)
      else
        let '(ok, l) := Limiter_Allow now (rateLimiter st) in
        let m := upd_state m tenantID (mkState (t_config st) (connections st) l) in
        (if ok then None else Some ("tenant " +:+ quoted (effectiveTenantID tenantID) +:+ " message rate limit exceeded"), m)
  end.

Definition GetTopicPrefix (m : TenantManager) (clientID : string) : string :=
  match clients m !! clientID with
  | None => ""
  | Some tenantID => TopicPrefix (t_config (getState m tenantID))
  end.
Definition GetTenantID (m : TenantManager) (clientID : string) : string := default "" (clients m !! clientID).
Definition ActiveConnections (m : TenantManager) (tenantID : string) : Z := connections (getState m tenantID).

(** ** The interceptor ([interceptor.go]) *)

(** [prefix != "" && !strings.HasPrefix(topic, "$")]: the topic below the prefix. *)
Definition add_prefix (prefix topic : string) : string :=
  if negb (bool_decide (prefix = "")) && negb (HasPrefix topic "$") then prefix +:+ "/" +:+ topic else topic.
Definition strip_prefix (prefix topic : string) : string :=
  if negb (bool_decide (prefix = "")) && HasPrefix topic (prefix +:+ "/") then TrimPrefix topic (prefix +:+ "/") else topic.

(** What a hook returns for an error of the manager. *)
Definition returns {E} (now : Z) (err : option string) (m : TenantManager) (e : E) : called TenantManager E :=
  mkCalled (Returned (ErrHook <$> err)) now m e.

Definition tenant_OnConnect (ResolveTenant : string → string) : hook TenantManager ConnectEvent := λ now m e,
  let '(err, m) := TryConnect m (ce_ClientID e) (ResolveTenant (ce_Username e)) in returns now err m e.

Definition tenant_OnPublish : hook TenantManager PublishEvent := λ now m e,
  let '(err, m) := CheckPublish now m (pe_ClientID e) (len (pe_Payload e)) in
  match err with
  | Some _ => returns now err m e
  | None =>
      returns now None m (mkPublish (pe_ClientID e) (add_prefix (GetTopicPrefix m (pe_ClientID e)) (pe_Topic e))
                            (pe_Payload e) (pe_QoS e) (pe_Retain e))
  end.

Definition tenant_OnSubscribe : hook TenantManager SubscribeEvent := λ now m e,
  returns now None m
    (mkSubscribe (se_ClientID e) (add_prefix (GetTopicPrefix m (se_ClientID e)) (se_TopicFilter e)) (se_QoS e)).

Definition tenant_OnDelivery : hook TenantManager DeliveryEvent := λ now m e,
  returns now None m
    (mkDelivery (de_ClientID e) (strip_prefix (GetTopicPrefix m (de_ClientID e)) (de_Topic e)) (de_Payload e) (de_QoS e)).

Definition tenant_OnUnsubscribe : hook TenantManager UnsubscribeEvent := λ now m e,
  returns now None m (mkUnsubscribe (ue_ClientID e) (add_prefix (GetTopicPrefix m (ue_ClientID e)) (ue_TopicFilter e))).

Definition tenant_OnDisconnect (m : TenantManager) (e : DisconnectEvent) : TenantManager := release m (di_ClientID e).

Definition TenantInterceptor (ResolveTenant : string → string) : Interceptor TenantManager :=
  mkInterceptor "tenant" (λ m, (None, m)) (λ m, (None, m)) (Some (tenant_OnConnect ResolveTenant)) (Some tenant_OnPublish)
    (Some tenant_OnSubscribe) (Some tenant_OnDelivery) (Some tenant_OnUnsubscribe) (Some tenant_OnDisconnect) None.

(** The chain of [main.go] with tenants enabled, up to the interceptors after it. *)
Definition tenant_chain (ResolveTenant : string → string) : InterceptorChain TenantManager :=
  Register [] (TenantInterceptor ResolveTenant) [WithTimeout (50 * Millisecond)].

(** ** Quotas *)

(** The tenant that an identifier stands for: [""] is the default tenant. *)
Definition key (m : TenantManager) (tenantID : string) : string :=
  if bool_decide (tenantID ≠ "" ∧ is_Some (tenants m !! tenantID)) then tenantID else "".

Definition members (m : TenantManager) (tenantID : string) : gmap string string :=
  filter (λ ct, key m ct.2 = key m tenantID) (clients m).

(** Every count is the number of clients of the tenant and keeps to its limit; the default tenant
    has no limit. *)
Definition counted (m : TenantManager) : Prop :=
  MaxConnections (t_config (default_ m)) = 0 ∧
  ∀ t, ActiveConnections m t = Z.of_nat (size (members m t)) ∧
       (0 < MaxConnections (t_config (getState m t)) → ActiveConnections m t ≤ MaxConnections (t_config (getState m t))).

(** The steps of a running manager. A client connects once before it disconnects. *)
Inductive tstep (m : TenantManager) : TenantManager → Prop :=
  | tstep_connect c t : clients m !! c = None → tstep m (TryConnect m c t).2
  | tstep_release c : tstep m (release m c)
  | tstep_publish now c n : tstep m (CheckPublish now m c n).2.

(** A state by its tenant. *)
Lemma getState_key m t : getState m t = if bool_decide (key m t = "") then default_ m else default (default_ m) (tenants m !! t).
Proof.
  unfold getState, key. destruct (decide (t = "")) as [->|Hne].
  { rewrite (bool_decide_false (_ ∧ _)) by naive_solver. by rewrite !bool_decide_true. }
  rewrite (bool_decide_false (t = "")) by done. destruct (tenants m !! t) eqn:E.
  - rewrite (bool_decide_true (_ ∧ _)) by (by split; [|eexists]). by rewrite bool_decide_false.
  - rewrite (bool_decide_false (_ ∧ _)) by (intros [_ [x Hx]]; done). by rewrite bool_decide_true.
Qed.

Lemma key_cases m t : key m t = "" ∨ key m t = t ∧ t ≠ "" ∧ is_Some (tenants m !! t).
Proof. unfold key. case_bool_decide; naive_solver. Qed.

(** Changing a state changes it for the identifiers of the same tenant. *)
Lemma upd_state_key m t st t' : key (upd_state m t st) t' = key m t'.
Proof.
  unfold upd_state. case_bool_decide as Hc; [|done]. destruct Hc as [Hne Hs]. unfold key. cbn [tenants].
  rewrite (bool_decide_ext (t' ≠ "" ∧ is_Some (<[t:=st]> (tenants m) !! t')) (t' ≠ "" ∧ is_Some (tenants m !! t'))); [done|].
  rewrite lookup_insert_is_Some. destruct (decide (t = t')); naive_solver.
Qed.

Lemma upd_state_get m t st t' :
  getState (upd_state m t st) t' = if bool_decide (key m t' = key m t) then st else getState m t'.
Proof.
  rewrite !getState_key, upd_state_key. unfold upd_state.
  destruct (key_cases m t) as [Hk|(Hk & Hne & Hs)]; rewrite Hk.
  - rewrite (bool_decide_false (t ≠ "" ∧ _)) by (unfold key in Hk; case_bool_decide; naive_solver). cbn [default_ tenants].
    case_bool_decide as Hk'; [done|]. destruct (key_cases m t') as [?|(_ & _ & [x Hx])]; [done|]. by rewrite Hx.
  - rewrite (bool_decide_true (t ≠ "" ∧ _)) by done. cbn [default_ tenants]. destruct (key_cases m t') as [Hk'|(Hk' & Hne' & Hs')].
    + rewrite Hk'. rewrite bool_decide_true, bool_decide_false by done. done.
    + rewrite Hk'. rewrite (bool_decide_false (t' = "")) by done. case_bool_decide as He.
      * subst t'. by rewrite lookup_insert_eq.
      * by rewrite lookup_insert_ne.
Qed.

Lemma upd_state_clients m t st : clients (upd_state m t st) = clients m.
Proof. unfold upd_state. by case_bool_decide. Qed.
Lemma upd_state_default m t st : t_config st = t_config (getState m t) →
  t_config (default_ (upd_state m t st)) = t_config (default_ m).
Proof.
  rewrite getState_key. unfold upd_state, key. repeat case_bool_decide; cbn; try done; naive_solver.
Qed.

Lemma getState_same m t t' : key m t = key m t' → getState m t = getState m t'.
Proof.
  intros Hk. rewrite !getState_key, Hk. case_bool_decide as He; [done|].
  destruct (key_cases m t) as [?|(H1 & _)], (key_cases m t') as [?|(H2 & _)]; congruence.
Qed.

Lemma add_connections_get m t n t' :
  t_config (getState (add_connections m t n) t') = t_config (getState m t') ∧
  ActiveConnections (add_connections m t n) t' = ActiveConnections m t' + (if bool_decide (key m t' = key m t) then n else 0).
Proof.
  unfold ActiveConnections, add_connections. rewrite upd_state_get. case_bool_decide as Hk.
  - by rewrite (getState_same m t' t Hk).
  - split; [done|lia].
Qed.

(** The mapping of the clients changes neither the states nor their keys. *)
Lemma getState_clients m cl t : getState (mkManager (tenants m) cl (default_ m)) t = getState m t.
Proof. done. Qed.
Lemma key_clients m cl t : key (mkManager (tenants m) cl (default_ m)) t = key m t.
Proof. done. Qed.

Lemma count_insert (P : string * string → Prop) `{∀ x, Decision (P x)} (cl : gmap string string) c t : cl !! c = None →
  Z.of_nat (size (filter P (<[c := t]> cl))) = Z.of_nat (size (filter P cl)) + (if decide (P (c, t)) then 1 else 0).
Proof.
  intros Hc. case_decide as Hp.
  - rewrite map_filter_insert_True by done. rewrite map_size_insert_None; [lia|]. apply map_lookup_filter_None. by left.
  - rewrite map_filter_insert_False, delete_id by done. lia.
Qed.
Lemma count_delete (P : string * string → Prop) `{∀ x, Decision (P x)} (cl : gmap string string) c t : cl !! c = Some t →
  Z.of_nat (size (filter P (delete c cl))) = Z.of_nat (size (filter P cl)) - (if decide (P (c, t)) then 1 else 0).
Proof.
  intros Hc. rewrite <- (insert_delete_id cl c t Hc) at 2. rewrite count_insert by apply lookup_delete_eq. lia.
Qed.

Lemma members_eq m1 m2 cl t : (∀ x, key m1 x = key m2 x) → clients m1 = cl →
  members m1 t = filter (λ ct, key m2 ct.2 = key m2 t) cl.
Proof. intros Hk <-. unfold members. apply map_filter_ext. intros c x _. by rewrite !Hk. Qed.

Lemma commit_counted m c t : clients m !! c = None → quota_ok m t = true → counted m → counted (commit_connect m c t).
Proof.
  intros Hc Hq [Hd Hm]. unfold commit_connect. unfold add_connections at 1 2 3. split.
  { cbn [default_]. by rewrite upd_state_default. }
  intros t'. fold (add_connections m t 1). unfold ActiveConnections. rewrite getState_clients.
  destruct (add_connections_get m t 1 t') as [Hcf Ha]. unfold ActiveConnections in Ha. rewrite Hcf, Ha.
  destruct (Hm t') as [H1 H2]. unfold ActiveConnections in *.
  rewrite (members_eq _ m (<[c:=t]> (clients m)));
    [|intros x; apply upd_state_key|cbn [clients]; f_equal; apply upd_state_clients].
  split.
  - rewrite H1, count_insert by done. f_equal. cbn [snd]. case_bool_decide; case_decide; congruence.
  - intros Hp. specialize (H2 Hp). case_bool_decide as Hk; [|lia].
    rewrite (getState_same m t' t Hk) in *. unfold quota_ok in Hq. lia.
Qed.

Lemma release_counted m c : counted m → counted (release m c).
Proof.
  intros [Hd Hm]. unfold release. destruct (clients m !! c) as [t|] eqn:Hc; [|done].
  set (m1 := mkManager (tenants m) (delete c (clients m)) (default_ m)). split.
  { unfold add_connections. by rewrite upd_state_default. }
  intros t'. destruct (add_connections_get m1 t (-1) t') as [Hcf Ha]. rewrite Hcf, Ha. clear Hcf Ha.
  destruct (Hm t') as [H1 H2].
  rewrite (members_eq _ m (delete c (clients m))); [|intros x; by etransitivity; [apply upd_state_key|]|apply upd_state_clients].
  rewrite (count_delete _ _ _ t) by done.
  change (ActiveConnections m1 t') with (ActiveConnections m t'). change (getState m1 t') with (getState m t').
  change (key m1) with (key m). rewrite H1 in *. clear H1. cbn [snd]. unfold members in *.
  split; [|intros Hp; specialize (H2 Hp)]; case_bool_decide; try case_decide; try congruence; lia.
Qed.

Lemma publish_counted now m c n : counted m → counted (CheckPublish now m c n).2.
Proof.
  intros [Hd Hm]. unfold CheckPublish. destruct (clients m !! c) as [t|]; [|done]. case_match; [done|].
  destruct (Limiter_Allow _ _) as [ok l]. cbn [snd]. split; [by rewrite upd_state_default|].
  intros t'. destruct (Hm t') as [H1 H2]. unfold ActiveConnections in *.
  rewrite (members_eq _ m (clients m)); [|intros x; apply upd_state_key|apply upd_state_clients].
  rewrite upd_state_get. case_bool_decide as Hk; [|done]. cbn. by rewrite <- (getState_same m t' t Hk).
Qed.

Lemma load_zero parsed new : (∀ t st, new !! t = Some st → connections st = 0) →
  ∀ t st, foldl (load_tenant ∅) new parsed !! t = Some st → connections st = 0.
Proof.
  revert new. induction parsed as [|x parsed IH]; intros new Hnew; [done|]. cbn. apply IH. unfold load_tenant.
  rewrite lookup_empty. intros t st. rewrite lookup_insert_Some. intros [[_ <-]|[_ Ht]]; [done|by apply (Hnew t)].
Qed.

Lemma loaded_counted yaml m : LoadTenantsFromBytes NewManager yaml = (None, m) → counted m.
Proof.
  unfold LoadTenantsFromBytes. destruct (ParseTenants yaml) as [|parsed]; [done|]. intros [= <-]. split; [done|].
  intros t. set (m := mkManager _ _ _). assert (ActiveConnections m t = 0) as Ha.
  { unfold ActiveConnections, getState. case_bool_decide; [done|].
    destruct (tenants m !! t) as [st|] eqn:E; [|done]. by eapply (load_zero parsed ∅). }
  unfold members. cbn [clients m NewManager]. rewrite map_filter_empty, map_size_empty. split; [done|lia].
Qed.

(** The connection counts are exact: after the tenants were loaded into a new manager,
    whatever sequence of connections (of clients that are not connected), disconnections and
    publishes, the count of a tenant is the number of its connected clients, the default tenant
    having all those without a tenant of their own, and a tenant with a limit never has more. *)
Theorem quota_respected (yaml : string + list Tenant) (m0 m : TenantManager) (tenantID : string) :
  LoadTenantsFromBytes NewManager yaml = (None, m0) → rtc tstep m0 m →
  ActiveConnections m tenantID = Z.of_nat (size (members m tenantID)) ∧
  (0 < MaxConnections (t_config (getState m tenantID)) →
   ActiveConnections m tenantID ≤ MaxConnections (t_config (getState m tenantID))).
Proof.
  intros Hl Hsteps. cut (counted m); [intros [_ Hm]; apply Hm|]. apply loaded_counted in Hl.
  induction Hsteps as [|m1 m2 m3 Hs _ IH]; [done|]. apply IH. destruct Hs as [c t Hc|c|now c n].
  - unfold TryConnect. destruct (quota_ok m1 t) eqn:Hq; [by apply commit_counted|done].
  - by apply release_counted.
  - by apply publish_counted.
Qed.

(** ** Topics *)

(** A prefix that separates: one level that is no wildcard and no [$] topic. *)
Definition separating (prefix : string) : Prop :=
  prefix ≠ "" ∧ Contains prefix "/" = false ∧ prefix ≠ "+" ∧ prefix ≠ "#" ∧ first_byte prefix ≠ Some "$"%char.

Lemma dollar_HasPrefix t : HasPrefix t "$" = bool_decide (first_byte t = Some "$"%char).
Proof.
  destruct t as [|a t]; cbn; [done|]. destruct (Ascii.eqb_spec a "$"%char) as [->|Hne].
  - rewrite bool_decide_true by done. by destruct t.
  - by rewrite bool_decide_false by congruence.
Qed.

Lemma first_byte_app p t : p ≠ "" → first_byte (p +:+ t) = first_byte p.
Proof. by destruct p. Qed.

Lemma sys_guard_plain filter topic : first_byte topic ≠ Some "$"%char → sys_guard filter topic = false.
Proof. intros Ht. apply sys_guard_spec. by intros ?. Qed.

(** Below separating prefixes, filters match the topics of the same prefix that they matched
    without it, and no others. *)
Lemma prefixed_match p q f t : separating p → separating q → first_byte t ≠ Some "$"%char →
  TopicMatch (p +:+ "/" +:+ f) (q +:+ "/" +:+ t) = bool_decide (p = q) && TopicMatch f t.
Proof.
  intros (Hp0 & Hps & Hp1 & Hp2 & _) (Hq0 & Hqs & _ & _ & Hqd) Ht. unfold TopicMatch.
  rewrite !sys_guard_plain by (rewrite ?first_byte_app by done; done).
  change (p +:+ "/" +:+ f) with (p +:+ String "/" f). change (q +:+ "/" +:+ t) with (q +:+ String "/" t).
  rewrite !Split_app, match_loop_cons by done.
  destruct (String.eqb_spec p "#"), (String.eqb_spec p "+"), (String.eqb_spec p q); try done.
  - by rewrite bool_decide_true.
  - by rewrite bool_decide_false.
Qed.

Lemma add_prefix_plain p t : p ≠ "" → first_byte t ≠ Some "$"%char → add_prefix p t = p +:+ "/" +:+ t.
Proof.
  intros Hp Ht. unfold add_prefix. rewrite dollar_HasPrefix, !bool_decide_false by done. done.
Qed.
Lemma strip_add p t : first_byte t ≠ Some "$"%char → strip_prefix p (add_prefix p t) = t.
Proof.
  intros Ht. destruct (decide (p = "")) as [->|Hp]; [done|]. rewrite add_prefix_plain by done.
  unfold strip_prefix. rewrite bool_decide_false by done. rewrite <- append_assoc, HasPrefix_app, TrimPrefix_app. done.
Qed.

(** The operations on the subscription index when the filters go through [OnSubscribe] and
    [OnUnsubscribe]. *)
Definition prefixed_op (m : TenantManager) (o : Subscriptions.op) : Subscriptions.op :=
  match o with
  | Subscriptions.OpAdd c f q =>
      Subscriptions.OpAdd c (se_TopicFilter (evt (tenant_OnSubscribe 0 m (mkSubscribe c f q)))) q
  | Subscriptions.OpRemove c f =>
      Subscriptions.OpRemove c (ue_TopicFilter (evt (tenant_OnUnsubscribe 0 m (mkUnsubscribe c f))))
  | Subscriptions.OpRemoveAll c => Subscriptions.OpRemoveAll c
  end.

Lemma add_prefix_inj p f g : first_byte p ≠ Some "$"%char → add_prefix p f = add_prefix p g → f = g.
Proof.
  intros Hd. unfold add_prefix. rewrite !dollar_HasPrefix. destruct (bool_decide_reflect (p = "")) as [->|Hp]; [done|].
  destruct (bool_decide_reflect (first_byte f = Some "$"%char)) as [Hf|Hf],
    (bool_decide_reflect (first_byte g = Some "$"%char)) as [Hg|Hg]; cbn [negb andb]; [done|..].
  - intros ->. by rewrite first_byte_app in Hf.
  - intros <-. by rewrite first_byte_app in Hg.
  - intros E. apply (f_equal (λ x, TrimPrefix x (p +:+ "/"))) in E. by rewrite <- !append_assoc, !TrimPrefix_app in E.
Qed.

(** The index holds, of a client, its own filters below its prefix, and nothing else. *)
Lemma prefixed_run m ops c : first_byte (GetTopicPrefix m c) ≠ Some "$"%char →
  (∀ f, Subscriptions.spec_run (prefixed_op m <$> ops) c (add_prefix (GetTopicPrefix m c) f) = Subscriptions.spec_run ops c f) ∧
  (∀ g q, Subscriptions.spec_run (prefixed_op m <$> ops) c g = Some q → ∃ f, g = add_prefix (GetTopicPrefix m c) f).
Proof.
  intros Hd. unfold Subscriptions.spec_run. induction ops as [|o ops [IH1 IH2]] using rev_ind; [done|].
  rewrite fmap_app, !foldl_app. cbn [foldl fmap list_fmap]. split.
  - intros f. destruct o as [c' f' q|c' f'|c']; cbn; [..|by rewrite IH1];
      (case_decide as H1; case_decide as H2; [done|..|by apply IH1]).
    + destruct H1 as [<- H1]. by apply add_prefix_inj in H1 as <-; [destruct H2|].
    + destruct H2 as [<- <-]. by destruct H1.
    + destruct H1 as [<- H1]. by apply add_prefix_inj in H1 as <-; [destruct H2|].
    + destruct H2 as [<- <-]. by destruct H1.
  - intros g q. destruct o as [c' f' q'|c' f'|c']; cbn; case_decide as H1; try done; try apply IH2.
    destruct H1 as [<- ->]. intros _. by eexists.
Qed.

(** A filter that starts with [$] matches none of the other topics. *)
Lemma dollar_filter f t : first_byte f = Some "$"%char → first_byte t ≠ Some "$"%char → TopicMatch f t = false.
Proof.
  intros Hf Ht. unfold TopicMatch. rewrite sys_guard_plain by done.
  destruct f as [|a f]; [done|]. injection Hf as ->.
  destruct (Split_head t) as (h & rest & E & Hh).
  assert (∃ x r, Split "/" (String "$" f) = String "$" x :: r) as (x & r & ->).
  { cbn. destruct (Split "/" f); eauto. }
  rewrite E, match_loop_cons.
  assert (String.eqb (String "$" x) "#" = false) as -> by done.
  assert (String.eqb (String "$" x) "+" = false) as -> by done.
  assert (String.eqb (String "$" x) h = false) as ->.
  { apply String.eqb_neq. intros <-. destruct Hh as [|Hh]; [done|]. by rewrite <- Hh in Ht. }
  done.
Qed.

Lemma tenant_match p q f t : separating p → separating q → first_byte t ≠ Some "$"%char →
  TopicMatch (add_prefix p f) (add_prefix q t) = bool_decide (p = q) && TopicMatch f t.
Proof.
  intros Hp Hq Ht. rewrite (add_prefix_plain q) by (apply Hq || done).
  destruct (decide (first_byte f = Some "$"%char)) as [Hf|Hf].
  - rewrite (dollar_filter f t) by done. unfold add_prefix. rewrite dollar_HasPrefix, (bool_decide_true (_ = Some _)) by done.
    cbn [negb]. rewrite !andb_false_r. apply dollar_filter; [done|]. rewrite first_byte_app by apply Hq. apply Hq.
  - rewrite add_prefix_plain by (apply Hp || done). by apply prefixed_match.
Qed.

(** Publishing does not change the prefixes. *)
Lemma publish_prefix now m c n c' : GetTopicPrefix (CheckPublish now m c n).2 c' = GetTopicPrefix m c'.
Proof.
  unfold CheckPublish. destruct (clients m !! c) as [t|]; [|done]. case_match; [done|].
  destruct (Limiter_Allow _ _) as [ok l]. cbn [snd]. unfold GetTopicPrefix. rewrite upd_state_clients.
  destruct (clients m !! c') as [t'|]; [|done]. rewrite upd_state_get.
  destruct (bool_decide_reflect (key m t' = key m t)) as [Hk|]; [|done]. by rewrite (getState_same m t' t Hk).
Qed.

Lemma published_topic now m e : end_ (tenant_OnPublish now m e) = Returned None →
  pe_Topic (evt (tenant_OnPublish now m e)) = add_prefix (GetTopicPrefix m (pe_ClientID e)) (pe_Topic e).
Proof.
  unfold tenant_OnPublish. pose proof (publish_prefix now m (pe_ClientID e) (len (pe_Payload e)) (pe_ClientID e)) as Hp.
  destruct (CheckPublish _ _ _ _) as [[err|] m']; cbn in *; [done|]. by rewrite Hp.
Qed.

(** Tenants do not see each other: let filters and topics go through the hooks of the
    interceptor, and a client of a tenant publish on a topic that does not start with [$]. Then no
    client of a tenant with another prefix is matched, each client of a tenant with the same prefix is
    matched exactly as if its filters and the topic had no prefix, with the same QoS, and the
    topic that it is delivered is the one published; as long as the prefixes are single levels that
    are no wildcards and do not start with [$]. *)
Theorem tenant_isolation (m : TenantManager) (now : Z) (ops : list Subscriptions.op) (e : PublishEvent) (c : string) :
  separating (GetTopicPrefix m (pe_ClientID e)) → separating (GetTopicPrefix m c) →
  first_byte (pe_Topic e) ≠ Some "$"%char →
  end_ (tenant_OnPublish now m e) = Returned None →
  let idx := Subscriptions.run (prefixed_op m <$> ops) in
  let topic := pe_Topic (evt (tenant_OnPublish now m e)) in
  if decide (GetTopicPrefix m c = GetTopicPrefix m (pe_ClientID e)) then
    (∀ q, Subscriptions.mkMatch c q ∈ Subscriptions.Match idx topic ↔
          Subscriptions.mkMatch c q ∈ Subscriptions.Match (Subscriptions.run ops) (pe_Topic e)) ∧
    (∀ payload q, de_Topic (evt (tenant_OnDelivery now m (mkDelivery c topic payload q))) = pe_Topic e)
  else ∀ q, Subscriptions.mkMatch c q ∉ Subscriptions.Match idx topic.
Proof.
  intros Hp Hc Ht He idx topic. unfold topic, idx. rewrite published_topic by done. clear topic idx He.
  set (p := GetTopicPrefix m (pe_ClientID e)) in *. set (t := pe_Topic e) in *.
  destruct (prefixed_run m ops c) as [Hrun Hown]; [apply Hc|]. set (pc := GetTopicPrefix m c) in *.
  case_decide as Heq.
  - split.
    + intros q. rewrite !Subscriptions.Match_history.
      assert (∀ f, TopicMatch (add_prefix pc f) (add_prefix p t) = TopicMatch f t) as Hm.
      { intros f. rewrite tenant_match by done. by rewrite bool_decide_true by done. }
      split; intros [(f & Hf & Hq) Hmax].
      * destruct (Hown _ _ Hq) as [f0 ->]. rewrite Hm in Hf. rewrite Hrun in Hq. split; [by exists f0|].
        intros f' q' Hf' Hq'. apply (Hmax (add_prefix pc f')); [by rewrite Hm|by rewrite Hrun].
      * split; [exists (add_prefix pc f); by rewrite Hm, Hrun|]. intros g q' Hg Hq'.
        destruct (Hown _ _ Hq') as [f0 ->]. rewrite Hm in Hg. rewrite Hrun in Hq'. by apply (Hmax f0).
    + intros payload q. cbn. fold pc. rewrite Heq. by apply strip_add.
  - intros q. rewrite Subscriptions.Match_history. intros [(f & Hf & Hq) _].
    destruct (Hown _ _ Hq) as [f0 ->]. rewrite tenant_match in Hf by done. by rewrite bool_decide_false in Hf.
Qed.

(** ** Behind the executor *)

Lemma OnPublish_instant now m e : now ≤ at_ (tenant_OnPublish now m e).
Proof. unfold tenant_OnPublish. destruct (CheckPublish _ _ _ _) as [[err|] m']; cbn; lia. Qed.

(** Rejections switch the tenants off: when the first five publishes that the chain with the
    tenant interceptor gets are rejected, because a client of some tenant exceeds its message size or
    its rate, every publish of every client in the thirty seconds after them passes with its topic as
    it is, without the prefix of its tenant, and without any check. *)
Theorem rejections_lift_isolation (ResolveTenant : string → string) (m m' : TenantManager) (evs : list (Z * PublishEvent)) (t : Z) (e : PublishEvent)
    (results : list (option error * PublishEvent)) (c : InterceptorChain TenantManager) :
  feed hook_OnPublish (tenant_chain ResolveTenant) m evs = (results, c, m') → length evs = 5%nat →
  Forall (λ r, is_Some r.1) results → Forall (λ x, t - x.1 ≤ 30 * Second) evs →
  OnPublish c t m' e = (None, c, t, m', e).
Proof.
  intros Hf Hl Hr Ht. unfold OnPublish.
  by eapply (rejections_disable hook_OnPublish (TenantInterceptor ResolveTenant) tenant_OnPublish); [done|apply OnPublish_instant|..].
Qed.

(** ** Clients that connect twice *)

Lemma commit_active m c t t' :
  ActiveConnections (commit_connect m c t) t' = ActiveConnections m t' + (if bool_decide (key m t' = key m t) then 1 else 0).
Proof. unfold commit_connect. apply (add_connections_get m t 1 t'). Qed.
Lemma commit_key m c t t' : key (commit_connect m c t) t' = key m t'.
Proof. unfold commit_connect. rewrite key_clients. apply upd_state_key. Qed.

(** A client that connects again before its old connection is released loses its tenant with
    that release, although it is connected, and keeps a place of the quota for ever. *)
Lemma reconnect_loses_tenant m c t m1 m2 :
  TryConnect m c t = (None, m1) → TryConnect m1 c t = (None, m2) →
  GetTopicPrefix (release m2 c) c = "" ∧ ActiveConnections (release m2 c) t = ActiveConnections m t + 1 ∧
  release (release m2 c) c = release m2 c.
Proof.
  unfold TryConnect. destruct (quota_ok m t); [|done]. intros [= <-]. destruct (quota_ok _ t); [|done]. intros [= <-].
  assert (∀ m, clients (release (commit_connect m c t) c) !! c = None) as Hcl.
  { intros m0. unfold release, commit_connect at 1. cbn [clients]. rewrite lookup_insert_eq.
    unfold add_connections at 1. rewrite upd_state_clients. cbn [clients]. apply lookup_delete_eq. }
  specialize (Hcl (commit_connect m c t)). set (m2 := commit_connect (commit_connect m c t) c t) in *. split_and!.
  - unfold GetTopicPrefix. by rewrite Hcl.
  - unfold release. replace (clients m2 !! c) with (Some t) by (symmetry; apply lookup_insert_eq).
    destruct (add_connections_get (mkManager (tenants m2) (delete c (clients m2)) (default_ m2)) t (-1) t) as [_ ->].
    rewrite bool_decide_true by done. change (ActiveConnections m2 t + -1 = ActiveConnections m t + 1).
    unfold m2. rewrite !commit_active, commit_key, !bool_decide_true by done. lia.
  - set (m3 := release m2 c) in *. unfold release. by rewrite Hcl.
Qed.

(** Two connections that test the quota before either is counted exceed it. *)
Lemma quota_race m c1 c2 t : quota_ok m t = true → ActiveConnections m t + 1 = MaxConnections (t_config (getState m t)) →
  let m' := commit_connect (commit_connect m c1 t) c2 t in
  MaxConnections (t_config (getState m t)) < ActiveConnections m' t.
Proof.
  intros _ Hm m'. unfold m'. rewrite !commit_active, commit_key, !bool_decide_true by done. lia.
Qed.

End Manager.

(** ** Samples *)

(** A bucket that is not refilled. *)
#[local] Instance bucket : RateLimiter := {|
  Limiter := option Z;
  NewLimiter _ burst := Some burst;
  Inf_limiter := None;
  Limiter_Allow _ l := match l with None => (true, None) | Some n => if 0 <? n then (true, Some (n - 1)) else (false, Some n) end;
  Inf_allows _ := eq_refl
|}.

Definition sample_tenants : string + list Tenant := inr [mkTenant "acme" 2 0 4 ""; mkTenant "demo" 0 0 0 "d"].
Definition loaded : TenantManager := (LoadTenantsFromBytes NewManager sample_tenants).2.
Definition connected_clients : TenantManager :=
  (TryConnect (TryConnect (TryConnect loaded "a1" "acme").2 "a2" "acme").2 "d1" "demo").2.

Lemma quota_respected_witness : ActiveConnections connected_clients "acme" = 2 ∧ ActiveConnections connected_clients "acme" ≤ 2.
Proof.
  split; [vm_compute; reflexivity|].
  apply (quota_respected sample_tenants loaded connected_clients "acme"); [vm_compute; reflexivity| |vm_compute; reflexivity].
  eapply rtc_l; [by apply (tstep_connect _ "a1" "acme")|]. eapply rtc_l; [by apply (tstep_connect _ "a2" "acme")|].
  eapply rtc_once. by apply (tstep_connect _ "d1" "demo").
Defined.

Definition sample_ops : list Subscriptions.op := [Subscriptions.OpAdd "a2" "news/#" 1; Subscriptions.OpAdd "d1" "#" 2].

Lemma separating_word p : bool_decide (p ≠ "") && negb (Contains p "/") && bool_decide (p ≠ "+") && bool_decide (p ≠ "#") &&
  bool_decide (first_byte p ≠ Some "$"%char) = true → separating p.
Proof.
  rewrite !andb_true_iff, negb_true_iff, !bool_decide_eq_true. intros [[[[? ?] ?] ?] ?]. done.
Qed.

(** Whether a client is matched, as a test. *)
Definition matched_test (idx : Subscriptions.SubscriptionIndex) (topic c : string) (q : Z) : bool :=
  existsb (λ x, bool_decide (Subscriptions.m_ClientID x = c) && (Subscriptions.m_QoS x =? q)) (Subscriptions.Match idx topic).
Lemma matched_test_true idx topic c q : matched_test idx topic c q = true →
  Subscriptions.mkMatch c q ∈ Subscriptions.Match idx topic.
Proof.
  unfold matched_test. rewrite existsb_exists. intros ([c' q'] & Hin%list_elem_of_In & Hx). cbn in Hx.
  apply andb_true_iff in Hx as [Hc%bool_decide_eq_true Hq%Z.eqb_eq]. by subst.
Qed.

Lemma tenant_isolation_witness :
  let e := mkPublish "a1" "news/x" [1] 1 false in
  let idx := Subscriptions.run (prefixed_op connected_clients <$> sample_ops) in
  let topic := pe_Topic (evt (tenant_OnPublish 0 connected_clients e)) in
  topic = "acme/news/x" ∧ Subscriptions.mkMatch "a2" 1 ∈ Subscriptions.Match idx topic ∧
  Subscriptions.mkMatch "d1" 2 ∉ Subscriptions.Match idx topic.
Proof.
  intros e idx topic. split; [vm_compute; reflexivity|].
  assert (separating (GetTopicPrefix connected_clients "a1")) as H1 by (apply separating_word; vm_compute; reflexivity).
  assert (separating (GetTopicPrefix connected_clients "a2")) as H2 by (apply separating_word; vm_compute; reflexivity).
  assert (separating (GetTopicPrefix connected_clients "d1")) as H3 by (apply separating_word; vm_compute; reflexivity).
  split.
  - pose proof (tenant_isolation connected_clients 0 sample_ops e "a2" H1 H2) as H.
    rewrite decide_True in H by (vm_compute; reflexivity).
    destruct H as [H _]; [done|vm_compute; reflexivity|]. apply H. apply matched_test_true. vm_compute. reflexivity.
  - pose proof (tenant_isolation connected_clients 0 sample_ops e "d1" H1 H3) as H.
    rewrite decide_False in H by (vm_compute; congruence). apply H; [done|vm_compute; reflexivity].
Defined.

Definition oversized : Z * PublishEvent := (0, mkPublish "a1" "x" [1; 2; 3; 4; 5] 0 false).

Lemma rejections_lift_isolation_witness :
  let '(_, c, m) := feed hook_OnPublish (tenant_chain (λ _, "")) connected_clients (replicate 5 oversized) in
  let '(err, _, _, _, e) := OnPublish c (10 * Second) m (mkPublish "d1" "secret" [] 0 false) in
  err = None ∧ pe_Topic e = "secret".
Proof.
  pose proof (λ m' results c, rejections_lift_isolation (λ _, "") connected_clients m' (replicate 5 oversized) (10 * Second)
    (mkPublish "d1" "secret" [] 0 false) results c) as H.
  destruct (feed hook_OnPublish (tenant_chain (λ _, "")) connected_clients (replicate 5 oversized)) as [[rs c] m] eqn:E.
  specialize (H m rs c eq_refl eq_refl).
  assert (Forall (λ r, is_Some r.1) rs) as Hr.
  { apply (f_equal (λ x, bool_decide (Forall (λ r, is_Some r.1) x.1.1))) in E.
    assert (bool_decide (Forall (λ r, is_Some r.1) (feed hook_OnPublish (tenant_chain (λ _, "")) connected_clients
      (replicate 5 oversized)).1.1) = true) as Ht by (vm_compute; reflexivity).
    rewrite Ht in E. symmetry in E. by apply bool_decide_eq_true_1 in E. }
  assert (Forall (λ x : Z * PublishEvent, 10 * Second - x.1 ≤ 30 * Second) (replicate 5 oversized)) as Ht
    by (apply (bool_decide_eq_true_1 _); vm_compute; reflexivity).
  clear E. specialize (H Hr Ht). destruct (OnPublish c _ m _) as [[[[err c'] t'] m'] e']. by simplify_eq/=.
Defined.

End Tenants.
