(* ===== verification/Access.v ===== *)
(** * Authentication and authorization

    Model of [internal/auth/auth.go]: the credentials file and its validation, the store, and the
    decisions on users and topics. A file is the JSON document in it, or the error of reading or parsing
    it; [bcrypt.CompareHashAndPassword] is a parameter. *)
From S2P Require Import Prelude Topic Json.
Import TopicMatcher.

Module Access.

Record ACLRule := mkRule { r_Topic : string; r_Access : string }.
Record User := mkUser { u_Username : string; u_PasswordHash : string; u_TenantID : string; u_ACL : list ACLRule }.
Record CredentialStore := mkStore { users : gmap string User }.

(** [rule.Access != "publish" && rule.Access != "subscribe"] *)
Definition bad_rule (r : ACLRule) : bool :=
  negb (bool_decide (r_Access r = "publish")) && negb (bool_decide (r_Access r = "subscribe")).

(** The loop over the rules of a user: the error of the first bad one. *)
Fixpoint check_rules (username : string) (acl : list ACLRule) : option string :=
  match acl with
  | [] => None
  | r :: acl =>
      if bad_rule r then Some ("invalid access type '" +:+ r_Access r +:+ "' for user " +:+ username +:+
                               ": must be 'publish' or 'subscribe'")
      else check_rules username acl
  end.

(** The loop of [LoadCredentials]. *)
Fixpoint load_users (store : gmap string User) (l : list User) : string + gmap string User :=
  match l with
  | [] => inr store
  | u :: l =>
      if bool_decide (u_Username u = "") then inl "username cannot be empty"
      else if bool_decide (is_Some (store !! u_Username u)) then inl ("duplicate username: " +:+ u_Username u)
      else if bool_decide (u_PasswordHash u = "") then inl ("password_hash cannot be empty for user: " +:+ u_Username u)
      else match check_rules (u_Username u) (u_ACL u) with
           | Some err => inl err
           | None => load_users (<[u_Username u := u]> store) l
           end
  end.

(** *** The document *)

(** [json.Unmarshal] into the structs of the file, for documents that name a field at most once and as its
    tag writes it: a field that is missing or [null] keeps its zero value, others are ignored, and a value
    of another type is an error. *)
Definition fields_of (v : js) : option (list (string * js)) :=
  match v with JNull => Some [] | JObj fields => Some fields | _ => None end.
Definition string_of (v : option js) : option string :=
  match v with None | Some JNull => Some "" | Some (JStr s) => Some s | _ => None end.
Definition slice_of {A} (f : js → option A) (v : option js) : option (list A) :=
  match v with None | Some JNull => Some [] | Some (JArr l) => mapM f l | _ => None end.

Definition read_rule (v : js) : option ACLRule :=
  fields ← fields_of v;
  topic ← string_of (assoc "topic" fields);
  access ← string_of (assoc "access" fields);
  Some (mkRule topic access).
Definition read_user (v : js) : option User :=
  fields ← fields_of v;
  username ← string_of (assoc "username" fields);
  hash ← string_of (assoc "password_hash" fields);
  tenant ← string_of (assoc "tenant_id" fields);
  acl ← slice_of read_rule (assoc "acl" fields);
  Some (mkUser username hash tenant acl).
(** [credentialsFile] *)
Definition read_users (doc : js) : option (list User) :=
  fields ← fields_of doc;
  slice_of read_user (assoc "users" fields).

(** What is in the file: nothing that can be read, no JSON, or a document, with the error of
    [json.Unmarshal] in case it does not fit the structs. *)
Inductive credentials := Unreadable (err : string) | Unparsable (err : string) | Document (doc : js) (err : string).

Definition LoadCredentials (file : credentials) : string + CredentialStore :=
  match file with
  | Unreadable err => inl ("failed to read credentials file: " +:+ err)
  | Unparsable err => inl ("failed to parse credentials file: " +:+ err)
  | Document doc err =>
      match read_users doc with
      | None => inl ("failed to parse credentials file: " +:+ err)
      | Some l => match load_users ∅ l with inl err => inl err | inr m => inr (mkStore m) end
      end
  end.

(** [topicMatch] is a line-by-line copy of [TopicMatch]. *)
Definition topicMatch (filter topic : string) : bool := TopicMatch filter topic.

Section Bcrypt.
Context (CompareHashAndPassword : string → list Z → bool).

Definition Authenticate (cs : CredentialStore) (username : string) (password : list Z) : bool :=
  match users cs !! username with
  | None => false
  | Some user => CompareHashAndPassword (u_PasswordHash user) password
  end.

End Bcrypt.

Fixpoint acl_loop (topic action : string) (acl : list ACLRule) : bool :=
  match acl with
  | [] => false
  | r :: acl => if bool_decide (r_Access r = action) && topicMatch (r_Topic r) topic then true else acl_loop topic action acl
  end.

Definition Authorize (cs : CredentialStore) (username topic action : string) : bool :=
  match users cs !! username with
  | None => false
  | Some user => acl_loop topic action (u_ACL user)
  end.

Definition ResolveTenant (cs : CredentialStore) (username : string) : string :=
  match users cs !! username with None => "" | Some user => u_TenantID user end.

(** [NoopAuth]. *)
Definition Noop_Authenticate (username : string) (password : list Z) : bool := true.
Definition Noop_Authorize (username topic action : string) : bool := true.
Definition Noop_ResolveTenant (username : string) : string := "".

(** ** Loading *)

Definition user_ok (u : User) : Prop :=
  u_Username u ≠ "" ∧ u_PasswordHash u ≠ "" ∧ Forall (λ r, r_Access r = "publish" ∨ r_Access r = "subscribe") (u_ACL u).

Lemma bad_rule_false r : bad_rule r = false ↔ r_Access r = "publish" ∨ r_Access r = "subscribe".
Proof. unfold bad_rule. repeat case_bool_decide; naive_solver. Qed.

Lemma check_rules_spec name acl :
  check_rules name acl = None ↔ Forall (λ r, r_Access r = "publish" ∨ r_Access r = "subscribe") acl.
Proof.
  induction acl as [|r acl IH]; cbn; [by rewrite Forall_nil|]. rewrite Forall_cons, <- bad_rule_false, <- IH.
  destruct (bad_rule r); naive_solver.
Qed.

Definition user_map (l : list User) : gmap string User := list_to_map ((λ u, (u_Username u, u)) <$> l).

Lemma user_map_None l name : name ∉ (u_Username <$> l) → user_map l !! name = None.
Proof. intros Hn. apply not_elem_of_list_to_map_1. by rewrite <- list_fmap_compose. Qed.

Lemma load_users_spec store l m :
  load_users store l = inr m ↔
  Forall user_ok l ∧ NoDup (u_Username <$> l) ∧ (∀ u, u ∈ l → store !! u_Username u = None) ∧ m = user_map l ∪ store.
Proof.
  revert store. induction l as [|u l IH]; intros store; cbn [load_users].
  - unfold user_map. cbn. rewrite (left_id_L ∅ (∪)). split; [intros [= ->]; split_and!; [constructor|constructor|set_solver|done]|].
    intros (_ & _ & _ & ->). done.
  - rewrite Forall_cons, fmap_cons, NoDup_cons. unfold user_ok at 1. rewrite <- (check_rules_spec (u_Username u)).
    assert (∀ m', m' = user_map (u :: l) ∪ store ↔ m' = <[u_Username u := u]> (user_map l ∪ store)) as Hm.
    { intros m'. unfold user_map. cbn. by rewrite insert_union_l. }
    rewrite Hm. case_bool_decide as H1; [naive_solver|]. case_bool_decide as H2.
    { split; [done|]. intros (_ & _ & Hf & _). specialize (Hf u ltac:(set_solver)). rewrite Hf in H2. by destruct H2. }
    case_bool_decide as H3; [naive_solver|]. destruct (check_rules _ _) as [err|]; [naive_solver|].
    rewrite IH. split.
    + intros (Hok & Hnd & Hf & ->).
      assert (u_Username u ∉ u_Username <$> l) as Hu.
      { intros (u' & Hu' & Hin)%list_elem_of_fmap. specialize (Hf u' Hin). by rewrite Hu', lookup_insert_eq in Hf. }
      split_and!; try done; [|by rewrite insert_union_r by by apply user_map_None].
      intros u' [->|Hin]%elem_of_cons; [by apply eq_None_not_Some|]. specialize (Hf u' Hin).
      apply lookup_insert_None in Hf. naive_solver.
    + intros (([_ _] & Hok) & [Hu Hnd] & Hf & ->). split_and!; try done.
      * intros u' Hin. apply lookup_insert_None. split; [set_solver|]. intros E. apply Hu. apply list_elem_of_fmap. eauto.
      * by rewrite insert_union_r by by apply user_map_None.
Qed.

Lemma acl_loop_spec topic action acl :
  acl_loop topic action acl = true ↔ ∃ r, r ∈ acl ∧ r_Access r = action ∧ TopicMatch (r_Topic r) topic = true.
Proof.
  induction acl as [|r acl IH]; cbn; [set_solver|]. unfold topicMatch at 1. setoid_rewrite elem_of_cons.
  destruct (bool_decide (r_Access r = action) && TopicMatch (r_Topic r) topic) eqn:E.
  - apply andb_true_iff in E as [Ha%bool_decide_eq_true Hm]. split; [|done]. intros _. exists r. auto.
  - rewrite IH. split; [intros (r' & Hr' & H'); exists r'; auto|]. intros (r' & [->|Hr'] & Ha & Hm); [|by exists r'].
    by rewrite bool_decide_true, Hm in E.
Qed.

Lemma loaded_lookup l name u : Forall user_ok l → NoDup (u_Username <$> l) →
  (user_map l ∪ ∅) !! name = Some u ↔ u ∈ l ∧ u_Username u = name.
Proof.
  intros _ Hnd. rewrite (right_id_L ∅ (∪)). unfold user_map. rewrite <- elem_of_list_to_map.
  - rewrite list_elem_of_fmap. naive_solver.
  - by rewrite <- list_fmap_compose.
Qed.

(** A document for a list of users. *)
Definition rule_json (r : ACLRule) : js := JObj [("topic", JStr (r_Topic r)); ("access", JStr (r_Access r))].
Definition user_json (u : User) : js :=
  JObj [("username", JStr (u_Username u)); ("password_hash", JStr (u_PasswordHash u)); ("tenant_id", JStr (u_TenantID u));
        ("acl", JArr (rule_json <$> u_ACL u))].
Definition users_json (l : list User) : js := JObj [("users", JArr (user_json <$> l))].

Lemma mapM_written {A} (read : js → option A) write l : (∀ a, read (write a) = Some a) → mapM read (write <$> l) = Some l.
Proof. intros Hr. induction l as [|a l IH]; [done|]. cbn. by rewrite Hr, IH. Qed.

Lemma read_written l : read_users (users_json l) = Some l.
Proof.
  cbn. apply mapM_written. intros [name hash tenant acl]. unfold read_user. cbn.
  assert (mapM read_rule (rule_json <$> acl) = Some acl) as -> by (apply mapM_written; intros r; by destruct r). done.
Qed.

Lemma load_users_exact l : (∃ m, load_users ∅ l = inr m) ↔ Forall user_ok l ∧ NoDup (u_Username <$> l).
Proof.
  split; [intros [m (? & ? & _)%load_users_spec]; done|]. intros [Hok Hnd]. exists (user_map l ∪ ∅). apply load_users_spec.
  by split_and!.
Qed.

Lemma load_document doc err cs : LoadCredentials (Document doc err) = inr cs ↔
  ∃ l, read_users doc = Some l ∧ load_users ∅ l = inr (users cs).
Proof.
  cbn. destruct (read_users doc) as [l|]; [|naive_solver]. destruct (load_users ∅ l) as [e|m] eqn:E.
  - split; [done|]. intros (? & [= <-] & Hm). by rewrite E in Hm.
  - split; [intros [= <-]; by exists l|]. intros (? & [= <-] & Hm). rewrite E in Hm. destruct cs. by injection Hm as ->.
Qed.

(** C33: access is what the document in the credentials file says. It is accepted exactly when it can be
    read as an object whose field [users] lists users (the list is empty when the document or the field is
    [null] or the field is missing) of whom every one has a name and a password hash, no two have the same
    name, and every rule is for publishing or subscribing; a document that is an array is refused, whatever
    is in it. And then a password is right exactly when it fits the hash of the user of that name, and an
    action on a topic is allowed exactly when a rule of that user for the action has a filter that matches
    the topic. An unknown user is refused both. (Documents name each field at most once, as its tag writes
    it.) *)
Theorem access_exact (cmp : string → list Z → bool) (doc : js) (err : string) :
  ((∃ cs, LoadCredentials (Document doc err) = inr cs) ↔
   ∃ l, read_users doc = Some l ∧ Forall user_ok l ∧ NoDup (u_Username <$> l)) ∧
  (∀ l, read_users (users_json l) = Some l) ∧
  (∀ vs, LoadCredentials (Document (JArr vs) err) = inl ("failed to parse credentials file: " +:+ err)) ∧
  ∀ l cs name, read_users doc = Some l → LoadCredentials (Document doc err) = inr cs →
    (∀ pw, Authenticate cmp cs name pw = true ↔
       ∃ u, u ∈ l ∧ u_Username u = name ∧ cmp (u_PasswordHash u) pw = true) ∧
    (∀ topic action, Authorize cs name topic action = true ↔
       ∃ u r, u ∈ l ∧ u_Username u = name ∧ r ∈ u_ACL u ∧ r_Access r = action ∧ TopicMatch (r_Topic r) topic = true).
Proof.
  split; [|split; [apply read_written|split; [done|]]].
  - setoid_rewrite load_document. setoid_rewrite <- load_users_exact. split.
    + intros (cs & l & Hl & Hm). eauto.
    + intros (l & Hl & m & Hm). by exists (mkStore m), l.
  - intros l cs name Hdoc (l' & Hl' & (Hok & Hnd & _ & Hm)%load_users_spec)%load_document.
    rewrite Hdoc in Hl'. injection Hl' as <-. unfold Authenticate, Authorize. rewrite Hm.
    pose proof (λ u, loaded_lookup l name u Hok Hnd) as Hu. split.
    + intros pw. destruct ((user_map l ∪ ∅) !! name) as [u|]; [|naive_solver].
      destruct (proj1 (Hu u) eq_refl) as [Hin Hn]. split; [eauto|]. intros (u' & Hin' & Hn' & Hc).
      assert (Some u = Some u') as [= ->] by (apply Hu; done). done.
    + intros topic action. destruct ((user_map l ∪ ∅) !! name) as [u|]; [|naive_solver]. rewrite acl_loop_spec.
      destruct (proj1 (Hu u) eq_refl) as [Hin Hn]. split; [naive_solver|]. intros (u' & r & Hin' & Hn' & Hr).
      assert (Some u = Some u') as [= ->] by (apply Hu; done). eauto.
Qed.

(** The format that the README gives, a list of the users, is refused. *)
Lemma readme_file_refused err :
  LoadCredentials (Document (JArr [JObj [("username", JStr "device1"); ("password_hash", JStr "$2a$10$...")];
                                   JObj [("username", JStr "admin"); ("password_hash", JStr "$2a$10$...")]]) err) =
    inl ("failed to parse credentials file: " +:+ err).
Proof. done. Qed.

(** ** Subscriptions *)

(** Matching is transitive through a filter without [#]. *)
Lemma match_loop_trans rs fs ts : "#" ∉ fs →
  match_loop rs fs 0 rs = true → match_loop fs ts 0 fs = true → match_loop rs ts 0 rs = true.
Proof.
  revert fs ts. induction rs as [|r rs IH]; intros fs ts Hh H1 H2.
  - destruct fs; [|done]. by destruct ts.
  - destruct (String.eqb_spec r "#") as [->|Hr]; [by destruct ts|].
    destruct fs as [|f fs]; [by cbn in H1; rewrite (proj2 (String.eqb_neq r "#") Hr) in H1|].
    apply not_elem_of_cons in Hh as [Hf Hh]. destruct ts as [|t ts].
    { cbn in H2. by rewrite (proj2 (String.eqb_neq f "#")) in H2 by done. }
    rewrite match_loop_cons in *. rewrite (proj2 (String.eqb_neq f "#")) in H2 by done.
    rewrite (proj2 (String.eqb_neq r "#") Hr) in *.
    destruct (String.eqb_spec r "+") as [->|Hp].
    + apply (IH fs); [done|done|]. destruct (String.eqb f "+"); [done|]. by destruct (String.eqb f t).
    + destruct (String.eqb_spec r f) as [->|]; [|done]. rewrite (proj2 (String.eqb_neq f "+") Hp) in H2.
      destruct (String.eqb_spec f t) as [->|]; [|done]. by apply (IH fs).
Qed.

Lemma TopicMatch_trans r f t : "#" ∉ Split "/" f →
  TopicMatch r f = true → TopicMatch f t = true → TopicMatch r t = true.
Proof.
  unfold TopicMatch. intros Hh. destruct (sys_guard r f) eqn:G1; [done|]. destruct (sys_guard f t) eqn:G2; [done|].
  intros H1 H2. rewrite (match_loop_trans _ _ _ Hh H1 H2). apply sys_guard_spec in G1, G2.
  replace (sys_guard r t) with false; [done|]. symmetry. apply sys_guard_spec. intros Ht. apply G1.
  specialize (G2 Ht). destruct G2 as [Gp Gh]. destruct t as [|a t]; [done|]. injection Ht as ->.
  assert (∃ x ts, Split "/" (String "$" t) = String "$" x :: ts) as (x & ts & E).
  { cbn. destruct (Split "/" t); eauto. }
  rewrite E in H2. destruct (Split_head f) as (h & rest & Ef & Hf). rewrite Ef in H2, Hh.
  apply not_elem_of_cons in Hh as [Hne _]. rewrite match_loop_cons, (proj2 (String.eqb_neq h "#")) in H2 by done.
  destruct (String.eqb_spec h "+") as [->|_]; [by destruct Hf as [|Hf]; [|rewrite <- Hf in Gp]|].
  destruct (String.eqb_spec h (String "$" x)) as [->|]; [|done]. destruct Hf as [|Hf]; [done|]. by rewrite <- Hf.
Qed.

Lemma authorized_covers (cs : CredentialStore) (name filter : string) :
  Authorize cs name filter "subscribe" = true → "#" ∉ Split "/" filter →
  ∃ u r, users cs !! name = Some u ∧ r ∈ u_ACL u ∧ r_Access r = "subscribe" ∧
    ∀ topic, TopicMatch filter topic = true → TopicMatch (r_Topic r) topic = true.
Proof.
  unfold Authorize. destruct (users cs !! name) as [u|]; [|done]. intros (r & Hr & Ha & Hm)%acl_loop_spec Hh.
  exists u, r. split_and!; try done. intros topic. by apply TopicMatch_trans.
Qed.

(** ** Samples *)

Definition sample_users : list User :=
  [mkUser "ann" "h1" "acme" [mkRule "rooms/+" "subscribe"; mkRule "rooms/1" "publish"]; mkUser "bob" "h2" "" []].
Definition sample_store : CredentialStore := mkStore (user_map sample_users).

Lemma access_exact_witness :
  let doc := users_json sample_users in
  (∃ cs, LoadCredentials (Document doc "") = inr cs) ∧ LoadCredentials (Document doc "") = inr sample_store ∧
  Authorize sample_store "ann" "rooms/1" "publish" = true ∧ Authorize sample_store "bob" "rooms/1" "publish" = false.
Proof.
  intros doc. destruct (access_exact (λ _ _, true) doc "") as (H1 & Hw & _ & H2). split.
  { apply H1. exists sample_users. split; [exact (Hw sample_users)|]. split; [apply (bool_decide_eq_true_1 _); vm_compute; reflexivity|].
    apply (bool_decide_eq_true_1 _). vm_compute. reflexivity. }
  split; [vm_compute; reflexivity|]. split; [|vm_compute; reflexivity].
  apply (H2 sample_users sample_store "ann"); [exact (Hw sample_users)|vm_compute; reflexivity|].
  exists (mkUser "ann" "h1" "acme" [mkRule "rooms/+" "subscribe"; mkRule "rooms/1" "publish"]), (mkRule "rooms/1" "publish").
  unfold sample_users. split_and!; try done; set_solver.
Defined.

(** A rule for one level allows a subscription to all levels below: the filter is matched as if
    it were a topic, and [+] matches its level [#]. *)
Lemma acl_escalation :
  Authorize sample_store "ann" "rooms/#" "subscribe" = true ∧ TopicMatch "rooms/#" "rooms/1/door/key" = true ∧
  TopicMatch "rooms/+" "rooms/1/door/key" = false.
Proof. vm_compute. done. Qed.

End Access.
