(* ===== verification/Secured.v ===== *)
(** * The broker with access control

    The handlers of the broker composed with the credentials of [internal/auth] and the limiter of
    [internal/ratelimit], as [cmd/dmqtt/main.go] puts them together without interceptors:
    which subscriptions a run of the broker can come to hold, and on whose authority. *)
From S2P Require Import Prelude Frame Packets PacketFacts Topic Storage Subscriptions Offline OfflineFacts Sessions Retain Wills Interceptors Broker BrokerFacts Hooks Doubles RateLimit Access RemoteSubs.
Import Frame Packets TopicMatcher Broker.

Module Secured.

(** ** Subscriptions are granted *)

Section Granted.
Context {db : Type} `{Storage.Store db} `{Env}
  `{Offline.MessageJSON} `{Sessions.SessionJSON} `{Retain.RetainedJSON} `{Wills.WillJSON}.
Notation Broker := (Broker db).
Implicit Types b : Broker.

(** The part of the broker that says who is subscribed to what. *)
Definition view b : Subscriptions.SubscriptionIndex * gmap string Sessions.Session := (subscriptions b, sess b).

(** *** What leaves the subscriptions alone *)

Lemma send_view b id data b' : send b id data = Ok b' → view b' = view b.
Proof. unfold send. intros. inv_ok. done. Qed.

Lemma on_wills_view b f : view (on_wills b f) = view b.
Proof. unfold on_wills. by destruct (willStore b). Qed.

Lemma broadcast_view b o : view (broadcast b o) = view b.
Proof. unfold broadcast. by destruct (remote b). Qed.

Lemma unregister_view b id c : view (unregisterClient b id c) = view b.
Proof. unfold unregisterClient. by case_bool_decide. Qed.

Lemma route_view now b topic payload qos retain fwd b' :
  routeMessage now b topic payload qos retain fwd = Ok b' → view b' = view b.
Proof.
  unfold routeMessage. intros (b1 & H1' & [= <-])%bind_Ok.
  assert (view b1 = view b) as <-.
  { eapply (fold_res_inv _ view); [|exact H1']. intros b0 d b0'. by apply deliver_one_frame. }
  rewrite <- (enqueue_frame view now topic payload
    (omap (offline_target b qos) (Subscriptions.Match (subscriptions b) topic)) (λ _ _, eq_refl) b1).
  case_match; [done|]. by apply (forward_all_frame view).
Qed.

Lemma accept_publish_view now b c fh pkt b' : accept_publish now b c fh pkt = Ok b' → view b' = view b.
Proof.
  unfold accept_publish. case_match; [by intros [= <-]|].
  destruct (AllowPublish _ _ _ _) as [ok l]. case_match; [by intros [= <-]|]. cbn zeta.
  set (b2 := if Frame.Retain fh then _ else _). assert (view b2 = view b) as <- by (unfold b2; by case_match).
  destruct interceptors as [chain|]; [destruct (OnPublish chain _ _) as [[e|] h]; cbn zeta|]; intros Hx;
    [by apply route_view in Hx|by injection Hx as <-|by apply route_view in Hx].
Qed.

Lemma publish_view now b id fh data b' : handlePublish now b id fh data = Ok b' → view b' = view b.
Proof.
  unfold handlePublish. destruct (DecodePublishPacket _ _ _); try (intros; inv_ok; by subst).
  intros ([b1 go] & Hack & Hrest)%bind_Ok.
  assert (view b1 = view b) as <-.
  { unfold ack_publish in Hack. repeat (case_match; inv_ok; simplify_eq); try done;
      match goal with E : send _ _ _ = Ok _ |- _ => apply send_view in E; by rewrite E end. }
  destruct go; [|by injection Hrest as <-]. apply bind_Ok in Hrest as (c & _ & Hx). by apply accept_publish_view in Hx.
Qed.

Lemma will_view now b c w b' : publish_will now b c w = Ok b' → view b' = view b.
Proof.
  unfold publish_will. intros (b1 & Hr & [= <-])%bind_Ok. rewrite on_wills_view. apply route_view in Hr. rewrite Hr. by case_match.
Qed.

Lemma disconnectExisting_view b c b' : disconnectExisting b c = Ok b' → view b' = view b.
Proof.
  unfold disconnectExisting, sendDisconnectAndClose. case_match; [|by intros [= <-]]. intros. inv_ok. by subst.
Qed.

Lemma intercept_subscribe_view b e : view (intercept_subscribe b e).2 = view b.
Proof. unfold intercept_subscribe. by repeat case_match. Qed.
Lemma intercept_unsubscribe_view b e : view (intercept_unsubscribe b e).2 = view b.
Proof. unfold intercept_unsubscribe. by repeat case_match. Qed.
Lemma intercept_connect_view b e : view (intercept_connect b e).2 = view b.
Proof. unfold intercept_connect. by repeat case_match. Qed.
Lemma notify_view b id c : view (notify_disconnect b id c) = view b.
Proof. unfold notify_disconnect. by case_match. Qed.

(** *** Who may subscribe to what *)

(** The interceptors in the state [h] make a SUBSCRIBE one for the filter [f] at QoS [q]. *)
Definition intercepted (h : hooks) (e : Interceptors.SubscribeEvent) (f : string) (q : Z) : Prop :=
  match interceptors with
  | Some chain => ∃ e', (OnSubscribe chain h e).1 = Some e' ∧ Interceptors.se_TopicFilter e' = f ∧ Interceptors.se_QoS e' = q
  | None => f = Interceptors.se_TopicFilter e ∧ q = Interceptors.se_QoS e
  end.

(** The client may subscribe to the filter of [s]: it is one, the authorizer and the limiter allow it, and
    the interceptors make it [f] at the QoS [q]. *)
Definition may_subscribe b (c : Client) (s : Subscription) (f : string) (q : Z) : Prop :=
  TopicFilterValid (TopicFilter s) = true ∧ Authorize (c_username c) (TopicFilter s) "subscribe" = true ∧
  (AllowSubscribe (rl b) (c_clientID c) (TopicFilter s)).1 = true ∧
  intercepted (hk b) (Interceptors.mkSubscribe (c_clientID c) (TopicFilter s) (if 2 <? sub_QoS s then 2 else sub_QoS s)) f q.

(** One of the subscriptions of a packet, met by the interceptors in the state that the ones before it
    left. *)
Definition one_of b (c : Client) (has : bool) (subs : list Subscription) (f : string) (q : Z) : Prop :=
  ∃ pre s post, subs = pre ++ s :: post ∧ may_subscribe (subscribe_all b c has pre).1 c s f q.

Definition subscribes b (id : nat) (data : list Z) (cl : Client) (f : string) (q : Z) : Prop :=
  conns b !! id = Some cl ∧ ∃ pkt, DecodeSubscribePacket data (c_protocolVersion cl) = Ok pkt ∧
    one_of b cl (bool_decide (is_Some (Sessions.Get (sessions b) (c_clientID cl)))) (sub_Subscriptions pkt) f q.

(** *** The subscriptions of the index and of the sessions are in [G] *)

Section Invariant.
Context (G : string → string → Z → Prop).

Record granted_in (v : Subscriptions.SubscriptionIndex * gmap string Sessions.Session) : Prop := {
  gr_ok : Subscriptions.index_ok v.1;
  gr_index : ∀ c f q, Subscriptions.sub_qos v.1 c f = Some q → G c f q;
  gr_sess : ∀ c s f q, v.2 !! c = Some s → Sessions.Subscriptions s !! f = Some q → G c f q
}.

Lemma granted_add idx ss c f q : granted_in (idx, ss) → G c f q → granted_in (Subscriptions.Add idx c f q, ss).
Proof.
  intros [H1' H2' H3'] Hg. constructor; cbn in *; [by apply Subscriptions.Add_ok| |done].
  intros c' f' q'. rewrite Subscriptions.Add_sub_qos. case_decide as Hd; [destruct Hd; subst; by intros [= <-]|apply H2'].
Qed.

Lemma granted_add_all idx ss c l : granted_in (idx, ss) → Forall (λ fq : string * Z, G c fq.1 fq.2) l →
  granted_in (foldl (λ idx fq, Subscriptions.Add idx c fq.1 fq.2) idx l, ss).
Proof.
  intros Hg Hl. revert idx Hg. induction Hl as [|[f q] l Hf _ IH]; intros idx Hg; [done|].
  cbn. apply IH. by apply granted_add.
Qed.

Lemma granted_fewer idx idx' ss : granted_in (idx, ss) → Subscriptions.index_ok idx' →
  (∀ c f q, Subscriptions.sub_qos idx' c f = Some q → Subscriptions.sub_qos idx c f = Some q) → granted_in (idx', ss).
Proof. intros [H1' H2' H3'] Hok Hle. constructor; cbn in *; eauto. Qed.

Lemma granted_remove idx ss c f : granted_in (idx, ss) → granted_in (Subscriptions.Remove idx c f, ss).
Proof.
  intros Hg. pose proof (gr_ok _ Hg) as Hok. eapply granted_fewer; [exact Hg|by apply Subscriptions.Remove_ok|].
  intros c' f' q'. rewrite Subscriptions.Remove_sub_qos by done. by case_decide.
Qed.

Lemma granted_removeAll idx ss c : granted_in (idx, ss) → granted_in (Subscriptions.RemoveAll idx c, ss).
Proof.
  intros Hg. pose proof (gr_ok _ Hg) as Hok. eapply granted_fewer; [exact Hg|by apply Subscriptions.RemoveAll_ok|].
  intros c' f' q'. rewrite Subscriptions.RemoveAll_sub_qos by done. by case_decide.
Qed.

(** A session put in place of the client's whose subscriptions are in [G]. *)
Lemma granted_put idx ss c s : granted_in (idx, ss) →
  (∀ f q, Sessions.Subscriptions s !! f = Some q → G c f q) → granted_in (idx, <[c := s]> ss).
Proof.
  intros [H1' H2' H3'] Hs. constructor; cbn in *; [done..|]. intros c' s' f q'.
  destruct (decide (c' = c)) as [->|]; [rewrite lookup_insert_eq; intros [= <-]; auto|rewrite lookup_insert_ne by done; eauto].
Qed.

Lemma granted_delete idx ss c : granted_in (idx, ss) → granted_in (idx, delete c ss).
Proof.
  intros [H1' H2' H3']. constructor; cbn in *; [done..|]. intros c' s' f q' [_ ?]%lookup_delete_Some. eauto.
Qed.

Lemma persist_sessions (ss : Sessions.SessionStore db) c s : Sessions.sessions (Sessions.persist ss c s) = Sessions.sessions ss.
Proof. unfold Sessions.persist. by case_match. Qed.

Lemma Save_sessions (ss : Sessions.SessionStore db) c : Sessions.sessions (Sessions.Save ss c) = Sessions.sessions ss.
Proof. unfold Sessions.Save. case_match; [apply persist_sessions|done]. Qed.

Lemma granted_update idx b c f : granted_in (idx, sess b) →
  (∀ s, sess b !! c = Some s → ∀ t q, Sessions.Subscriptions (f s) !! t = Some q → G c t q) →
  granted_in (idx, Sessions.sessions (Sessions.update (sessions b) c f)).
Proof.
  intros Hg Hf. unfold Sessions.update. cbn. destruct (sess b !! c) as [s|] eqn:E; [|done].
  apply granted_put; eauto.
Qed.

Lemma granted_create idx b c clean e : granted_in (idx, sess b) →
  granted_in (idx, Sessions.sessions (Sessions.Create (sessions b) c clean e)).
Proof.
  intros Hg. unfold Sessions.Create. rewrite persist_sessions. apply granted_put; [done|].
  intros f q. cbn. by rewrite lookup_empty.
Qed.

(** *** The handlers *)

Lemma subscribe_one_granted b c has s :
  granted_in (view b) → (∀ f q, may_subscribe b c s f q → G (c_clientID c) f q) →
  granted_in (view (subscribe_one b c has s).1).
Proof.
  intros Hg Hgrant. unfold subscribe_one. destruct (TopicFilterValid (TopicFilter s)) eqn:Hv0; cbn [negb]; [|exact Hg].
  destruct (Authorize (c_username c) (TopicFilter s) "subscribe") eqn:Ha; cbn [negb]; [|exact Hg].
  destruct (AllowSubscribe _ _ _) as [[] l] eqn:Hal; cbn [negb]; [|exact Hg]. cbn zeta.
  set (q := if 2 <? sub_QoS s then 2 else sub_QoS s).
  set (ev := Interceptors.mkSubscribe (c_clientID c) (TopicFilter s) q).
  pose proof (intercept_subscribe_view (set_rl b l) ev) as Hv.
  destruct (intercept_subscribe (set_rl b l) ev) as [[e|] b2] eqn:Ei; cbn [snd] in Hv; cbn zeta; [|cbn [fst]; by rewrite Hv].
  assert (Hf : G (c_clientID c) (Interceptors.se_TopicFilter e) (Interceptors.se_QoS e)).
  { apply Hgrant. split; [done|]. split; [done|]. rewrite Hal. split; [done|]. fold q. unfold intercepted, intercept_subscribe in *. fold ev.
    destruct interceptors as [chain|]; [|by injection Ei as <- <-]. cbn [set_rl hk] in Ei.
    destruct (OnSubscribe chain (hk b) ev) as [r h]. injection Ei as -> <-. by exists e. }
  change (view (set_rl b l)) with (view b) in Hv. rewrite <- Hv in Hg.
  cbn [fst]. rewrite broadcast_view.
  assert (Hadd := granted_add _ _ (c_clientID c) _ (Interceptors.se_QoS e) Hg Hf). destruct has; [|exact Hadd].
  apply (granted_update _ (set_subscriptions b2 _)); [exact Hadd|]. cbn. intros s' Hs t qt.
  destruct (decide (t = Interceptors.se_TopicFilter e)) as [->|Hne]; [rewrite lookup_insert_eq; by intros [= <-]|]. rewrite lookup_insert_ne by done.
  by apply (gr_sess _ Hg).
Qed.

Lemma unsubscribe_one_granted b c has f : granted_in (view b) → granted_in (view (unsubscribe_one b c has f)).
Proof.
  intros Hg. unfold unsubscribe_one.
  match goal with |- context [intercept_unsubscribe ?b1 ?e] =>
    pose proof (intercept_unsubscribe_view b1 e) as Hv; destruct (intercept_unsubscribe b1 e) as [[e'|] b2] end;
    cbn [snd] in Hv; rewrite <- Hv in Hg; [|done].
  cbn zeta. set (b1 := broadcast _ _).
  assert (Hb1 : granted_in (view b1)) by (unfold b1; rewrite broadcast_view; by apply granted_remove).
  destruct has; [|done]. apply (granted_update _ b1); [done|]. intros s' Hs t qt. cbn. intros [_ Ht]%lookup_delete_Some.
  by apply (gr_sess _ Hb1 _ s').
Qed.

Lemma subscribe_all_snoc b c has pre s :
  (subscribe_all b c has (pre ++ [s])).1 = (subscribe_one (subscribe_all b c has pre).1 c has s).1.
Proof.
  revert b. induction pre as [|x pre IH]; intros b; cbn; [by destruct (subscribe_one b c has s)|].
  destruct (subscribe_one b c has x) as [b1 rc]. specialize (IH b1).
  destruct (subscribe_all b1 c has (pre ++ [s])), (subscribe_all b1 c has pre). exact IH.
Qed.

Lemma subscribe_all_granted c has subs b :
  (∀ f q, one_of b c has subs f q → G (c_clientID c) f q) →
  granted_in (view b) → granted_in (view (subscribe_all b c has subs).1).
Proof.
  induction subs as [|s subs IH] using rev_ind; intros Hmay Hg; [done|].
  rewrite subscribe_all_snoc. apply subscribe_one_granted.
  - apply IH; [|done]. intros f q (pre & x & post & -> & Hx). apply Hmay. exists pre, x, (post ++ [s]).
    split; [|done]. by rewrite <- app_assoc.
  - intros f q Hf. apply Hmay. by exists subs, s, [].
Qed.

Lemma handleSubscribe_granted b id data b' c :
  (∀ f q, subscribes b id data c f q → G (c_clientID c) f q) → conns b !! id = Some c →
  granted_in (view b) → handleSubscribe b id data = Ok b' → granted_in (view b').
Proof.
  intros Hmay Hc Hg. unfold handleSubscribe, get_client. rewrite Hc. cbn [mbind res_bind].
  destruct (DecodeSubscribePacket _ _) as [pkt| | |] eqn:Ed; [|intros; inv_ok; by subst..].
  set (has := bool_decide _). assert (Hs : granted_in (view (subscribe_all b c has (sub_Subscriptions pkt)).1)).
  { apply subscribe_all_granted; [|done]. intros f q Hf. apply Hmay. split; [done|]. by exists pkt. }
  destruct (subscribe_all b c has (sub_Subscriptions pkt)) as [b1 rcs].
  intros (b2 & Hsend & Hret)%bind_Ok. apply send_view in Hsend.
  assert (view b' = view b2) as ->.
  { eapply (fold_res_inv _ view); [|exact Hret]. intros b0 s b0'. unfold send_retained.
    apply (fold_res_inv _ view). intros ???. apply send_view. }
  rewrite Hsend. unfold view. cbn. rewrite Save_sessions. exact Hs.
Qed.

Lemma handleUnsubscribe_granted b id data b' :
  granted_in (view b) → handleUnsubscribe b id data = Ok b' → granted_in (view b').
Proof.
  intros Hg. unfold handleUnsubscribe. intros (c & _ & Hx)%bind_Ok.
  destruct (DecodeUnsubscribePacket _ _) as [pkt| | |]; [|inv_ok; by subst..].
  apply send_view in Hx. rewrite Hx. unfold view. cbn. rewrite Save_sessions. cbn. clear Hx.
  set (has := bool_decide _). clearbody has. generalize (uns_TopicFilters pkt). intros l. revert b Hg.
  induction l as [|f l IH]; intros b Hg; cbn; [done|]. apply IH. by apply unsubscribe_one_granted.
Qed.

Lemma end_session_granted now b c : granted_in (view b) → granted_in (view (end_session now b c)).
Proof.
  intros Hg. unfold end_session. destruct (Sessions.Get (sessions b) c) as [s|] eqn:Es; [|done].
  case_match.
  - set (b1 := match remote b with Some _ => _ | None => _ end).
    assert (view b1 = view b) as Hb1.
    { unfold b1. destruct (remote b); [|done]. generalize (Subscriptions.ClientFilters (subscriptions b) c). intros fs.
      clear b1. generalize b. induction fs as [|f fs IH]; intros b0; cbn; [done|]. by rewrite IH. }
    cbn zeta. rewrite <- Hb1 in Hg.
    assert (granted_in (Subscriptions.RemoveAll (subscriptions b1) c, delete c (sess b1))) by (by apply granted_removeAll, granted_delete).
    case_match; done.
  - case_match; [done|]. unfold view. cbn. unfold Sessions.MarkDisconnected. cbn.
    destruct (sess b !! c) as [s'|] eqn:Es'; [|done]. rewrite persist_sessions. cbn. apply granted_put; [done|].
    cbn. intros f q. by apply (gr_sess _ Hg).
Qed.

Lemma close_client_granted now b id b' : granted_in (view b) → close_client now b id = Ok b' → granted_in (view b').
Proof.
  intros Hg. unfold close_client, close_begin, close_finish. intros (b1 & Hb & Hf)%bind_Ok.
  assert (Hg1 : granted_in (view b1)) by (inv_ok; repeat case_match; simplify_eq; done).
  apply bind_Ok in Hf as (c & _ & Hf). case_match; [by injection Hf as <-|].
  apply bind_Ok in Hf as (b2 & Hw & [= <-]). apply end_session_granted.
  set (b3 := notify_disconnect _ _ _) in Hw.
  assert (Hb3 : view b3 = view b1) by (unfold b3; rewrite notify_view, broadcast_view, unregister_view; done).
  destruct (c_will c); [apply will_view in Hw; by rewrite Hw, Hb3|injection Hw as <-; by rewrite Hb3].
Qed.

Lemma open_session_granted b c clean e : granted_in (view b) → granted_in (view (open_session b c clean e).1).
Proof.
  intros Hg. unfold open_session. destruct (Sessions.Get (sessions b) c) as [s|] eqn:Es; [destruct clean|]; cbn;
    [by apply granted_create| |by apply granted_create].
  apply granted_add_all; [done|]. apply Forall_forall. intros [f q] Hin%elem_of_map_to_list. cbn.
  by apply (gr_sess _ Hg c s).
Qed.

Lemma handleConnect_granted now b id fh data b' go :
  granted_in (view b) → handleConnect now b id fh data = Ok (b', go) → granted_in (view b').
Proof.
  intros Hg. unfold handleConnect. case_match; [by intros [= <- <-]|].
  destruct (DecodeConnectPacket data) as [pkt| | |]; [|by intros; inv_ok; simplify_eq..].
  assert (Hrefuse : ∀ b rc, granted_in (view b) → refuse b id rc = Ok (b', go) → granted_in (view b')).
  { intros b0 rc Hg0. unfold refuse. intros (b1 & Hs & [= <- <-])%bind_Ok. apply send_view in Hs. by rewrite Hs. }
  repeat (case_match; [by apply Hrefuse|]). unfold accept_connect.
  intros (c & _ & Hx)%bind_Ok. apply bind_Ok in Hx as (b1 & Hd & Hx). apply disconnectExisting_view in Hd.
  assert (Hg1 : granted_in (view b1)) by (by rewrite Hd). clear Hd.
  match type of Hx with context [open_session b1 ?x ?y ?z] =>
    apply (open_session_granted b1 x y z) in Hg1; destruct (open_session b1 x y z) as [b2 present] end. cbn in Hg1.
  match type of Hx with context [let '(_, _) := ?w in _] => destruct w as [b3 c3] eqn:Ew end.
  assert (Hg3 : granted_in (view b3)).
  { destruct (will_of pkt); simplify_eq; [|done]. rewrite on_wills_view. done. }
  unfold welcome in Hx. set (b4 := broadcast _ _) in Hx.
  assert (Hg4 : granted_in (view b4)) by (unfold b4; rewrite broadcast_view; exact Hg3).
  cbn zeta in Hx. match type of Hx with context [intercept_connect b4 ?e] =>
    pose proof (intercept_connect_view b4 e) as Hv; destruct (intercept_connect b4 e) as [accepted b4'] end. cbn [snd] in Hv.
  rewrite <- Hv in Hg4. clear Hv. destruct accepted; [|by eapply Hrefuse].
  apply bind_Ok in Hx as (b5 & Hs & Hx). apply send_view in Hs. apply bind_Ok in Hx as (b6 & Ho & [= <- <-]).
  assert (view b6 = view b5) as ->; [|by rewrite Hs].
  destruct present; [|by injection Ho as <-]. unfold deliver_offline in Ho.
  apply bind_Ok in Ho as ([msgs os] & _ & Ho). apply (fold_res_inv _ view) in Ho; [exact Ho|].
  intros b0 m b0'. unfold deliverMessage. intros. inv_ok. by subst.
Qed.

(** The step [a] lets client [c] subscribe to [f]: a packet of a connection with that client id, of a
    user who may. *)
Definition grants b (a : action) (c f : string) (q : Z) : Prop :=
  match a with
  | APacket now id fh data => PacketType fh = SUBSCRIBE ∧ ready b id true = true ∧
      ∃ cl, c_clientID cl = c ∧ subscribes b id data cl f q
  | _ => False
  end.

Lemma handlePacket_granted now b id fh data b' go :
  (∀ c f q, grants b (APacket now id fh data) c f q → G c f q) →
  ready b id true = true → granted_in (view b) → handlePacket now b id fh data = Ok (b', go) → granted_in (view b').
Proof.
  intros HG Hrd Hg. unfold handlePacket.
  assert (Hview : ∀ (m : res Broker) k, (∀ x, m = Ok x → granted_in (view x)) →
    (b ← m; Ok (b, k)) = Ok (b', go) → granted_in (view b')).
  { intros m k Hm (x & Hx & [= <- <-])%bind_Ok. auto. }
  assert (Hsame : ∀ x, view x = view b → granted_in (view x)) by (by intros x ->).
  repeat (case_match; [apply Hview; intros x Hx|]); [..|by intros [= <- <-]].
  - apply publish_view in Hx. auto.
  - apply Hsame. unfold handlePuback in Hx. repeat case_match; inv_ok; by subst.
  - apply Hsame. unfold handlePubrec in Hx. case_match; inv_ok; subst; try done.
    match goal with E : send _ _ _ = Ok _ |- _ => apply send_view in E; by rewrite E end.
  - apply Hsame. unfold handlePubrel in Hx. case_match; inv_ok; subst; try done.
    match goal with E : send _ _ _ = Ok _ |- _ => apply send_view in E; by rewrite E end.
  - apply Hsame. unfold handlePubcomp in Hx. case_match; inv_ok; by subst.
  - destruct (conns b !! id) as [cl|] eqn:Hc.
    + eapply handleSubscribe_granted; [|exact Hc|exact Hg|exact Hx]. intros f q Hf. apply HG.
      split; [by apply Z.eqb_eq|]. split; [done|]. by exists cl.
    + unfold handleSubscribe, get_client in Hx. rewrite Hc in Hx. done.
  - by eapply handleUnsubscribe_granted.
  - apply send_view in Hx. auto.
  - apply Hsame. unfold handleDisconnect in Hx. apply bind_Ok in Hx as (c & _ & Hx).
    repeat case_match; inv_ok; subst; try done; by rewrite on_wills_view.
Qed.

Lemma serve_step_granted now id r b' :
  (∀ b go, r = Ok (b, go) → granted_in (view b)) → serve_step now id r = Ok b' → granted_in (view b').
Proof.
  intros Hr. unfold serve_step. intros ([b go] & Hb & Hx)%bind_Ok. apply Hr in Hb.
  destruct go; [by injection Hx as <-|by eapply close_client_granted].
Qed.

Lemma reap_granted now b : granted_in (view b) → granted_in (view (reap now b)).
Proof.
  intros Hg. unfold reap. generalize (Sessions.ExpiredSessions now (sessions b)). intros cs. revert b Hg.
  induction cs as [|c cs IH]; intros b Hg; [done|]. cbn. apply IH. unfold reap_client, view. cbn.
  apply granted_delete. destruct (Sessions.remove_client_filters (subscriptions b) c (gr_ok _ Hg)) as [Hok Hq].
  eapply granted_fewer; [exact Hg|exact Hok|]. intros c' f q'. rewrite Hq. by case_decide.
Qed.

Lemma bstep_granted b a b' :
  (∀ c f q, grants b a c f q → G c f q) → granted_in (view b) → bstep b a = Ok b' → granted_in (view b').
Proof.
  intros HG Hg. destruct a as [id|now id fh data|now id fh data|now id|id|now t p q r|cid|now cid|now|now|n|fv]; cbn.
  - case_match; intros [= <-]; [done|]. unfold acceptConn. destruct (AllowConnect _) as [[] l]; cbn [negb]; [|exact Hg].
    case_match; exact Hg.
  - case_match; [|by intros [= <-]]. apply serve_step_granted. intros b1 go. by apply handleConnect_granted.
  - case_match; [|by intros [= <-]]. apply serve_step_granted. intros b1 go. by apply handlePacket_granted.
  - case_match; [|by intros [= <-]]. case_match; [by intros [= <-]|]. by apply close_client_granted.
  - intros [= <-]. unfold write_one. repeat case_match; done.
  - intros Hx%route_view. by rewrite Hx.
  - intros Hx%disconnectExisting_view. by rewrite Hx.
  - unfold willPublisher. destruct (willStore b) as [ws|]; [|by intros [= <-]].
    destruct (Wills.Get ws cid); [|by intros [= <-]]. case_match; [by intros [= <-]|].
    intros Hx%will_view. by rewrite Hx.
  - intros [= <-]. by apply reap_granted.
  - by intros [= <-].
  - intros [= <-]. unfold run_note. by case_match.
  - by intros [= <-].
Qed.

(** The subscriptions of a session that outlives its connection, put back by [loadFromStorage]. *)
Definition restore b (cs : string * Sessions.Session) : Broker :=
  if negb (Sessions.ExpiryInterval cs.2 =? 0)
  then set_subscriptions b (foldl (λ idx fq, Subscriptions.Add idx cs.1 fq.1 fq.2) (subscriptions b)
                              (map_to_list (Sessions.Subscriptions cs.2)))
  else b.

Lemma restore_sess l : ∀ b, sess (foldl restore b l) = sess b.
Proof. induction l as [|cs l IH]; intros b; [done|]. cbn. rewrite IH. unfold restore. by destruct (negb _). Qed.

Lemma restore_granted l : (∀ c s f q, (c, s) ∈ l → Sessions.Subscriptions s !! f = Some q → G c f q) →
  ∀ b, granted_in (view b) → granted_in (view (foldl restore b l)).
Proof.
  induction l as [|[c s] l IH]; intros HG b Hg; [done|]. cbn. apply IH; [set_solver|].
  unfold restore. cbn. destruct (negb _); [|done]. apply granted_add_all; [done|].
  apply Forall_forall. intros [f q] Hf%elem_of_map_to_list. eapply HG; [by left|done].
Qed.

End Invariant.

Lemma granted_mono (G1 G2 : string → string → Z → Prop) v : (∀ c f q, G1 c f q → G2 c f q) → granted_in G1 v → granted_in G2 v.
Proof. intros HG [H1' H2' H3']. constructor; eauto. Qed.

(** *** The stored subscriptions *)

(** A session that [Serve] reads from the database holds the subscription. *)
Definition restored (d : option db) (l : limiter) (h : hooks) (c f : string) (q : Z) : Prop :=
  ∃ b0 s, Hooks.served d l h = Ok b0 ∧ sess b0 !! c = Some s ∧ Sessions.Subscriptions s !! f = Some q.

Lemma load_shape b b' : loadFromStorage b = Ok b' →
  ∃ b2 : Broker, subscriptions b2 = subscriptions b ∧ b' = foldl restore b2 (map_to_list (sess b2)).
Proof.
  unfold loadFromStorage. intros (ss & _ & Hx)%bind_Ok. apply bind_Ok in Hx as (rs & _ & Hx).
  apply bind_Ok in Hx as (b1 & Hw & Hx). apply bind_Ok in Hx as (b2 & Ho & [= <-]). exists b2. split; [|done].
  transitivity (subscriptions b1).
  { destruct (disk b1); [by apply bind_Ok in Ho as (os & _ & [= <-])|by injection Ho as <-]. }
  destruct (willStore _) as [ws|]; [by apply bind_Ok in Hw as (w & _ & [= <-])|by injection Hw as <-].
Qed.

Lemma load_granted d l h b0 : Hooks.served d l h = Ok b0 → granted_in (restored d l h) (view b0).
Proof.
  intros Hs. destruct (load_shape _ _ Hs) as (b2 & Hi & Heq).
  assert (Hsess : sess b0 = sess b2) by (rewrite Heq; apply restore_sess).
  assert (HG : ∀ c s f q, sess b2 !! c = Some s → Sessions.Subscriptions s !! f = Some q → restored d l h c f q).
  { intros c s f q Hc Hf. exists b0, s. by rewrite Hsess. }
  rewrite Heq. apply restore_granted.
  - intros c s f q Hin%elem_of_map_to_list. by apply HG.
  - constructor; cbn; [rewrite Hi; apply Subscriptions.index_ok_New|by rewrite Hi|exact HG].
Qed.

(** In any life of a broker that was served, every subscription of the index was restored or granted. *)
Lemma life_granted {R} (reload : R → hooks → hooks) d l h b0 es b :
  Hooks.served d l h = Ok b0 → fold_res (Hooks.happen reload) b0 es = Ok b →
  Subscriptions.index_ok (subscriptions b) ∧
  ∀ c f q, Subscriptions.sub_qos (subscriptions b) c f = Some q → restored d l h c f q ∨
  ∃ es1 a es2 b1, es = es1 ++ Hooks.Act a :: es2 ∧ fold_res (Hooks.happen reload) b0 es1 = Ok b1 ∧ grants b1 a c f q.
Proof.
  intros Hs Hrun. set (G c f q := restored d l h c f q ∨
    ∃ es1 a es2 b1, es = es1 ++ Hooks.Act a :: es2 ∧ fold_res (Hooks.happen reload) b0 es1 = Ok b1 ∧ grants b1 a c f q).
  enough (granted_in G (view b)) as Hg by (split; [exact (gr_ok G _ Hg)|exact (gr_index G _ Hg)]).
  assert (Hgen : ∀ rest pre b1, es = pre ++ rest → fold_res (Hooks.happen reload) b0 pre = Ok b1 → granted_in G (view b1) →
    fold_res (Hooks.happen reload) b1 rest = Ok b → granted_in G (view b)).
  { intros rest. induction rest as [|e rest IH]; intros pre b1 Heq Hpre Hg; cbn; [by intros [= <-]|].
    intros (b2 & Hb2 & Hrest)%bind_Ok. apply (IH (pre ++ [e]) b2); [by rewrite <- app_assoc| | |done].
    - eapply fold_res_app; [exact Hpre|]. cbn. by rewrite Hb2.
    - destruct e as [a|o|r]; cbn in Hb2; [| |by injection Hb2 as <-].
      2: { apply Hooks.outside_frame in Hb2 as (_ & Hi & Hse). unfold view. rewrite Hi.
           destruct Hse as [->|[c ->]]; [exact Hg|by apply granted_delete]. }
      eapply bstep_granted; [|exact Hg|exact Hb2]. intros c f q Hgr. right. by exists pre, a, rest, b1. }
  apply (Hgen es [] b0); [done..| |done].
  eapply granted_mono; [|by apply load_granted]. intros c f q Hq. by left.
Qed.

End Granted.

(** ** The credentials and the limiter behind the broker's interfaces *)

Section Secured.
Context (CompareHashAndPassword : string → list Z → bool) (cs : Access.CredentialStore).
Context `{RateLimit.RateLimiter} (clock : nat → Z) (conn_name conn_address : nat → string).

(** The limiter reads the clock in every call: [clock n] is its [n]-th reading. *)
Definition timed (f : Z → RateLimit.AggregateRateLimiter → option RateLimit.limit_error * RateLimit.AggregateRateLimiter)
    (l : nat * RateLimit.AggregateRateLimiter) : bool * (nat * RateLimit.AggregateRateLimiter) :=
  let '(err, a) := f (clock l.1) l.2 in (match err with None => true | Some _ => false end, (S l.1, a)).

(** [b.SetAuth(credentials)] and [b.SetRateLimiter(...)]; the broker asks for a connection with an
    empty client id. *)
Definition secured : Env := {|
  Authenticate := Access.Authenticate CompareHashAndPassword cs;
  Authorize := Access.Authorize cs;
  limiter := nat * RateLimit.AggregateRateLimiter;
  AllowConnect := timed (λ now a, RateLimit.AllowConnect now a "");
  AllowPublish l c t n := timed (λ now a, RateLimit.AllowPublish now a c t n) l;
  AllowSubscribe l c t := timed (λ now a, RateLimit.AllowSubscribe now a c t) l;
  hooks := unit;
  interceptors := None;
  remotes := RemoteSubs.RemoteSubIndex;
  RemoteSubs_Match r t := (λ m, (RemoteSubs.rm_NodeID m, RemoteSubs.rm_MaxQoS m)) <$> RemoteSubs.Match r t;
  auto_id := conn_name;
  remote_addr := conn_address
|}.

Context {db : Type} `{Storage.Store db} `{Offline.MessageJSON} `{Sessions.SessionJSON} `{Retain.RetainedJSON} `{Wills.WillJSON}.
#[local] Existing Instance secured.

(** Without interceptors there is nothing that could be read again. *)
Notation happening := (Hooks.happening (R := Empty_set)).
Notation happen := (Hooks.happen Hooks.no_reload).


End Secured.

(** ** Runs *)

(** [ann] may read and write [secret]; [mal] may do nothing. The passwords are the hashes. *)
Definition sample_store : Access.CredentialStore :=
  Access.mkStore (Access.user_map
    [Access.mkUser "ann" "pa" "" [Access.mkRule "secret" "subscribe"; Access.mkRule "secret" "publish"];
     Access.mkUser "mal" "pm" "" []]).

#[local] Instance sample_env : Env :=
  @secured (λ hash password, bool_decide (bytes_of hash = password)) sample_store RateLimit.plain_bucket (λ n, Z.of_nat n)
    (λ _, "auto-0xc000010000") (λ _, "10.0.0.7:50000").

Definition sample_limiter : @limiter sample_env :=
  (0%nat, @RateLimit.NewAggregateRateLimiter RateLimit.plain_bucket RateLimit.sample_config).
(** The broker that is served with a database. *)
Definition start_with (d : Storage.mem_db) : Broker Storage.mem_db :=
  match Hooks.served (Some d) sample_limiter tt with Ok b => b | _ => New (Some d) sample_limiter tt end.
Definition start : Broker Storage.mem_db := start_with empty_db.

Lemma start_with_ok d : is_ok (Hooks.served (Some d) sample_limiter tt) = true → Hooks.served (Some d) sample_limiter tt = Ok (start_with d).
Proof. unfold start_with. by destruct (Hooks.served _ _ _). Qed.

Definition login (user password cid : string) (will : option (string * list Z)) : list Z :=
  connect_body {| con_ProtocolName := "MQTT"; con_ProtocolLevel := 4; con_CleanSession := false;
    con_KeepAlive := 60; con_ClientID := cid; con_WillFlag := bool_decide (is_Some will); con_WillQoS := 0; con_WillRetain := false;
    con_WillTopic := default "" (fst <$> will); con_WillPayload := default [] (snd <$> will);
    con_UsernameFlag := true; con_PasswordFlag := true; con_Username := user; con_Password := bytes_of password;
    con_Properties := None; con_WillProperties := None |}.

(** [ann] subscribes as [dev] and leaves. *)
Definition ann_reads : list action :=
  [AAccept 1; AConnect 0 1 (head CONNECT 0) (login "ann" "pa" "dev" None);
   APacket 0 1 (head SUBSCRIBE 0) (subscribe_data 4 "secret" 0)].

(** The database that this leaves. *)
Definition left_db : Storage.mem_db :=
  match fold_res bstep start ann_reads with Ok b => default empty_db (disk b) | _ => empty_db end.

(** The life of the broker: this, and a replicated message. *)
Definition ann_life : list (Hooks.happening (R := Empty_set)) :=
  (Hooks.Act <$> ann_reads) ++ [Hooks.Outside (Hooks.ReplicateOffline 0 "x" [Offline.mkMsg "t" [1] 1 0 zeroTime zeroTime])].
Notation live := (fold_res (Hooks.happen Hooks.no_reload)).


(** A session belongs to a client id and not to a user: [mal], who may not subscribe to anything,
    connects with the client id of [ann] and reads what her session is subscribed to. *)
Lemma session_crosses_users :
  Access.Authorize sample_store "mal" "secret" "subscribe" = false ∧
  ∃ b, fold_res bstep start (ann_reads ++ [AClose 1 1; AAccept 2; AConnect 2 2 (head CONNECT 0) (login "mal" "pm" "dev" None); AWrite 2;
         AForward 3 "secret" [104; 105] 0 false]) = Ok b ∧
    (c_username <$> conns b !! 2%nat) = Some "mal" ∧
    (c_sendCh <$> conns b !! 2%nat) = Some [publish_packet "secret" [104; 105] 0 0 false].
Proof. split; [vm_compute; reflexivity|]. apply ok_exists. vm_compute. split; reflexivity. Qed.

(** A will is published without a permission: [mal] connects with a will for [secret] and drops the
    connection, and [ann] gets the message. *)
Lemma will_needs_no_permission :
  Access.Authorize sample_store "mal" "secret" "publish" = false ∧
  ∃ b, fold_res bstep start (ann_reads ++ [AWrite 1; AWrite 1; AAccept 2;
         AConnect 2 2 (head CONNECT 0) (login "mal" "pm" "m" (Some ("secret", [104; 105]))); AClose 3 2]) = Ok b ∧
    (c_sendCh <$> conns b !! 1%nat) = Some [publish_packet "secret" [104; 105] 0 0 false].
Proof. split; [vm_compute; reflexivity|]. apply ok_exists. vm_compute. reflexivity. Qed.

End Secured.
