(* ===== verification/Isolation.v ===== *)
(** * Tenants behind the broker

    The broker with the chain of [cmd/dmqtt/main.go] whose interceptor is that of [internal/tenant]: the
    chain with its breakers and the manager is the state of the hooks, every hook of a handler goes
    through the executor, and the end of a connection reaches the manager by a goroutine of its own. What
    of the separation of the tenants remains in the runs of the whole, and how it is lost. *)
From S2P Require Import Prelude Frame Packets PacketFacts Topic Storage Subscriptions Delivery Offline OfflineFacts Sessions Retain Wills Doubles Breaker Interceptors Broker BrokerFacts Hooks Secured Tenants Access RateLimit RemoteSubs.
Import Frame Packets TopicMatcher Broker.

Module Isolation.

(** ** A chain behind the broker's interface *)

Section Chain.
Context {S : Type} (clock : nat → Z).

(** The number of hooks called so far, each of which reads the clock, the chain and the state of its
    interceptors. *)
Definition chain_state : Type := nat * (Interceptors.InterceptorChain S * S).

Definition run_hook {E} (sel : Interceptors.Interceptor S → option (Interceptors.hook S E)) (h : chain_state) (e : E)
    : option E * chain_state :=
  let '(err, c, _, s, e) := Interceptors.dispatch sel h.2.1 (clock h.1) h.2.2 e in
  (match err with None => Some e | Some _ => None end, (Datatypes.S h.1, (c, s))).

Definition connect_hook (h : chain_state) (e : Interceptors.ConnectEvent) : bool * chain_state :=
  let '(passed, h) := run_hook Interceptors.hook_OnConnect h e in (bool_decide (is_Some passed), h).

Definition goroutine (f : S → S) (h : chain_state) : chain_state := (h.1, (h.2.1, f h.2.2)).

(** [b.SetInterceptors(chain)] *)
Definition SetInterceptors (chain : Interceptors.InterceptorChain S) : InterceptorChain chain_state := {|
  OnConnect := connect_hook;
  OnPublish := run_hook Interceptors.hook_OnPublish;
  OnSubscribe := run_hook Interceptors.hook_OnSubscribe;
  OnUnsubscribe := run_hook Interceptors.hook_OnUnsubscribe;
  OnDelivery := run_hook Interceptors.hook_OnDelivery;
  OnDisconnect e := goroutine <$> Interceptors.OnDisconnect chain e
|}.

End Chain.

(** ** The tenant interceptor *)

Section Tenants.
Context `{Tenants.RateLimiter} (clock : nat → Z) (ResolveTenant : string → string).

Notation TenantManager := Tenants.TenantManager.
Notation tstate := (@chain_state TenantManager).

Definition manager (h : tstate) : TenantManager := h.2.2.

(** The only interceptor of the chain with its breaker. *)
Definition registered (br : Breaker.CircuitBreaker) : Interceptors.registeredInterceptor :=
  Interceptors.mkRegistered (Tenants.TenantInterceptor ResolveTenant)
    (Interceptors.mkExecutor "tenant" (50 * Interceptors.Millisecond) br).

Definition start_hooks (m : TenantManager) : tstate := (0%nat, (Tenants.tenant_chain ResolveTenant, m)).

(** The breaker of the chain is closed. *)
Definition closed (h : tstate) : Prop :=
  Forall (λ ri, Breaker.state (Interceptors.breaker_of ri) = Breaker.StateClosed) h.2.1.

Lemma closed_registered n br m : closed (n, ([registered br], m)) ↔ Breaker.state br = Breaker.StateClosed.
Proof. unfold closed. cbn [fst snd]. by rewrite Forall_singleton. Qed.

(** A hook of the interceptor that returns. *)
Definition returning {E} (fn : Interceptors.hook TenantManager E) : Prop :=
  ∀ now m e, ∃ err, Interceptors.end_ (fn now m e) = Interceptors.Returned (Interceptors.ErrHook <$> err).

(** A call of a hook: refused by the breaker, or run. *)
Lemma run_hook_cases {E} (sel : Interceptors.Interceptor TenantManager → option (Interceptors.hook TenantManager E)) fn n br m e :
  sel (Tenants.TenantInterceptor ResolveTenant) = Some fn → returning fn →
  ∃ br', run_hook clock sel (n, ([registered br], m)) e =
    (let c := fn (clock n) m e in
     if (Breaker.Allow (clock n) br).1
     then (match Interceptors.end_ c with Interceptors.Returned None => Some (Interceptors.evt c) | _ => None end,
           (Datatypes.S n, ([registered br'], Interceptors.left_ c)))
     else (Some e, (Datatypes.S n, ([registered br'], m))))
  ∧ (Breaker.state br = Breaker.StateClosed → Interceptors.end_ (fn (clock n) m e) = Interceptors.Returned None →
     Breaker.state br' = Breaker.StateClosed).
Proof.
  intros Hs Hr.
  assert (Breaker.state br = Breaker.StateClosed → (Breaker.Allow (clock n) br) = (true, br)) as Hall
    by (unfold Breaker.Allow; by intros ->).
  unfold run_hook. cbn [fst snd]. rewrite Interceptors.dispatch_meet. unfold Interceptors.meet.
  cbn [Interceptors.interceptor registered]. rewrite Hs. unfold Interceptors.Run, Breaker.AllowOrError.
  cbn [Interceptors.m_time Interceptors.m_state Interceptors.m_event Interceptors.executor Interceptors.ex_breaker registered].
  destruct (Breaker.Allow (clock n) br) as [[] b1]; cbn [fst].
  - destruct (Hr (clock n) m e) as [[err|] Hend]; rewrite Hend; cbn; (eexists; split; [done|]); [done|].
    intros Hc _. specialize (Hall Hc). injection Hall as ->. unfold Breaker.RecordSuccess. cbn. by rewrite Hc.
  - eexists. split; [done|]. intros Hc. by specialize (Hall Hc).
Qed.

Lemma closed_allows now br : Breaker.state br = Breaker.StateClosed → Breaker.Allow now br = (true, br).
Proof. unfold Breaker.Allow. by intros ->. Qed.

Lemma OnConnect_returns : returning (Tenants.tenant_OnConnect ResolveTenant).
Proof. intros now m e. unfold Tenants.tenant_OnConnect. destruct (Tenants.TryConnect _ _ _) as [err m']. by exists err. Qed.
Lemma OnPublish_returns : returning Tenants.tenant_OnPublish.
Proof.
  intros now m e. unfold Tenants.tenant_OnPublish. destruct (Tenants.CheckPublish _ _ _ _) as [[err|] m'];
    [by exists (Some err)|by exists None].
Qed.
Lemma OnSubscribe_returns : returning Tenants.tenant_OnSubscribe.
Proof. intros now m e. by exists None. Qed.
Lemma OnUnsubscribe_returns : returning Tenants.tenant_OnUnsubscribe.
Proof. intros now m e. by exists None. Qed.
Lemma OnDelivery_returns : returning Tenants.tenant_OnDelivery.
Proof. intros now m e. by exists None. Qed.

(** *** What the hooks keep *)

Definition same_config (m0 m : TenantManager) : Prop :=
  ∀ t, Tenants.t_config (Tenants.getState m t) = Tenants.t_config (Tenants.getState m0 t).

(** The prefixes of the tenants are none, or single levels that are no wildcards and do not start with [$]. *)
Definition prefixes_ok (m : TenantManager) : Prop :=
  ∀ t, Tenants.TopicPrefix (Tenants.t_config (Tenants.getState m t)) = "" ∨
       Tenants.separating (Tenants.TopicPrefix (Tenants.t_config (Tenants.getState m t))).

Lemma prefixes_same m m' : same_config m m' → prefixes_ok m → prefixes_ok m'.
Proof. intros Hs Hm t. rewrite Hs. apply Hm. Qed.

(** The chain is the one registered, and the prefixes of the tenants are separating. *)
Definition standing (h : tstate) : Prop :=
  ∃ n br m, h = (n, ([registered br], m)) ∧ prefixes_ok m.

Lemma same_config_upd m0 m t st : Tenants.t_config st = Tenants.t_config (Tenants.getState m t) →
  same_config m0 m → same_config m0 (Tenants.upd_state m t st).
Proof.
  intros Hst Hm t'. rewrite Tenants.upd_state_get. case_bool_decide as Hk; [|apply Hm].
  rewrite Hst, <- (Hm t'). by rewrite (Tenants.getState_same m t' t Hk).
Qed.

Lemma same_config_connect m0 m c t : same_config m0 m → same_config m0 (Tenants.TryConnect m c t).2.
Proof.
  intros Hm. unfold Tenants.TryConnect. case_match; [|done]. cbn. intros t'. unfold Tenants.commit_connect.
  rewrite Tenants.getState_clients. by apply same_config_upd.
Qed.
Lemma same_config_publish m0 m now c n : same_config m0 m → same_config m0 (Tenants.CheckPublish now m c n).2.
Proof.
  intros Hm. unfold Tenants.CheckPublish. destruct (Tenants.clients m !! c) as [t|]; [|done]. case_match; [done|].
  destruct (Tenants.Limiter_Allow _ _) as [ok l]. by apply same_config_upd.
Qed.
Lemma same_config_release m0 m c : same_config m0 m → same_config m0 (Tenants.release m c).
Proof.
  intros Hm. unfold Tenants.release. destruct (Tenants.clients m !! c) as [t|]; [|done].
  by apply same_config_upd.
Qed.

Lemma run_hook_standing {E} (sel : Interceptors.Interceptor TenantManager → option (Interceptors.hook TenantManager E)) fn h e :
  sel (Tenants.TenantInterceptor ResolveTenant) = Some fn → returning fn →
  (∀ now m, same_config m (Interceptors.left_ (fn now m e))) →
  standing h → standing (run_hook clock sel h e).2.
Proof.
  intros Hs Hr Hf (n & br & m & -> & Hm). destruct (run_hook_cases sel fn n br m e Hs Hr) as (br' & -> & _).
  cbn zeta. case_match; cbn; do 3 eexists; (split; [done|]); eauto using prefixes_same.
Qed.

Lemma tenants_standing : Hooks.keeps_hooks standing (SetInterceptors clock (Tenants.tenant_chain ResolveTenant)).
Proof.
  constructor; cbn [OnConnect OnPublish OnSubscribe OnUnsubscribe OnDelivery OnDisconnect SetInterceptors].
  - intros h e Hh. unfold connect_hook.
    pose proof (run_hook_standing Interceptors.hook_OnConnect _ h e eq_refl OnConnect_returns) as Hs.
    destruct (run_hook clock _ h e) as [r h']. apply Hs; [|done]. intros now m. unfold Tenants.tenant_OnConnect.
    pose proof (same_config_connect m m (Interceptors.ce_ClientID e) (ResolveTenant (Interceptors.ce_Username e)) (λ _, eq_refl)) as Hc.
    by destruct (Tenants.TryConnect _ _ _).
  - intros h e. apply run_hook_standing with Tenants.tenant_OnPublish; [done|apply OnPublish_returns|].
    intros now m. unfold Tenants.tenant_OnPublish.
    pose proof (same_config_publish m m now (Interceptors.pe_ClientID e) (len (Interceptors.pe_Payload e)) (λ _, eq_refl)) as Hc.
    by destruct (Tenants.CheckPublish _ _ _ _) as [[err|] m'].
  - intros h e. by apply run_hook_standing with Tenants.tenant_OnSubscribe; [|apply OnSubscribe_returns|].
  - intros h e. by apply run_hook_standing with Tenants.tenant_OnUnsubscribe; [|apply OnUnsubscribe_returns|].
  - intros h e. by apply run_hook_standing with Tenants.tenant_OnDelivery; [|apply OnDelivery_returns|].
  - intros e. cbn. repeat constructor. intros h (n & br & m & -> & Hm). do 3 eexists. split; [done|].
    eapply prefixes_same; [by apply same_config_release|exact Hm].
Qed.

(** *** Without limits the breaker stays closed *)

(** No tenant has a limit. *)
Definition unlimited (m : TenantManager) : Prop :=
  ∀ t, let st := Tenants.getState m t in
    Tenants.MaxConnections (Tenants.t_config st) = 0 ∧ Tenants.MaxMessageSize (Tenants.t_config st) = 0 ∧
    Tenants.rateLimiter st = Tenants.Inf_limiter.

Definition free (h : tstate) : Prop :=
  ∃ n br m, h = (n, ([registered br], m)) ∧ Breaker.state br = Breaker.StateClosed ∧ unlimited m.

Lemma unlimited_upd m t st : unlimited m → Tenants.t_config st = Tenants.t_config (Tenants.getState m t) →
  Tenants.rateLimiter st = Tenants.Inf_limiter → unlimited (Tenants.upd_state m t st).
Proof.
  intros Hm Hc Hr t'. cbn zeta. rewrite Tenants.upd_state_get. case_bool_decide; [|apply Hm].
  rewrite Hc, Hr. by destruct (Hm t) as (? & ? & _).
Qed.

Lemma unlimited_connect m c t : unlimited m → ∃ m', Tenants.TryConnect m c t = (None, m') ∧ unlimited m'.
Proof.
  intros Hm. unfold Tenants.TryConnect, Tenants.quota_ok. destruct (Hm t) as (-> & _ & Hr). cbn. eexists. split; [done|].
  intros t'. unfold Tenants.commit_connect. rewrite Tenants.getState_clients. by apply unlimited_upd.
Qed.
Lemma unlimited_publish m now c n : unlimited m → ∃ m', Tenants.CheckPublish now m c n = (None, m') ∧ unlimited m'.
Proof.
  intros Hm. unfold Tenants.CheckPublish. destruct (Tenants.clients m !! c) as [t|]; [|by exists m].
  destruct (Hm t) as (_ & -> & ->). cbn. rewrite Tenants.Inf_allows. eexists. split; [done|]. by apply unlimited_upd.
Qed.
Lemma unlimited_release m c : unlimited m → unlimited (Tenants.release m c).
Proof.
  intros Hm. unfold Tenants.release. destruct (Tenants.clients m !! c) as [t|]; [|done].
  apply (unlimited_upd (Tenants.mkManager _ _ _)); [done..|]. by destruct (Hm t) as (_ & _ & ?).
Qed.

Lemma run_hook_free {E} (sel : Interceptors.Interceptor TenantManager → option (Interceptors.hook TenantManager E)) fn h e :
  sel (Tenants.TenantInterceptor ResolveTenant) = Some fn → returning fn →
  (∀ now m, unlimited m → Interceptors.end_ (fn now m e) = Interceptors.Returned None ∧ unlimited (Interceptors.left_ (fn now m e))) →
  free h → free (run_hook clock sel h e).2.
Proof.
  intros Hs Hr Hf (n & br & m & -> & Hb & Hm). destruct (run_hook_cases sel fn n br m e Hs Hr) as (br' & -> & Hcl).
  destruct (Hf (clock n) m Hm) as [He Hl]. rewrite (closed_allows _ _ Hb). cbn zeta. cbn [fst snd]. do 3 eexists. eauto.
Qed.

Lemma tenants_free : Hooks.keeps_hooks free (SetInterceptors clock (Tenants.tenant_chain ResolveTenant)).
Proof.
  constructor; cbn [OnConnect OnPublish OnSubscribe OnUnsubscribe OnDelivery OnDisconnect SetInterceptors].
  - intros h e Hh. unfold connect_hook.
    pose proof (run_hook_free Interceptors.hook_OnConnect _ h e eq_refl OnConnect_returns) as Hs.
    destruct (run_hook clock _ h e) as [r h']. apply Hs; [|done]. intros now m Hm. unfold Tenants.tenant_OnConnect.
    by destruct (unlimited_connect m (Interceptors.ce_ClientID e) (ResolveTenant (Interceptors.ce_Username e)) Hm) as (m' & -> & ?).
  - intros h e. apply run_hook_free with Tenants.tenant_OnPublish; [done|apply OnPublish_returns|].
    intros now m Hm. unfold Tenants.tenant_OnPublish.
    by destruct (unlimited_publish m now (Interceptors.pe_ClientID e) (len (Interceptors.pe_Payload e)) Hm) as (m' & -> & ?).
  - intros h e. by apply run_hook_free with Tenants.tenant_OnSubscribe; [|apply OnSubscribe_returns|].
  - intros h e. by apply run_hook_free with Tenants.tenant_OnUnsubscribe; [|apply OnUnsubscribe_returns|].
  - intros h e. by apply run_hook_free with Tenants.tenant_OnDelivery; [|apply OnDelivery_returns|].
  - intros e. cbn. repeat constructor. intros h (n & br & m & -> & Hb & Hm). do 3 eexists.
    split_and!; [done|done|by apply unlimited_release].
Qed.

(** *** Subscribing and publishing *)

(** A SUBSCRIBE passes, and gets the prefix of its client unless the breaker refuses the call. *)
Lemma subscribe_hook h e : standing h →
  ∃ e' h', run_hook clock Interceptors.hook_OnSubscribe h e = (Some e', h') ∧ standing h' ∧ manager h' = manager h ∧
    (closed h → closed h') ∧
    (Interceptors.se_TopicFilter e' =
       Tenants.add_prefix (Tenants.GetTopicPrefix (manager h) (Interceptors.se_ClientID e)) (Interceptors.se_TopicFilter e) ∨
     ¬ closed h ∧ e' = e).
Proof.
  intros (n & br & m & -> & Hm).
  destruct (run_hook_cases Interceptors.hook_OnSubscribe _ n br m e eq_refl OnSubscribe_returns) as (br' & -> & Hbr).
  pose proof (proj1 (closed_registered n br m)) as Hcl.
  cbn zeta. destruct (Breaker.Allow (clock n) br).1 eqn:Ea.
  - do 2 eexists. split; [done|]. split; [by do 3 eexists|]. split; [done|]. split; [|by left].
    intros Hc. apply closed_registered. auto.
  - do 2 eexists. split; [done|]. split; [by do 3 eexists|]. split; [done|].
    assert (¬ closed (n, ([registered br], m))) as Hn by (intros Hc; by rewrite (closed_allows _ _ (Hcl Hc)) in Ea).
    split; [done|]. by right.
Qed.

(** With a closed breaker, a publish that passes gets the prefix of its client. *)
Lemma publish_hook h e e' : standing h → closed h →
  (run_hook clock Interceptors.hook_OnPublish h e).1 = Some e' →
  Interceptors.pe_Topic e' =
    Tenants.add_prefix (Tenants.GetTopicPrefix (manager h) (Interceptors.pe_ClientID e)) (Interceptors.pe_Topic e).
Proof.
  intros (n & br & m & -> & Hm) Hc%closed_registered.
  destruct (run_hook_cases Interceptors.hook_OnPublish _ n br m e eq_refl OnPublish_returns) as (br' & -> & _).
  rewrite (closed_allows _ _ Hc). cbn zeta. cbn [fst].
  destruct (OnPublish_returns (clock n) m e) as [[err|] Hend]; rewrite Hend; [done|]. intros [= <-].
  by apply Tenants.published_topic.
Qed.

(** ** The whole broker *)

Context (CompareHashAndPassword : string → list Z → bool) (cs : Access.CredentialStore).
Context `{RateLimit.RateLimiter} (conn_name conn_address : nat → string).
Notation base := (Secured.secured CompareHashAndPassword cs clock conn_name conn_address).

(** Credentials, limiter and tenants, as [main.go] sets them up. *)
Definition tenanted : Env := {|
  Authenticate := @Authenticate base;
  Authorize := @Authorize base;
  limiter := @limiter base;
  AllowConnect := @AllowConnect base;
  AllowPublish := @AllowPublish base;
  AllowSubscribe := @AllowSubscribe base;
  hooks := tstate;
  interceptors := Some (SetInterceptors clock (Tenants.tenant_chain ResolveTenant));
  remotes := RemoteSubs.RemoteSubIndex;
  RemoteSubs_Match r t := (λ m, (RemoteSubs.rm_NodeID m, RemoteSubs.rm_MaxQoS m)) <$> RemoteSubs.Match r t;
  auto_id := conn_name;
  remote_addr := conn_address
|}.

Context {db : Type} `{Storage.Store db} `{Offline.MessageJSON} `{Sessions.SessionJSON} `{Retain.RetainedJSON} `{Wills.WillJSON}.
#[local] Existing Instance tenanted.
Notation Broker := (Broker db).
Implicit Types b : Broker.

(** The prefix of the tenant of a client, as the manager knows it. *)
Definition prefix b (c : string) : string := Tenants.GetTopicPrefix (manager (hk b)) c.

(** *** The definitions of the tenants are read again *)

(** What happens to the broker: its own steps, what comes from other nodes, and a SIGHUP, after which the file of the tenants (or the
    error of reading it) is loaded. *)
Definition yaml : Type := string + list Tenants.Tenant.
Definition LoadTenants (y : yaml) (h : tstate) : tstate := (h.1, (h.2.1, (Tenants.LoadTenantsFromBytes (manager h) y).2)).
Notation happening := (Hooks.happening (R := yaml)).
Notation happen := (Hooks.happen (LoadTenants : yaml → @hooks tenanted → @hooks tenanted)).
Notation served d l m0 := (Hooks.served d l (start_hooks m0 : @hooks tenanted)).

(** The definitions that are read have separating prefixes. *)
Definition reloads_ok (es : list happening) : Prop :=
  ∀ y l, Hooks.Reload y ∈ es → Tenants.ParseTenants y = inr l → Forall (λ t, Tenants.separating (Tenants.TopicPrefix t)) l.

Lemma load_tenants_config old l : ∀ new, Forall (λ t, Tenants.separating (Tenants.TopicPrefix t)) l →
  map_Forall (λ _ st, Tenants.separating (Tenants.TopicPrefix (Tenants.t_config st))) new →
  map_Forall (λ _ st, Tenants.separating (Tenants.TopicPrefix (Tenants.t_config st))) (foldl (Tenants.load_tenant old) new l).
Proof.
  induction l as [|t l IH]; intros new Hl Hn; [done|]. inversion Hl; subst. cbn. apply IH; [done|].
  unfold Tenants.load_tenant. case_match; by apply map_Forall_insert_2.
Qed.

Lemma reload_prefixes m y : (∀ l, Tenants.ParseTenants y = inr l → Forall (λ t, Tenants.separating (Tenants.TopicPrefix t)) l) →
  prefixes_ok m → prefixes_ok (Tenants.LoadTenantsFromBytes m y).2.
Proof.
  intros Hy Hm. pose proof (Hm "") as Hd. unfold Tenants.LoadTenantsFromBytes. destruct (Tenants.ParseTenants y) as [err|l]; [done|].
  specialize (Hy l eq_refl). intros t. unfold Tenants.getState. cbn [snd Tenants.tenants Tenants.default_].
  case_bool_decide; [exact Hd|].
  pose proof (load_tenants_config (Tenants.tenants m) l ∅ Hy ltac:(apply map_Forall_empty)) as Hf.
  destruct (foldl _ _ _ !! t) as [st|] eqn:E; [|exact Hd]. right. by apply (Hf t).
Qed.

Lemma life_standing d l m0 es b0 b : prefixes_ok m0 → reloads_ok es →
  served d l m0 = Ok b0 → fold_res happen b0 es = Ok b → standing (hk b).
Proof.
  intros Hm Hr. apply (Hooks.life_keeps _ (standing : @hooks tenanted → Prop)); [|intros y h Hy|by do 3 eexists].
  - intros chain [= <-]. apply tenants_standing.
  - intros (n & br & m & -> & Hp). do 3 eexists. split; [done|]. apply reload_prefixes; [|done]. intros ts. by apply Hr.
Qed.

(** *** Without limits the breaker is closed *)

Lemma reload_unlimited m y :
  (∀ l, Tenants.ParseTenants y = inr l → Forall (λ t, Tenants.MaxConnections t = 0 ∧ Tenants.MaxMessageSize t = 0 ∧ Tenants.MaxMessageRate t = 0) l) →
  unlimited m → unlimited (Tenants.LoadTenantsFromBytes m y).2.
Proof.
  intros Hy Hm. pose proof (Hm "") as Hd. unfold Tenants.LoadTenantsFromBytes. destruct (Tenants.ParseTenants y) as [err|l]; [done|].
  specialize (Hy l eq_refl). intros t. unfold Tenants.getState. cbn [snd Tenants.tenants Tenants.default_].
  case_bool_decide; [exact Hd|].
  set (P := λ (_ : string) st, Tenants.MaxConnections (Tenants.t_config st) = 0 ∧ Tenants.MaxMessageSize (Tenants.t_config st) = 0 ∧
    Tenants.rateLimiter st = Tenants.Inf_limiter).
  assert (∀ l new, Forall (λ t, Tenants.MaxConnections t = 0 ∧ Tenants.MaxMessageSize t = 0 ∧ Tenants.MaxMessageRate t = 0) l →
    map_Forall P new → map_Forall P (foldl (Tenants.load_tenant (Tenants.tenants m)) new l)) as Hf.
  { intros l0. induction l0 as [|x l0 IH]; intros new Hl Hn; [done|]. inversion Hl as [|? ? (H1' & H2' & H3') ?]; subst.
    cbn. apply IH; [done|]. unfold Tenants.load_tenant, Tenants.limiter_for.
    rewrite H3'. case_match; by apply map_Forall_insert_2. }
  specialize (Hf l ∅ Hy ltac:(apply map_Forall_empty)).
  destruct (foldl _ _ _ !! t) as [st|] eqn:E; [|exact Hd]. exact (Hf t st E).
Qed.

(** Without limits, also in what is read again, the breaker is closed in every life. *)
Lemma unlimited_closed d l m0 es b0 b : unlimited m0 →
  (∀ y l, Hooks.Reload y ∈ es → Tenants.ParseTenants y = inr l →
    Forall (λ t, Tenants.MaxConnections t = 0 ∧ Tenants.MaxMessageSize t = 0 ∧ Tenants.MaxMessageRate t = 0) l) →
  served d l m0 = Ok b0 → fold_res happen b0 es = Ok b → closed (hk b).
Proof.
  intros Hm Hr Hs Hrun.
  destruct (Hooks.life_keeps (LoadTenants : yaml → @hooks tenanted → @hooks tenanted) (free : @hooks tenanted → Prop) d l (start_hooks m0) es b0 b)
    as (n & br & m & -> & Hb & _); [| |by do 3 eexists|exact Hs|exact Hrun|].
  - intros chain [= <-]. apply tenants_free.
  - intros y h Hy (n & br & m & -> & Hb & Hu). do 3 eexists. split_and!; [done|done|]. apply reload_unlimited; [|done].
    intros ts. by apply Hr.
  - by apply closed_registered.
Qed.

(** *** Subscribing *)

Lemma subscribe_one_hk b c has s :
  hk (subscribe_one b c has s).1 = hk b ∨
  ∃ e, hk (subscribe_one b c has s).1 = (run_hook clock Interceptors.hook_OnSubscribe (hk b) e).2.
Proof.
  unfold subscribe_one. do 2 (case_match; [by left|]). destruct (AllowSubscribe _ _ _) as [ok l]. cbn zeta.
  case_match; [by left|]. right. unfold intercept_subscribe. cbn [interceptors tenanted OnSubscribe SetInterceptors].
  match goal with |- context [run_hook clock _ _ ?e] => exists e end.
  cbn [set_rl hk]. destruct (run_hook clock _ _ _) as [[e'|] h]; [|done]. cbn [fst snd]. unfold broadcast.
  destruct has; by case_match.
Qed.

Lemma subscribe_all_hk c has pre b : standing (hk b) →
  let b' := (subscribe_all b c has pre).1 in
  standing (hk b') ∧ manager (hk b') = manager (hk b) ∧ (closed (hk b) → closed (hk b')).
Proof.
  intros Hst. induction pre as [|s pre (IH1 & IH2 & IH3)] using rev_ind; [done|]. cbn zeta.
  rewrite Secured.subscribe_all_snoc. destruct (subscribe_one_hk (subscribe_all b c has pre).1 c has s) as [->|[e ->]]; [done|].
  destruct (subscribe_hook _ e IH1) as (e' & h' & -> & ? & Hm & Hc & _). cbn [snd].
  split_and!; [done|by rewrite Hm|auto].
Qed.

(** The life [es] of the broker [b0] has a packet in which a client [c] asks for a filter, being allowed to,
    that matches a topic [t] of the tenants with the prefix [p]: as a client of such a tenant; or, without
    the prefix, when it was of no tenant or the breaker was not closed. *)
Definition asked b0 (es : list happening) (c p t : string) : Prop :=
  ∃ es1 es2 now id fh data b1 cl pkt s,
    es = es1 ++ Hooks.Act (APacket now id fh data) :: es2 ∧ fold_res happen b0 es1 = Ok b1 ∧
    PacketType fh = SUBSCRIBE ∧ conns b1 !! id = Some cl ∧ c_clientID cl = c ∧
    DecodeSubscribePacket data (c_protocolVersion cl) = Ok pkt ∧ s ∈ sub_Subscriptions pkt ∧
    Access.Authorize cs (c_username cl) (TopicFilter s) "subscribe" = true ∧
    (prefix b1 c = p ∧ TopicMatch (TopicFilter s) t = true ∨
     (prefix b1 c = "" ∨ ¬ closed (hk b1)) ∧ TopicMatch (TopicFilter s) (Tenants.add_prefix p t) = true).

(** The session of [c] in the database holds a filter, with its prefix, that matches the topic. *)
Definition stored d l m0 (c p t : string) : Prop :=
  ∃ f q, Secured.restored d l (start_hooks m0 : @hooks tenanted) c f q ∧ TopicMatch f (Tenants.add_prefix p t) = true.

Lemma prefix_ok b c : standing (hk b) → prefix b c = "" ∨ Tenants.separating (prefix b c).
Proof.
  intros (n & br & m & E & Hm). unfold prefix, Tenants.GetTopicPrefix. rewrite E. cbn.
  destruct (Tenants.clients m !! c) as [t|]; [|by left]. apply Hm.
Qed.

Lemma matched_asked d l m0 es b0 b c p t : prefixes_ok m0 → reloads_ok es →
  served d l m0 = Ok b0 → fold_res happen b0 es = Ok b → Tenants.separating p → first_byte t ≠ Some "$"%char →
  is_Some (matched b (Tenants.add_prefix p t) c) → asked b0 es c p t ∨ stored d l m0 c p t.
Proof.
  intros Hpre Hre Hs Hrun Hp Ht [q Hm]. destruct (Secured.life_granted _ d l (start_hooks m0) b0 es b Hs Hrun) as [Hok Hgr].
  pose proof (Subscriptions.Match_is_best (subscriptions b) (Tenants.add_prefix p t) Hok c) as Hbest.
  unfold matched in Hm. rewrite Hm in Hbest. destruct Hbest as [(f & Hf & Hq) _].
  destruct (Hgr c f q) as [Hst|(es1 & a & es2 & b1 & -> & Hb1 & Hg)]; [done|right; by exists f, q|left].
  destruct a as [|?|now id fh data|?|?|?|?|?|?|?|?|?]; try done.
  destruct Hg as (Hty & _ & cl & Hid & Hcl & pkt & Hdec & pre & s & post & Hsubs & _ & Ha & _ & Hi). subst c.
  assert (standing (hk b1)) as Hst.
  { eapply life_standing; [exact Hpre| |exact Hs|exact Hb1]. intros y ts Hy. apply Hre. set_solver. }
  set (has := bool_decide _) in Hi. destruct (subscribe_all_hk cl has pre b1 Hst) as (Hst' & Hman & Hclo).
  exists es1, es2, now, id, fh, data, b1, cl, pkt, s. split_and!; try done.
  { rewrite Hsubs. set_solver. }
  unfold Secured.intercepted in Hi. cbn [interceptors tenanted OnSubscribe SetInterceptors] in Hi.
  destruct Hi as (e' & He' & <- & _). match type of He' with context [Interceptors.mkSubscribe _ _ ?x] => set (q0 := x) in He' end.
  destruct (subscribe_hook _ (Interceptors.mkSubscribe (c_clientID cl) (TopicFilter s) q0) Hst')
    as (e2 & h' & Hrunh & _ & _ & _ & Hf2). rewrite Hrunh in He'. injection He' as ->.
  rewrite Hman in Hf2. cbn [Interceptors.se_ClientID Interceptors.se_TopicFilter] in Hf2.
  change (Tenants.GetTopicPrefix (manager (hk b1)) (c_clientID cl)) with (prefix b1 (c_clientID cl)) in Hf2.
  destruct Hf2 as [Hf2|[Hnc ->]].
  - rewrite Hf2 in Hf. destruct (prefix_ok b1 (c_clientID cl) Hst) as [E|Hsep].
    + right. rewrite E in Hf. split; [by left|done].
    + left. rewrite Tenants.tenant_match in Hf by done. apply andb_true_iff in Hf as [->%bool_decide_eq_true ->]. done.
  - right. split; [|done]. right. intros Hc. by apply Hnc, Hclo.
Qed.

(** C27: tenants are kept apart in the life of the whole broker: whatever clients did and other nodes
    replicated since the broker was served and however often a SIGHUP had the tenants read again, a PUBLISH of a client of a tenant, on a
    topic that does not start with [$] and while the breaker of the interceptor is closed, changes the
    connection of another client or an offline queue only if that client asked for the topic in a
    SUBSCRIBE that its user was allowed: as a client of a tenant with the same prefix at that time; or for
    the topic with the prefix, when it belonged to no tenant or the breaker was not closed; or if the
    session of that client in the database, read at the start, held a filter that matches the topic with
    the prefix. The prefixes are single levels that are no wildcards and do not start with [$], also those
    that are read again. The calls that a hook makes to the manager run together here: the end of another
    connection of the same client id between them takes the prefix away ([prefix_lost_between]). Sessions
    of a migration are not imported: the program sets no handler for them. *)
Theorem tenants_isolated (d : option db) (l : @limiter tenanted) (m0 : TenantManager) (es : list happening) (b0 b b' : Broker)
    (now : Z) (id : nat) (cl : Client) (fh : FixedHeader) (data : list Z) (pkt : PublishPacket) :
  prefixes_ok m0 → reloads_ok es → served d l m0 = Ok b0 → fold_res happen b0 es = Ok b →
  conns b !! id = Some cl → closed (hk b) → prefix b (c_clientID cl) ≠ "" →
  DecodePublishPacket data (QoS fh) 4 = Ok pkt → first_byte (pub_Topic pkt) ≠ Some "$"%char →
  handlePublish now b id fh data = Ok b' →
  (∀ i, i ≠ id → Hooks.touches_conn b b' i → ∃ c, clients b !! c = Some i ∧
     (asked b0 es c (prefix b (c_clientID cl)) (pub_Topic pkt) ∨ stored d l m0 c (prefix b (c_clientID cl)) (pub_Topic pkt))) ∧
  (∀ c, Hooks.touches_queue b b' c →
     asked b0 es c (prefix b (c_clientID cl)) (pub_Topic pkt) ∨ stored d l m0 c (prefix b (c_clientID cl)) (pub_Topic pkt)).
Proof.
  intros Hpre Hre Hs Hrun Hc Hclo Hne Hdec Ht Hpub. pose proof (life_standing _ _ _ _ _ _ Hpre Hre Hs Hrun) as Hst.
  destruct (prefix_ok b (c_clientID cl) Hst) as [|Hsep]; [done|].
  assert (∀ topic, Hooks.routed b (c_clientID cl) fh pkt topic →
    topic = Tenants.add_prefix (prefix b (c_clientID cl)) (pub_Topic pkt)) as Hr.
  { unfold Hooks.routed. cbn [interceptors tenanted OnPublish SetInterceptors]. intros topic (e & He & ->).
    by apply (publish_hook _ _ _ Hst Hclo) in He. }
  destruct (Hooks.publish_only now b id fh data b' cl Hpub Hc) as [Hconn Hqueue]. split.
  - intros i Hi (pkt' & topic & c & Hd & Hrt & Hcl & Hm)%Hconn; [|done]. rewrite Hdec in Hd. injection Hd as <-.
    exists c. split; [done|]. apply Hr in Hrt as ->. by apply (matched_asked _ _ _ _ _ b).
  - intros c (pkt' & topic & Hd & Hrt & Hm)%Hqueue. rewrite Hdec in Hd. injection Hd as <-. apply Hr in Hrt as ->.
    by apply (matched_asked _ _ _ _ _ b).
Qed.

(** *** Between the calls of a hook *)

(** [OnPublish] calls the manager twice, first to check the message and then for the prefix; [between] is
    what other goroutines do to the manager in between. *)
Definition OnPublish_between (between : TenantManager → TenantManager) : Interceptors.hook TenantManager Interceptors.PublishEvent :=
  λ now m e,
  let '(err, m) := Tenants.CheckPublish now m (Interceptors.pe_ClientID e) (len (Interceptors.pe_Payload e)) in
  match err with
  | Some _ => Tenants.returns now err m e
  | None =>
      let m := between m in
      Tenants.returns now None m
        (Interceptors.mkPublish (Interceptors.pe_ClientID e)
           (Tenants.add_prefix (Tenants.GetTopicPrefix m (Interceptors.pe_ClientID e)) (Interceptors.pe_Topic e))
           (Interceptors.pe_Payload e) (Interceptors.pe_QoS e) (Interceptors.pe_Retain e))
  end.

Lemma OnPublish_alone : OnPublish_between id = Tenants.tenant_OnPublish.
Proof. reflexivity. Qed.

(** When the end of another connection with the client id is notified in between, a message that passes
    goes out without the prefix, whatever the tenant of the client. *)
Lemma prefix_lost_between now m e :
  let c := OnPublish_between (λ m, Tenants.release m (Interceptors.pe_ClientID e)) now m e in
  Interceptors.end_ c = Interceptors.Returned None → Interceptors.pe_Topic (Interceptors.evt c) = Interceptors.pe_Topic e.
Proof.
  cbn zeta. unfold OnPublish_between. destruct (Tenants.CheckPublish _ _ _ _) as [[err|] m1]; [done|]. intros _. cbn.
  assert (Tenants.GetTopicPrefix (Tenants.release m1 (Interceptors.pe_ClientID e)) (Interceptors.pe_ClientID e) = "") as ->; [|done].
  unfold Tenants.release, Tenants.GetTopicPrefix.
  destruct (Tenants.clients m1 !! Interceptors.pe_ClientID e) as [t|] eqn:E; [|by rewrite E].
  unfold Tenants.add_connections. rewrite Tenants.upd_state_clients. cbn [Tenants.clients]. by rewrite lookup_delete_eq.
Qed.

End Tenants.

(** ** Runs *)

#[local] Existing Instance Tenants.bucket.
#[local] Existing Instance RateLimit.plain_bucket.

Definition all_rules : list Access.ACLRule := [Access.mkRule "#" "subscribe"; Access.mkRule "#" "publish"].
(** [ann] and [bob] are of the tenant acme, [eve] is of another one; all may read and write everything. *)
Definition users : Access.CredentialStore :=
  Access.mkStore (Access.user_map [Access.mkUser "ann" "pa" "acme" all_rules; Access.mkUser "bob" "pb" "acme" all_rules;
    Access.mkUser "eve" "pe" "demo" all_rules]).
Definition two_tenants : Tenants.TenantManager :=
  (Tenants.LoadTenantsFromBytes Tenants.NewManager (inr [Tenants.mkTenant "acme" 2 0 0 ""; Tenants.mkTenant "demo" 0 0 0 ""])).2.

#[local] Instance sample_env : Env :=
  tenanted (λ n, Z.of_nat n) (Access.ResolveTenant users) (λ hash password, bool_decide (bytes_of hash = password)) users
    (λ _, "auto-0xc000010000") (λ _, "10.0.0.7:50000").

Definition limiter0 : @limiter sample_env := (0%nat, RateLimit.NewAggregateRateLimiter RateLimit.sample_config).
Definition served_fresh : res (Broker Storage.mem_db) :=
  Hooks.served (Some empty_db) limiter0 (start_hooks (Access.ResolveTenant users) two_tenants : @hooks sample_env).
Definition fresh : Broker Storage.mem_db :=
  match served_fresh with Ok b => b | _ => New (Some empty_db) limiter0 (start_hooks (Access.ResolveTenant users) two_tenants) end.
Lemma fresh_ok : Hooks.served (Some empty_db) limiter0 (start_hooks (Access.ResolveTenant users) two_tenants : @hooks sample_env) = Ok fresh.
Proof. fold served_fresh. assert (is_ok served_fresh = true) as Hok by (vm_compute; reflexivity). unfold fresh. by destruct served_fresh. Qed.

Definition joins (id : nat) (user password cid : string) : list action :=
  [AAccept id; AConnect 0 id (head CONNECT 0) (Secured.login user password cid None); AWrite id].
Definition reads (id : nat) (filter : string) : list action :=
  [APacket 0 id (head SUBSCRIBE 0) (subscribe_data 4 filter 0); AWrite id].
Definition says (id : nat) (topic : string) : list action :=
  [APacket 0 id (head PUBLISH 0) (publish_data topic 0 0 [104; 105])].

Definition received (b : Broker Storage.mem_db) (id : nat) : option (list (list Z)) := c_sendCh <$> conns b !! id.
Definition heard (topic : string) : option (list (list Z)) := Some [publish_packet topic [104; 105] 0 0 false].

(** Two clients of acme and one of the other tenant, which asks for everything; in between the tenants are
    read again, with another limit and a third tenant. *)
Definition new_file : yaml :=
  inr [Tenants.mkTenant "acme" 3 0 0 ""; Tenants.mkTenant "demo" 0 0 0 ""; Tenants.mkTenant "lab" 0 0 0 ""].
Definition three_clients : list (Hooks.happening (R := yaml)) :=
  (Hooks.Act <$> (joins 1 "ann" "pa" "a1" ++ joins 2 "bob" "pb" "a2")) ++ [Hooks.Reload new_file] ++
  (Hooks.Act <$> (reads 2 "news/#" ++ joins 3 "eve" "pe" "e1" ++ reads 3 "#")).
Notation live := (fold_res (Hooks.happen (LoadTenants : yaml → @hooks sample_env → @hooks sample_env))).

(** The broker after this, and after [ann] has published. *)
Definition quiet_broker : Broker Storage.mem_db := match live fresh three_clients with Ok b => b | _ => fresh end.
Definition loud_broker : Broker Storage.mem_db :=
  match handlePublish 0 quiet_broker 1 (head PUBLISH 0) (publish_data "news/x" 0 0 [104; 105]) with Ok b => b | _ => fresh end.
Definition ann_client : Client := match conns quiet_broker !! 1%nat with Some c => c | None => newClient fresh end.

Lemma quiet_ok : live fresh three_clients = Ok quiet_broker.
Proof.
  assert (is_ok (live fresh three_clients) = true) as Hok by (vm_compute; reflexivity).
  unfold quiet_broker. by destruct (fold_res _ _ _).
Qed.
Lemma loud_ok : handlePublish 0 quiet_broker 1 (head PUBLISH 0) (publish_data "news/x" 0 0 [104; 105]) = Ok loud_broker.
Proof.
  assert (is_ok (handlePublish 0 quiet_broker 1 (head PUBLISH 0) (publish_data "news/x" 0 0 [104; 105])) = true) as Hok
    by (vm_compute; reflexivity).
  unfold loud_broker. by destruct (handlePublish _ _ _ _ _).
Qed.
Lemma ann_ok : conns quiet_broker !! 1%nat = Some ann_client.
Proof.
  assert (bool_decide (is_Some (conns quiet_broker !! 1%nat)) = true) as Hok by (vm_compute; reflexivity).
  apply bool_decide_eq_true in Hok as [c Hc]. unfold ann_client. by rewrite Hc.
Qed.
Lemma quiet_closed : closed (hk quiet_broker).
Proof. unfold closed. apply (bool_decide_eq_true_1 _). vm_compute. reflexivity. Qed.
Lemma bob_touched : Hooks.touches_conn quiet_broker loud_broker 2.
Proof.
  intros He. assert (received loud_broker 2 = received quiet_broker 2) as Hr by (unfold received; by rewrite He).
  apply (f_equal (λ o, length <$> o)) in Hr. vm_compute in Hr. discriminate.
Qed.

(** The prefixes of a list of tenants, as a test. *)
Lemma prefixes_decide (m : Tenants.TenantManager) :
  Tenants.default_ m = Tenants.defaultTenant →
  map_Forall (λ _ st, Tenants.separating (Tenants.TopicPrefix (Tenants.t_config st))) (Tenants.tenants m) → prefixes_ok m.
Proof.
  intros Hd Hm t. unfold Tenants.getState. rewrite Hd. case_bool_decide; [by left|].
  destruct (Tenants.tenants m !! t) as [st|] eqn:E; [right; by apply (Hm t)|by left].
Qed.

Lemma two_tenants_ok : prefixes_ok two_tenants.
Proof.
  apply prefixes_decide; [reflexivity|].
  apply (map_Forall_impl (λ _ st, bool_decide (Tenants.TopicPrefix (Tenants.t_config st) = "acme" ∨
    Tenants.TopicPrefix (Tenants.t_config st) = "demo"))).
  - apply (bool_decide_eq_true_1 _). vm_compute. reflexivity.
  - intros t st Hs%bool_decide_unpack. apply Tenants.separating_word. by destruct Hs as [-> | ->].
Qed.

Lemma new_file_ok :
  reloads_ok (λ n, Z.of_nat n) (Access.ResolveTenant users) (λ hash password, bool_decide (bytes_of hash = password)) users
    (λ _, "auto-0xc000010000") (λ _, "10.0.0.7:50000") three_clients.
Proof.
  intros y l Hy Hl. unfold three_clients in Hy.
  assert (y = new_file) as ->.
  { apply elem_of_app in Hy as [Hy|Hy]; [|apply elem_of_app in Hy as [Hy|Hy]].
    - by apply list_elem_of_fmap in Hy as (? & ? & _).
    - apply list_elem_of_singleton in Hy. by injection Hy.
    - by apply list_elem_of_fmap in Hy as (? & ? & _). }
  vm_compute in Hl. injection Hl as <-. repeat constructor; apply Tenants.separating_word; reflexivity.
Qed.

Lemma tenants_isolated_witness :
  received loud_broker 2 = heard "news/x" ∧ received loud_broker 3 = Some [] ∧
  ∃ c, clients quiet_broker !! c = Some 2%nat ∧
    (asked (λ n, Z.of_nat n) (Access.ResolveTenant users) (λ hash password, bool_decide (bytes_of hash = password)) users
       (λ _, "auto-0xc000010000") (λ _, "10.0.0.7:50000") fresh three_clients c
       (Tenants.GetTopicPrefix (manager (hk quiet_broker)) "a1") "news/x" ∨
     stored (λ n, Z.of_nat n) (Access.ResolveTenant users) (λ hash password, bool_decide (bytes_of hash = password)) users
       (λ _, "auto-0xc000010000") (λ _, "10.0.0.7:50000") (Some empty_db) limiter0 two_tenants c
       (Tenants.GetTopicPrefix (manager (hk quiet_broker)) "a1") "news/x").
Proof.
  split; [vm_compute; reflexivity|]. split; [vm_compute; reflexivity|].
  assert (∃ pkt, DecodePublishPacket (publish_data "news/x" 0 0 [104; 105]) 0 4 = Ok pkt ∧ pub_Topic pkt = "news/x")
    as (pkt & Hpkt & Ht) by (apply ok_exists; vm_compute; reflexivity).
  assert (c_clientID ann_client = "a1") as Ha by (vm_compute; reflexivity).
  destruct (tenants_isolated (λ n, Z.of_nat n) (Access.ResolveTenant users) (λ hash password, bool_decide (bytes_of hash = password))
    users (λ _, "auto-0xc000010000") (λ _, "10.0.0.7:50000") (Some empty_db) limiter0 two_tenants three_clients fresh quiet_broker loud_broker
    0 1 ann_client (head PUBLISH 0) (publish_data "news/x" 0 0 [104; 105]) pkt) as [Hc _];
    [apply two_tenants_ok|apply new_file_ok|apply fresh_ok|apply quiet_ok|apply ann_ok|apply quiet_closed|vm_compute; discriminate|exact Hpkt|by rewrite Ht|apply loud_ok|].
  rewrite Ht, Ha in Hc. apply (Hc 2%nat); [discriminate|apply bob_touched].
Defined.

(** *** How tenants come to hear each other *)

(** A retained message is stored before the interceptors see it and is looked up by the filter of the
    packet: it is kept outside of the tenants, and everybody who asks for its topic gets it. *)
Lemma retained_crosses_tenants :
  ∃ b, fold_res bstep fresh (joins 1 "ann" "pa" "a1" ++
         [APacket 0 1 (Frame.Build_FixedHeader PUBLISH false 0 true 0) (publish_data "plans" 0 0 [104; 105])] ++
         joins 2 "eve" "pe" "e1" ++ reads 2 "plans") = Ok b ∧
    received b 2 = Some [publish_packet "plans" [104; 105] 0 0 true].
Proof. apply ok_exists. vm_compute. reflexivity. Qed.

(** A client that connects again while its old connection is open loses its tenant when that connection
    is closed; what it asks for then is not put below its prefix, and it hears all tenants. *)
Lemma reconnected_hears_all :
  ∃ b, fold_res bstep fresh (joins 1 "ann" "pa" "a1" ++ joins 2 "eve" "pe" "e1" ++ joins 3 "eve" "pe" "e1" ++
         [AClose 0 2; ANotify 0] ++ reads 3 "#" ++ says 1 "news/x") = Ok b ∧
    received b 3 = heard "acme/news/x".
Proof. apply ok_exists. vm_compute. reflexivity. Qed.

(** A session belongs to a client id: a user of another tenant who connects with the id gets the
    subscriptions, below the prefix of the tenant they were made in. *)
Lemma session_crosses_tenants :
  ∃ b, fold_res bstep fresh (joins 1 "ann" "pa" "a1" ++ joins 2 "bob" "pb" "dev" ++ reads 2 "news/#" ++
         [AClose 0 2; ANotify 0] ++ joins 3 "eve" "pe" "dev" ++ says 1 "news/x") = Ok b ∧
    received b 3 = heard "acme/news/x".
Proof. apply ok_exists. vm_compute. reflexivity. Qed.

(** A will does not pass the interceptors: it is published on the topic as it is, which can be one of
    another tenant, whose clients get it without their prefix. *)
Lemma will_crosses_tenants :
  ∃ b, fold_res bstep fresh (joins 1 "bob" "pb" "a2" ++ reads 1 "news/#" ++
         [AAccept 2; AConnect 0 2 (head CONNECT 0) (Secured.login "eve" "pe" "e1" (Some ("acme/news/x", [104; 105])));
          AClose 0 2]) = Ok b ∧
    received b 1 = heard "news/x".
Proof. apply ok_exists. vm_compute. reflexivity. Qed.

(** The will of a client that the interceptors refuse is published too: here the third client of a
    tenant that may have two. *)
Lemma refused_will_published :
  ∃ b, fold_res bstep fresh (joins 1 "ann" "pa" "a1" ++ joins 2 "bob" "pb" "a2" ++ joins 3 "eve" "pe" "e1" ++
         reads 3 "x" ++ [AAccept 4; AConnect 0 4 (head CONNECT 0) (Secured.login "ann" "pa" "a3" (Some ("demo/x", [104; 105])))]) = Ok b ∧
    received b 3 = heard "x" ∧ clients b !! "a3" = None.
Proof. apply ok_exists. vm_compute. split; reflexivity. Qed.

(** What waited in the queue of a client that was away does not pass the interceptors: it is delivered
    with the prefix. *)
Lemma queued_keeps_prefix :
  ∃ b, fold_res bstep fresh (joins 1 "ann" "pa" "a1" ++ joins 2 "bob" "pb" "a2" ++ reads 2 "news/#" ++
         [AClose 0 2; ANotify 0] ++ says 1 "news/x" ++ joins 3 "bob" "pb" "a2") = Ok b ∧
    received b 3 = heard "acme/news/x".
Proof. apply ok_exists. vm_compute. reflexivity. Qed.

End Isolation.
