(* ===== verification/Nodes.v ===== *)
(** * Brokers that form a cluster

    The brokers of several nodes ([Broker]) with their clusters ([Cluster]) and what is under way between
    them: the broadcasts of the gossip, of which each node gets a copy, and the messages that are
    forwarded. Each of them may be handled again, or be lost, and copies overtake each other. A message published on one node is
    followed to every client of every node. The nodes are there from the start; [Cluster] has their
    joining and leaving, [Peers] the streams that carry what is forwarded. *)
From S2P Require Import Prelude Frame Packets Topic Storage Subscriptions Connections Delivery Offline OfflineFacts Sessions Retain Wills Interceptors Broker BrokerFacts Hooks Migration Ring RemoteSubs Cluster Secured.
Import Frame Packets TopicMatcher Broker.

Module Nodes.

(** ** Subscriptions are announced *)

Section Announced.
Context {db : Type} `{Storage.Store db} `{Env}
  `{Offline.MessageJSON} `{Sessions.SessionJSON} `{Retain.RetainedJSON} `{Wills.WillJSON}.
Notation Broker := (Broker db).
Implicit Types b : Broker.

Lemma prefix_elem {A} (l1 l2 : list A) x : l1 `prefix_of` l2 → x ∈ l1 → x ∈ l2.
Proof. intros [l ->] Hx. set_solver. Qed.

Lemma subscribe_one_says b c has s f q : remote b ≠ None → Secured.may_subscribe b c s f q →
  BroadcastSubscribe f q ∈ outputs (subscribe_one b c has s).1.
Proof.
  intros Hr (Hv & Ha & Hl & Hi). unfold subscribe_one. rewrite Hv, Ha. cbn [negb].
  destruct (AllowSubscribe _ _ _) as [ok l]. cbn in Hl. subst ok. cbn [negb]. cbn zeta.
  set (ev := Interceptors.mkSubscribe _ _ _) in *.
  pose proof (Hooks.intercept_subscribe_moves (set_rl b l) ev) as (_ & (_ & Hrem & _) & _).
  assert (∃ e' b2, intercept_subscribe (set_rl b l) ev = (Some e', b2) ∧ Interceptors.se_TopicFilter e' = f ∧
    Interceptors.se_QoS e' = q) as (e' & b2 & Ei & <- & <-).
  { unfold Secured.intercepted, intercept_subscribe in *. destruct interceptors as [chain|]; cbn [set_rl hk].
    - destruct Hi as (e' & He' & ?). destruct (OnSubscribe chain (hk b) ev) as [r h]. cbn in He'. subst r. by do 2 eexists.
    - destruct Hi as [-> ->]. by do 2 eexists. }
  rewrite Ei in Hrem |- *. cbn in Hrem |- *. rewrite <- Hrem in Hr. unfold broadcast.
  destruct has; cbn; (destruct (remote b2); [cbn; set_solver|done]).
Qed.

Lemma subscribe_all_says b c has pre s post f q : remote b ≠ None →
  Secured.may_subscribe (subscribe_all b c has pre).1 c s f q →
  BroadcastSubscribe f q ∈ outputs (subscribe_all b c has (pre ++ s :: post)).1.
Proof.
  intros Hr Hs. pose proof (Hooks.subscribe_all_moves c has pre b) as (_ & (_ & Hrem & _) & _).
  induction post as [|x post IH] using rev_ind.
  - rewrite Secured.subscribe_all_snoc. apply subscribe_one_says; [congruence|done].
  - rewrite (assoc_L (++) pre (s :: post) [x] : pre ++ s :: post ++ [x] = _), Secured.subscribe_all_snoc.
    eapply prefix_elem; [|exact IH]. apply Hooks.subscribe_one_moves.
Qed.

(** A subscription that is granted is said to the cluster. *)
Lemma granted_said b a b' c f q : remote b ≠ None → Secured.grants b a c f q → bstep b a = Ok b' →
  BroadcastSubscribe f q ∈ outputs b'.
Proof.
  intros Hr. destruct a as [|?|now id fh data|?|?|?|?|?|?|?|?|?]; try done.
  intros (Hty & Hrd & cl & Hid & Hc & pkt & Hdec & pre & s & post & Hsubs & Hmay).
  cbn [bstep]. rewrite Hrd. unfold handlePacket. rewrite Hty. cbn. unfold handleSubscribe, get_client.
  rewrite Hc. cbn. rewrite Hdec, Hsubs.
  pose proof (subscribe_all_says b cl _ pre s post f q Hr Hmay) as Hin.
  unfold serve_step. match goal with |- context [subscribe_all b cl ?has (pre ++ s :: post)] =>
    change (BroadcastSubscribe f q ∈ outputs (subscribe_all b cl has (pre ++ s :: post)).1) in Hin;
    destruct (subscribe_all b cl has (pre ++ s :: post)) as [b1 rcs] end. cbn in Hin.
  intros ([b2 go] & Hx & Hb')%bind_Ok. apply bind_Ok in Hx as (b3 & Hx & [= <- <-]). injection Hb' as <-.
  apply bind_Ok in Hx as (b4 & Hs & Hf).
  assert (Hooks.moves b4 b3) as (_ & (_ & _ & Hp) & _).
  { eapply Hooks.moves_fold_res; [|exact Hf]. intros b5 x b6. apply Hooks.moves_fold_res. intros ???. apply Hooks.send_moves. }
  eapply prefix_elem; [exact Hp|]. apply Hooks.send_moves in Hs as (_ & (_ & _ & Hp2) & _).
  eapply prefix_elem; [exact Hp2|]. exact Hin.
Qed.

(** What the broker and its sessions hold has been announced. *)
Definition announced b : Prop := Secured.granted_in (λ c f q, BroadcastSubscribe f q ∈ outputs b) (Secured.view b).

Lemma announced_same b b' : outputs b `prefix_of` outputs b' → Secured.view b' = Secured.view b → announced b → announced b'.
Proof. unfold announced. intros Hp ->. apply Secured.granted_mono. intros c f q. by apply prefix_elem. Qed.

Lemma announced_step b a b' : remote b ≠ None → announced b → bstep b a = Ok b' → announced b'.
Proof.
  intros Hr Hg Hb. pose proof (Hooks.bstep_outputs _ _ _ Hb) as Hp.
  eapply Secured.bstep_granted; [|by eapply Secured.granted_mono; [|exact Hg]; intros c f q; apply prefix_elem|exact Hb].
  intros c f q Hgr. by eapply granted_said.
Qed.

End Announced.

Section Nodes.
Context `{Ring.HashRing}.

(** A broker whose cluster has the index of the remote subscriptions. *)
Variable base : Env.
Definition clustered : Env := {|
  Authenticate := @Authenticate base;
  Authorize := @Authorize base;
  limiter := @limiter base;
  AllowConnect := @AllowConnect base;
  AllowPublish := @AllowPublish base;
  AllowSubscribe := @AllowSubscribe base;
  hooks := @hooks base;
  interceptors := @interceptors base;
  remotes := RemoteSubs.RemoteSubIndex;
  RemoteSubs_Match r topic := (λ m, (RemoteSubs.rm_NodeID m, RemoteSubs.rm_MaxQoS m)) <$> RemoteSubs.Match r topic;
  auto_id := @auto_id base;
  remote_addr := @remote_addr base
|}.

Context {db : Type} `{Storage.Store db} `{Offline.MessageJSON} `{Sessions.SessionJSON} `{Retain.RetainedJSON} `{Wills.WillJSON}.
#[local] Existing Instance clustered.
Notation Broker := (Broker db).
Implicit Types b : Broker.

Record node := mkNode { nd_broker : Broker; nd_cluster : Cluster.Cluster }.

(** What is under way to a node. *)
Inductive wire :=
  | Gossip (m : Cluster.broadcast)
  | Forwarded (topic : string) (payload : list Z) (qos : Z) (retain : bool).

Record system := mkSystem { nodes : gmap string node; net : list (string * wire) }.

(** ** What a node sends *)

Definition others (s : system) (n : string) : list string := elements (dom (nodes s) ∖ {[n]}).

(** A broadcast that was queued goes to every other node. *)
Definition gossip (s : system) (n : string) (o : Cluster.output) : list (string * wire) :=
  match o with
  | Cluster.QueueSub m => (λ to, (to, Gossip (Cluster.SubMsg m))) <$> others s n
  | Cluster.QueueConn m => (λ to, (to, Gossip (Cluster.ConnMsg m))) <$> others s n
  | _ => []
  end.

Definition sent (s : system) (n : string) (c : Cluster.Cluster) (o : output) : list (string * wire) :=
  match o with
  | BroadcastConnect d => gossip s n (Cluster.BroadcastConnect c d)
  | BroadcastDisconnect d => gossip s n (Cluster.BroadcastDisconnect c d)
  | BroadcastSubscribe f q => gossip s n (Cluster.BroadcastSubscribe c f q)
  | BroadcastUnsubscribe f => gossip s n (Cluster.BroadcastUnsubscribe c f)
  | Forward to topic payload qos retain => [(to, Forwarded topic payload qos retain)]
  end.

(** What the broker of a node has come to say. *)
Definition said (b b' : Broker) : list output := drop (length (outputs b)) (outputs b').

Definition update (s : system) (n : string) (nd : node) (b' : Broker) (c' : Cluster.Cluster) : system :=
  mkSystem (<[n := mkNode b' c']> (nodes s)) (net s ++ (said (nd_broker nd) b' ≫= sent s n c')).

(** A handler of the broker of a node. *)
Definition act (s : system) (n : string) (f : Broker → res Broker) : res system :=
  match nodes s !! n with
  | None => Ok s
  | Some nd => b ← f (nd_broker nd); Ok (update s n nd b (nd_cluster nd))
  end.

(** [SetCluster]: the broker asks the index of the cluster. *)
Definition SetCluster (b : Broker) (c : Cluster.Cluster) : Broker := set_remote b (Some (Cluster.remoteSubs c)).

(** A broadcast is handled: the cluster calls the broker for a client that is connected elsewhere. *)
Definition remote_connect (b : Broker) (o : Cluster.output) : res Broker :=
  match o with Cluster.RemoteConnect d _ => bstep b (ARemoteConnect d) | _ => Ok b end.
Definition handle_gossip (s : system) (n : string) (m : Cluster.broadcast) : res system :=
  match nodes s !! n with
  | None => Ok s
  | Some nd =>
      let '(c', outs) := Cluster.handleBroadcastMsg (nd_cluster nd) m in
      b ← fold_res remote_connect (SetCluster (nd_broker nd) c') outs;
      Ok (update s n nd b c')
  end.

Definition receive (s : system) (now : Z) (to : string) (w : wire) : res system :=
  match w with
  | Gossip m => handle_gossip s to m
  | Forwarded topic payload qos retain => act s to (λ b, bstep b (AForward now topic payload qos retain))
  end.

(** The providers that [SetCluster] gives to the cluster, used when another node joins. *)
Definition announce (s : system) (n : string) (nd : node) : list (string * wire) :=
  (Cluster.rebroadcastLocalSubs (nd_cluster nd) (Subscriptions.AllFilters (subscriptions (nd_broker nd))) ++
   Cluster.rebroadcastLocalConnections (nd_cluster nd) (ConnectedClientIDs (nd_broker nd))) ≫= gossip s n.

Inductive event :=
  | NAct (n : string) (a : action)
  | NRoute (n : string) (now : Z) (topic : string) (payload : list Z) (qos : Z) (retain : bool)
  | NReceive (i : nat) (now : Z)
  | NAgain (i : nat)
  | NLose (i : nat)
  | NAnnounce (n : string).

(** The handlers that a node runs on its own. *)
Definition local (a : action) : bool :=
  match a with AForward _ _ _ _ _ | ARemoteConnect _ | ACluster _ => false | _ => true end.

Definition step (s : system) (e : event) : res system :=
  match e with
  | NAct n a => if local a then act s n (λ b, bstep b a) else Ok s
  | NRoute n now topic payload qos retain => act s n (λ b, routeMessage now b topic payload qos retain false)
  | NReceive i now =>
      match net s !! i with
      | Some (to, w) => receive (mkSystem (nodes s) (delete i (net s))) now to w
      | None => Ok s
      end
  | NAgain i =>
      match net s !! i with
      | Some w => Ok (mkSystem (nodes s) (net s ++ [w]))
      | None => Ok s
      end
  | NLose i => Ok (mkSystem (nodes s) (delete i (net s)))
  | NAnnounce n =>
      match nodes s !! n with
      | Some nd => Ok (mkSystem (nodes s) (net s ++ announce s n nd))
      | None => Ok s
      end
  end.

Fixpoint run (s : system) (evs : list event) : res system :=
  match evs with [] => Ok s | e :: evs => s ← step s e; run s evs end.

(** New brokers, each with its cluster. *)
Definition initial (s : system) : Prop :=
  net s = [] ∧ ∀ n nd, nodes s !! n = Some nd →
    Ring.ni_ID (Cluster.self (nd_cluster nd)) = n ∧ Cluster.remoteSubs (nd_cluster nd) = RemoteSubs.NewRemoteSubIndex ∧
    ∃ d l h, nd_broker nd = SetCluster (New d l h) (nd_cluster nd).

Definition event_ok (e : event) : Prop := match e with NAct _ a => action_ok a | _ => True end.
Definition lossless (e : event) : bool := match e with NLose _ => false | _ => true end.

(** ** Invariants *)

Record node_ok (n : string) (nd : node) : Prop := {
  no_inv : inv (nd_broker nd);
  no_remote : remote (nd_broker nd) = Some (Cluster.remoteSubs (nd_cluster nd));
  no_id : Ring.ni_ID (Cluster.self (nd_cluster nd)) = n;
  no_self : ∀ f, RemoteSubs.remote_qos (Cluster.remoteSubs (nd_cluster nd)) n f = None;
  no_announced : announced (nd_broker nd)
}.

Definition unsubscribed (nd : node) (f : string) : Prop := BroadcastUnsubscribe f ∈ outputs (nd_broker nd).

(** Broadcasts that take a filter back were made. *)
Definition honest (s : system) : Prop :=
  ∀ to m nd, (to, Gossip (Cluster.SubMsg m)) ∈ net s → RemoteSubs.sb_Type m = "unsub" →
    nodes s !! RemoteSubs.sb_NodeID m = Some nd → unsubscribed nd (RemoteSubs.sb_TopicFilter m).

(** What a node has announced is known to the others, or under way to them, or was taken back. *)
Definition known (ns : gmap string node) (l : list (string * wire)) : Prop :=
  ∀ n nd a nda f q, n ≠ a → ns !! n = Some nd → ns !! a = Some nda → BroadcastSubscribe f q ∈ outputs (nd_broker nd) →
    (a, Gossip (Cluster.SubMsg (RemoteSubs.mkSubB "sub" n f q))) ∈ l ∨
    (∃ m, RemoteSubs.remote_qos (Cluster.remoteSubs (nd_cluster nda)) n f = Some m ∧ q ≤ m) ∨ unsubscribed nd f.

Record good (s : system) : Prop := {
  gd_nodes : ∀ n nd, nodes s !! n = Some nd → node_ok n nd;
  gd_honest : honest s
}.

Lemma said_elem b b' o : outputs b `prefix_of` outputs b' → o ∈ outputs b' ↔ o ∈ outputs b ∨ o ∈ said b b'.
Proof. intros [l Hl]. unfold said. rewrite Hl, drop_app_length. set_solver. Qed.

Lemma gossip_elem s n m to w : (to, w) ∈ gossip s n (Cluster.QueueSub m) ↔
  to ≠ n ∧ is_Some (nodes s !! to) ∧ w = Gossip (Cluster.SubMsg m).
Proof.
  unfold gossip, others. rewrite list_elem_of_fmap. setoid_rewrite elem_of_elements. setoid_rewrite elem_of_difference.
  setoid_rewrite elem_of_dom. setoid_rewrite not_elem_of_singleton. naive_solver.
Qed.

Lemma gossip_conn s n o to m : (to, Gossip (Cluster.SubMsg m)) ∈ gossip s n o → o = Cluster.QueueSub m.
Proof. destruct o; cbn; rewrite ?list_elem_of_fmap; [naive_solver..|by intros ?%not_elem_of_nil|by intros ?%not_elem_of_nil|by intros ?%not_elem_of_nil]. Qed.

Lemma sent_sub s n c o to m : (to, Gossip (Cluster.SubMsg m)) ∈ sent s n c o →
  (∃ f q, o = BroadcastSubscribe f q ∧ m = RemoteSubs.mkSubB "sub" (Ring.ni_ID (Cluster.self c)) f q) ∨
  (∃ f, o = BroadcastUnsubscribe f ∧ m = RemoteSubs.mkSubB "unsub" (Ring.ni_ID (Cluster.self c)) f 0).
Proof.
  destruct o; cbn [sent]; [by intros ?%gossip_conn..| | |].
  - intros [= <-]%gossip_conn. left. eauto.
  - intros [= <-]%gossip_conn. right. eauto.
  - intros Hx. apply list_elem_of_singleton in Hx. done.
Qed.

(** Broadcasts that a node makes are honest. *)
Lemma said_honest s n nd b' c' : nodes s !! n = Some nd → outputs (nd_broker nd) `prefix_of` outputs b' →
  Ring.ni_ID (Cluster.self c') = n → good s → honest (update s n nd b' c').
Proof.
  intros Hn Hp Hid [_ Hh] to m nd2 Hin Ht Hnd. cbn in Hin, Hnd. unfold unsubscribed.
  apply elem_of_app in Hin as [Hin|(o & Ho & Hin)%list_elem_of_bind].
  - destruct (decide (RemoteSubs.sb_NodeID m = n)) as [E|Hne].
    + rewrite E, lookup_insert_eq in Hnd. injection Hnd as <-. cbn. eapply prefix_elem; [exact Hp|].
      apply (Hh to m nd Hin Ht). by rewrite E.
    + rewrite lookup_insert_ne in Hnd by done. by apply (Hh to m nd2).
  - apply sent_sub in Ho as [(f & q & -> & ->)|(f & -> & ->)]; [done|]. cbn in Hnd |- *.
    rewrite Hid, lookup_insert_eq in Hnd. injection Hnd as <-. cbn. apply (said_elem _ _ _ Hp). by right.
Qed.

(** A node goes on; if it handled a broadcast [w], then the broadcast is known to it afterwards. *)
Lemma update_known s l n nd b' c' : known (nodes s) l → good s → nodes s !! n = Some nd →
  outputs (nd_broker nd) `prefix_of` outputs b' → Ring.ni_ID (Cluster.self c') = n →
  (∀ n' nd' f m, nodes s !! n' = Some nd' → RemoteSubs.remote_qos (Cluster.remoteSubs (nd_cluster nd)) n' f = Some m →
     (∃ m', RemoteSubs.remote_qos (Cluster.remoteSubs c') n' f = Some m' ∧ m ≤ m') ∨ unsubscribed nd' f) →
  (∀ to w, (to, w) ∈ l → (to, w) ∈ net s ∨ to = n ∧
     ∀ n' f q, n' ≠ n → w = Gossip (Cluster.SubMsg (RemoteSubs.mkSubB "sub" n' f q)) →
       ∃ m, RemoteSubs.remote_qos (Cluster.remoteSubs c') n' f = Some m ∧ q ≤ m) →
  let s' := update s n nd b' c' in known (nodes s') (net s').
Proof.
  intros Hk Hg Hn Hp Hid Hmono Hl s' n1 nd1 a nda f q Hne Hn1 Ha Hin. cbn in Hn1, Ha.
  assert (Hold : ∀ nd0, nodes s !! n1 = Some nd0 → BroadcastSubscribe f q ∈ outputs (nd_broker nd0) →
    (unsubscribed nd0 f → unsubscribed nd1 f) →
    (a, Gossip (Cluster.SubMsg (RemoteSubs.mkSubB "sub" n1 f q))) ∈ net s' ∨
    (∃ m, RemoteSubs.remote_qos (Cluster.remoteSubs (nd_cluster nda)) n1 f = Some m ∧ q ≤ m) ∨ unsubscribed nd1 f).
  { intros nd0 H0' Hin0 Hu. destruct (decide (a = n)) as [->|Han].
    - rewrite lookup_insert_eq in Ha. injection Ha as <-. cbn [nd_cluster].
      destruct (Hk n1 nd0 n nd f q Hne H0' Hn Hin0) as [Hw|[(m & Hm & Hle)|Hx]].
      + destruct (Hl _ _ Hw) as [Hw'|[_ Hx]]; [left; cbn; set_solver|]. right. left. by apply Hx.
      + destruct (Hmono n1 nd0 f m H0' Hm) as [(m' & ? & ?)|Hx]; [|by auto]. right. left. exists m'. split; [done|lia].
      + by auto.
    - rewrite lookup_insert_ne in Ha by done. destruct (Hk n1 nd0 a nda f q Hne H0' Ha Hin0) as [Hw|[Hm|Hx]]; [|by auto..].
      destruct (Hl _ _ Hw) as [Hw'|[-> _]]; [left; cbn; set_solver|done]. }
  destruct (decide (n1 = n)) as [->|Hn1n].
  - rewrite lookup_insert_eq in Hn1. injection Hn1 as <-. cbn [nd_broker] in *.
    apply (said_elem _ _ _ Hp) in Hin as [Hin|Hin].
    + apply (Hold nd); [done..|]. unfold unsubscribed. cbn. by apply prefix_elem.
    + left. cbn. apply elem_of_app. right. apply list_elem_of_bind. exists (BroadcastSubscribe f q). split; [|done].
      cbn. apply gossip_elem. rewrite Hid. split; [done|]. split; [|done].
      rewrite lookup_insert_ne in Ha by done. by eexists.
  - rewrite lookup_insert_ne in Hn1 by done. apply (Hold nd1); [done..|by auto].
Qed.

(** What a handler does to the broker of a node. *)
Record goes b b' : Prop := {
  go_inv : inv b';
  go_remote : remote b' = remote b;
  go_outputs : outputs b `prefix_of` outputs b';
  go_announced : announced b'
}.

Lemma calm_goes b b' : Hooks.calm b b' → inv b' → announced b' → goes b b'.
Proof. intros (_ & ? & ?) ? ?. by constructor. Qed.

Lemma bstep_goes b a : (∀ n, auto_id n ≠ "") → inv b → remote b ≠ None → announced b → action_ok a →
  Hooks.informs a = false → ∃ b', bstep b a = Ok b' ∧ goes b b'.
Proof.
  intros Hauto Hi Hr Han Ha Hin. destruct (bstep_ok b a Hauto Hi Ha) as (b' & Hb & Hi'). exists b'. split; [done|].
  apply calm_goes; [|done|by eapply announced_step]. destruct (Hooks.accepts a) eqn:Hac.
  - destruct a; try done. by apply Hooks.accept_calm in Hb as (_ & ? & _).
  - by apply Hooks.bstep_moves in Hb as (_ & ? & _).
Qed.

Lemma route_goes b now topic payload qos retain : inv b → announced b →
  ∃ b', routeMessage now b topic payload qos retain false = Ok b' ∧ goes b b'.
Proof.
  intros Hi Han. destruct (routeMessage_ok now b topic payload qos retain false (proj1 Hi)) as (b' & Hb & Hk).
  exists b'. split; [done|]. pose proof Hb as (_ & Hc & _)%Hooks.route_moves. apply calm_goes; [done|by eapply keeps_inv|].
  eapply announced_same; [apply Hc|by eapply Secured.route_view|done].
Qed.

Lemma connects_go outs : (∀ n, auto_id n ≠ "") → ∀ b, inv b → remote b ≠ None → announced b →
  ∃ b', fold_res remote_connect b outs = Ok b' ∧ goes b b'.
Proof.
  intros Hauto. induction outs as [|o outs IH]; intros b Hi Hr Han; [by exists b|]. cbn [fold_res].
  assert (∃ b1, remote_connect b o = Ok b1 ∧ goes b b1) as (b1 & -> & [Hi1 Hr1 Hp1 Ha1]).
  { destruct o; cbn [remote_connect]; try (by exists b). by apply bstep_goes. }
  destruct (IH b1 Hi1) as (b' & Hb' & [Hi2 Hr2 Hp2 Ha2]); [congruence|done|]. exists b'. cbn. split; [done|].
  constructor; [done|congruence|by etransitivity|done].
Qed.

Lemma goes_ok n nd b' : node_ok n nd → goes (nd_broker nd) b' → node_ok n (mkNode b' (nd_cluster nd)).
Proof. intros [] []. constructor; cbn; auto. congruence. Qed.

(** The step of a node keeps the invariants. *)
Definition fine (s : system) (l : list (string * wire)) (s' : system) : Prop :=
  good s' ∧ (known (nodes s) l → known (nodes s') (net s')) ∧
  ∀ n nd, nodes s !! n = Some nd → ∃ nd', nodes s' !! n = Some nd' ∧ outputs (nd_broker nd) `prefix_of` outputs (nd_broker nd').

Lemma update_fine s l n nd b' c' : good s → nodes s !! n = Some nd → node_ok n (mkNode b' c') →
  outputs (nd_broker nd) `prefix_of` outputs b' →
  (∀ n' nd' f m, nodes s !! n' = Some nd' → RemoteSubs.remote_qos (Cluster.remoteSubs (nd_cluster nd)) n' f = Some m →
     (∃ m', RemoteSubs.remote_qos (Cluster.remoteSubs c') n' f = Some m' ∧ m ≤ m') ∨ unsubscribed nd' f) →
  (∀ to w, (to, w) ∈ l → (to, w) ∈ net s ∨ to = n ∧
     ∀ n' f q, n' ≠ n → w = Gossip (Cluster.SubMsg (RemoteSubs.mkSubB "sub" n' f q)) →
       ∃ m, RemoteSubs.remote_qos (Cluster.remoteSubs c') n' f = Some m ∧ q ≤ m) →
  fine s l (update s n nd b' c').
Proof.
  intros Hg Hn Hok Hp Hmono Hl. split_and!.
  - split; [|eapply said_honest; [done..|apply (no_id _ _ Hok)|done]].
    intros n1 nd1. cbn. destruct (decide (n1 = n)) as [->|]; [rewrite lookup_insert_eq; by intros [= <-]|].
    rewrite lookup_insert_ne by done. apply Hg.
  - intros Hk. eapply update_known; [exact Hk|done..|apply (no_id _ _ Hok)|done|done].
  - intros n1 nd1 Hn1. cbn. destruct (decide (n1 = n)) as [->|].
    + rewrite lookup_insert_eq. rewrite Hn in Hn1. injection Hn1 as <-. by eexists.
    + rewrite lookup_insert_ne by done. by exists nd1.
Qed.

Lemma act_fine s l n (f : Broker → res Broker) : good s →
  (∀ nd, nodes s !! n = Some nd → ∃ b', f (nd_broker nd) = Ok b' ∧ goes (nd_broker nd) b') →
  (∀ to w, (to, w) ∈ l → (to, w) ∈ net s ∨ to = n ∧ ∀ m, w ≠ Gossip m) →
  ∃ s', act s n f = Ok s' ∧ fine s l s'.
Proof.
  intros Hg Hf Hl. unfold act. destruct (nodes s !! n) as [nd|] eqn:Hn.
  - destruct (Hf nd eq_refl) as (b' & -> & Hgo). cbn. eexists. split; [done|].
    apply update_fine; [done..|by apply goes_ok; [apply Hg|]|apply Hgo| |].
    + intros n' nd' fl m _ Hm. left. by exists m.
    + intros to w Hw. destruct (Hl to w Hw) as [?|[? Hx]]; [by left|right]. split; [done|]. intros n' fl q _ E. by apply Hx in E.
  - exists s. split; [done|]. split_and!; [done| |intros n1 nd1 ?; by exists nd1]. intros Hk n1 nd1 a nda fl q Hne Hn1 Ha Hin.
    destruct (Hk n1 nd1 a nda fl q Hne Hn1 Ha Hin) as [Hw|?]; [|by right]. left.
    destruct (Hl _ _ Hw) as [?|[-> _]]; [done|congruence].
Qed.

(** What a broadcast does to the index of the remote subscriptions. *)
Lemma broadcast_qos c m c' outs : Cluster.handleBroadcastMsg c m = (c', outs) → Cluster.self c' = Cluster.self c ∧ ∀ n f,
  RemoteSubs.remote_qos (Cluster.remoteSubs c') n f = RemoteSubs.remote_qos (Cluster.remoteSubs c) n f ∨
  n ≠ Ring.ni_ID (Cluster.self c) ∧ ∃ q,
    (m = Cluster.SubMsg (RemoteSubs.mkSubB "sub" n f q) ∧ RemoteSubs.remote_qos (Cluster.remoteSubs c') n f =
       Some (match RemoteSubs.remote_qos (Cluster.remoteSubs c) n f with Some x => Z.max x q | None => q end)) ∨
    m = Cluster.SubMsg (RemoteSubs.mkSubB "unsub" n f q).
Proof.
  unfold Cluster.handleBroadcastMsg. destruct m as [[ty n0 f0 q0]|m|].
  - cbn [RemoteSubs.sb_NodeID]. case_bool_decide as Hn; intros [= <- <-]; cbn; (split; [done|]); [by left|].
    intros n f. unfold RemoteSubs.HandleSubBroadcast. cbn. case_bool_decide as E1; [subst ty|case_bool_decide as E2; [subst ty|by left]].
    + rewrite RemoteSubs.Add_qos. case_decide as Hd; [|by left]. destruct Hd as [-> ->]. right. split; [done|]. exists q0. by left.
    + rewrite RemoteSubs.Remove_qos. case_decide as Hd; [|by left]. destruct Hd as [-> ->]. right. split; [done|]. exists q0. by right.
  - case_bool_decide; intros [= <- <-]; cbn; (split; [done|]); by left.
  - intros [= <- <-]. split; [done|by left].
Qed.

(** A subscription that is handled is known. *)
Lemma broadcast_known c n f q c' outs : Cluster.handleBroadcastMsg c (Cluster.SubMsg (RemoteSubs.mkSubB "sub" n f q)) = (c', outs) →
  n ≠ Ring.ni_ID (Cluster.self c) → ∃ m, RemoteSubs.remote_qos (Cluster.remoteSubs c') n f = Some m ∧ q ≤ m.
Proof.
  unfold Cluster.handleBroadcastMsg. cbn [RemoteSubs.sb_NodeID]. intros Hc Hn. rewrite bool_decide_false in Hc by done.
  injection Hc as <- _. cbn [Cluster.remoteSubs].
  change (RemoteSubs.HandleSubBroadcast (Cluster.remoteSubs c) _) with (RemoteSubs.Add (Cluster.remoteSubs c) n f q). rewrite RemoteSubs.Add_qos, decide_True by done.
  eexists. split; [done|]. case_match; lia.
Qed.

Lemma gossip_fine s l n m : (∀ k, auto_id k ≠ "") → good s → honest (mkSystem (nodes s) l) → (n, Gossip m) ∈ l →
  (∀ x, x ∈ l → x ∈ net s ∨ x = (n, Gossip m)) → ∃ s', handle_gossip s n m = Ok s' ∧ fine s l s'.
Proof.
  intros Hauto Hg Hh Hin Hl. unfold handle_gossip. destruct (nodes s !! n) as [nd|] eqn:Hn.
  2: { assert (act s n (λ b, Ok b) = Ok s) as <- by (unfold act; by rewrite Hn).
       destruct (act_fine s (net s) n (λ b, Ok b)) as (s' & Ha & (Hgs & Hk & Hp)); [done|congruence|by left|].
       exists s'. split; [done|]. split; [done|]. split; [|done]. intros Hk0. apply Hk. intros n1 nd1 a nda fl q Hne Hn1 Hna Ho.
       destruct (Hk0 n1 nd1 a nda fl q Hne Hn1 Hna Ho) as [Hw|?]; [|by right]. left.
       destruct (Hl _ Hw) as [?|[= -> _]]; [done|congruence]. }
  destruct (Cluster.handleBroadcastMsg (nd_cluster nd) m) as [c' outs] eqn:Hc.
  destruct (broadcast_qos _ _ _ _ Hc) as [Hself Hq]. destruct (gd_nodes _ Hg n nd Hn) as [Hi Hr Hid Hns Han].
  set (b1 := SetCluster (nd_broker nd) c').
  destruct (connects_go outs Hauto b1) as (b' & Hb' & [Hi' Hr' Hp' Han']);
    [eapply keeps_inv; [by apply keeps_same|done]|done|done|]. rewrite Hb'. cbn. eexists. split; [done|].
  apply update_fine; [done..| |done| |].
  - constructor; cbn; [done|by rewrite Hr'|congruence| |done]. intros f.
    destruct (Hq n f) as [->|[Hne _]]; [done|]. by rewrite Hid in Hne.
  - intros n' nd' f x Hn' Hx. destruct (Hq n' f) as [->|(Hne & q & [(_ & ->)|Hm])]; [left; by exists x| |].
    + left. rewrite Hx. eexists. split; [done|]. lia.
    + right. subst m. by apply (Hh n _ nd' Hin).
  - intros to w Hw. destruct (Hl _ Hw) as [?|[= -> ->]]; [by left|]. right. split; [done|].
    intros n' f q Hne [= ->]. eapply broadcast_known; [exact Hc|by rewrite Hid].
Qed.

Lemma delete_elem {A} (l : list A) i x y : l !! i = Some x → y ∈ l → y ∈ delete i l ∨ y = x.
Proof.
  intros Hi Hy. rewrite (delete_Permutation l i x Hi) in Hy. set_solver.
Qed.

Lemma delete_subset {A} (l : list A) i x : x ∈ delete i l → x ∈ l.
Proof. intros Hx. by eapply elem_of_sublist, sublist_delete. Qed.

Lemma net_good s l : good s → (∀ x, x ∈ l → x ∈ net s) → good (mkSystem (nodes s) l).
Proof. intros [Hn Hh] Hl. split; [done|]. intros to m nd Hin%Hl. by apply (Hh to). Qed.

Lemma step_fine s e : (∀ k, auto_id k ≠ "") → good s → event_ok e →
  ∃ s', step s e = Ok s' ∧ good s' ∧ (lossless e = true → known (nodes s) (net s) → known (nodes s') (net s')) ∧
    ∀ n nd, nodes s !! n = Some nd → ∃ nd', nodes s' !! n = Some nd' ∧ outputs (nd_broker nd) `prefix_of` outputs (nd_broker nd').
Proof.
  intros Hauto Hg He.
  assert (Hsame : ∀ s', nodes s' = nodes s → good s' → (∀ x, x ∈ net s → x ∈ net s') → ∃ s0, Ok s' = Ok s0 ∧ good s0 ∧
    (lossless e = true → known (nodes s) (net s) → known (nodes s0) (net s0)) ∧
    ∀ n nd, nodes s !! n = Some nd → ∃ nd', nodes s0 !! n = Some nd' ∧ outputs (nd_broker nd) `prefix_of` outputs (nd_broker nd')).
  { intros s' Hns Hg' Hin. exists s'. split_and!; [done..| |rewrite Hns; eauto]. rewrite Hns. intros _ Hk n nd a nda f q Hne Hn Ha Ho.
    destruct (Hk n nd a nda f q Hne Hn Ha Ho) as [?|?]; [left; by apply Hin|by right]. }
  assert (Hfine : ∀ r : res system, (∃ s', r = Ok s' ∧ fine s (net s) s') → ∃ s0, r = Ok s0 ∧ good s0 ∧
    (lossless e = true → known (nodes s) (net s) → known (nodes s0) (net s0)) ∧
    ∀ n nd, nodes s !! n = Some nd → ∃ nd', nodes s0 !! n = Some nd' ∧ outputs (nd_broker nd) `prefix_of` outputs (nd_broker nd')).
  { intros r (s' & -> & Hgs & Hk & Hp). exists s'. split_and!; [done|done|by intros _|done]. }
  destruct e as [n a|n now topic payload qos retain|i now|i|i|n]; cbn [step].
  - destruct (local a) eqn:Hla; [|by apply Hsame]. apply Hfine, act_fine; [done| |by left].
    intros nd Hn. destruct (gd_nodes _ Hg n nd Hn) as []. apply bstep_goes; [done..|congruence|done|done|by destruct a].
  - apply Hfine, act_fine; [done| |by left]. intros nd Hn. destruct (gd_nodes _ Hg n nd Hn) as []. by apply route_goes.
  - destruct (net s !! i) as [[to w]|] eqn:Hi; [|by apply Hsame].
    set (s0 := mkSystem (nodes s) (delete i (net s))).
    assert (good s0) as Hg0. { apply net_good; [done|]. intros x. apply delete_subset. }
    assert (∀ x, x ∈ net s → x ∈ net s0 ∨ x = (to, w)) as Hl by (intros x; by apply delete_elem).
    assert (Hf0 : ∀ r : res system, (∃ s', r = Ok s' ∧ fine s0 (net s) s') → ∃ s', r = Ok s' ∧ fine s (net s) s') by done.
    apply Hfine, Hf0. destruct w as [m|topic payload qos retain]; cbn [receive].
    + apply gossip_fine; [done..|by destruct s; apply Hg|by eapply list_elem_of_lookup_2|done].
    + apply act_fine; [done| |]. 
      * intros nd Hn. destruct (gd_nodes _ Hg to nd Hn) as []. apply bstep_goes; [done..|congruence|done|done|done].
      * intros to' w' Hw. destruct (Hl _ Hw) as [?|[= -> ->]]; [by left|by right].
  - destruct (net s !! i) as [[to w]|] eqn:Hi; [|by apply Hsame].
    apply Hsame; [done| |set_solver]. apply net_good; [done|]. intros x [?|Hx]%elem_of_app; [done|].
    apply list_elem_of_singleton in Hx as ->. by eapply list_elem_of_lookup_2.
  - eexists. split; [done|]. split_and!; [|done|eauto]. apply net_good; [done|].
    intros x. apply delete_subset.
  - destruct (nodes s !! n) as [nd|] eqn:Hn; [|by apply Hsame]. apply Hsame; [done| |set_solver].
    destruct Hg as [Hno Hh]. split; [done|]. intros to m nd2 [Hin|Hin]%elem_of_app; [by apply (Hh to)|].
    intros Ht. exfalso. unfold announce in Hin. apply list_elem_of_bind in Hin as (o & Ho & Hin).
    apply gossip_conn in Ho. subst o. unfold Cluster.rebroadcastLocalSubs, Cluster.rebroadcastLocalConnections in Hin.
    apply elem_of_app in Hin as [(f & [= ->] & _)%list_elem_of_fmap|(d & ? & _)%list_elem_of_fmap]; done.
Qed.

Lemma run_fine evs : (∀ k, auto_id k ≠ "") → Forall event_ok evs → ∀ s, good s →
  ∃ s', run s evs = Ok s' ∧ good s' ∧ (Forall (λ e, lossless e = true) evs → known (nodes s) (net s) → known (nodes s') (net s')).
Proof.
  intros Hauto. induction 1 as [|e evs He _ IH]; intros s Hg; [by exists s|].
  destruct (step_fine s e Hauto Hg He) as (s1 & Hs1 & Hg1 & Hk1 & _). destruct (IH s1 Hg1) as (s' & Hs' & Hg' & Hk').
  exists s'. cbn. rewrite Hs1. split_and!; [done..|]. intros [Hl Hls]%Forall_cons. auto.
Qed.

Lemma initial_good s : initial s → good s ∧ known (nodes s) (net s).
Proof.
  intros [Hnet Hi]. split; [split|].
  - intros n nd Hn. destruct (Hi n nd Hn) as (Hid & Hr & d & l & h & Hb). constructor; rewrite ?Hb.
    + eapply keeps_inv; [by apply keeps_same|apply (New_inv d l h)].
    + done.
    + done.
    + by rewrite Hr.
    + constructor; cbn; [apply Subscriptions.index_ok_New|done|]. intros c ss f q. by rewrite lookup_empty.
  - intros to m nd. rewrite Hnet. by intros ?%not_elem_of_nil.
  - intros n nd a nda f q _ Hn _ Hin. destruct (Hi n nd Hn) as (_ & _ & d & l & h & Hb). rewrite Hb in Hin.
    by apply not_elem_of_nil in Hin.
Qed.

(** ** A published message *)

(** What routing says: a message for each node with a matching filter. *)
Definition forwards b (topic : string) (payload : list Z) (qos : Z) (retain : bool) : list output :=
  match remote b with
  | Some v => (λ rm, Forward rm.1 topic payload (effective qos rm.2) retain) <$> RemoteSubs_Match v topic
  | None => []
  end.

Lemma emit_all {A} (f : A → output) l : ∀ b, outputs (foldl (λ b a, emit b (f a)) b l) = outputs b ++ (f <$> l).
Proof.
  induction l as [|x l IH]; intros b; cbn; [by rewrite app_nil_r|]. rewrite IH. cbn. by rewrite <- app_assoc.
Qed.

Lemma route_outputs now b topic payload qos retain fwd b' : routeMessage now b topic payload qos retain fwd = Ok b' →
  outputs b' = outputs b ++ (if fwd then [] else forwards b topic payload qos retain).
Proof.
  unfold routeMessage. intros (b1 & H1' & [= <-])%bind_Ok.
  assert (outputs b1 = outputs b ∧ remote b1 = remote b) as [Ho Hr].
  { split; (eapply fold_res_inv; [|exact H1']); intros b0 d b0'; by apply deliver_one_frame. }
  set (b2 := foldl _ b1 _).
  assert (outputs b2 = outputs b ∧ remote b2 = remote b) as [Ho2 Hr2].
  { rewrite <- Ho, <- Hr. split; [by apply (enqueue_frame outputs)|by apply (enqueue_frame remote)]. }
  destruct fwd; [by rewrite app_nil_r|]. unfold forward_all, forwards. rewrite Hr2.
  destruct (remote b) as [v|]; [|by rewrite app_nil_r]. rewrite <- Ho2.
  apply (emit_all (λ rm, Forward rm.1 topic payload (effective qos rm.2) retain)).
Qed.

(** The messages under way behind [pre] are received, each by the broker of its node. *)
Lemma receive_all now topic payload retain pre L : ∀ s,
  net s = pre ++ ((λ nq : string * Z, (nq.1, Forwarded topic payload nq.2 retain)) <$> L) → good s → NoDup L.*1 →
  ∃ s', run s (repeat (NReceive (length pre) now) (length L)) = Ok s' ∧ net s' = pre ∧
    ∀ n nd, nodes s !! n = Some nd → ∃ nd', nodes s' !! n = Some nd' ∧
      (n ∉ L.*1 → nd' = nd) ∧
      ∀ q, (n, q) ∈ L → routeMessage now (nd_broker nd) topic payload q retain true = Ok (nd_broker nd').
Proof.
  induction L as [|[to q] L IH]; intros s Hnet Hg Hnd; cbn.
  { exists s. rewrite app_nil_r in Hnet. split_and!; [done..|]. intros n nd Hn. exists nd. split_and!; [done..|].
    by intros q ?%not_elem_of_nil. }
  rewrite Hnet. cbn [fmap list_fmap fst snd]. cbn in Hnd. apply NoDup_cons in Hnd as [Hto Hnd].
  rewrite (list_lookup_middle pre _ (to, Forwarded topic payload q retain)) by done.
  rewrite (delete_middle pre _ (to, Forwarded topic payload q retain)). cbn [receive].
  set (s0 := mkSystem (nodes s) _).
  assert (good s0) as Hg0.
  { apply net_good; [done|]. rewrite Hnet. intros x. set_solver. }
  unfold act. destruct (nodes s0 !! to) as [nd0|] eqn:H0'; cbn [nodes s0] in H0'.
  - destruct (gd_nodes _ Hg to nd0 H0') as [Hi Hr Hid Hns Han]. cbn [bstep]. unfold onForward.
    destruct (routeMessage_ok now (nd_broker nd0) topic payload q retain true (proj1 Hi)) as (b' & Hb' & Hk).
    rewrite Hb'. cbn. pose proof (route_outputs _ _ _ _ _ _ _ _ Hb') as Ho. rewrite app_nil_r in Ho.
    assert (said (nd_broker nd0) b' = []) as Hsaid by (unfold said; rewrite Ho, drop_all; done).
    destruct (IH (update s0 to nd0 b' (nd_cluster nd0))) as (s' & Hs' & Hn' & Hall).
    + unfold update. rewrite Hsaid. cbn. by rewrite app_nil_r.
    + pose proof Hb' as (_ & Hc & _)%Hooks.route_moves.
      assert (goes (nd_broker nd0) b') as Hgo.
      { apply calm_goes; [done|by eapply keeps_inv|]. eapply announced_same; [apply Hc|by eapply Secured.route_view|done]. }
      eapply (update_fine s0 (net s0)); [done..|by apply goes_ok; [apply Hg|]|apply Hgo| |by left].
      intros n' nd' f m _ Hm. left. by exists m.
    + done.
    + exists s'. split_and!; [done..|]. intros n nd Hn. destruct (decide (n = to)) as [->|Hne].
      * destruct (Hall to (mkNode b' (nd_cluster nd0))) as (nd' & Hnd' & Hsame & _); [by cbn; rewrite lookup_insert_eq|].
        rewrite Hsame in Hnd' by done. rewrite H0' in Hn. injection Hn as <-.
        exists (mkNode b' (nd_cluster nd0)). split_and!; [done|set_solver|].
        intros q' [[= ->]|Hin]%elem_of_cons; [done|]. exfalso. apply Hto. by apply (list_elem_of_fmap_2' fst _ (to, q')).
      * destruct (Hall n nd) as (nd' & Hnd' & Hsame & Hq); [by cbn; rewrite lookup_insert_ne|].
        exists nd'. split_and!; [done|set_solver|]. intros q' [[= -> ->]|Hin]%elem_of_cons; [done|auto].
  - cbn. destruct (IH s0) as (s' & Hs' & Hn' & Hall); [done..|]. exists s'. split_and!; [done..|].
    intros n nd Hn. destruct (Hall n nd Hn) as (nd' & Hnd' & Hsame & Hq). exists nd'. split_and!; [done|set_solver|].
    intros q' [[= -> ->]|Hin]%elem_of_cons; [congruence|auto].
Qed.

Lemma route_delivers now b topic payload qos retain fwd b' : interceptors = None → inv b →
  routeMessage now b topic payload qos retain fwd = Ok b' → delivers now b b' topic payload qos.
Proof.
  intros Hn Hi Hb. destruct (route_exact now b topic payload qos retain fwd Hn Hi) as (b2 & Hb2 & Hd).
  rewrite Hb in Hb2. by injection Hb2 as <-.
Qed.

Lemma delivers_min now b b' topic payload qos m : (∀ cid q, matched b topic cid = Some q → q ≤ m) →
  delivers now b b' topic payload (Z.min qos m) → delivers now b b' topic payload qos.
Proof.
  intros Hm [H1' H2' H3']. assert (∀ cid q, matched b topic cid = Some q → Z.min (Z.min qos m) q = Z.min qos q) as Hq.
  { intros cid q E. specialize (Hm _ _ E). lia. }
  constructor; [|done|].
  - intros cid id c Hcl Hc. specialize (H1' cid id c Hcl Hc). destruct (matched b topic cid) as [q|] eqn:E; [|done].
    by rewrite (Hq _ _ E) in H1'.
  - intros cid. rewrite H3'. destruct (clients b !! cid); [done|]. destruct (matched b topic cid) as [q|] eqn:E; [|done].
    by rewrite (Hq _ _ E).
Qed.

Lemma delivers_none now b topic payload qos : (∀ cid, matched b topic cid = None) → delivers now b b topic payload qos.
Proof. intros Hm. constructor; intros; rewrite ?Hm; [done..|]. by case_match. Qed.

(** Every subscription of a node that matches is covered by what another node knows of it. *)
Lemma covered s a nda n nd topic cid q : good s → known (nodes s) (net s) → nodes s !! a = Some nda →
  nodes s !! n = Some nd → n ≠ a → (∀ f, ¬ unsubscribed nd f) → (∀ m, (a, Gossip (Cluster.SubMsg m)) ∉ net s) →
  matched (nd_broker nd) topic cid = Some q →
  ∃ m, (n, m) ∈ RemoteSubs_Match (Cluster.remoteSubs (nd_cluster nda)) topic ∧ q ≤ m.
Proof.
  intros Hg Hk Ha Hn Hne Hu Hnet Hm. destruct (gd_nodes _ Hg n nd Hn) as [_ _ _ _ Han].
  pose proof (Subscriptions.Match_is_best (subscriptions (nd_broker nd)) topic (Secured.gr_ok _ _ Han) cid) as Hb.
  unfold matched in Hm. rewrite Hm in Hb. destruct Hb as [(f & Ht & Hq) _].
  pose proof (Secured.gr_index _ _ Han cid f q Hq) as Hsaid. cbn in Hsaid.
  destruct (Hk n nd a nda f q Hne Hn Ha Hsaid) as [Hw|[(m & Hrm & Hle)|Hx]]; [by apply Hnet in Hw| |by apply Hu in Hx].
  destruct (RemoteSubs.Match_covers _ topic n f m Ht Hrm) as (x & Hx & Hxm). exists x. split; [|lia].
  cbn. apply list_elem_of_fmap. by exists (RemoteSubs.mkRemoteMatch n x).
Qed.

Lemma fst_unique (l : list (string * Z)) n x y : NoDup l.*1 → (n, x) ∈ l → (n, y) ∈ l → x = y.
Proof.
  intros Hnd Hx%(elem_of_list_to_map_1 (M := gmap string)) Hy%(elem_of_list_to_map_1 (M := gmap string)); [|done..].
  congruence.
Qed.

(** What a node knows of others has a node once, and itself not. *)
Lemma view_nodes n nd topic : node_ok n nd → let ms := RemoteSubs_Match (Cluster.remoteSubs (nd_cluster nd)) topic in
  NoDup ms.*1 ∧ n ∉ ms.*1.
Proof.
  intros []. cbn. rewrite <- list_fmap_compose.
  destruct (RemoteSubs.Match_nodes (Cluster.remoteSubs (nd_cluster nd)) topic) as [Hnd Hm]. split.
  - exact Hnd.
  - intros ([n' q] & -> & Hin)%list_elem_of_fmap. cbn in no_self0. apply Hm in Hin as [(f & _ & Hq) _].
    by rewrite no_self0 in Hq.
Qed.


End Nodes.

(** ** Three nodes *)

#[local] Existing Instance Ring.first_ring.
#[local] Instance here : Env := clustered open_env.
#[local] Notation nodes3 := (system open_env (db := Storage.mem_db)).

Definition member (id : string) : node open_env (db := Storage.mem_db) :=
  let c := Cluster.mkCluster (Cluster.node id) (Ring.NewRing 0) RemoteSubs.NewRemoteSubIndex Connections.NewConnectionIndex ∅ None
             false Migration.DefaultMigrationConfig 0 in
  mkNode open_env (SetCluster open_env (New (Some empty_db) tt tt) c) c.

Definition three : nodes3 :=
  mkSystem open_env (<["n1" := member "n1"]> (<["n2" := member "n2"]> {["n3" := member "n3"]})) [].

(** A client connects to a node, or subscribes there. *)
Definition joins (n : string) (id : nat) (cid : string) (clean : bool) (expiry : option Z) : list (event open_env) :=
  [NAct open_env n (AAccept id); NAct open_env n (AConnect 0 id (head CONNECT 0) (connect_data 5 cid clean expiry))].
Definition reads (n : string) (id : nat) (filter : string) (qos : Z) : list (event open_env) :=
  [NAct open_env n (APacket 0 id (head SUBSCRIBE 0) (subscribe_data 5 filter qos))].

(** The first messages under way arrive. *)
Definition arrive (k : nat) : list (event open_env) := repeat (NReceive open_env 0 0) k.

(** Clients [a] on [n1] and [b] on [n2] subscribe, and everybody hears of it. *)
Definition meeting : list (event open_env) :=
  joins "n1" 1 "a" true None ++ reads "n1" 1 "t" 1 ++ joins "n2" 2 "b" true None ++ reads "n2" 2 "t" 2 ++ arrive 8.
Definition met : nodes3 := match run open_env three meeting with Ok s => s | _ => three end.

(** What waits to be written to a connection of a node. *)
Definition waiting (s : nodes3) (n : string) (id : nat) : option (list (list Z)) :=
  nd ← nodes open_env s !! n; c_sendCh <$> conns (nd_broker open_env nd) !! id.

Lemma meeting_ok : Forall (event_ok open_env) meeting.
Proof. repeat (constructor; [first [exact I|apply bytes_decide; by vm_compute]|]). constructor. Qed.

Lemma met_ok : run open_env three meeting = Ok met.
Proof.
  assert (is_ok (run open_env three meeting) = true) as Hok by (vm_compute; reflexivity).
  unfold met. by destruct (run open_env three meeting).
Qed.

Lemma three_initial : initial open_env three.
Proof.
  split; [done|]. intros n nd Hn. unfold three in Hn. cbn [nodes] in Hn.
  assert (nd = member n) as ->.
  { apply lookup_insert_Some in Hn as [[<- <-]|[_ Hn]]; [done|]. apply lookup_insert_Some in Hn as [[<- <-]|[_ Hn]]; [done|].
    by apply lookup_singleton_Some in Hn as [<- <-]. }
  split_and!; [done..|]. by exists (Some empty_db), tt, tt.
Qed.

Definition takes_back (o : output) : bool := match o with BroadcastUnsubscribe _ => true | _ => false end.

Lemma met_kept n nd f : nodes open_env met !! n = Some nd → ¬ unsubscribed open_env nd f.
Proof.
  assert (map_Forall (λ _ nd, Forall (λ o, takes_back o = false) (outputs (nd_broker open_env nd))) (nodes open_env met)) as Hall
    by (apply (bool_decide_eq_true_1 _); vm_compute; reflexivity).
  intros Hn Hu. specialize (Hall n nd Hn). rewrite Forall_forall in Hall. specialize (Hall _ Hu). discriminate Hall.
Qed.


(** *** What the nodes do not share *)

(** A client with a session on [n1] moves to [n2] and subscribes again: a message reaches it there, and is
    kept for it on [n1] as well, which delivers it a second time when the client comes back. *)
Lemma moved_client_queued :
  ∃ s, run open_env three (joins "n1" 1 "a" true (Some 100) ++ reads "n1" 1 "t" 1 ++ joins "n2" 2 "a" true (Some 100) ++
         reads "n2" 2 "t" 1 ++ arrive 8 ++ [NAct open_env "n1" (AClose 0 1)] ++ arrive 2 ++
         [NRoute open_env "n3" 0 "t" [104; 105] 1 false] ++ arrive 2) = Ok s ∧
    length <$> waiting s "n2" 2 = Some 3%nat ∧
    (λ nd, length (Offline.queue_of (offlineStore (nd_broker open_env nd)) "a")) <$> nodes open_env s !! "n1" = Some 1%nat.
Proof. apply ok_exists. vm_compute. split; reflexivity. Qed.

(** A retained message is kept on the node on which it was published: who subscribes on another one
    does not get it. *)
Lemma retained_stays :
  ∃ s, run open_env three (joins "n1" 1 "a" true None ++
         [NAct open_env "n1" (APacket 0 1 (Frame.Build_FixedHeader PUBLISH false 0 true 0) (publish_data "t" 0 0 [104; 105]))] ++
         arrive 2 ++ joins "n2" 2 "b" true None ++ reads "n2" 2 "t" 0 ++ joins "n1" 3 "c" true None ++ reads "n1" 3 "t" 0) = Ok s ∧
    length <$> waiting s "n2" 2 = Some 2%nat ∧ length <$> waiting s "n1" 3 = Some 3%nat.
Proof. apply ok_exists. vm_compute. split; reflexivity. Qed.

(** A broadcast takes the place of an older one that has not been sent, also when it is of another client at
    a lower QoS: the client of [n1] that subscribed at QoS 2 gets the messages of [n3] at QoS 0. *)
Lemma newer_lowers_qos :
  RemoteSubs.sub_Invalidates (RemoteSubs.mkSubB "sub" "n1" "t" 0) (RemoteSubs.mkSubB "sub" "n1" "t" 2) = true ∧
  ∃ s, run open_env three (joins "n1" 1 "a" true None ++ reads "n1" 1 "t" 2 ++ joins "n1" 2 "b" true None ++ reads "n1" 2 "t" 0 ++
         [NLose open_env 2; NLose open_env 2] ++ arrive 6 ++ [NRoute open_env "n3" 0 "t" [104; 105] 2 false] ++ arrive 1) = Ok s ∧
    (λ l, drop 2 l) <$> waiting s "n1" 1 = Some [publish_packet "t" [104; 105] 0 0 false].
Proof. split; [reflexivity|]. apply ok_exists. vm_compute. reflexivity. Qed.

End Nodes.
