(* ===== verification/Settings.v ===== *)
(** * Configuration and start-up

    Model of [config/config.go] (the settings, their defaults and [Validate]), of [cmd/dmqtt/env.go] (the
    environment variables) and of [main] in [cmd/dmqtt/main.go]: what it sets up from the settings, in
    which order, and where it exits, up to [Serve] having read the database. What the other packages do when they are
    called from there (open a store, listen, join a cluster) is an argument of [main]; [strconv.Atoi],
    [time.ParseDuration] and [net.SplitHostPort] are the standard library's. *)
From Stdlib Require Import SpecFloat.
From S2P Require Import Prelude Topic Doubles RateLimit Ring Access Storage Delivery Offline OfflineFacts Sessions Retain Wills Broker BrokerFacts Hooks Migration.
Import Doubles Broker.

Module Settings.

(** ** The standard library *)

Definition char_of (c : ascii) : Z := Z.of_N (N_of_ascii c).
Definition is_digit (c : ascii) : bool := (48 <=? char_of c) && (char_of c <=? 57).
Definition chars : string → list ascii := String.list_ascii_of_string.
Definition text : list ascii → string := String.string_of_list_ascii.

Fixpoint decimal (l : list ascii) (acc : Z) : option Z :=
  match l with
  | [] => Some acc
  | c :: l => if is_digit c then decimal l (acc * 10 + (char_of c - 48)) else None
  end.

(** [strconv.Atoi] with its error. *)
Definition Atoi (s : string) : option Z :=
  let '(neg, l) := match chars s with
                   | "-"%char :: l => (true, l)
                   | "+"%char :: l => (false, l)
                   | l => (false, l)
                   end in
  match l with
  | [] => None
  | _ => n ← decimal l 0;
         let n := if neg : bool then - n else n in
         if (- 9223372036854775808 <=? n) && (n <=? 9223372036854775807) then Some n else None
  end.

(** [strings.EqualFold(v, "true")]: none of its letters folds to one outside of ASCII. *)
Definition lower (c : ascii) : ascii :=
  let n := char_of c in if (65 <=? n) && (n <=? 90) then ascii_of_N (Z.to_N (n + 32)) else c.
Definition EqualFold_true (v : string) : bool := bool_decide (lower <$> chars v = chars "true").

(** [time.ParseDuration]: a number and a unit, again and again. *)
Definition two63 : Z := 9223372036854775808.

(** The digits at the start: their value unless it is too large, and the rest. *)
Fixpoint leadingInt (l : list ascii) (x : Z) : option (Z * list ascii) :=
  match l with
  | c :: l' =>
      if is_digit c then
        if two63 / 10 <? x then None
        else let x := x * 10 + (char_of c - 48) in if two63 <? x then None else leadingInt l' x
      else Some (x, l)
  | [] => Some (x, [])
  end.

(** The digits of a fraction, as many as fit, with their scale. *)
Fixpoint leadingFraction (l : list ascii) (x : Z) (scale : number) (overflow : bool) : Z * number * list ascii :=
  match l with
  | c :: l' =>
      if is_digit c then
        if overflow then leadingFraction l' x scale true
        else if (two63 - 1) / 10 <? x then leadingFraction l' x scale true
        else let y := x * 10 + (char_of c - 48) in
             if two63 <? y then leadingFraction l' x scale true else leadingFraction l' y (mul scale (of_Z 10)) false
      else (x, scale, l)
  | [] => (x, scale, [])
  end.

Definition unitMap : list (string * Z) :=
  [("ns", 1); ("us", 1000); ("µs", 1000); ("μs", 1000); ("ms", 1000000); ("s", Second); ("m", 60 * Second);
   ("h", 3600 * Second)].

(** [uint64(f)] of a number that is not negative. *)
Definition truncate (x : number) : Z :=
  match x with
  | S754_finite _ m e => if 0 <=? e then Z.pos m * 2 ^ e else Z.pos m / 2 ^ (- e)
  | _ => 0
  end.

Definition is_number_char (c : ascii) : bool := Ascii.eqb c "." || is_digit c.
Fixpoint unit_part (l : list ascii) : list ascii * list ascii :=
  match l with
  | c :: l' => if is_number_char c then ([], l) else let '(u, r) := unit_part l' in (c :: u, r)
  | [] => ([], [])
  end.

(** One round: the duration of a number with its unit, and the rest. *)
Definition duration_part (l : list ascii) : option (Z * list ascii) :=
  match l with
  | c :: _ =>
      if negb (is_number_char c) then None
      else
        '(v, r) ← leadingInt l 0;
        let pre := negb (length r =? length l)%nat in
        let '(f, scale, r, post) :=
          match r with
          | "."%char :: r0 => let '(f, scale, r1) := leadingFraction r0 0 (of_Z 1) false in (f, scale, r1, negb (length r1 =? length r0)%nat)
          | _ => (0, of_Z 1, r, false)
          end in
        if negb pre && negb post then None
        else
          let '(u, r) := unit_part r in
          if bool_decide (u = []) then None
          else
            unit_ ← (list_to_map unitMap : gmap string Z) !! text u;
            if two63 / unit_ <? v then None
            else
              let v := v * unit_ in
              if 0 <? f then
                let v := v + truncate (mul (of_Z f) (div (of_Z unit_) scale)) in
                if two63 <? v then None else Some (v, r)
              else Some (v, r)
  | [] => None
  end.
(** The loop; every round consumes a character, so that the length of the text is enough fuel. *)
Fixpoint duration_loop (fuel : nat) (l : list ascii) (d : Z) : option Z :=
  match l with
  | [] => Some d
  | _ => match fuel with
         | O => None
         | S fuel => '(v, r) ← duration_part l; if two63 <? d + v then None else duration_loop fuel r (d + v)
         end
  end.
Definition ParseDuration (s : string) : option Z :=
  let '(neg, l) := match chars s with
                   | "-"%char :: l => (true, l)
                   | "+"%char :: l => (false, l)
                   | l => (false, l)
                   end in
  if bool_decide (l = ["0"%char]) then Some 0
  else if bool_decide (l = []) then None
  else d ← duration_loop (length l) l 0;
       if neg : bool then Some (- d) else if two63 - 1 <? d then None else Some d.

(** [net.SplitHostPort]. *)
Fixpoint index_of (c : ascii) (l : list ascii) : option nat :=
  match l with
  | [] => None
  | a :: l => if Ascii.eqb a c then Some O else S <$> index_of c l
  end.
Definition has_char (c : ascii) (l : list ascii) : bool := bool_decide (is_Some (index_of c l)).
Definition last_index (c : ascii) (l : list ascii) : option nat := (λ k, (length l - 1 - k)%nat) <$> index_of c (rev l).

Definition SplitHostPort (hostport : string) : option (string * string) :=
  let l := chars hostport in
  i ← last_index ":" l;
  '(host, j, k) ← match l with
                  | "["%char :: _ =>
                      end_ ← index_of "]" l;
                      if (end_ + 1 =? i)%nat then Some (drop 1 (take end_ l), 1%nat, (end_ + 1)%nat) else None
                  | _ => if has_char ":" (take i l) then None else Some (take i l, 0%nat, 0%nat)
                  end;
  if has_char "[" (drop j l) || has_char "]" (drop k l) then None
  else Some (text host, text (drop (i + 1) l)).

Definition parseHostPort (addr : string) : option (string * Z) :=
  '(host, portStr) ← SplitHostPort addr; port ← Atoi portStr; Some (host, port).

(** ** The settings ([config.go]) *)

Record ClusterSettings := mkClusterSettings {
  cl_Enabled : bool; cl_Name : string; cl_NodeID : string; cl_Host : string; cl_GossipPort : Z; cl_TransportPort : Z;
  cl_Seeds : list string; cl_VirtualNodes : Z; cl_ReplicaCount : Z
}.
Record RateLimitSettings := mkRateSettings {
  rl_Enabled : bool; ClientMsgRate : number; ClientMsgBurst : Z; rl_ConnectRate : number; rl_ConnectBurst : Z;
  GlobalMsgRate : number; GlobalMsgBurst : Z; rl_MaxMessageSize : Z;
  BackpressureEnabled : bool; BackpressureQueueMax : Z; AdaptiveEnabled : bool;
  DetectorEnabled : bool; DetectorHighRate : number; DetectorScoreThreshold : number
}.
Record CircuitBreakerSettings := mkBreakerSettings {
  cb_Enabled : bool; ErrorThreshold : number; WindowSizeMs : Z; OpenDurationMs : Z; HalfOpenMax : Z
}.
Record OfflineTierSettings := mkTierSettings { HighMax : Z; HighTTL : Z; MidMax : Z; MidTTL : Z; LowMax : Z; LowTTL : Z }.
Record MigrationSettings := mkMigrationSettings {
  MaxParallel : Z; BatchSize : Z; BatchIntervalMs : Z; mg_MaxRetries : Z; AutoRebalance : bool
}.
Record AuditSettings := mkAuditSettings { au_Enabled : bool; au_BufferSize : Z; au_BackupPath : string }.
Record RuleEngineSettings := mkRuleSettings { re_Enabled : bool; RulesFile : string; WorkerPoolSize : Z; WebhookTimeout : Z }.
Record TenantSettings := mkTenantSettings { te_Enabled : bool; TenantsFile : string }.
Record ReplicationSettings := mkReplicationSettings {
  rp_Enabled : bool; rp_ReplicaCount : Z; SyncQoS2 : bool; TakeoverTimeoutMs : Z
}.
Record PluginEntry := mkPlugin { Path : string; pl_Config : gmap string string }.

Record Config := mkConfig {
  TCPAddr : string;
  MaxConnections : Z;
  MaxPacketSize : Z;
  KeepAliveMultiplier : number;
  DataDir : string;
  InflightLimit : Z;
  OfflineMaxPerClient : Z;
  OfflineTTL : Z;
  cfg_Cluster : ClusterSettings;
  LogLevel : string;
  HTTPAddr : string;
  AuthFile : string;
  TLSAddr : string;
  TLSCertFile : string;
  TLSKeyFile : string;
  WSAddr : string;
  WSSAddr : string;
  cfg_RateLimit : RateLimitSettings;
  CircuitBreaker : CircuitBreakerSettings;
  OfflineTier : OfflineTierSettings;
  MaxInflight : Z;
  cfg_Migration : MigrationSettings;
  Audit : AuditSettings;
  RuleEngine : RuleEngineSettings;
  Tenant : TenantSettings;
  Replication : ReplicationSettings;
  Plugins : list PluginEntry;
  DrainTimeout : Z
}.

Definition Hour : Z := 3600 * Second.

Definition DefaultConfig : Config := {|
  TCPAddr := ":1883";
  MaxConnections := 0;
  MaxPacketSize := 1 * 1024 * 1024;
  KeepAliveMultiplier := div (of_Z 3) (of_Z 2);
  DataDir := "";
  InflightLimit := 20;
  OfflineMaxPerClient := 1000;
  OfflineTTL := 24 * Hour;
  cfg_Cluster := mkClusterSettings false "dmqtt" "" "127.0.0.1" 7000 0 [] 150 3;
  LogLevel := "info";
  HTTPAddr := ":9090";
  AuthFile := "";
  TLSAddr := "";
  TLSCertFile := "";
  TLSKeyFile := "";
  WSAddr := "";
  WSSAddr := "";
  cfg_RateLimit := mkRateSettings false (of_Z 100) 200 (of_Z 1000) 2000 (of_Z 10000000) 20000000 (256 * 1024)
                     false 100000 false false (of_Z 10000) (of_Z 80);
  CircuitBreaker := mkBreakerSettings false (div (of_Z 1) (of_Z 10)) 5000 30000 5;
  OfflineTier := mkTierSettings 1000 (7 * 24 * Hour) 500 (3 * 24 * Hour) 100 (24 * Hour);
  MaxInflight := 65535;
  cfg_Migration := mkMigrationSettings 3 1000 1000 3 true;
  Audit := mkAuditSettings false 4096 "";
  RuleEngine := mkRuleSettings false "" 64 (5 * Second);
  Tenant := mkTenantSettings false "";
  Replication := mkReplicationSettings false 2 true 2000;
  Plugins := [];
  DrainTimeout := 30 * Second
|}.

Inductive config_error :=
  | NoTCPAddr | NoHTTPAddr | BadKeepAlive (got : number) | BadInflight (got : Z) | BadPacketSize (got : Z)
  | NoNodeID | ReplicationAlone.

(** The error, if there is one. *)
Definition Validate (c : Config) : option config_error :=
  if bool_decide (TCPAddr c = "") then Some NoTCPAddr
  else if bool_decide (HTTPAddr c = "") then Some NoHTTPAddr
  else if ltb (KeepAliveMultiplier c) (of_Z 1) then Some (BadKeepAlive (KeepAliveMultiplier c))
  else if InflightLimit c <? 1 then Some (BadInflight (InflightLimit c))
  else if MaxPacketSize c <? 1 then Some (BadPacketSize (MaxPacketSize c))
  else if cl_Enabled (cfg_Cluster c) && bool_decide (cl_NodeID (cfg_Cluster c) = "") then Some NoNodeID
  else if rp_Enabled (Replication c) && negb (cl_Enabled (cfg_Cluster c)) then Some ReplicationAlone
  else None.

(** ** The environment ([env.go]) *)

(** [os.Getenv]: the empty string for a variable that is not set. *)
Definition environment : Type := string → string.

(** A variable that is not empty replaces a value, by what it is read as. *)
Definition env {A} (e : environment) (name : string) (old : A) (new : string → A) : A :=
  if bool_decide (e name = "") then old else new (e name).
Definition env_string (e : environment) (name old : string) : string := env e name old id.
Definition is_yes (v : string) : bool := bool_decide (v = "true") || bool_decide (v = "1").
(** A positive number, or nothing changes. *)
Definition positive (old : Z) (v : string) : Z :=
  match Atoi v with Some n => if 0 <? n then n else old | None => old end.

Definition applyEnvOverrides (e : environment) (c : Config) : Config := {|
  TCPAddr := env_string e "DMQTT_TCP_ADDR" (TCPAddr c);
  MaxConnections := MaxConnections c;
  MaxPacketSize := MaxPacketSize c;
  KeepAliveMultiplier := KeepAliveMultiplier c;
  DataDir := env_string e "DMQTT_DATA_DIR" (DataDir c);
  InflightLimit := InflightLimit c;
  OfflineMaxPerClient := OfflineMaxPerClient c;
  OfflineTTL := OfflineTTL c;
  cfg_Cluster := let k := cfg_Cluster c in
    mkClusterSettings (env e "DMQTT_CLUSTER_ENABLED" (cl_Enabled k) EqualFold_true) (cl_Name k)
      (env_string e "DMQTT_CLUSTER_NODE_ID" (cl_NodeID k)) (env_string e "DMQTT_CLUSTER_HOST" (cl_Host k))
      (env e "DMQTT_CLUSTER_GOSSIP_PORT" (cl_GossipPort k) (λ v, default (cl_GossipPort k) (Atoi v)))
      (cl_TransportPort k) (env e "DMQTT_CLUSTER_SEEDS" (cl_Seeds k) (Split ",")) (cl_VirtualNodes k) (cl_ReplicaCount k);
  LogLevel := env_string e "DMQTT_LOG_LEVEL" (LogLevel c);
  HTTPAddr := env_string e "DMQTT_HTTP_ADDR" (HTTPAddr c);
  AuthFile := env_string e "DMQTT_AUTH_FILE" (AuthFile c);
  TLSAddr := env_string e "DMQTT_TLS_ADDR" (TLSAddr c);
  TLSCertFile := env_string e "DMQTT_TLS_CERT" (TLSCertFile c);
  TLSKeyFile := env_string e "DMQTT_TLS_KEY" (TLSKeyFile c);
  WSAddr := env_string e "DMQTT_WS_ADDR" (WSAddr c);
  WSSAddr := WSSAddr c;
  cfg_RateLimit := cfg_RateLimit c;
  CircuitBreaker := CircuitBreaker c;
  OfflineTier := OfflineTier c;
  MaxInflight := MaxInflight c;
  cfg_Migration := cfg_Migration c;
  Audit := Audit c;
  RuleEngine := RuleEngine c;
  Tenant := Tenant c;
  Replication := let r := Replication c in
    mkReplicationSettings (env e "DMQTT_REPLICATION_ENABLED" (rp_Enabled r) is_yes)
      (env e "DMQTT_REPLICATION_REPLICA_COUNT" (rp_ReplicaCount r) (positive (rp_ReplicaCount r)))
      (env e "DMQTT_REPLICATION_SYNC_QOS2" (SyncQoS2 r) is_yes)
      (env e "DMQTT_REPLICATION_TAKEOVER_TIMEOUT_MS" (TakeoverTimeoutMs r) (positive (TakeoverTimeoutMs r)));
  Plugins := Plugins c;
  DrainTimeout := env e "DMQTT_SHUTDOWN_DRAIN_TIMEOUT" (DrainTimeout c) (λ v, default (DrainTimeout c) (ParseDuration v))
|}.

(** ** Start-up ([main.go]) *)

(** A node of the cluster: [ClusterConfig] of [cluster.go] with the values that [NewCluster] fills in. *)
Record ClusterConfig := mkCC {
  cc_Name : string; cc_NodeID : string; cc_Host : string; cc_GossipPort : Z; cc_TransportPort : Z; cc_MQTTPort : Z;
  cc_HTTPPort : Z; cc_Region : string; cc_Seeds : list string; cc_VirtualNodes : Z; cc_ReplicaCount : Z
}.
Definition or_default (n d : Z) : Z := if n =? 0 then d else n.
(** [NewCluster] up to the first call of another package; [None] is its error. *)
Definition NewCluster_config (c : ClusterConfig) : option (ClusterConfig * Ring.NodeInfo) :=
  if bool_decide (cc_NodeID c = "") then None
  else
    let host := if bool_decide (cc_Host c = "") then "127.0.0.1" else cc_Host c in
    let gossip := or_default (cc_GossipPort c) 7000 in
    let transport := or_default (cc_TransportPort c) (gossip + 1000) in
    let mqtt := or_default (cc_MQTTPort c) 1883 in
    Some (mkCC (cc_Name c) (cc_NodeID c) host gossip transport mqtt (cc_HTTPPort c) (cc_Region c) (cc_Seeds c)
            (or_default (cc_VirtualNodes c) 150) (or_default (cc_ReplicaCount c) 3),
          Ring.mkNode (cc_NodeID c) host gossip transport mqtt (cc_HTTPPort c) (cc_Region c)).

(** [time.Duration(n) * time.Millisecond] wraps around. *)
Definition milliseconds (n : Z) : Z := (n * 1000000 + two63) mod (2 * two63) - two63.

(** The database and the other parts that the broker is put together from, for [Serve]. *)
Section Program.
Context {db : Type} `{Storage.Store db} `{Env}
  `{Offline.MessageJSON} `{Sessions.SessionJSON} `{Retain.RetainedJSON} `{Wills.WillJSON}.

(** What [main] gets from the other packages when it calls them. *)
Record world := mkWorld {
  database : string → db;
  limiter_state : limiter;
  hooks_state : hooks;
  credentials_file : string → Access.credentials;
  store_opens : string → bool;
  tenants_load : string → bool;
  engine_starts : bool;
  rules_load : string → bool;
  plugins_load : list PluginEntry → option (list string);   (* the names of the interceptors *)
  interceptors_init : bool;
  cluster_starts : ClusterConfig → Ring.NodeInfo → bool;
  http_listens : string → bool;
  tcp_listens : string → bool;
  tls_listens : string → string → string → bool;
  key_pair_loads : string → string → bool;
  ws_listens : string → bool
}.

(** Where [main] exits with status 1. *)
Inductive exit :=
  | InvalidConfig (err : config_error) | TLSNeedsFiles | WSSNeedsFiles | AuthFailed (err : string) | StoreFailed
  | TenantsFailed | EngineFailed | RulesFailed | PluginsFailed | InitFailed | ClusterFailed | HTTPFailed
  | TCPFailed | TLSFailed | WSFailed | WSSFailed | ServeFailed (err : go_error) | ServeCrashed.

Inductive interceptor := ITenant | IAudit (buffer : Z) (backup : string) | IRule | IPlugin (name : string).
Inductive listener := LTCP (addr : string) | LTLS (addr cert key : string) | LWS (addr : string) | LWSS (addr : string).

(** The broker with everything that was set up for it. *)
Record setup := mkSetup {
  su_auth : option Access.CredentialStore;              (* [None] is [NoopAuth] *)
  su_store : option string;
  su_maxConns : Z;
  su_chain : list (interceptor * option Z);             (* with the timeout given at registration *)
  su_rateLimiter : option RateLimit.Config;
  su_cluster : option (ClusterConfig * Ring.NodeInfo);
  su_migration : option (Migration.MigrationConfig * bool);
  su_replication : option (Z * Z);                      (* the replicas and the timeout of a takeover *)
  su_http : string;
  su_apiKey : string;
  su_listeners : list listener;
  su_drain : Z
}.

Definition R (A : Type) : Type := exit + A.
#[local] Instance R_ret : MRet R := λ A a, inr a.
#[local] Instance R_bind : MBind R := λ A B f m, match m with inl e => inl e | inr a => f a end.
Definition require (b : bool) (e : exit) : R unit := if b then inr tt else inl e.
(** [if cond { ... }] around a step. *)
Definition when {A} (cond : bool) (old : A) (step : R A) : R A := if cond then step else mret old.

Section Main.
Context (w : world).

Definition needs_files (addr : string) (c : Config) : bool :=
  negb (bool_decide (addr = "")) && (bool_decide (TLSCertFile c = "") || bool_decide (TLSKeyFile c = "")).

Definition load_auth (c : Config) : R (option Access.CredentialStore) :=
  when (negb (bool_decide (AuthFile c = ""))) None
    match Access.LoadCredentials (credentials_file w (AuthFile c)) with
    | inl err => inl (AuthFailed err)
    | inr creds => mret (Some creds)
    end.

Definition open_store (c : Config) : R (option string) :=
  when (negb (bool_decide (DataDir c = ""))) None
    (_ ← require (store_opens w (DataDir c)) StoreFailed; mret (Some (DataDir c))).

Definition fifty_ms : option Z := Some 50000000.

(** The chain in the order of registration. *)
Definition build_chain (c : Config) : R (list (interceptor * option Z)) :=
  l ← when (te_Enabled (Tenant c)) []
        (_ ← when (negb (bool_decide (TenantsFile (Tenant c) = ""))) tt (require (tenants_load w (TenantsFile (Tenant c))) TenantsFailed);
         mret [(ITenant, fifty_ms)]);
  let l := if au_Enabled (Audit c) then l ++ [(IAudit (au_BufferSize (Audit c)) (au_BackupPath (Audit c)), fifty_ms)] else l in
  l ← when (re_Enabled (RuleEngine c)) l
        (_ ← require (engine_starts w) EngineFailed;
         _ ← when (negb (bool_decide (RulesFile (RuleEngine c) = ""))) tt (require (rules_load w (RulesFile (RuleEngine c))) RulesFailed);
         mret (l ++ [(IRule, None)]));
  l ← when (0 <? len (Plugins c)) l
        match plugins_load w (Plugins c) with
        | None => inl PluginsFailed
        | Some names => mret (l ++ ((λ n, (IPlugin n, None)) <$> names))
        end;
  _ ← require (interceptors_init w) InitFailed;
  mret l.

Definition rate_limiter (c : Config) : option RateLimit.Config :=
  let r := cfg_RateLimit c in
  if rl_Enabled r then
    Some (RateLimit.mkConfig true
      (RateLimit.mkGlobal (GlobalMsgRate r) (GlobalMsgBurst r) (rl_ConnectRate r) (rl_ConnectBurst r))
      (RateLimit.mkClientCfg (ClientMsgRate r) (ClientMsgBurst r) (60 * Second) (5 * 60 * Second))
      (RateLimit.mkTopicCfg (of_Z 0) 0 (of_Z 0) 0 ∅)
      (RateLimit.mkBPCfg (BackpressureEnabled r) (BackpressureQueueMax r) (RateLimit.tenths 9) (RateLimit.tenths 7)
         (RateLimit.tenths 5) Second)
      (RateLimit.mkACfg (AdaptiveEnabled r) (5 * Second) (RateLimit.tenths 9) (RateLimit.tenths 7) (RateLimit.tenths 3))
      (RateLimit.mkDCfg (DetectorEnabled r) (DetectorHighRate r) 100 20 (DetectorScoreThreshold r) (5 * 60 * Second))
      (rl_MaxMessageSize r))
  else None.

Definition port_of (addr : string) (d : Z) : Z := match parseHostPort addr with Some (_, p) => p | None => d end.

Definition cluster_config (c : Config) : ClusterConfig :=
  let k := cfg_Cluster c in
  mkCC (cl_Name k) (cl_NodeID k) (cl_Host k) (cl_GossipPort k) (cl_TransportPort k) (port_of (TCPAddr c) 1883)
    (port_of (HTTPAddr c) 0) "" (cl_Seeds k) (cl_VirtualNodes k) (cl_ReplicaCount k).

Definition start_cluster (c : Config) : R (option (ClusterConfig * Ring.NodeInfo)) :=
  when (cl_Enabled (cfg_Cluster c)) None
    match NewCluster_config (cluster_config c) with
    | None => inl ClusterFailed
    | Some (cc, self) => _ ← require (cluster_starts w cc self) ClusterFailed; mret (Some (cc, self))
    end.

Definition build_listeners (c : Config) : R (list listener) :=
  _ ← require (tcp_listens w (TCPAddr c)) TCPFailed;
  let l := [LTCP (TCPAddr c)] in
  l ← when (negb (bool_decide (TLSAddr c = ""))) l
        (_ ← require (tls_listens w (TLSAddr c) (TLSCertFile c) (TLSKeyFile c)) TLSFailed;
         mret (l ++ [LTLS (TLSAddr c) (TLSCertFile c) (TLSKeyFile c)]));
  l ← when (negb (bool_decide (WSAddr c = ""))) l
        (_ ← require (ws_listens w (WSAddr c)) WSFailed; mret (l ++ [LWS (WSAddr c)]));
  when (negb (bool_decide (WSSAddr c = ""))) l
    (_ ← require (key_pair_loads w (TLSCertFile c) (TLSKeyFile c)) WSSFailed;
     _ ← require (ws_listens w (WSSAddr c)) WSSFailed; mret (l ++ [LWSS (WSSAddr c)])).

(** The database of the settings, as the broker is given it. *)
Definition data_of (c : Config) : option db := if bool_decide (DataDir c = "") then None else Some (database w (DataDir c)).

(** The goroutine of [Serve] exits when the database cannot be read. *)
Definition serve (c : Config) : R unit :=
  match Hooks.served (data_of c) (limiter_state w) (hooks_state w) with
  | Ok _ => mret tt
  | Err err => inl (ServeFailed err)
  | Panic | NoFuel => inl ServeCrashed
  end.

(** [main] with settings that are given; nothing in it sets an API key. *)
Definition main_with (c : Config) : R setup :=
  _ ← match Validate c with Some err => inl (InvalidConfig err) | None => mret tt end;
  _ ← require (negb (needs_files (TLSAddr c) c)) TLSNeedsFiles;
  _ ← require (negb (needs_files (WSSAddr c) c)) WSSNeedsFiles;
  auth ← load_auth c;
  store ← open_store c;
  let maxConns := if 0 <? MaxConnections c then MaxConnections c else 0 in
  chain ← build_chain c;
  let limiter := rate_limiter c in
  cluster ← start_cluster c;
  let migration := if cl_Enabled (cfg_Cluster c)
    then Some (Migration.mkConfig (BatchSize (cfg_Migration c)) (milliseconds (BatchIntervalMs (cfg_Migration c)))
                 (mg_MaxRetries (cfg_Migration c)), AutoRebalance (cfg_Migration c)) else None in
  let replication := if cl_Enabled (cfg_Cluster c) && rp_Enabled (Replication c)
    then Some (rp_ReplicaCount (Replication c), milliseconds (TakeoverTimeoutMs (Replication c))) else None in
  _ ← require (http_listens w (HTTPAddr c)) HTTPFailed;
  listeners ← build_listeners c;
  _ ← serve c;
  mret (mkSetup auth store maxConns chain limiter cluster migration replication (HTTPAddr c) "" listeners (DrainTimeout c)).

Definition main (e : environment) : R setup := main_with (applyEnvOverrides e DefaultConfig).

(** The loop over the signals: what is loaded again at a [SIGHUP]. *)
Inductive signal := SIGHUP | SIGINT | SIGTERM.
Inductive reload := ReloadRules (file : string) | ReloadTenants (file : string).
Fixpoint signals (c : Config) (l : list signal) : list reload :=
  match l with
  | SIGHUP :: l =>
      (if re_Enabled (RuleEngine c) && negb (bool_decide (RulesFile (RuleEngine c) = "")) then [ReloadRules (RulesFile (RuleEngine c))] else []) ++
      (if te_Enabled (Tenant c) && negb (bool_decide (TenantsFile (Tenant c) = "")) then [ReloadTenants (TenantsFile (Tenant c))] else []) ++
      signals c l
  | _ => []
  end.

(** After the first other signal: what is closed, in this order; the calls that were deferred run last
    to first. *)
Inductive closing := CloseRules | Drain (timeout : Z) | StopCollector | StopHTTP | LeaveCluster | CloseInterceptors | CloseStore.
Definition is_rule (i : interceptor * option Z) : bool := match i.1 with IRule => true | _ => false end.
Definition shutdown (s : setup) : list closing :=
  (if existsb is_rule (su_chain s) then [CloseRules] else []) ++ [Drain (su_drain s); StopCollector; StopHTTP] ++
  (if su_cluster s then [LeaveCluster] else []) ++ [CloseInterceptors] ++ (if su_store s then [CloseStore] else []).

(** The actions of the rules are waited for before the broker drains, so that those of the messages
    published during the drain are not waited for by anybody. *)
Lemma rules_closed_first s : existsb is_rule (su_chain s) = true → ∃ rest, shutdown s = CloseRules :: Drain (su_drain s) :: rest ∧ CloseRules ∉ rest.
Proof.
  intros Hr. unfold shutdown. rewrite Hr. eexists. split; [done|]. destruct (su_cluster s), (su_store s); cbn; set_solver.
Qed.

End Main.

(** ** What an environment starts *)

Lemma R_bind_inr {A B} (m : R A) (f : A → R B) b : m ≫= f = inr b ↔ ∃ a, m = inr a ∧ f a = inr b.
Proof. destruct m; cbn; naive_solver. Qed.
Lemma require_inr b e u : require b e = inr u ↔ b = true.
Proof. destruct b, u; cbn; naive_solver. Qed.
Lemma when_inr {A} c (old : A) step x : when c old step = inr x ↔ if c then step = inr x else x = old.
Proof. destruct c; cbn; [done|]. split; [by intros [= ->]|by intros ->]. Qed.

Lemma env_string_empty e name d : env_string e name d = "" ↔ e name = "" ∧ d = "".
Proof. unfold env_string, env. case_bool_decide; cbn; naive_solver. Qed.
Lemma env_string_set e name d : e name ≠ "" → env_string e name d = e name.
Proof. intros Hn. unfold env_string, env. by rewrite bool_decide_false. Qed.

(** The settings that an environment gives. *)
Definition config_of (e : environment) : Config := applyEnvOverrides e DefaultConfig.
Definition set_in (e : environment) (name : string) : bool := negb (bool_decide (e name = "")).
Definition clustered (e : environment) : bool := EqualFold_true (e "DMQTT_CLUSTER_ENABLED").
Definition replicated (e : environment) : bool := is_yes (e "DMQTT_REPLICATION_ENABLED").

(** The node that an environment describes. *)
Definition node_of (e : environment) : Ring.NodeInfo :=
  let gossip := or_default (env e "DMQTT_CLUSTER_GOSSIP_PORT" 7000 (λ v, default 7000 (Atoi v))) 7000 in
  Ring.mkNode (e "DMQTT_CLUSTER_NODE_ID") (env_string e "DMQTT_CLUSTER_HOST" "127.0.0.1") gossip (gossip + 1000)
    (or_default (port_of (env_string e "DMQTT_TCP_ADDR" ":1883") 1883) 1883) (port_of (env_string e "DMQTT_HTTP_ADDR" ":9090") 0) "".
Definition node_config (e : environment) : ClusterConfig :=
  let n := node_of e in
  mkCC "dmqtt" (Ring.ni_ID n) (Ring.Host n) (Ring.GossipPort n) (Ring.TransportPort n) (Ring.MQTTPort n) (Ring.HTTPPort n) ""
    (env e "DMQTT_CLUSTER_SEEDS" [] (Split ",")) 150 3.

(** The listeners, in order. *)
Definition listeners_of (e : environment) : list listener :=
  [LTCP (env_string e "DMQTT_TCP_ADDR" ":1883")] ++
  (if set_in e "DMQTT_TLS_ADDR" then [LTLS (e "DMQTT_TLS_ADDR") (e "DMQTT_TLS_CERT") (e "DMQTT_TLS_KEY")] else []) ++
  (if set_in e "DMQTT_WS_ADDR" then [LWS (e "DMQTT_WS_ADDR")] else []).
Definition listens (w : world) (l : listener) : Prop :=
  match l with
  | LTCP a => tcp_listens w a = true
  | LTLS a c k => c ≠ "" ∧ k ≠ "" ∧ tls_listens w a c k = true
  | LWS a | LWSS a => ws_listens w a = true
  end.

Lemma config_Validate e : Validate (config_of e) = None ↔
  (clustered e = true → e "DMQTT_CLUSTER_NODE_ID" ≠ "") ∧ (replicated e = true → clustered e = true).
Proof.
  unfold Validate. cbn -[env_string EqualFold_true is_yes div of_Z ltb].
  rewrite !(bool_decide_false (env_string e _ ":1883" = "")), !(bool_decide_false (env_string e _ ":9090" = ""))
    by (rewrite env_string_empty; naive_solver).
  replace (ltb _ _) with false by (vm_compute; done). cbn -[env_string EqualFold_true is_yes].
  assert (Hc : env e "DMQTT_CLUSTER_ENABLED" false EqualFold_true = clustered e).
  { unfold env, clustered. case_bool_decide as E; [|done]. by rewrite E. }
  assert (Hr : env e "DMQTT_REPLICATION_ENABLED" false is_yes = replicated e).
  { unfold env, replicated. case_bool_decide as E; [|done]. by rewrite E. }
  rewrite Hc, Hr. case_bool_decide as En; rewrite env_string_empty in En; destruct (clustered e), (replicated e); cbn; naive_solver.
Qed.

Section Startup.
Context (w : world) (e : environment).

(** The credentials: those of the file if one is named, none otherwise. *)
Definition auth_as_named (a : option Access.CredentialStore) : Prop :=
  if set_in e "DMQTT_AUTH_FILE" then ∃ cs, Access.LoadCredentials (credentials_file w (e "DMQTT_AUTH_FILE")) = inr cs ∧ a = Some cs
  else a = None.

Lemma env_string_unset name : env_string e name "" = e name.
Proof. unfold env_string, env. case_bool_decide as E; [by rewrite E|done]. Qed.
Lemma env_cluster : cl_Enabled (cfg_Cluster (config_of e)) = clustered e.
Proof. cbn. unfold env, clustered. case_bool_decide as E; [|done]. by rewrite E. Qed.
Lemma env_replication : rp_Enabled (Replication (config_of e)) = replicated e.
Proof. cbn. unfold env, replicated. case_bool_decide as E; [|done]. by rewrite E. Qed.

Lemma load_auth_spec a : load_auth w (config_of e) = inr a ↔ auth_as_named a.
Proof.
  unfold load_auth, auth_as_named, set_in. rewrite when_inr. cbn -[env_string]. rewrite env_string_unset.
  destruct (negb _); [|done]. destruct (Access.LoadCredentials _) as [err|cs]; [naive_solver|]. split; [intros [= <-]; eauto|].
  by intros (? & [= <-] & ->).
Qed.

Lemma open_store_spec x : open_store w (config_of e) = inr x ↔
  (set_in e "DMQTT_DATA_DIR" = true → store_opens w (e "DMQTT_DATA_DIR") = true) ∧
  x = if set_in e "DMQTT_DATA_DIR" then Some (e "DMQTT_DATA_DIR") else None.
Proof.
  unfold open_store, set_in. rewrite when_inr. cbn -[env_string]. rewrite env_string_unset.
  destruct (negb _); [|naive_solver]. rewrite R_bind_inr. setoid_rewrite require_inr. split.
  - by intros (_ & ? & [= <-]).
  - intros [Hs ->]. exists tt. split; [by apply Hs|done].
Qed.

Lemma build_chain_spec l : build_chain w (config_of e) = inr l ↔ interceptors_init w = true ∧ l = [].
Proof.
  unfold build_chain. cbn. destruct (interceptors_init w); cbn; [|naive_solver]. split; [by intros [= <-]|by intros [_ ->]].
Qed.

Lemma NewCluster_config_of : e "DMQTT_CLUSTER_NODE_ID" ≠ "" →
  NewCluster_config (cluster_config (config_of e)) = Some (node_config e, node_of e).
Proof.
  intros Hn. unfold NewCluster_config, cluster_config, node_config, node_of. cbn -[env_string port_of Atoi Split].
  rewrite env_string_set by done. rewrite bool_decide_false by done.
  rewrite (bool_decide_false (env_string e _ "127.0.0.1" = "")) by (rewrite env_string_empty; naive_solver). done.
Qed.

Lemma start_cluster_spec x : (clustered e = true → e "DMQTT_CLUSTER_NODE_ID" ≠ "") →
  start_cluster w (config_of e) = inr x ↔
  (clustered e = true → cluster_starts w (node_config e) (node_of e) = true) ∧
  x = if clustered e then Some (node_config e, node_of e) else None.
Proof.
  intros Hn. unfold start_cluster. rewrite when_inr, env_cluster. destruct (clustered e) eqn:Ec; [|naive_solver].
  rewrite NewCluster_config_of by auto. rewrite R_bind_inr. setoid_rewrite require_inr. split.
  - by intros (_ & ? & [= <-]).
  - intros [Hs ->]. exists tt. split; [by apply Hs|done].
Qed.

Definition tls_files : Prop := set_in e "DMQTT_TLS_ADDR" = true → e "DMQTT_TLS_CERT" ≠ "" ∧ e "DMQTT_TLS_KEY" ≠ "".

Lemma needs_files_spec : needs_files (TLSAddr (config_of e)) (config_of e) = false ↔ tls_files.
Proof.
  unfold needs_files, tls_files, set_in. cbn -[env_string]. rewrite !env_string_unset.
  repeat case_bool_decide; cbn; naive_solver.
Qed.

Lemma build_listeners_spec l : tls_files →
  build_listeners w (config_of e) = inr l ↔ Forall (listens w) (listeners_of e) ∧ l = listeners_of e.
Proof.
  intros Hf. unfold build_listeners, listeners_of. cbn -[env_string]. rewrite !env_string_unset. unfold tls_files, set_in in *.
  rewrite Forall_cons, Forall_app. cbn [listens].
  destruct (tcp_listens w _); cbn; [|naive_solver].
  destruct (bool_decide (e "DMQTT_TLS_ADDR" = "")) eqn:Et; cbn.
  - destruct (bool_decide (e "DMQTT_WS_ADDR" = "")) eqn:Ew; cbn; [split; [by intros [= <-]|by intros [_ ->]]|].
    rewrite Forall_singleton. cbn. destruct (ws_listens w (e "DMQTT_WS_ADDR")); cbn; [|naive_solver]. split; [by intros [= <-]|by intros [_ ->]].
  - rewrite Forall_singleton. cbn. destruct (Hf eq_refl). destruct (tls_listens w _ _ _); cbn; [|naive_solver].
    destruct (bool_decide (e "DMQTT_WS_ADDR" = "")) eqn:Ew; cbn; [split; [by intros [= <-]|by intros [_ ->]]|].
    rewrite Forall_singleton. cbn. destruct (ws_listens w (e "DMQTT_WS_ADDR")); cbn; [|naive_solver]. split; [by intros [= <-]|by intros [_ ->]].
Qed.

(** The database, if one is named, can be read. *)
Definition data_loads : Prop :=
  set_in e "DMQTT_DATA_DIR" = true →
  ∃ b, Hooks.served (Some (database w (e "DMQTT_DATA_DIR"))) (limiter_state w) (hooks_state w) = Ok b.

Lemma serve_spec u : serve w (config_of e) = inr u ↔ data_loads.
Proof.
  unfold serve, data_of, data_loads, set_in. cbn -[env_string Hooks.served]. rewrite env_string_unset.
  destruct u. case_bool_decide as Hd; cbn -[Hooks.served].
  - split; [done|reflexivity].
  - destruct (Hooks.served _ _ _); split; try done; try (by intros [? ?]; [done|]); eauto.
Qed.

(** What has to be so for the broker to start. *)
Record startable : Prop := {
  sb_node : clustered e = true → e "DMQTT_CLUSTER_NODE_ID" ≠ "";
  sb_replicas : replicated e = true → clustered e = true;
  sb_tls : tls_files;
  sb_auth : ∃ a, auth_as_named a;
  sb_store : set_in e "DMQTT_DATA_DIR" = true → store_opens w (e "DMQTT_DATA_DIR") = true;
  sb_init : interceptors_init w = true;
  sb_cluster : clustered e = true → cluster_starts w (node_config e) (node_of e) = true;
  sb_http : http_listens w (env_string e "DMQTT_HTTP_ADDR" ":9090") = true;
  sb_listeners : Forall (listens w) (listeners_of e);
  sb_data : data_loads
}.

(** What is running then. *)
Record as_described (su : setup) : Prop := {
  ad_auth : auth_as_named (su_auth su);
  ad_store : su_store su = if set_in e "DMQTT_DATA_DIR" then Some (e "DMQTT_DATA_DIR") else None;
  ad_cluster : su_cluster su = if clustered e then Some (node_config e, node_of e) else None;
  ad_migration : su_migration su = if clustered e then Some (Migration.mkConfig 1000 Second 3, true) else None;
  ad_replication : su_replication su = if replicated e then
      Some (env e "DMQTT_REPLICATION_REPLICA_COUNT" 2 (positive 2),
            milliseconds (env e "DMQTT_REPLICATION_TAKEOVER_TIMEOUT_MS" 2000 (positive 2000)))
    else None;
  ad_http : su_http su = env_string e "DMQTT_HTTP_ADDR" ":9090";
  ad_listeners : su_listeners su = listeners_of e;
  ad_drain : su_drain su = env e "DMQTT_SHUTDOWN_DRAIN_TIMEOUT" (30 * Second) (λ v, default (30 * Second) (ParseDuration v))
}.

(** C29: what an environment starts. The broker starts, and goes on to accept connections, exactly when the
    variables make sense together (a node of a cluster has an identifier, replication has a cluster, TLS
    has its two files), the file of the credentials that is named loads, the interceptors initialise, the
    store, the cluster and every address that is named can be opened, and the database that is named can be
    read; and then it has the credentials of that file (none only if no file is named), the store, the
    listeners, the node, the replication and the time to drain that the variables describe. (What the
    README says of further variables is not so: [documented_variables_ignored].) *)
Theorem startup_exact :
  ((∃ su, main w e = inr su) ↔ startable) ∧ (∀ su, main w e = inr su → as_described su).
Proof.
  assert (Hto : ∀ su, main w e = inr su → startable ∧ as_described su).
  { intros su. unfold main. fold (config_of e). unfold main_with.
    intros (? & Hv & (? & Ht%require_inr & (? & _ & (a & Ha%load_auth_spec & (x & Hx%open_store_spec &
      (l & Hl%build_chain_spec & Hm)%R_bind_inr)%R_bind_inr)%R_bind_inr)%R_bind_inr)%R_bind_inr)%R_bind_inr.
    destruct (Validate (config_of e)) eqn:Ev; [done|]. apply config_Validate in Ev as [Hn Hr].
    apply negb_true_iff, needs_files_spec in Ht. destruct Hx as [Hx ->], Hl as [Hi ->].
    apply R_bind_inr in Hm as (cl & Hcl%start_cluster_spec & (? & Hh%require_inr &
      (ls & Hls%build_listeners_spec & (? & Hsv%serve_spec & Hsu)%R_bind_inr)%R_bind_inr)%R_bind_inr); [|done..].
    destruct Hcl as [Hc ->], Hls as [Hls ->]. rewrite env_cluster, env_replication in Hsu.
    injection Hsu as <-. split; [by constructor; eauto|]. constructor; try done. cbn [su_replication].
    destruct (replicated e); [by rewrite Hr|by rewrite andb_false_r]. }
  split; [split|intros su Hsu; by apply Hto].
  - intros [su Hsu]. by apply Hto in Hsu as [? _].
  - intros [Hn Hr Hf [a Ha] Hd Hi Hc Hh Hls Hsv]. unfold main. fold (config_of e). unfold main_with.
    rewrite (proj2 (config_Validate e)) by done. rewrite (proj2 needs_files_spec) by done.
    change (needs_files (WSSAddr (config_of e)) (config_of e)) with false.
    rewrite (proj2 (load_auth_spec _) Ha), (proj2 (open_store_spec _) (conj Hd eq_refl)), (proj2 (build_chain_spec _) (conj Hi eq_refl)),
      (proj2 (start_cluster_spec _ Hn) (conj Hc eq_refl)), (proj2 (build_listeners_spec _ Hf) (conj Hls eq_refl)),
      (proj2 (serve_spec tt) Hsv).
    unfold require. change (HTTPAddr (config_of e)) with (env_string e "DMQTT_HTTP_ADDR" ":9090").
    rewrite Hh. by eexists.
Qed.

End Startup.

(** Nothing sets an API key. *)
Lemma main_no_key w e su : main w e = inr su → su_apiKey su = "".
Proof.
  unfold main, main_with. rewrite R_bind_inr. intros (_ & _ & Hm). repeat (apply R_bind_inr in Hm as (? & _ & Hm)). by injection Hm as <-.
Qed.

(** *** Variables that are not read *)

Definition variables : list string :=
  ["DMQTT_TCP_ADDR"; "DMQTT_TLS_ADDR"; "DMQTT_TLS_CERT"; "DMQTT_TLS_KEY"; "DMQTT_WS_ADDR"; "DMQTT_HTTP_ADDR"; "DMQTT_DATA_DIR";
   "DMQTT_AUTH_FILE"; "DMQTT_LOG_LEVEL"; "DMQTT_CLUSTER_ENABLED"; "DMQTT_CLUSTER_NODE_ID"; "DMQTT_CLUSTER_HOST";
   "DMQTT_CLUSTER_GOSSIP_PORT"; "DMQTT_CLUSTER_SEEDS"; "DMQTT_REPLICATION_ENABLED"; "DMQTT_REPLICATION_REPLICA_COUNT";
   "DMQTT_REPLICATION_SYNC_QOS2"; "DMQTT_REPLICATION_TAKEOVER_TIMEOUT_MS"; "DMQTT_SHUTDOWN_DRAIN_TIMEOUT"].

Lemma env_agree {A} (e e' : environment) name (old : A) new : e name = e' name → env e name old new = env e' name old new.
Proof. unfold env. by intros ->. Qed.

Lemma applyEnvOverrides_agree (e e' : environment) c : (∀ name, name ∈ variables → e name = e' name) →
  applyEnvOverrides e c = applyEnvOverrides e' c.
Proof.
  intros Ha. unfold applyEnvOverrides, env_string. cbn zeta.
  repeat (f_equal; try (apply env_agree, Ha, (bool_decide_eq_true_1 (_ ∈ variables)); vm_compute; reflexivity)).
Qed.

(** An API key, plugins and the rule engine cannot be set in the environment, as the README says they can. *)
Lemma documented_variables_ignored w e name value :
  name ∈ ["DMQTT_API_KEY"; "DMQTT_PLUGINS"; "DMQTT_RULE_ENGINE_ENABLED"; "DMQTT_RULE_ENGINE_RULES_FILE"] →
  main w (λ n, if bool_decide (n = name) then value else e n) = main w e.
Proof.
  intros Hn. unfold main. f_equal. apply applyEnvOverrides_agree. intros n Hv. rewrite bool_decide_false; [done|]. intros ->.
  revert Hv. apply (bool_decide_eq_true_1 (name ∉ variables)). set_unfold in Hn.
  repeat (destruct Hn as [->|Hn]; [vm_compute; reflexivity|]). done.
Qed.

(** Settings that nothing reads: the limits of the offline queues, the window of a client and the circuit
    breaker between the nodes. *)
Definition with_unread (c : Config) (max_ ttl : Z) (tier : OfflineTierSettings) (window : Z) (breaker : CircuitBreakerSettings) : Config :=
  mkConfig (TCPAddr c) (MaxConnections c) (MaxPacketSize c) (KeepAliveMultiplier c) (DataDir c) (InflightLimit c) max_ ttl
    (cfg_Cluster c) (LogLevel c) (HTTPAddr c) (AuthFile c) (TLSAddr c) (TLSCertFile c) (TLSKeyFile c) (WSAddr c) (WSSAddr c)
    (cfg_RateLimit c) breaker tier window (cfg_Migration c) (Audit c) (RuleEngine c) (Tenant c) (Replication c) (Plugins c) (DrainTimeout c).
Lemma unread_settings w c max_ ttl tier window breaker : main_with w (with_unread c max_ ttl tier window breaker) = main_with w c.
Proof. done. Qed.

End Program.

(** *** The loop over a duration ends *)

Lemma leadingInt_rest l : ∀ x v r, leadingInt l x = Some (v, r) → (length r ≤ length l)%nat.
Proof.
  induction l as [|c l IH]; cbn; intros x v r; [by intros [= <- <-]|].
  destruct (is_digit c); [|by intros [= <- <-]]. repeat (destruct (_ <? _); [done|]). intros Hr%IH. lia.
Qed.
Lemma leadingFraction_rest l : ∀ x scale o, (length (leadingFraction l x scale o).2 ≤ length l)%nat.
Proof.
  induction l as [|c l IH]; cbn; intros x scale o; [lia|]. destruct (is_digit c); [|cbn; lia].
  destruct o; [specialize (IH x scale true); lia|]. destruct (_ <? x); [specialize (IH x scale true); lia|].
  destruct (two63 <? _); [specialize (IH x scale true); lia|]. etransitivity; [apply IH|lia].
Qed.
Lemma unit_part_app l : l = (unit_part l).1 ++ (unit_part l).2.
Proof. induction l as [|c l IH]; cbn; [done|]. destruct (is_number_char c); [done|]. destruct (unit_part l). cbn in *. by f_equal. Qed.

Lemma duration_part_rest l v r : duration_part l = Some (v, r) → (length r < length l)%nat.
Proof.
  destruct l as [|c l]; [done|]. unfold duration_part. destruct (negb (is_number_char c)); [done|].
  intros ((v0 & r0) & Hl%leadingInt_rest & H)%bind_Some.
  assert (Hstep : ∀ f scale r1 post, (length r1 ≤ length r0)%nat →
    (if negb (negb (length r0 =? length (c :: l))%nat) && negb post then None
     else let '(u, r) := unit_part r1 in
          if bool_decide (u = []) then None
          else unit_ ← (list_to_map unitMap : gmap string Z) !! text u;
               if two63 / unit_ <? v0 then None
               else if 0 <? f then
                      if two63 <? v0 * unit_ + truncate (mul (of_Z f) (div (of_Z unit_) scale)) then None
                      else Some (v0 * unit_ + truncate (mul (of_Z f) (div (of_Z unit_) scale)), r)
                    else Some (v0 * unit_, r)) = Some (v, r) → (length r < length (c :: l))%nat).
  { clear H. intros f scale r1 post Hr1. destruct (negb (negb _) && negb post); [done|]. pose proof (unit_part_app r1) as Hu.
    destruct (unit_part r1) as [u r2]. cbn in Hu. case_bool_decide as Hne; [done|].
    intros (un & _ & H)%bind_Some. assert (r = r2) as -> by (repeat case_match; naive_solver).
    subst r1. rewrite length_app in Hr1. destruct u; [done|]. cbn in Hr1. lia. }
  assert (Hdot : (∃ r', r0 = "."%char :: r') ∨ ¬ ∃ r', r0 = "."%char :: r').
  { destruct r0 as [|a r']; [right; naive_solver|]. destruct (decide (a = "."%char)) as [->|]; [eauto|right; naive_solver]. }
  destruct Hdot as [[r' ->]|Hno].
  - pose proof (leadingFraction_rest r' 0 (of_Z 1) false) as Hf. destruct (leadingFraction r' 0 (of_Z 1) false) as [[f scale] r1].
    apply (Hstep f scale r1 (negb (length r1 =? length r')%nat)); [cbn in *; lia|exact H].
  - apply (Hstep 0 (of_Z 1) r0 false); [lia|]. destruct r0 as [|a r']; [exact H|].
    destruct a as [[] [] [] [] [] [] [] []]; try exact H. exfalso. apply Hno. by exists r'.
Qed.

(** The length of the text is enough fuel. *)
Lemma duration_loop_fuel n : ∀ l d, (length l ≤ n)%nat → duration_loop n l d = duration_loop (length l) l d.
Proof.
  induction n as [n IH] using lt_wf_ind. intros l d Hl. destruct l as [|c l]; [by destruct n|]. destruct n as [|n]; [cbn in Hl; lia|].
  cbn [length duration_loop]. cbn in Hl. destruct (duration_part (c :: l)) as [[v r]|] eqn:E; cbn; [|done].
  apply duration_part_rest in E. cbn in E. destruct (two63 <? d + v); [done|]. destruct (decide (n = length l)) as [->|]; [done|].
  rewrite (IH n), (IH (length l)) by lia. done.
Qed.

(** *** Examples *)

#[local] Instance plain_env : Env := {|
  Authenticate u p := true;
  Authorize u t a := true;
  limiter := unit;
  AllowConnect l := (true, l);
  AllowPublish l c t n := (true, l);
  AllowSubscribe l c t := (true, l);
  hooks := unit;
  interceptors := None;
  remotes := unit;
  RemoteSubs_Match r t := [];
  auto_id id := "auto";
  remote_addr id := ""
|}.
Definition quiet_world_with {db} (d : db) : world (db := db) :=
  mkWorld (λ _, d) tt tt (λ _, Access.Unreadable "no such file") (λ _, true) (λ _, true) true (λ _, true) (λ _, Some []) true (λ _ _, true)
    (λ _, true) (λ _, true) (λ _ _ _, true) (λ _ _, true) (λ _, true).
Definition quiet_world : world := quiet_world_with empty_db.
Definition empty_env : environment := λ _, "".
Definition with_var (name value : string) (e : environment) : environment := λ n, if bool_decide (n = name) then value else e n.

Example startup_examples :
  (∃ su, main quiet_world empty_env = inr su ∧ su_listeners su = [LTCP ":1883"] ∧ su_http su = ":9090" ∧ su_auth su = None) ∧
  main quiet_world (with_var "DMQTT_AUTH_FILE" "/etc/auth.json" empty_env) =
    inl (AuthFailed "failed to read credentials file: no such file") ∧
  main quiet_world (with_var "DMQTT_TLS_ADDR" ":8883" empty_env) = inl TLSNeedsFiles ∧
  main quiet_world (with_var "DMQTT_REPLICATION_ENABLED" "1" empty_env) = inl (InvalidConfig ReplicationAlone) ∧
  main quiet_world (with_var "DMQTT_CLUSTER_ENABLED" "True" empty_env) = inl (InvalidConfig NoNodeID) ∧
  (∃ su, main quiet_world (with_var "DMQTT_CLUSTER_ENABLED" "TRUE" (with_var "DMQTT_CLUSTER_NODE_ID" "n1"
           (with_var "DMQTT_CLUSTER_GOSSIP_PORT" "7010" empty_env))) = inr su ∧
     su_cluster su = Some (mkCC "dmqtt" "n1" "127.0.0.1" 7010 8010 1883 9090 "" [] 150 3, Ring.mkNode "n1" "127.0.0.1" 7010 8010 1883 9090 "")).
Proof. split_and!; try (vm_compute; reflexivity); eexists; split; try (vm_compute; reflexivity); split_and?; vm_compute; reflexivity. Qed.

Lemma startup_exact_witness :
  let e := with_var "DMQTT_DATA_DIR" "/data" (with_var "DMQTT_WS_ADDR" ":8080" empty_env) in
  ∃ su, main quiet_world e = inr su ∧ startable quiet_world e ∧ as_described quiet_world e su ∧
    su_listeners su = [LTCP ":1883"; LWS ":8080"].
Proof.
  intros e. destruct (main quiet_world e) as [x|su] eqn:E; [vm_compute in E; discriminate E|]. exists su. split; [reflexivity|].
  destruct (startup_exact quiet_world e) as [Hs Hd]. split; [apply Hs; exists su; exact E|]. split; [exact (Hd su E)|].
  rewrite (ad_listeners _ _ _ (Hd su E)). vm_compute. reflexivity.
Defined.

(** A database that is there but cannot be read stops the broker after everything was opened. *)
#[local] Instance unreadable : Storage.Store unit := {|
  Storage.Get _ _ := Err (ErrText "i/o error");
  Storage.Set_ _ _ _ := Err (ErrText "i/o error");
  Storage.Delete _ _ := Err (ErrText "i/o error");
  Storage.Scan _ _ := Err (ErrText "i/o error")
|}.
Example unreadable_database :
  main (quiet_world_with ()) (with_var "DMQTT_DATA_DIR" "/data" empty_env) =
    inl (ServeFailed (ErrWrap "loading sessions" (ErrText "i/o error"))) ∧
  ∃ su, main (quiet_world_with ()) empty_env = inr su.
Proof. split; [vm_compute; reflexivity|]. eexists. vm_compute. reflexivity. Qed.

Example ParseDuration_examples :
  ParseDuration "30s" = Some (30 * Second) ∧ ParseDuration "1h15m30.5s" = Some 4530500000000 ∧ ParseDuration "-2m" = Some (- 120 * Second) ∧
  ParseDuration "1.5" = None ∧ ParseDuration "" = None ∧ ParseDuration "0" = Some 0 ∧ ParseDuration "9223372036854775808ns" = None.
Proof. split_and!; vm_compute; reflexivity. Qed.

End Settings.
