(* ===== verification/AuditLog.v ===== *)
(** * The audit interceptor and the plugin loader

    Model of [internal/plugin/audit/audit.go]: the hooks that record an entry, the buffer, its consumer and
    its closing, as steps of the goroutines that share them; and of [internal/plugin/loader.go]: the checks
    on the path of a plugin, with [filepath.Clean] and [filepath.Ext]. The log, the backup file and
    [plugin.Open] are outside: what was written to them, and an argument. *)
From S2P Require Import Prelude Doubles Breaker Interceptors Topic RateLimit Ring Access Storage Delivery Offline Sessions Retain Wills Broker Migration Settings.

Module AuditLog.

(** ** The interceptor *)

Inductive detail := DString (s : string) | DBool (b : bool) | DNumber (n : Z).
Record AuditEntry := mkEntry { ae_Timestamp : Z; Action : string; ae_ClientID : string; Details : list (string * detail) }.

Record Config := mkConfig { BufferSize : Z; BackupPath : string }.

(** [a_log] and [a_backup] are what was written to the log and to the backup file, [a_counted] and
    [a_dropped] the two metrics; [a_done] and [a_stopped] are closed channels. *)
Record AuditInterceptor := mkAudit {
  entries : list AuditEntry;
  a_capacity : Z;
  backupPath : string;
  a_done : bool;
  a_stopped : bool;
  a_log : list AuditEntry;
  a_backup : list AuditEntry;
  a_counted : Z;
  a_dropped : Z
}.

Definition New (cfg : Config) : AuditInterceptor :=
  mkAudit [] (if BufferSize cfg <=? 0 then 4096 else BufferSize cfg) (BackupPath cfg) false false [] [] 0 0.

(** What became of an entry. *)
Inductive fate := Buffered | BackedUp | Dropped.
#[global] Instance fate_eq_dec : EqDecision fate.
Proof. solve_decision. Defined.

(** [writeToBackup]; [writes] tells whether the file takes the entry. *)
Definition writeToBackup (a : AuditInterceptor) (e : AuditEntry) (writes : bool) : fate * AuditInterceptor :=
  if writes
  then (BackedUp, mkAudit (entries a) (a_capacity a) (backupPath a) (a_done a) (a_stopped a) (a_log a) (a_backup a ++ [e])
                    (a_counted a) (a_dropped a))
  else (Dropped, mkAudit (entries a) (a_capacity a) (backupPath a) (a_done a) (a_stopped a) (a_log a) (a_backup a)
                   (a_counted a) (a_dropped a + 1)).

Definition stamp (now : Z) (e : AuditEntry) : AuditEntry := mkEntry now (Action e) (ae_ClientID e) (Details e).

Definition record (now : Z) (writes : bool) (a : AuditInterceptor) (e : AuditEntry) : fate * AuditInterceptor :=
  let e := stamp now e in
  let a := mkAudit (entries a) (a_capacity a) (backupPath a) (a_done a) (a_stopped a) (a_log a) (a_backup a) (a_counted a + 1) (a_dropped a) in
  if len (entries a) <? a_capacity a
  then (Buffered, mkAudit (entries a ++ [e]) (a_capacity a) (backupPath a) (a_done a) (a_stopped a) (a_log a) (a_backup a) (a_counted a) (a_dropped a))
  else if bool_decide (backupPath a = "") then
    (Dropped, mkAudit (entries a) (a_capacity a) (backupPath a) (a_done a) (a_stopped a) (a_log a) (a_backup a) (a_counted a) (a_dropped a + 1))
  else writeToBackup a e writes.

(** An entry is taken from the buffer and written to the log. *)
Definition writeEntry (a : AuditInterceptor) : option AuditInterceptor :=
  match entries a with
  | [] => None
  | e :: rest =>
      Some (mkAudit rest (a_capacity a) (backupPath a) (a_done a) (a_stopped a) (a_log a ++ [e]) (a_backup a) (a_counted a) (a_dropped a))
  end.

(** ** Its goroutines *)

(** [Close] closes [done], waits for the consumer, and drains the buffer. *)
Inductive closing := Open_ | WaitStopped | Draining | Closed_.

Inductive astep_label :=
  | ARecord (now : Z) (writes : bool) (e : AuditEntry)
  | AConsume                    (* the consumer takes an entry *)
  | AExit                       (* the consumer sees [done] *)
  | AClose                      (* [Close] is called *)
  | ADrain                      (* [Close] takes an entry *)
  | AReturn.                    (* [Close] finds the buffer empty *)

Record running := mkRunning { ar_audit : AuditInterceptor; ar_close : closing }.

Definition set_done (a : AuditInterceptor) : AuditInterceptor :=
  mkAudit (entries a) (a_capacity a) (backupPath a) true (a_stopped a) (a_log a) (a_backup a) (a_counted a) (a_dropped a).
Definition set_stopped (a : AuditInterceptor) : AuditInterceptor :=
  mkAudit (entries a) (a_capacity a) (backupPath a) (a_done a) true (a_log a) (a_backup a) (a_counted a) (a_dropped a).

(** One step, with what became of an entry that was recorded. [None] is a step that cannot happen. *)
Definition astep (r : running) (l : astep_label) : option (list (AuditEntry * fate) * running) :=
  let a := ar_audit r in
  match l with
  | ARecord now writes e =>
      let '(f, a) := record now writes a e in Some ([(stamp now e, f)], mkRunning a (ar_close r))
  | AConsume => if a_stopped a then None else (λ a, ([], mkRunning a (ar_close r))) <$> writeEntry a
  | AExit => if a_done a && negb (a_stopped a) then Some ([], mkRunning (set_stopped a) (ar_close r)) else None
  | AClose => match ar_close r with Open_ => Some ([], mkRunning (set_done a) WaitStopped) | _ => None end
  | ADrain =>
      match ar_close r with
      | WaitStopped | Draining => if a_stopped a then (λ a, ([], mkRunning a Draining)) <$> writeEntry a else None
      | _ => None
      end
  | AReturn =>
      match ar_close r with
      | WaitStopped | Draining => if a_stopped a && bool_decide (entries a = []) then Some ([], mkRunning a Closed_) else None
      | _ => None
      end
  end.

(** After [Init], whose goroutine is the consumer. *)
Definition init (cfg : Config) : running := mkRunning (New cfg) Open_.
Fixpoint arun (r : running) (ls : list astep_label) : option (list (AuditEntry * fate) * running) :=
  match ls with
  | [] => Some ([], r)
  | l :: ls => '(o1, r) ← astep r l; '(o2, r) ← arun r ls; Some (o1 ++ o2, r)
  end.

(** ** The hooks *)

Import Interceptors.

Definition connect_entry (evt : ConnectEvent) : AuditEntry :=
  mkEntry 0 "connect" (ce_ClientID evt)
    [("username", DString (ce_Username evt)); ("clean_session", DBool (ce_CleanSession evt)); ("remote_addr", DString (ce_RemoteAddr evt))].
Definition publish_entry (evt : PublishEvent) : AuditEntry :=
  mkEntry 0 "publish" (pe_ClientID evt)
    [("topic", DString (pe_Topic evt)); ("qos", DNumber (pe_QoS evt)); ("retain", DBool (pe_Retain evt)); ("payload_size", DNumber (len (pe_Payload evt)))].
Definition subscribe_entry (evt : SubscribeEvent) : AuditEntry :=
  mkEntry 0 "subscribe" (se_ClientID evt) [("topic_filter", DString (se_TopicFilter evt)); ("qos", DNumber (se_QoS evt))].
Definition delivery_entry (evt : DeliveryEvent) : AuditEntry :=
  mkEntry 0 "delivery" (de_ClientID evt)
    [("topic", DString (de_Topic evt)); ("qos", DNumber (de_QoS evt)); ("payload_size", DNumber (len (de_Payload evt)))].
Definition disconnect_entry (evt : DisconnectEvent) : AuditEntry :=
  mkEntry 0 "disconnect" (di_ClientID evt) [("reason", DString (di_Reason evt)); ("remote_addr", DString (di_RemoteAddr evt))].
Definition expired_entry (evt : SessionExpiredEvent) : AuditEntry := mkEntry 0 "session_expired" (sx_ClientID evt) [].

(** A hook records and never refuses; [writes] is the backup file, [at_] the time of a notification. *)
Definition audit_hook {E} (writes : bool) (entry : E → AuditEntry) : @hook AuditInterceptor E :=
  λ now a evt, mkCalled (Returned None) now (record now writes a (entry evt)).2 evt.
Definition audit_interceptor (writes : bool) (at_ : Z) : @Interceptor AuditInterceptor := {|
  Name := "audit";
  Interceptors.Init := λ a, (None, a);
  Interceptors.Close := λ a, (None, a);
  hook_OnConnect := Some (audit_hook writes connect_entry);
  hook_OnPublish := Some (audit_hook writes publish_entry);
  hook_OnSubscribe := Some (audit_hook writes subscribe_entry);
  hook_OnDelivery := Some (audit_hook writes delivery_entry);
  hook_OnUnsubscribe := None;
  hook_OnDisconnect := Some (λ a evt, (record at_ writes a (disconnect_entry evt)).2);
  hook_OnSessionExpired := Some (λ a evt, (record at_ writes a (expired_entry evt)).2)
|}.

(** ** The loader *)

Definition is_dot (s : string) : bool := bool_decide (s = "") || bool_decide (s = ".").

(** One element of a path: the elements so far, the last one first. *)
Definition clean_step (rooted : bool) (out : list string) (s : string) : list string :=
  if is_dot s then out
  else if bool_decide (s = "..") then
    match out with
    | [] => if rooted then [] else [".."]
    | x :: rest => if bool_decide (x = "..") then ".." :: out else rest
    end
  else s :: out.

(** [filepath.Clean] on Unix. *)
Definition Clean (path : string) : string :=
  if bool_decide (path = "") then "."
  else
    let rooted := HasPrefix path "/" in
    let out := rev (foldl (clean_step rooted) [] (Split "/" path)) in
    if rooted then "/" +:+ Join "/" out else if bool_decide (out = []) then "." else Join "/" out.

(** [filepath.Ext]: from the last dot of the last element. *)
Fixpoint ext_loop (l : list Ascii.ascii) (acc : list Ascii.ascii) : list Ascii.ascii :=
  match l with
  | [] => []
  | c :: l => if Ascii.eqb c "/" then [] else if Ascii.eqb c "." then c :: acc else ext_loop l (c :: acc)
  end.
Definition Ext (path : string) : string := String.string_of_list_ascii (ext_loop (rev (String.list_ascii_of_string path)) []).

(** [strings.Contains]. *)
Fixpoint ContainsStr (s q : string) : bool :=
  HasPrefix s q || match s with EmptyString => false | String _ s => ContainsStr s q end.

Inductive load_error := Traversal (path : string) | NotAbsolute (path : string) | NotSo (path : string) | OpenFailed (path err : string).

Section Load.
Context {I : Type} (open_plugin : string → gmap string string → string + I).

Definition Load (entry : Settings.PluginEntry) : load_error + I :=
  let cleanPath := Clean (Settings.Path entry) in
  if ContainsStr cleanPath ".." then inl (Traversal (Settings.Path entry))
  else if negb (HasPrefix cleanPath "/") then inl (NotAbsolute (Settings.Path entry))
  else if negb (bool_decide (Ext cleanPath = ".so")) then inl (NotSo (Settings.Path entry))
  else match open_plugin cleanPath (Settings.pl_Config entry) with
       | inl err => inl (OpenFailed cleanPath err)
       | inr i => inr i
       end.

Fixpoint LoadAll (l : list Settings.PluginEntry) : load_error + list I :=
  match l with
  | [] => inr []
  | entry :: l =>
      match Load entry with
      | inl err => inl err
      | inr i => match LoadAll l with inl err => inl err | inr rest => inr (i :: rest) end
      end
  end.
End Load.

(** ** Nothing is lost while it runs *)

Definition fated (f : fate) (out : list (AuditEntry * fate)) : list AuditEntry := (filter (λ x, x.2 = f) out).*1.

(** The entries that were recorded, with the time of their recording. *)
Definition recorded (ls : list astep_label) : list AuditEntry :=
  omap (λ l, match l with ARecord now _ e => Some (stamp now e) | _ => None end) ls.

Record audit_inv (cfg : Config) (r : running) (out : list (AuditEntry * fate)) : Prop := {
  au_queue : a_log (ar_audit r) ++ entries (ar_audit r) = fated Buffered out;
  au_backup : a_backup (ar_audit r) = fated BackedUp out;
  au_dropped : a_dropped (ar_audit r) = len (fated Dropped out);
  au_counted : a_counted (ar_audit r) = len out;
  au_cap : len (entries (ar_audit r)) ≤ a_capacity (ar_audit r);
  au_size : a_capacity (ar_audit r) = if BufferSize cfg <=? 0 then 4096 else BufferSize cfg;
  au_path : backupPath (ar_audit r) = BackupPath cfg;
  au_nobackup : BackupPath cfg = "" → fated BackedUp out = [];
  au_done : ar_close r ≠ Open_ → a_done (ar_audit r) = true;
  au_closed : ar_close r = Closed_ ∨ ar_close r = Draining → a_stopped (ar_audit r) = true
}.

Lemma fated_app f out out' : fated f (out ++ out') = fated f out ++ fated f out'.
Proof. unfold fated. by rewrite filter_app, fmap_app. Qed.
Lemma fated_one f e g : fated f [(e, g)] = if decide (g = f) then [e] else [].
Proof. unfold fated. cbn. by destruct (decide (g = f)). Qed.

Lemma record_inv cfg r out now writes e : audit_inv cfg r out →
  audit_inv cfg (mkRunning (record now writes (ar_audit r) e).2 (ar_close r)) (out ++ [(stamp now e, (record now writes (ar_audit r) e).1)]).
Proof.
  intros [H1 H2 H3 H4 H5 H6 H7 H8 H9 H10]. destruct r as [a cl]. cbn [ar_audit ar_close] in *. unfold record, writeToBackup.
  cbn [entries a_capacity backupPath]. destruct (Z.ltb_spec (len (entries a)) (a_capacity a)); [|case_bool_decide as Hp; [|destruct writes]];
    cbn [fst snd]; (constructor; cbn [ar_audit ar_close entries a_capacity backupPath a_done a_stopped a_log a_backup a_counted a_dropped];
    rewrite ?fated_app, ?fated_one, ?len_app; repeat (case_decide; try done); rewrite ?app_nil_r; try done; try (rewrite ?len_app, ?len_cons, ?len_nil; lia)).
  - by rewrite app_assoc, H1.
  - by rewrite H2.
  - intros Hb. congruence.
Qed.

Lemma write_inv cfg r out a' cl : audit_inv cfg r out → writeEntry (ar_audit r) = Some a' →
  (cl = ar_close r ∨ ar_close r ≠ Open_) → (cl = Closed_ ∨ cl = Draining → a_stopped (ar_audit r) = true) →
  audit_inv cfg (mkRunning a' cl) out.
Proof.
  intros [H1 H2 H3 H4 H5 H6 H7 H8 H9 H10] Hw Hcl Hst. destruct r as [a cl0]. cbn [ar_audit ar_close] in *. unfold writeEntry in Hw.
  destruct (entries a) as [|e rest] eqn:Ee; [done|]. injection Hw as <-.
  constructor; cbn [ar_audit ar_close entries a_capacity backupPath a_done a_stopped a_log a_backup a_counted a_dropped]; try done.
  - by rewrite <- H1, <- app_assoc.
  - rewrite len_cons in H5. lia.
  - intros Hne. apply H9. destruct Hcl as [<-|]; done.
Qed.

Lemma astep_inv cfg r out l o r' : audit_inv cfg r out → astep r l = Some (o, r') →
  audit_inv cfg r' (out ++ o) ∧ o.*1 = recorded [l] ∧ (l = AReturn → entries (ar_audit r') = [] ∧ ar_close r' = Closed_).
Proof.
  intros Hi Hs. destruct l as [now writes e| | | | |]; cbn [astep] in Hs.
  - pose proof (record_inv cfg r out now writes e Hi) as Hr. destruct (record now writes (ar_audit r) e) as [f a']. injection Hs as <- <-.
    split_and!; done.
  - destruct (a_stopped (ar_audit r)) eqn:Es; [done|]. apply fmap_Some in Hs as (a' & Hw & [= -> ->]). rewrite app_nil_r.
    split_and!; [|done|done]. eapply write_inv; eauto. intros Hc. by apply (au_closed _ _ _ Hi).
  - destruct (a_done (ar_audit r) && negb (a_stopped (ar_audit r))); [|done]. injection Hs as <- <-. rewrite app_nil_r.
    split_and!; [|done|done]. destruct Hi as [H1 H2 H3 H4 H5 H6 H7 H8 H9 H10]. by constructor.
  - destruct (ar_close r); try done. injection Hs as <- <-. rewrite app_nil_r. split_and!; [|done|done].
    destruct Hi as [H1 H2 H3 H4 H5 H6 H7 H8 H9 H10]. constructor; try done. by intros [|].
  - assert (Hc : ar_close r ≠ Open_ ∧ (if a_stopped (ar_audit r) then (λ a, ([], mkRunning a Draining)) <$> writeEntry (ar_audit r) else None) = Some (o, r'))
      by (destruct (ar_close r); done).
    destruct Hc as [Hne Hc]. destruct (a_stopped (ar_audit r)) eqn:Es; [|done]. apply fmap_Some in Hc as (a' & Hw & [= -> ->]). rewrite app_nil_r.
    split_and!; [|done|done]. eapply write_inv; eauto.
  - assert (Hc : ar_close r ≠ Open_ ∧ (if a_stopped (ar_audit r) && bool_decide (entries (ar_audit r) = []) then Some ([], mkRunning (ar_audit r) Closed_) else None) = Some (o, r'))
      by (destruct (ar_close r); done).
    destruct Hc as [Hne Hc]. destruct (a_stopped (ar_audit r)) eqn:Es; [|done]. case_bool_decide as Ee; [|done]. injection Hc as <- <-. rewrite app_nil_r.
    split_and!; [|done|done]. destruct Hi as [H1 H2 H3 H4 H5 H6 H7 H8 H9 H10]. constructor; cbn [ar_audit ar_close]; try done. intros _. by apply H9.
Qed.

Lemma arun_inv cfg ls : ∀ r out o r', audit_inv cfg r out → arun r ls = Some (o, r') → audit_inv cfg r' (out ++ o) ∧ o.*1 = recorded ls.
Proof.
  induction ls as [|l ls IH]; intros r out o r' Hi Hr; [injection Hr as <- <-; by rewrite app_nil_r|].
  cbn [arun] in Hr. apply bind_Some in Hr as ([o1 r1] & Hs & Hr). apply bind_Some in Hr as ([o2 r2] & Hr & [= <- <-]).
  destruct (astep_inv _ _ _ _ _ _ Hi Hs) as (Hi1 & Ho & _). destruct (IH _ _ _ _ Hi1 Hr) as (Hi2 & Ho2). rewrite app_assoc. split; [done|].
  rewrite fmap_app, Ho, Ho2. unfold recorded. by rewrite <- omap_app.
Qed.

Lemma arun_app ls1 ls2 r : arun r (ls1 ++ ls2) = '(o1, r) ← arun r ls1; '(o2, r) ← arun r ls2; Some (o1 ++ o2, r).
Proof.
  revert r. induction ls1 as [|l ls1 IH]; intros r; cbn; [by destruct (arun r ls2) as [[]|]|].
  destruct (astep r l) as [[o r1]|]; cbn; [|done]. rewrite IH. destruct (arun r1 ls1) as [[o1 r2]|]; cbn; [|done].
  destruct (arun r2 ls2) as [[o2 r3]|]; cbn; [|done]. by rewrite app_assoc.
Qed.

Lemma init_inv cfg : audit_inv cfg (init cfg) [].
Proof. constructor; cbn; try done; [destruct (Z.leb_spec (BufferSize cfg) 0); unfold len; cbn; lia|by intros [|]]. Qed.

(** While [Close] waits, the consumer can end and the buffer can be drained. *)
Lemma drain_ends n : ∀ a cl, length (entries a) = n → a_stopped a = true → (cl = WaitStopped ∨ cl = Draining) →
  ∃ ls r', arun (mkRunning a cl) ls = Some ([], r') ∧ ar_close r' = Closed_.
Proof.
  induction n as [|n IH]; intros a cl Hn Hs Hcl; destruct (entries a) as [|e rest] eqn:Ee; try done.
  - exists [AReturn], (mkRunning a Closed_). split; [|done]. cbn. rewrite Hs, Ee. by destruct Hcl as [-> | ->].
  - destruct (writeEntry a) as [a'|] eqn:Ew; [|unfold writeEntry in Ew; by rewrite Ee in Ew].
    destruct (IH a' Draining) as (ls & r' & Hr & Hc).
    + unfold writeEntry in Ew. rewrite Ee in Ew. injection Ew as <-. cbn in *. lia.
    + unfold writeEntry in Ew. rewrite Ee in Ew. by injection Ew as <-.
    + by right.
    + exists (ADrain :: ls), r'. split; [|done]. cbn. rewrite Hs, Ew. destruct Hcl as [-> | ->]; cbn; by rewrite Hr.
Qed.

(** What must become of an entry that comes when the buffer holds [n] entries. *)
Definition due (cfg : Config) (n : Z) (writes : bool) : fate :=
  if decide (n < (if BufferSize cfg <=? 0 then 4096 else BufferSize cfg)) then Buffered
  else if decide (BackupPath cfg = "") then Dropped
  else if writes then BackedUp else Dropped.

Lemma record_due cfg r out now writes e : audit_inv cfg r out →
  (record now writes (ar_audit r) e).1 = due cfg (len (entries (ar_audit r))) writes.
Proof.
  intros Hi. unfold record, writeToBackup, due. cbn [entries a_capacity backupPath]. rewrite (au_size _ _ _ Hi), (au_path _ _ _ Hi).
  destruct (Z.ltb_spec (len (entries (ar_audit r))) (if BufferSize cfg <=? 0 then 4096 else BufferSize cfg));
    [by rewrite decide_True|rewrite decide_False by lia]. case_bool_decide; [by rewrite decide_True|rewrite decide_False by done]. by destruct writes.
Qed.

(** An entry at any place of a run: what became of it is due to the buffer at that moment. *)
Lemma record_at cfg ls1 now writes e ls2 out r : arun (init cfg) (ls1 ++ ARecord now writes e :: ls2) = Some (out, r) →
  ∃ o1 r1 o2, arun (init cfg) ls1 = Some (o1, r1) ∧ o1.*1 = recorded ls1 ∧
    out = o1 ++ (stamp now e, due cfg (len (entries (ar_audit r1))) writes) :: o2.
Proof.
  rewrite arun_app. intros Hr. apply bind_Some in Hr as ([o1 r1] & Hr1 & Hr). apply bind_Some in Hr as ([o2 r2] & Hr & [= <- <-]).
  cbn [arun] in Hr. apply bind_Some in Hr as ([o3 r3] & Hs & Hr). apply bind_Some in Hr as ([o4 r4] & Hr & [= <- <-]).
  destruct (arun_inv cfg ls1 (init cfg) [] o1 r1 (init_inv cfg) Hr1) as [Hi Ho]. exists o1, r1, o4. split_and!; [done|done|].
  cbn [astep] in Hs. pose proof (record_due cfg r1 _ now writes e Hi) as Hd.
  destruct (record now writes (ar_audit r1) e) as [f a']. cbn in Hd. injection Hs as <- <-. by rewrite <- Hd.
Qed.

(** C30: The audit trail. In every run of the interceptor, whatever the order of its goroutines, the
    entries recorded are exactly those that the hooks gave, in order. What becomes of each of them is
    settled by the buffer as it was when it was recorded: when it held fewer entries than its size the
    entry is buffered; when it was full, and only then, the entry goes to the backup file, and it is
    dropped when there is no backup file or the file does not take it. The buffered entries are in the log,
    in the order of their recording, or still in the buffer, which never holds more than its size; the
    backup file holds the entries sent there and the metrics count the recorded and the dropped ones. When
    [Close] has returned the buffer is empty, and [Close] can always return. *)
Theorem audit_exact (cfg : Config) (ls : list astep_label) (out : list (AuditEntry * fate)) (r : running) :
  arun (init cfg) ls = Some (out, r) →
  let a := ar_audit r in
  out.*1 = recorded ls ∧
  (∀ ls1 now writes e ls2, ls = ls1 ++ ARecord now writes e :: ls2 →
     ∃ o1 r1 o2, arun (init cfg) ls1 = Some (o1, r1) ∧ o1.*1 = recorded ls1 ∧
       out = o1 ++ (stamp now e, due cfg (len (entries (ar_audit r1))) writes) :: o2) ∧
  a_log a ++ entries a = fated Buffered out ∧ a_backup a = fated BackedUp out ∧ a_dropped a = len (fated Dropped out) ∧
  a_counted a = len (recorded ls) ∧
  (BackupPath cfg = "" → a_backup a = []) ∧
  len (entries a) ≤ (if BufferSize cfg <=? 0 then 4096 else BufferSize cfg) ∧
  (∀ ls', ls = ls' ++ [AReturn] → entries a = []) ∧
  (ar_close r ≠ Open_ → ar_close r ≠ Closed_ → ∃ ls' r', arun r ls' = Some ([], r') ∧ ar_close r' = Closed_).
Proof.
  intros Hr. cbn zeta. destruct (arun_inv cfg ls (init cfg) [] out r (init_inv cfg) Hr) as [[H1 H2 H3 H4 H5 H6 H7 H8 H9 H10] Ho]. cbn [app] in *.
  split_and!; try done.
  - intros ls1 now writes e ls2 ->. by eapply record_at.
  - rewrite H4, <- Ho. unfold len. by rewrite length_fmap.
  - rewrite H2. done.
  - by rewrite <- H6.
  - intros ls' ->. rewrite arun_app in Hr. apply bind_Some in Hr as ([o1 r1] & Hr1 & Hr). cbn [arun] in Hr.
    apply bind_Some in Hr as ([o2 r2] & Hr & [= _ <-]). apply bind_Some in Hr as ([o3 r3] & Hst & [= _ <-]).
    destruct (arun_inv cfg ls' (init cfg) [] o1 r1 (init_inv cfg) Hr1) as [Hi _]. by destruct (astep_inv _ _ _ _ _ _ Hi Hst) as (_ & _ & []).
  - intros Hne Hnc. destruct r as [a cl]. cbn [ar_audit ar_close] in *. destruct (a_stopped a) eqn:Es.
    + eapply drain_ends; eauto. destruct cl; auto; done.
    + assert (cl = WaitStopped) as -> by (destruct cl; try done; naive_solver).
      destruct (drain_ends (length (entries a)) (set_stopped a) WaitStopped) as (ls' & r' & Hr' & Hc); [done|done|by left|].
      exists (AExit :: ls'), r'. split; [|done]. cbn. rewrite Es, H9 by done. cbn. by rewrite Hr'.
Qed.

Definition an_entry : AuditEntry := publish_entry (mkPublish "c1" "t" [1; 2] 1 false).

Definition two_entries : list astep_label := [ARecord 5 true an_entry; ARecord 6 true an_entry; AClose; AExit; ADrain; AReturn].

Lemma audit_exact_witness :
  ∃ out r, arun (init (mkConfig 1 "")) two_entries = Some (out, r) ∧ fated Dropped out = [stamp 6 an_entry] ∧
    (∃ o1 r1 o2, arun (init (mkConfig 1 "")) [ARecord 5 true an_entry] = Some (o1, r1) ∧ o1.*1 = [stamp 5 an_entry] ∧
       out = o1 ++ (stamp 6 an_entry, due (mkConfig 1 "") (len (entries (ar_audit r1))) true) :: o2) ∧
    a_log (ar_audit r) ++ entries (ar_audit r) = fated Buffered out ∧ entries (ar_audit r) = [].
Proof.
  destruct (arun (init (mkConfig 1 "")) two_entries) as [[out r]|] eqn:E; [|vm_compute in E; discriminate E]. exists out, r.
  pose proof (audit_exact (mkConfig 1 "") two_entries out r E) as (_ & Hd & Hl & _ & _ & _ & _ & _ & He & _).
  split; [reflexivity|]. split; [vm_compute in E; injection E as <- <-; reflexivity|].
  split; [apply (Hd [ARecord 5 true an_entry] 6 true an_entry (drop 2 two_entries)); reflexivity|].
  split; [exact Hl|]. apply (He (removelast two_entries)). reflexivity.
Defined.

(** An entry that is recorded after [Close] has returned stays in the buffer, counted and neither written
    nor dropped: the disconnections that are notified while the broker stops. *)
Lemma late_entries_lost cfg ls out r l o r' :
  arun (init cfg) ls = Some (out, r) → ar_close r = Closed_ → astep r l = Some (o, r') →
  a_log (ar_audit r') = a_log (ar_audit r) ∧ ar_close r' = Closed_.
Proof.
  intros Hr Hc Hs. destruct (arun_inv cfg ls (init cfg) [] out r (init_inv cfg) Hr) as [Hi _].
  pose proof (au_closed _ _ _ Hi (or_introl Hc)) as Hst. destruct l as [now writes e| | | | |]; cbn [astep] in Hs; rewrite ?Hc, ?Hst in Hs; cbn in Hs; try done.
  - unfold record, writeToBackup in Hs. cbn in Hs. destruct (_ <? _); [|case_bool_decide; [|destruct writes]]; by injection Hs as <- <-.
  - by rewrite andb_false_r in Hs.
Qed.

(** The audit interceptor refuses nothing and changes no event. *)
Lemma audit_transparent writes at_ now a evt :
  let '(err, _, _, a', evt') := OnPublish [mkRegistered (audit_interceptor writes at_) (NewExecutor "audit" 0 (breakerCfg defaultInterceptorConfig))] now a evt in
  err = None ∧ evt' = evt ∧ a' = (record now writes a (publish_entry evt)).2.
Proof. done. Qed.

(** ** Only plugins with a plain absolute path are opened *)

Definition normal (s : string) : Prop := s ≠ "" ∧ s ≠ "." ∧ s ≠ "..".

Lemma clean_rooted l : ∀ out, Forall normal out → Forall normal (foldl (clean_step true) out l).
Proof.
  induction l as [|s l IH]; intros out Ho; [done|]. apply IH. unfold clean_step, is_dot.
  repeat (case_bool_decide; cbn); try done; [|by constructor].
  destruct Ho as [|x rest Hx Hr]; [done|]. rewrite bool_decide_false by apply Hx. done.
Qed.

(** The elements of a cleaned path are not empty and have no slash. *)
Lemma clean_elements rooted l : Forall (λ p, Contains p "/" = false) l → ∀ out,
  Forall (λ p, p ≠ "" ∧ Contains p "/" = false) out → Forall (λ p, p ≠ "" ∧ Contains p "/" = false) (foldl (clean_step rooted) out l).
Proof.
  induction 1 as [|s l Hs Hl IH]; intros out Ho; [done|]. apply IH. unfold clean_step, is_dot.
  repeat (case_bool_decide; cbn); try done; [|by constructor].
  destruct Ho as [|x rest Hx Hr]; [destruct rooted; [done|by constructor]|]. case_bool_decide; [|done]. constructor; [done|by constructor].
Qed.

Lemma Join_head l : Forall (λ p, p ≠ "" ∧ Contains p "/" = false) l → HasPrefix (Join "/" l) "/" = false.
Proof.
  destruct 1 as [|x rest [Hne Hc] _]; [done|]. destruct x as [|c x]; [done|]. cbn in Hc. apply orb_false_iff in Hc as [Hc _].
  assert (Hp : ∀ s, HasPrefix (String c s) "/" = false) by (intros s; cbn -[Ascii.eqb]; by rewrite Hc). destruct rest; apply Hp.
Qed.

(** A plugin is loaded from an absolute path without [.], [..] and empty elements, whose last element has
    the extension of a shared library. *)
Theorem plugin_paths {I} (open_plugin : string → gmap string string → string + I) (entry : Settings.PluginEntry) (i : I) :
  Load open_plugin entry = inr i →
  ∃ elements, Forall normal elements ∧ Clean (Settings.Path entry) = "/" +:+ Join "/" elements ∧
    Ext (Clean (Settings.Path entry)) = ".so" ∧ open_plugin (Clean (Settings.Path entry)) (Settings.pl_Config entry) = inr i.
Proof.
  unfold Load. destruct (ContainsStr _ _); [done|]. destruct (HasPrefix (Clean (Settings.Path entry)) "/") eqn:Hp; cbn [negb]; [|done].
  case_bool_decide as He; cbn [negb]; [|done]. destruct (open_plugin _ _) as [err|j] eqn:Eo; [done|]. intros [= ->].
  unfold Clean in Hp |- *. unfold Clean in He. case_bool_decide as Hn; [done|]. destruct (HasPrefix (Settings.Path entry) "/") eqn:Hr.
  - eexists. split; [|by split_and!]. apply Forall_rev. by apply clean_rooted.
  - case_bool_decide as Ho; [done|]. rewrite Join_head in Hp; [done|]. apply Forall_rev, clean_elements; [apply Split_no_sep|constructor].
Qed.

Lemma plugin_paths_witness :
  ∃ elements, Forall normal elements ∧ Clean "/opt/x/../p//a.so" = "/" +:+ Join "/" elements ∧ Clean "/opt/x/../p//a.so" = "/opt/p/a.so".
Proof.
  destruct (plugin_paths (λ p _, if bool_decide (p = "/opt/p/a.so") then inr tt else inl "no such file") (Settings.mkPlugin "/opt/x/../p//a.so" ∅) tt)
    as (l & Hl & Hc & _); [vm_compute; reflexivity|]. exists l. split; [exact Hl|]. split; [exact Hc|]. vm_compute. reflexivity.
Defined.

Example Load_examples : let load p := Load (λ _ _, inr tt) (Settings.mkPlugin p ∅) in
  load "/opt/p.so" = inr tt ∧ load "../p.so" = inl (Traversal "../p.so") ∧ load "p.so" = inl (NotAbsolute "p.so") ∧
  load "/opt/p" = inl (NotSo "/opt/p") ∧ load "/opt/a..b.so" = inl (Traversal "/opt/a..b.so").
Proof. split_and!; vm_compute; reflexivity. Qed.

End AuditLog.
