(* ===== verification/HttpApi.v ===== *)
(** * The HTTP API ([internal/httpapi/server.go])

    The handlers behind [/api/v1]: each takes the broker and the cluster as the interfaces
    [BrokerAPI] and [ClusterAPI] of the source (absent when they are not configured) and returns
    the reply it writes. A reply's body is the JSON value that the client parses; the text in
    between is [encoding/json]'s. Requests to other nodes go through [peer], the answer of a node's
    own API to a path. *)
From S2P Require Import Prelude Json Storage Topic Subscriptions Delivery Offline OfflineFacts Sessions Retain Wills Packets Broker BrokerFacts Connections Migration Ring.

Module HttpApi.

(** ** Interfaces *)

Record ClientInfo := mkInfo {
  ci_ClientID : string;
  ci_Username : string;
  ci_RemoteAddr : string;
  ci_ProtocolVersion : Z;
  ci_ConnectedAt : Z;
  ci_KeepAlive : Z
}.

Record BrokerAPI := mkAPI {
  ConnectedClientIDs : list string;
  GetClientInfo : string → option ClientInfo;
  GetSessionData : string → option Broker.MigrateSessionData;
  ClientCount : Z;
  ActiveSubscriptions : Z;
  RetainedMessageCount : Z;
  ClusterNodeCount : Z
}.

(** The nodes are those of the ring. *)
Export Ring.

Record ClusterAPI := mkCluster { Self : NodeInfo; Members : list NodeInfo }.

(** What a handler does: a status and a body, and the device it disconnects. *)
Record reply := mkReply { status : Z; body : option js; disconnects : option string }.

Definition json_reply (code : Z) (v : js) : reply := mkReply code (Some v) None.
Definition error_reply (code : Z) (e : string) : reply := json_reply code (JObj [("error", JStr e)]).
Definition bare_reply (code : Z) : reply := mkReply code None None.

Inductive method := GET | POST | OTHER.

(** ** The Go library: numbers, times and sorting *)

Definition digit (c : ascii) : option Z :=
  let n := Z.of_N (N_of_ascii c) in if (48 <=? n) && (n <=? 57) then Some (n - 48) else None.

Fixpoint digits (l : list ascii) (acc : Z) : option Z :=
  match l with
  | [] => Some acc
  | c :: l => match digit c with Some d => digits l (acc * 10 + d) | None => None end
  end.

(** [v, _ := strconv.Atoi(s)]: 0 for what is not a number, the nearest bound for what does not
    fit into 64 bits. *)
Definition Atoi (s : string) : Z :=
  let '(neg, l) := match String.list_ascii_of_string s with
                   | "-"%char :: l => (true, l)
                   | "+"%char :: l => (false, l)
                   | l => (false, l)
                   end in
  match l with
  | [] => 0
  | _ => match digits l 0 with
         | None => 0
         | Some n => if neg : bool then Z.max (- n) (- 9223372036854775808) else Z.min n 9223372036854775807
         end
  end.

Definition pad (w : nat) (n : Z) : string :=
  let s := pretty n in String.string_of_list_ascii (replicate (w - String.length s) "0"%char) +:+ s.

(** [t.UTC().Format("2006-01-02T15:04:05Z")] for a time in nanoseconds since 1970. *)
Definition format_utc (t : Z) : string :=
  let s := t / Second in
  let z := s / 86400 + 719468 in
  let r := s mod 86400 in
  let era := z / 146097 in
  let doe := z mod 146097 in
  let yoe := (doe - doe / 1460 + doe / 36524 - doe / 146096) / 365 in
  let doy := doe - (365 * yoe + yoe / 4 - yoe / 100) in
  let mp := (5 * doy + 2) / 153 in
  let d := doy - (153 * mp + 2) / 5 + 1 in
  let m := if mp <? 10 then mp + 3 else mp - 9 in
  let y := yoe + era * 400 + (if m <=? 2 then 1 else 0) in
  pad 4 y +:+ "-" +:+ pad 2 m +:+ "-" +:+ pad 2 d +:+ "T" +:+ pad 2 (r / 3600) +:+ ":" +:+
  pad 2 (r mod 3600 / 60) +:+ ":" +:+ pad 2 (r mod 60) +:+ "Z".

Definition sort_strings (l : list string) : list string := merge_sort Storage.key_le l.

(** ** [authWrap] *)

Definition authWrap (apiKey header query : string) (h : reply) : reply :=
  if bool_decide (apiKey = "") then h
  else if bool_decide ((if bool_decide (header = "") then query else header) = apiKey) then h
  else error_reply 401 "unauthorized".

(** ** Health *)

Definition handleHealth : reply := json_reply 200 (JObj [("status", JStr "ok")]).
Definition handleReady (ready : option bool) : reply :=
  match ready with
  | Some true => json_reply 200 (JObj [("status", JStr "ready")])
  | _ => json_reply 503 (JObj [("status", JStr "not_ready")])
  end.

(** ** Migrations *)

(** The text of a [time.Time], RFC 3339 in the zone of the server. *)
Class Zone := time_json : Z → string.

Definition strings_json (l : list string) : js := JArr (JStr <$> l).

(** The JSON of a [ShardMigration]; a nil slice of devices would be [null]. *)
Definition migration_json `{Zone} (m : Migration.ShardMigration) : js :=
  let p := Migration.Progress m in
  let c := Migration.Config m in
  JObj ([("id", JStr (Migration.mg_ID m)); ("from_node", JStr (Migration.FromNode m));
         ("to_node", JStr (Migration.ToNode m));
         ("affected_devices", strings_json (Migration.AffectedDevices m));
         ("phase", JNum (Migration.Phase m));
         ("progress", JObj [("total", JNum (Migration.Total p)); ("migrated", JNum (Migration.Migrated p));
                            ("failed", JNum (Migration.Failed p))]);
         ("config", JObj [("batch_size", JNum (Migration.BatchSize c));
                          ("batch_interval", JNum (Migration.BatchInterval c));
                          ("max_retries", JNum (Migration.MaxRetries c))]);
         ("status", JStr (Migration.status_string (Migration.Status m)))] ++
        (if bool_decide (Migration.Error m = "") then [] else [("error", JStr (Migration.Error m))]) ++
        [("created_at", JStr (time_json (Migration.CreatedAt m)));
         ("updated_at", JStr (time_json (Migration.UpdatedAt m)))]).

Definition not_configured : reply := error_reply 503 "migrations not configured".

Definition handleMigrations `{Zone} (coordinator : option Migration.MigrationCoordinator) (m : method) : reply :=
  match coordinator with
  | None => not_configured
  | Some mc =>
      match m with
      | GET => json_reply 200 (JArr (migration_json <$> Migration.Coord_List mc))
      | _ => bare_reply 405
      end
  end.

(** [len(parts) == 2 && parts[1] == action]. *)
Definition is_action (action : string) (parts : list string) : bool :=
  match parts with [_; x] => bool_decide (x = action) | _ => false end.

Definition handleMigrationByID `{Zone} (now : Z) (coordinator : option Migration.MigrationCoordinator) (m : method)
    (path : string) : reply * option Migration.MigrationCoordinator :=
  match coordinator with
  | None => (not_configured, None)
  | Some mc =>
      let parts := Split "/" (TrimPrefix path "/api/v1/cluster/migrations/") in
      let id := List.hd "" parts in
      match m with
      | POST =>
          if is_action "cancel" parts then
            let '(found, mc) := Migration.Coord_Cancel now mc id in
            (if found : bool then json_reply 200 (JObj [("status", JStr "cancelled")])
             else error_reply 404 "migration not found", Some mc)
          else (bare_reply 405, Some mc)
      | GET =>
          (match Migration.Coord_Get mc id with
           | None => error_reply 404 "migration not found"
           | Some m => json_reply 200 (migration_json m)
           end, Some mc)
      | OTHER => (bare_reply 405, Some mc)
      end
  end.

(** ** Statistics and nodes *)

Record MemStats := mkMem { Alloc : Z; Sys : Z; PauseTotalNs : Z }.

Definition self_id (cl : option ClusterAPI) : string := match cl with Some c => ni_ID (Self c) | None => "" end.

Definition broker_missing : reply := error_reply 503 "broker API not configured".

Definition handleStats (api : option BrokerAPI) (cl : option ClusterAPI) (uptime goroutines : Z) (mem : MemStats)
    : reply :=
  match api with
  | None => broker_missing
  | Some a =>
      json_reply 200 (JObj
        [("node_id", JStr (self_id cl)); ("connected_clients", JNum (ClientCount a));
         ("active_subscriptions", JNum (ActiveSubscriptions a));
         ("retained_messages", JNum (RetainedMessageCount a)); ("cluster_nodes", JNum (ClusterNodeCount a));
         ("uptime_seconds", JNum uptime); ("goroutines", JNum goroutines);
         ("memory_alloc_bytes", JNum (Alloc mem)); ("memory_sys_bytes", JNum (Sys mem));
         ("gc_pause_total_ns", JNum (PauseTotalNs mem))])
  end.

(** [NodeInfo] with its [omitempty] fields. *)
Definition node_json (n : NodeInfo) : js :=
  JObj ([("id", JStr (ni_ID n)); ("host", JStr (Host n)); ("gossipPort", JNum (GossipPort n));
         ("transportPort", JNum (TransportPort n)); ("mqttPort", JNum (MQTTPort n))] ++
        (if HTTPPort n =? 0 then [] else [("httpPort", JNum (HTTPPort n))]) ++
        (if bool_decide (Region n = "") then [] else [("region", JStr (Region n))])).

Definition handleNodes (cl : option ClusterAPI) : reply :=
  json_reply 200 (JObj
    [("nodes", JArr (node_json <$> match cl with Some c => Members c | None => [] end));
     ("self", JStr (self_id cl))]).

(** ** Devices *)

(** [clusterDeviceItem]; a nil slice of subscriptions is kept apart from an empty one. *)
Record clusterDeviceItem := mkItem {
  it_ClientID : string;
  it_Username : string;
  it_RemoteAddr : string;
  it_ProtocolVersion : Z;
  it_ConnectedAt : string;
  it_KeepAlive : Z;
  it_Subscriptions : option (list string);
  it_NodeID : string
}.

(** The topics of a session, in the order the map yields them; nil when there are none. *)
Definition device_subs (a : BrokerAPI) (id : string) : option (list string) :=
  match GetSessionData a id with
  | None => None
  | Some s => match (map_to_list (Broker.msd_Subscriptions s)).*1 with [] => None | l => Some l end
  end.

Definition device_item (a : BrokerAPI) (nodeID id : string) : option clusterDeviceItem :=
  match GetClientInfo a id with
  | None => None
  | Some info =>
      Some (mkItem (ci_ClientID info) (ci_Username info) (ci_RemoteAddr info) (ci_ProtocolVersion info)
              (format_utc (ci_ConnectedAt info)) (Z.quot (ci_KeepAlive info) Second) (device_subs a id) nodeID)
  end.

Definition summary_fields (i : clusterDeviceItem) : list (string * js) :=
  [("client_id", JStr (it_ClientID i)); ("username", JStr (it_Username i));
   ("remote_addr", JStr (it_RemoteAddr i)); ("protocol_version", JNum (it_ProtocolVersion i));
   ("connected_at", JStr (it_ConnectedAt i)); ("keep_alive", JNum (it_KeepAlive i));
   ("subscriptions", match it_Subscriptions i with Some l => strings_json l | None => JNull end)].

(** [deviceSummary] of one node, and [clusterDeviceItem] with its node. *)
Definition summary_json (i : clusterDeviceItem) : js := JObj (summary_fields i).
Definition item_json (i : clusterDeviceItem) : js := JObj (summary_fields i ++ [("node_id", JStr (it_NodeID i))]).

Definition page_number (q : string) : Z :=
  let p := Atoi q in let p := if p <? 1 then 1 else p in if 10000 <? p then 10000 else p.
Definition page_size (q : string) : Z :=
  let p := Atoi q in let p := if p <? 1 then 20 else p in if 100 <? p then 100 else p.

(** [ids[start:end]] of the sorted identifiers. *)
Definition page_ids (ids : list string) (page perPage : Z) : list string :=
  let ids := sort_strings ids in
  let total := len ids in
  let start := (page - 1) * perPage in
  let start := if (start <? 0) || (total <? start) then total else start in
  let stop := start + perPage in
  let stop := if total <? stop then total else stop in
  take (Z.to_nat (stop - start)) (drop (Z.to_nat start) ids).

Definition handleDevices (api : option BrokerAPI) (cl : option ClusterAPI) (q_page q_per_page : string) : reply :=
  match api with
  | None => broker_missing
  | Some a =>
      let page := page_number q_page in
      let perPage := page_size q_per_page in
      let devices := omap (device_item a "") (page_ids (ConnectedClientIDs a) page perPage) in
      json_reply 200 (JObj
        [("devices", JArr (summary_json <$> devices)); ("total", JNum (len (ConnectedClientIDs a)));
         ("page", JNum page); ("per_page", JNum perPage); ("node_id", JStr (self_id cl))])
  end.

Definition collectLocalDevices (a : BrokerAPI) (nodeID : string) : list clusterDeviceItem :=
  omap (device_item a nodeID) (ConnectedClientIDs a).

(** What the API of another node answers, a status and a JSON body; [None] when it cannot be
    reached. *)
Definition peer := NodeInfo → method → string → option (Z * js).

(** ** Unmarshalling: a missing field or [null] is the zero value, another type is an error *)

Definition js_string (v : js) : option string :=
  match v with JStr s => Some s | JUndef | JNull => Some "" | _ => None end.
Definition js_number (v : js) : option Z :=
  match v with JNum n => Some n | JUndef | JNull => Some 0 | _ => None end.
Definition js_strings (v : js) : option (option (list string)) :=
  match v with
  | JUndef | JNull => Some None
  | JArr l => match mapM js_string l with Some l => Some (Some l) | None => None end
  | _ => None
  end.

Definition get (fields : list (string * js)) (k : string) : js := default JUndef (assoc k fields).

Definition unmarshal_item (v : js) : option clusterDeviceItem :=
  match v with
  | JNull => Some (mkItem "" "" "" 0 "" 0 None "")
  | JObj fs =>
      c ← js_string (get fs "client_id"); u ← js_string (get fs "username");
      r ← js_string (get fs "remote_addr"); p ← js_number (get fs "protocol_version");
      t ← js_string (get fs "connected_at"); k ← js_number (get fs "keep_alive");
      s ← js_strings (get fs "subscriptions"); n ← js_string (get fs "node_id");
      Some (mkItem c u r p t k s n)
  | _ => None
  end.

Definition unmarshal_devices (v : js) : option (list clusterDeviceItem) :=
  match v with
  | JNull => Some []
  | JObj fs =>
      match get fs "devices" with
      | JUndef | JNull => Some []
      | JArr l => mapM unmarshal_item l
      | _ => None
      end
  | _ => None
  end.

Definition set_node (n : string) (i : clusterDeviceItem) : clusterDeviceItem :=
  mkItem (it_ClientID i) (it_Username i) (it_RemoteAddr i) (it_ProtocolVersion i) (it_ConnectedAt i)
    (it_KeepAlive i) (it_Subscriptions i) n.

Definition fetchRemoteDevices (net : peer) (node : NodeInfo) : list clusterDeviceItem :=
  match net node GET "/api/v1/devices?page=1&per_page=1000" with
  | None => []
  | Some (_, v) =>
      match unmarshal_devices v with
      | None => []
      | Some l => set_node (ni_ID node) <$> l
      end
  end.

(** The members that are asked: not this node, and only those with an HTTP port. *)
Definition others (c : ClusterAPI) : list NodeInfo :=
  filter (λ n, ni_ID n ≠ ni_ID (Self c) ∧ HTTPPort n ≠ 0) (Members c).

Definition item_le (x y : clusterDeviceItem) : Prop := Storage.key_le (it_ClientID x) (it_ClientID y).
#[global] Instance item_le_dec x y : Decision (item_le x y) := Storage.key_le_dec _ _.

Definition devices_body (l : list clusterDeviceItem) (self : string) : js :=
  JObj [("devices", JArr (item_json <$> l)); ("total", JNum (len l)); ("self", JStr self)].

(** [arrival] is the order in which the other nodes' answers come in. *)
Definition handleClusterDevices (a : BrokerAPI) (cl : option ClusterAPI) (net : peer) (arrival : list NodeInfo)
    : reply :=
  let selfID := self_id cl in
  let localDevices := collectLocalDevices a selfID in
  match cl with
  | None => json_reply 200 (devices_body localDevices selfID)
  | Some _ =>
      let allDevices := foldl (λ all n, all ++ fetchRemoteDevices net n) localDevices arrival in
      json_reply 200 (devices_body (merge_sort item_le allDevices) selfID)
  end.

Record nodeStats := mkStats { ns_NodeID : string; Connections_ : Z; Subs : Z; ns_Retained : Z }.

Definition stats_json (s : nodeStats) : js :=
  JObj [("node_id", JStr (ns_NodeID s)); ("connections", JNum (Connections_ s)); ("subscriptions", JNum (Subs s));
        ("retained", JNum (ns_Retained s))].

(** [x, _ := raw[k].(float64)]. *)
Definition raw_number (fs : list (string * js)) (k : string) : Z :=
  match get fs k with JNum n => n | _ => 0 end.

Definition fetchRemoteStats (net : peer) (node : NodeInfo) : option nodeStats :=
  match net node GET "/api/v1/stats" with
  | Some (_, JObj fs) =>
      Some (mkStats (ni_ID node) (raw_number fs "connected_clients") (raw_number fs "active_subscriptions")
              (raw_number fs "retained_messages"))
  | Some (_, JNull) => Some (mkStats (ni_ID node) 0 0 0)
  | _ => None
  end.

Definition add_stats (acc : list nodeStats * Z * Z) (s : nodeStats) : list nodeStats * Z * Z :=
  let '(all, conns, subs) := acc in (all ++ [s], conns + Connections_ s, subs + Subs s).

Definition handleClusterStats (a : BrokerAPI) (cl : option ClusterAPI) (net : peer) (arrival : list NodeInfo)
    : reply :=
  let selfID := self_id cl in
  let loc := mkStats selfID (ClientCount a) (ActiveSubscriptions a) (RetainedMessageCount a) in
  let '(all, conns, subs) :=
    match cl with
    | None => ([loc], Connections_ loc, Subs loc)
    | Some _ =>
        foldl (λ acc n, match fetchRemoteStats net n with Some s => add_stats acc s | None => acc end)
          ([loc], Connections_ loc, Subs loc) arrival
    end in
  json_reply 200 (JObj [("nodes", JArr (stats_json <$> all)); ("total_connections", JNum conns);
                        ("total_subscriptions", JNum subs); ("self", JStr selfID)]).

(** ** One device *)

(** Ask the other nodes in turn; the first answer that is not 404 is passed on. *)
Fixpoint proxy (net : peer) (m : method) (path : string) (nodes : list NodeInfo) : option reply :=
  match nodes with
  | [] => None
  | n :: nodes =>
      match net n m path with
      | Some (code, v) => if code =? 404 then proxy net m path nodes else Some (json_reply code v)
      | None => proxy net m path nodes
      end
  end.

Definition via_cluster (cl : option ClusterAPI) (net : peer) (m : method) (path : string) : reply :=
  default (error_reply 404 "device not found")
    (match cl with Some c => proxy net m path (others c) | None => None end).

Definition detail_json (a : BrokerAPI) (info : ClientInfo) (deviceID : string) : js :=
  JObj ([("client_id", JStr (ci_ClientID info)); ("username", JStr (ci_Username info));
         ("remote_addr", JStr (ci_RemoteAddr info)); ("protocol_version", JNum (ci_ProtocolVersion info));
         ("connected_at", JStr (format_utc (ci_ConnectedAt info)));
         ("keep_alive", JNum (Z.quot (ci_KeepAlive info) Second)); ("connected", JBool true)] ++
        match GetSessionData a deviceID with
        | None => []
        | Some s =>
            [("session", JObj [("clean_start", JBool (Broker.msd_CleanStart s));
                               ("expiry_interval", JNum (Broker.msd_ExpiryInterval s));
                               ("subscriptions", JObj ((λ kv, (kv.1, JNum kv.2)) <$>
                                                   map_to_list (Broker.msd_Subscriptions s)))])]
        end).

(** [escape] is [url.PathEscape]. *)
Definition handleDeviceByID (escape : string → string) (api : option BrokerAPI) (cl : option ClusterAPI)
    (net : peer) (m : method) (path q_page q_per_page : string) : reply :=
  match api with
  | None => broker_missing
  | Some a =>
      let parts := SplitN2 "/" (TrimPrefix path "/api/v1/devices/") in
      let deviceID := List.hd "" parts in
      let node_path := "/api/v1/devices/" +:+ escape deviceID in
      if bool_decide (deviceID = "") then handleDevices api cl q_page q_per_page
      else
        match m with
        | POST =>
            if is_action "disconnect" parts then
              match GetClientInfo a deviceID with
              | None => via_cluster cl net POST (node_path +:+ "/disconnect")
              | Some _ => mkReply 200 (Some (JObj [("status", JStr "disconnected")])) (Some deviceID)
              end
            else bare_reply 405
        | GET =>
            match GetClientInfo a deviceID with
            | None => via_cluster cl net GET node_path
            | Some info => json_reply 200 (detail_json a info deviceID)
            end
        | OTHER => bare_reply 405
        end
  end.

(** ** The admin files ([embed.go]) *)

Inductive served := SFile (name : string) | SRedirect (to : string).

(** [sub.Open] of a path finds a file, or a directory on the way to one. *)
Definition opens (files : list string) (path : string) : bool :=
  existsb (λ f, bool_decide (f = path) || HasPrefix f (path +:+ "/")) files.

(** [http.FileServer] for a path that opens, or for the root: [index.html] is served under the
    name of its directory and redirected to it, a directory is redirected to its name with a
    slash. *)
Definition fileServer (files : list string) (path : string) : served :=
  if bool_decide (path = "") then SFile "index.html"
  else if bool_decide (path = "index.html") then SRedirect "./"
  else if bool_decide (path ∈ files) then SFile path
  else SRedirect (path +:+ "/").

Definition adminHandler (files : list string) (url : string) : served :=
  let path := TrimPrefix url "/admin/" in
  let path := if bool_decide (path = "") then "index.html" else path in
  let url := if opens files path then url else "/admin/" in
  fileServer files (TrimPrefix url "/admin/").

(** ** Facts *)

Example format_ok : format_utc (1704164645 * Second) = "2024-01-02T03:04:05Z".
Proof. reflexivity. Qed.
Example format_leap : format_utc (1709251199 * Second) = "2024-02-29T23:59:59Z".
Proof. reflexivity. Qed.
Example Atoi_examples : Atoi "12" = 12 ∧ Atoi "-3" = -3 ∧ Atoi "x" = 0 ∧ Atoi "" = 0 ∧
  Atoi "99999999999999999999" = 9223372036854775807.
Proof. by vm_compute. Qed.

(** The client identifiers of the [devices] of a reply. *)
Definition id_of (v : js) : string :=
  match v with JObj fs => match get fs "client_id" with JStr s => s | _ => "" end | _ => "" end.
Definition listed (r : reply) : list string :=
  match body r with
  | Some (JObj fs) => match get fs "devices" with JArr l => id_of <$> l | _ => [] end
  | _ => []
  end.

(** The broker knows every client it lists, under its own identifier. *)
Definition api_ok (a : BrokerAPI) : Prop :=
  ∀ id, id ∈ ConnectedClientIDs a → ∃ info, GetClientInfo a id = Some info ∧ ci_ClientID info = id.

Lemma listed_items (l : list clusterDeviceItem) f :
  (∀ i, id_of (f i) = it_ClientID i) → id_of <$> (f <$> l) = it_ClientID <$> l.
Proof. intros Hf. induction l as [|i l IH]; [done|]. cbn. by rewrite Hf, <- IH. Qed.

Lemma device_items_ids a node (ids : list string) : (∀ id, id ∈ ids → id ∈ ConnectedClientIDs a) → api_ok a →
  it_ClientID <$> omap (device_item a node) ids = ids.
Proof.
  intros Hin Ha. induction ids as [|id ids IH]; [done|]. cbn.
  destruct (Ha id) as (info & Hi & Hid); [apply Hin; set_solver|].
  unfold device_item at 1. rewrite Hi. cbn. rewrite Hid, IH; [done|]. intros x Hx. apply Hin. set_solver.
Qed.

#[global] Instance key_le_total : Total Storage.key_le.
Proof.
  intros x y. rewrite !Storage.key_le_lt. destruct (Storage.key_lt_total x y) as [|[|]]; auto.
Qed.
#[global] Instance key_le_trans : Transitive Storage.key_le.
Proof.
  intros x y z. rewrite !Storage.key_le_lt. intros [Hx| ->] [Hy| ->]; eauto using Storage.key_lt_trans.
Qed.
#[global] Instance item_le_total : Total item_le.
Proof. intros x y. unfold item_le. apply (total Storage.key_le). Qed.
#[global] Instance item_le_trans : Transitive item_le.
Proof. intros x y z. unfold item_le. apply (transitivity (R := Storage.key_le)). Qed.

Lemma sort_strings_perm l : sort_strings l ≡ₚ l.
Proof. apply merge_sort_Permutation. Qed.

Lemma sort_strings_len l : len (sort_strings l) = len l.
Proof. unfold len. by rewrite (Permutation_length (sort_strings_perm l)). Qed.

(** A page is the window of the sorted identifiers that its number and size say. *)
Lemma page_ids_window ids page perPage : 1 ≤ page → 1 ≤ perPage →
  page_ids ids page perPage = take (Z.to_nat perPage) (drop (Z.to_nat ((page - 1) * perPage)) (sort_strings ids)).
Proof.
  intros Hp Hpp. unfold page_ids. set (l := sort_strings ids). set (st := (page - 1) * perPage).
  assert (0 ≤ st) as Hst by (unfold st; nia). rewrite (proj2 (Z.ltb_ge st 0)) by done. cbn [orb].
  destruct (Z.ltb_spec (len l) st) as [Hlt|Hge].
  - rewrite (drop_ge l (Z.to_nat st)) by (unfold len in *; lia).
    rewrite (drop_ge l) by (unfold len; lia). by rewrite !take_nil.
  - destruct (Z.ltb_spec (len l) (st + perPage)) as [Hlt|Hle]; [|do 2 f_equal; lia].
    rewrite !take_ge; [done|..]; rewrite length_drop; unfold len in *; lia.
Qed.

Lemma windows_concat {A} (l : list A) (n k : nat) :
  mjoin ((λ i, take n (drop (i * n) l)) <$> seq 0 k) = take (k * n) l.
Proof.
  induction k as [|k IH]; [by rewrite take_0|].
  rewrite seq_S, fmap_app, join_app, IH. cbn. rewrite app_nil_r, Nat.add_comm.
  rewrite <- (take_drop (k * n) (take (k * n + n) l)), take_take, skipn_firstn_comm.
  f_equal; f_equal; lia.
Qed.

Lemma page_ids_listed ids page perPage id : id ∈ page_ids ids page perPage → id ∈ ids.
Proof.
  unfold page_ids. intros Hin. rewrite <- (sort_strings_perm ids).
  eapply elem_of_submseteq; [done|]. apply sublist_submseteq. etrans; [apply sublist_take|apply sublist_drop].
Qed.

Lemma handleDevices_listed a cl p pp : api_ok a →
  listed (handleDevices (Some a) cl p pp) = page_ids (ConnectedClientIDs a) (page_number p) (page_size pp).
Proof.
  intros Ha. unfold handleDevices, listed, json_reply, body. cbn [get assoc].
  change (get _ "devices") with (JArr (summary_json <$> omap (device_item a "")
    (page_ids (ConnectedClientIDs a) (page_number p) (page_size pp)))).
  cbv iota. rewrite listed_items by done. apply device_items_ids; [|done]. intros id. apply page_ids_listed.
Qed.

(** The pages of the device list are a partition of the connected clients: the pages 1, 2, ...
    of one size, up to the last one that is not empty (and at most the ten thousand the server
    serves), list in order exactly the sorted client identifiers, each once, and each page reports
    the number of all of them. *)
Theorem handleDevices_pages (a : BrokerAPI) (cl : option ClusterAPI) (pages : list string) (size : string) :
  api_ok a → 1 ≤ Atoi size ≤ 100 → Atoi <$> pages = seqZ 1 (len pages) → len pages ≤ 10000 →
  len (ConnectedClientIDs a) ≤ len pages * Atoi size →
  mjoin ((λ p, listed (handleDevices (Some a) cl p size)) <$> pages) = sort_strings (ConnectedClientIDs a) ∧
  Sorted Storage.key_le (sort_strings (ConnectedClientIDs a)) ∧
  sort_strings (ConnectedClientIDs a) ≡ₚ ConnectedClientIDs a.
Proof.
  intros Ha Hs Hp Hk Hn. split; [|split; [apply Sorted_merge_sort, _|apply sort_strings_perm]].
  set (ids := ConnectedClientIDs a) in *.
  assert ((λ p, listed (handleDevices (Some a) cl p size)) <$> pages =
          (λ i, take (Z.to_nat (Atoi size)) (drop (i * Z.to_nat (Atoi size)) (sort_strings ids))) <$> seq 0 (length pages)) as ->.
  { apply list_eq. intros i. rewrite !list_lookup_fmap. destruct (pages !! i) as [q|] eqn:Hq.
    - pose proof (lookup_lt_Some _ _ _ Hq) as Hi. rewrite (lookup_seq_lt 0) by done. cbn [fmap option_fmap option_map].
      assert (Atoi q = 1 + Z.of_nat i) as Hv.
      { assert ((Atoi <$> pages) !! i = Some (Atoi q)) as Hx by by rewrite list_lookup_fmap, Hq.
        rewrite Hp in Hx. apply lookup_seqZ in Hx. lia. }
      rewrite handleDevices_listed by done. fold ids. unfold page_number, page_size. rewrite Hv.
      unfold len in *.
      rewrite (proj2 (Z.ltb_ge (1 + Z.of_nat i) 1)), (proj2 (Z.ltb_ge 10000 _)), (proj2 (Z.ltb_ge (Atoi size) 1)),
        (proj2 (Z.ltb_ge 100 _)) by lia.
      rewrite page_ids_window by lia. do 3 f_equal. lia.
    - rewrite (lookup_seq_ge 0) by (by apply lookup_ge_None). done. }
  rewrite windows_concat. apply take_ge. apply Nat2Z.inj_le. fold (len (sort_strings ids)).
  rewrite sort_strings_len. unfold len in *. lia.
Qed.

Definition sample_info (id : string) : ClientInfo := mkInfo id "" "10.0.0.1:5000" 4 (1704164645 * Second) (90 * Second).
Definition sample_api (ids : list string) : BrokerAPI :=
  mkAPI ids (λ id, if bool_decide (id ∈ ids) then Some (sample_info id) else None) (λ _, None) (len ids) 0 0 1.

Lemma sample_api_ok ids : api_ok (sample_api ids).
Proof. intros id Hid. exists (sample_info id). cbn in *. by rewrite bool_decide_true. Qed.

Lemma handleDevices_pages_witness :
  mjoin ((λ p, listed (handleDevices (Some (sample_api ["b"; "c"; "a"])) None p "2")) <$> ["1"; "2"]) = ["a"; "b"; "c"].
Proof.
  destruct (handleDevices_pages (sample_api ["b"; "c"; "a"]) None ["1"; "2"] "2") as [Hp _];
    [apply sample_api_ok|by vm_compute|reflexivity|by vm_compute|by vm_compute|].
  rewrite Hp. vm_cast_no_check (eq_refl ["a"; "b"; "c"]).
Defined.

(** ** The cluster's device list *)

Lemma unmarshal_summary i : it_NodeID i = "" → unmarshal_item (summary_json i) = Some i.
Proof.
  intros Hn. destruct i as [c u r p t k s n]. cbn in Hn. subst n. destruct s as [l|]; [|done].
  unfold unmarshal_item, summary_json, summary_fields.
  change (js_strings _) with (match mapM js_string (JStr <$> l) with Some l => Some (Some l) | None => None end).
  assert (mapM js_string (JStr <$> l) = Some l) as ->; [|done].
  induction l as [|x l IH]; [done|]. cbn. by rewrite IH.
Qed.

Lemma unmarshal_handleDevices a cl p pp v : body (handleDevices (Some a) cl p pp) = Some v →
  unmarshal_devices v =
  Some (omap (device_item a "") (page_ids (ConnectedClientIDs a) (page_number p) (page_size pp))).
Proof.
  unfold handleDevices, json_reply, body. intros [= <-].
  set (ids := page_ids _ _ _). change (mapM unmarshal_item (summary_json <$> omap (device_item a "") ids) =
    Some (omap (device_item a "") ids)).
  induction ids as [|id ids IH]; [done|]. cbn. destruct (device_item a "" id) as [i|] eqn:Hi; [|exact IH].
  assert (it_NodeID i = "") by (unfold device_item in Hi; case_match; by simplify_eq).
  cbn -[unmarshal_item]. rewrite unmarshal_summary by done. cbn -[unmarshal_item]. by rewrite IH.
Qed.

(** The node runs this API for its own broker. *)
Definition serves (net : peer) (n : NodeInfo) (a : BrokerAPI) : Prop :=
  ∃ v, body (handleDevices (Some a) None "1" "1000") = Some v ∧
    net n GET "/api/v1/devices?page=1&per_page=1000" = Some (200, v).

Lemma fetchRemoteDevices_ids net n a : serves net n a → api_ok a →
  it_ClientID <$> fetchRemoteDevices net n = take 100 (sort_strings (ConnectedClientIDs a)).
Proof.
  intros (v & Hv & Hn) Ha. unfold fetchRemoteDevices. rewrite Hn.
  rewrite (unmarshal_handleDevices a None "1" "1000" v Hv), <- list_fmap_compose.
  change (it_ClientID <$> omap (device_item a "") (page_ids (ConnectedClientIDs a) 1 100) =
    take 100 (sort_strings (ConnectedClientIDs a))).
  rewrite device_items_ids; [|intros id; apply page_ids_listed|done].
  rewrite page_ids_window by lia. by rewrite drop_0.
Qed.

Lemma fold_remote net l : ∀ acc : list clusterDeviceItem,
  foldl (λ all n, all ++ fetchRemoteDevices net n) acc l = acc ++ (l ≫= fetchRemoteDevices net).
Proof. induction l as [|n l IH]; intros acc; cbn; [by rewrite app_nil_r|]. by rewrite IH, <- app_assoc. Qed.

(** The node does not answer, or with something that is not a list of devices. *)
Definition silent (net : peer) (n : NodeInfo) : Prop :=
  match net n GET "/api/v1/devices?page=1&per_page=1000" with Some (_, v) => unmarshal_devices v = None | None => True end.

(** What a node that is [up] contributes to the list. *)
Definition share (up : NodeInfo → bool) (api_of : NodeInfo → BrokerAPI) (n : NodeInfo) : list string :=
  if up n then take 100 (sort_strings (ConnectedClientIDs (api_of n))) else [].

Lemma fmap_bind_ids net (up : NodeInfo → bool) api_of l :
  (∀ n, n ∈ l → if up n then serves net n (api_of n) ∧ api_ok (api_of n) else silent net n) →
  it_ClientID <$> (l ≫= fetchRemoteDevices net) = l ≫= share up api_of.
Proof.
  induction l as [|n l IH]; intros Hl; [done|]. cbn. rewrite fmap_app.
  rewrite IH by (intros m Hm; apply Hl; set_solver). f_equal. specialize (Hl n). unfold share.
  destruct (up n); [destruct Hl as [Hs Ha]; [set_solver|]; by rewrite (fetchRemoteDevices_ids _ _ _ Hs Ha)|].
  unfold silent in Hl. unfold fetchRemoteDevices. specialize (Hl (list_elem_of_here _ _)). destruct (net n GET "/api/v1/devices?page=1&per_page=1000") as [[code v]|]; [|done]. by rewrite Hl.
Qed.

(** A share is whole when the node is up and has no more than a hundred clients, or has none. *)
Definition whole (up : NodeInfo → bool) (api_of : NodeInfo → BrokerAPI) (n : NodeInfo) : Prop :=
  if up n then (length (ConnectedClientIDs (api_of n)) ≤ 100)%nat else ConnectedClientIDs (api_of n) = [].

Lemma share_length up api_of n : (length (share up api_of n) ≤ length (ConnectedClientIDs (api_of n)))%nat ∧
  (whole up api_of n ↔ length (share up api_of n) = length (ConnectedClientIDs (api_of n))).
Proof.
  unfold share, whole. destruct (up n); cbn [length].
  - rewrite length_take, (Permutation_length (sort_strings_perm _)). split; [lia|]. split; lia.
  - split; [lia|]. destruct (ConnectedClientIDs (api_of n)); split; done.
Qed.

Lemma shares_whole up api_of l : (l ≫= share up api_of) ≡ₚ (l ≫= λ n, ConnectedClientIDs (api_of n)) ↔ ∀ n, n ∈ l → whole up api_of n.
Proof.
  split.
  - intros Hp%Permutation_length. induction l as [|x l IH]; intros n Hn; [by apply not_elem_of_nil in Hn|]. cbn in Hp. rewrite !length_app in Hp.
    assert (∀ l, (length (l ≫= share up api_of) ≤ length (l ≫= λ n, ConnectedClientIDs (api_of n)))%nat) as Hle.
    { intros k. induction k as [|y k IHk]; [done|]. cbn. rewrite !length_app. pose proof (share_length up api_of y). lia. }
    specialize (Hle l). destruct (share_length up api_of x) as [Hx Hw]. apply elem_of_cons in Hn as [->|Hn]; [apply Hw; lia|apply IH; [lia|done]].
  - intros Hl. induction l as [|x l IH]; [done|]. cbn. rewrite IH by (intros m Hm; apply Hl; set_solver). f_equiv.
    specialize (Hl x ltac:(set_solver)). unfold whole, share in *. destruct (up x); [|by rewrite Hl].
    rewrite take_ge; [apply sort_strings_perm|]. by rewrite (Permutation_length (sort_strings_perm _)).
Qed.

Definition total_of (r : reply) : js := match body r with Some (JObj fs) => get fs "total" | _ => JUndef end.


Definition sample_node (id : string) : NodeInfo := mkNode id "h" 1 2 3 8080 "".
Definition sample_cluster : ClusterAPI := mkCluster (sample_node "n1") [sample_node "n1"; sample_node "n2"].
Definition sample_peer : peer := λ _ _ _,
  match body (handleDevices (Some (sample_api ["d"; "a"])) None "1" "1000") with
  | Some v => Some (200, v) | None => None
  end.


(** ** Disconnecting a device *)

Lemma SplitN2_head c s : Contains (List.hd "" (SplitN2 c s)) c = false.
Proof.
  induction s as [|x s IH]; [done|]. cbn. destruct (Ascii.eqb x c) eqn:Hx; [done|].
  destruct (SplitN2 c s) as [|h t]; cbn in *; by rewrite Hx.
Qed.

Lemma proxy_disconnects net m path nodes r : proxy net m path nodes = Some r → disconnects r = None.
Proof.
  induction nodes as [|n nodes IH]; [done|]. cbn. destruct (net n m path) as [[code v]|]; [|done].
  case_match; [done|]. by intros [= <-].
Qed.

Lemma via_cluster_disconnects cl net m path : disconnects (via_cluster cl net m path) = None.
Proof.
  unfold via_cluster. destruct cl as [c|]; [|done].
  destruct (proxy net m path (others c)) eqn:Hp; [|done]. by eapply proxy_disconnects.
Qed.

Lemma handleDeviceByID_disconnects escape a cl net m path p pp id :
  disconnects (handleDeviceByID escape (Some a) cl net m path p pp) = Some id →
  id = List.hd "" (SplitN2 "/" (TrimPrefix path "/api/v1/devices/")).
Proof.
  unfold handleDeviceByID. case_bool_decide; [done|]. destruct m; [| |done].
  - case_match; [done|]. by rewrite via_cluster_disconnects.
  - case_match; [|done]. case_match; [by intros [= <-]|]. by rewrite via_cluster_disconnects.
Qed.

(** The API disconnects exactly the devices that a path can name: a POST to
    [/api/v1/devices/<id>/disconnect] disconnects the connected client [id] when [id] is not empty
    and has no slash, and no request at all disconnects a client whose identifier has a slash. *)
Theorem disconnect_reach (escape : string → string) (a : BrokerAPI) (cl : option ClusterAPI) (net : peer) (id : string) :
  (id ≠ "" → Contains id "/" = false → is_Some (GetClientInfo a id) → ∀ p pp,
   disconnects (handleDeviceByID escape (Some a) cl net POST ("/api/v1/devices/" +:+ id +:+ "/disconnect") p pp)
     = Some id) ∧
  (Contains id "/" = true → ∀ m path p pp,
   disconnects (handleDeviceByID escape (Some a) cl net m path p pp) ≠ Some id).
Proof.
  split.
  - intros Hne Hc [info Hi] p pp. unfold handleDeviceByID. rewrite TrimPrefix_app.
    change (id +:+ "/disconnect") with (id +:+ String "/" "disconnect"). rewrite SplitN2_app by done.
    cbn [List.hd]. rewrite bool_decide_false by done. by rewrite Hi.
  - intros Hc m path p pp Hd. apply handleDeviceByID_disconnects in Hd. subst id.
    by rewrite SplitN2_head in Hc.
Qed.

Lemma disconnect_reach_witness :
  disconnects (handleDeviceByID id (Some (sample_api ["d"])) None sample_peer POST
    "/api/v1/devices/d/disconnect" "" "") = Some "d" ∧
  disconnects (handleDeviceByID id (Some (sample_api ["d/e"])) None sample_peer POST
    "/api/v1/devices/d/e/disconnect" "" "") ≠ Some "d/e".
Proof.
  split.
  - destruct (disconnect_reach id (sample_api ["d"]) None sample_peer "d") as [Hd _].
    apply Hd; [done|reflexivity|by vm_compute; eexists].
  - destruct (disconnect_reach id (sample_api ["d/e"]) None sample_peer "d/e") as [_ Hd].
    apply Hd. reflexivity.
Defined.

End HttpApi.
