(* ===== verification/Routes.v ===== *)
(** * The HTTP server: its routes and its API key

    Model of [New] of [internal/httpapi/server.go]: the patterns of the multiplexer, what each of them
    runs, and the check of the API key around it, with the multiplexer of [net/http] for these patterns.
    The handlers are those of [HttpApi]. *)
From S2P Require Import Prelude Json Topic Subscriptions Connections Storage Delivery Offline Sessions Retain Wills Broker Migration Ring Settings AuditLog HttpApi.
Import HttpApi.

Module Routes.

Inductive endpoint :=
  | EMetrics | EHealth | EReady | EClusterDevices | EClusterStats | EMigrations | EMigrationByID | EDevices | EDeviceByID | EStats
  | ENodes | EAdmin.

(** The calls of [mux.Handle] and [mux.HandleFunc]. *)
Definition patterns : list (string * endpoint) :=
  [("/metrics", EMetrics); ("/health", EHealth); ("/ready", EReady);
   ("/api/v1/cluster/devices", EClusterDevices); ("/api/v1/cluster/stats", EClusterStats);
   ("/api/v1/cluster/migrations", EMigrations); ("/api/v1/cluster/migrations/", EMigrationByID);
   ("/api/v1/devices", EDevices); ("/api/v1/devices/", EDeviceByID);
   ("/api/v1/stats", EStats); ("/api/v1/nodes", ENodes); ("/admin/", EAdmin)].

(** ** The multiplexer *)

Definition ends_with_slash (p : string) : bool :=
  match rev (String.list_ascii_of_string p) with c :: _ => Ascii.eqb c "/" | [] => false end.

(** [cleanPath]; [path.Clean] is [filepath.Clean] on Unix. *)
Definition cleanPath (p : string) : string :=
  if bool_decide (p = "") then "/"
  else
    let p := if HasPrefix p "/" then p else "/" +:+ p in
    let np := AuditLog.Clean p in
    if ends_with_slash p && negb (bool_decide (np = "/")) then np +:+ "/" else np.

Definition exact (path : string) : option endpoint := snd <$> find (λ kv, bool_decide (kv.1 = path)) patterns.
(** A pattern that ends with a slash has every path below it; no two of them are one below the other. *)
Definition below (path : string) : option endpoint :=
  snd <$> find (λ kv, ends_with_slash kv.1 && HasPrefix path kv.1) patterns.

Inductive routed := Run (e : endpoint) | Moved (path : string) | NotFound.
Definition route (path : string) : routed :=
  let p := cleanPath path in
  match exact p with
  | Some e => if bool_decide (p = path) then Run e else Moved p
  | None =>
      match exact (p +:+ "/") with
      | Some _ => Moved (p +:+ "/")
      | None =>
          if negb (bool_decide (p = path)) then Moved p
          else match below p with Some e => Run e | None => NotFound end
      end
  end.

(** ** The server *)

Section Server.
Context `{Zone} (escape : string → string).

Record server := mkServer {
  sv_ready : option bool;
  sv_coordinator : option Migration.MigrationCoordinator;
  sv_api : BrokerAPI;
  sv_cluster : option ClusterAPI;
  sv_apiKey : string;
  sv_files : list string
}.
Definition SetAPIKey (s : server) (key : string) : server :=
  mkServer (sv_ready s) (sv_coordinator s) (sv_api s) (sv_cluster s) key (sv_files s).

Record http_request := mkHttp {
  rq_method : method; rq_path : string; rq_key : string; rq_query_key : string; rq_page : string; rq_per_page : string
}.

(** What the handlers see of the machine and of the other nodes. *)
Record machine := mkMachine { mc_now : Z; mc_uptime : Z; mc_goroutines : Z; mc_mem : MemStats; mc_peers : peer; mc_arrival : list NodeInfo }.

Inductive answer := Reply (r : reply) | Site (s : served) | Metrics | Redirect (path : string) | Missing.

(** The handler of an endpoint; one of them may cancel a migration. *)
Definition run (s : server) (m : machine) (rq : http_request) (e : endpoint) : answer * option Migration.MigrationCoordinator :=
  let guarded r := (Reply (authWrap (sv_apiKey s) (rq_key rq) (rq_query_key rq) r), sv_coordinator s) in
  match e with
  | EMetrics => (Metrics, sv_coordinator s)
  | EHealth => (Reply handleHealth, sv_coordinator s)
  | EReady => (Reply (handleReady (sv_ready s)), sv_coordinator s)
  | EClusterDevices => guarded (handleClusterDevices (sv_api s) (sv_cluster s) (mc_peers m) (mc_arrival m))
  | EClusterStats => guarded (handleClusterStats (sv_api s) (sv_cluster s) (mc_peers m) (mc_arrival m))
  | EMigrations => guarded (handleMigrations (sv_coordinator s) (rq_method rq))
  | EMigrationByID =>
      let '(r, mc) := handleMigrationByID (mc_now m) (sv_coordinator s) (rq_method rq) (rq_path rq) in
      let r' := authWrap (sv_apiKey s) (rq_key rq) (rq_query_key rq) r in
      (* the handler runs exactly when the key is right *)
      (Reply r', if bool_decide (sv_apiKey s = "") || bool_decide ((if bool_decide (rq_key rq = "") then rq_query_key rq else rq_key rq) = sv_apiKey s)
                 then mc else sv_coordinator s)
  | EDevices => guarded (handleDevices (Some (sv_api s)) (sv_cluster s) (rq_page rq) (rq_per_page rq))
  | EDeviceByID =>
      guarded (handleDeviceByID escape (Some (sv_api s)) (sv_cluster s) (mc_peers m) (rq_method rq) (rq_path rq) (rq_page rq) (rq_per_page rq))
  | EStats => guarded (handleStats (Some (sv_api s)) (sv_cluster s) (mc_uptime m) (mc_goroutines m) (mc_mem m))
  | ENodes => guarded (handleNodes (sv_cluster s))
  | EAdmin => (Site (adminHandler (sv_files s) (rq_path rq)), sv_coordinator s)
  end.

Definition ServeHTTP (s : server) (m : machine) (rq : http_request) : answer * option Migration.MigrationCoordinator :=
  match route (rq_path rq) with
  | Run e => run s m rq e
  | Moved p => (Redirect p, sv_coordinator s)
  | NotFound => (Missing, sv_coordinator s)
  end.

(** ** The key protects the API *)

(** The key that a request gives: its header, or its query when there is none. *)
Definition given_key (rq : http_request) : string := if bool_decide (rq_key rq = "") then rq_query_key rq else rq_key rq.
Definition admitted (s : server) (rq : http_request) : bool := bool_decide (sv_apiKey s = "") || bool_decide (given_key rq = sv_apiKey s).

Lemma authWrap_admitted s rq r :
  authWrap (sv_apiKey s) (rq_key rq) (rq_query_key rq) r = if admitted s rq then r else error_reply 401 "unauthorized".
Proof. unfold authWrap, admitted, given_key. destruct (bool_decide (sv_apiKey s = "")); cbn; [done|]. by destruct (bool_decide (_ = sv_apiKey s)). Qed.

Definition is_api (e : endpoint) : bool :=
  match e with EMetrics | EHealth | EReady | EAdmin => false | _ => true end.

(** Below [/api/v1/] there are only endpoints of the API. *)
Lemma route_api path e : HasPrefix path "/api/v1/" = true → route path = Run e → is_api e = true.
Proof.
  intros Hp Hr.
  assert (He : ∃ k, (k, e) ∈ patterns ∧ (k = path ∨ ends_with_slash k = true ∧ HasPrefix path k = true)).
  { unfold route in Hr. destruct (exact (cleanPath path)) as [x|] eqn:Ex.
    - case_bool_decide as Eq; [|done]. injection Hr as ->. unfold exact in Ex. destruct (find _ patterns) as [[k v]|] eqn:Ef; [|done]. injection Ex as ->.
      apply find_some in Ef as [Hin Hk]. exists k. split; [by apply list_elem_of_In|]. left. apply bool_decide_eq_true in Hk. cbn in Hk. congruence.
    - destruct (exact (cleanPath path +:+ "/")); [done|]. case_bool_decide as Eq; cbn [negb] in Hr; [|done].
      destruct (below (cleanPath path)) as [x|] eqn:Eb; [|done]. injection Hr as ->. unfold below in Eb.
      destruct (find _ patterns) as [[k v]|] eqn:Ef; [|done]. injection Eb as ->. apply find_some in Ef as [Hin Hk]. exists k.
      split; [by apply list_elem_of_In|]. right. apply andb_true_iff in Hk as [H1 H2]. cbn in H1, H2. split; [done|congruence]. }
  destruct He as (k & Hin & Hk). pose proof (HasPrefix_true _ _ Hp) as Hpath.
  repeat (apply elem_of_cons in Hin as [[= -> ->]|Hin];
    [first [reflexivity
           |destruct Hk as [<-|[Hs Hk]];
            [vm_compute in Hp; discriminate Hp
            |first [vm_compute in Hs; discriminate Hs|rewrite Hpath in Hk; cbn in Hk; discriminate Hk]]]|]).
  by apply not_elem_of_nil in Hin.
Qed.

(** C26: The API key protects the API. While a key is set, a request that does not give it changes nothing
    (no device is disconnected and no migration cancelled), and below [/api/v1/] it gets nothing but a
    refusal, a redirection or a missing page; what it gets elsewhere is the health, the readiness, the
    metrics and the files of the site. A request that gives the key, and any request while no key is set,
    gets what the handler of its path answers. *)
Theorem api_guarded (s : server) (m : machine) (rq : http_request) :
  let '(a, mc) := ServeHTTP s m rq in
  (admitted s rq = false →
     mc = sv_coordinator s ∧
     (a = Reply (error_reply 401 "unauthorized") ∨ a = Missing ∨ (∃ p, a = Redirect p) ∨
      HasPrefix (rq_path rq) "/api/v1/" = false ∧
        (a = Reply handleHealth ∨ a = Reply (handleReady (sv_ready s)) ∨ a = Metrics ∨ ∃ f, a = Site f))) ∧
  (admitted s rq = true → ∀ e, route (rq_path rq) = Run e → (a, mc) = run (SetAPIKey s "") m rq e).
Proof.
  unfold ServeHTTP. destruct (route (rq_path rq)) as [e|p|] eqn:Er; [|naive_solver..].
  destruct (run s m rq e) as [a mc] eqn:Ea. split.
  - intros Hadm. assert (Hapi : is_api e = true → mc = sv_coordinator s ∧ a = Reply (error_reply 401 "unauthorized")).
    { unfold run in Ea. destruct e; try done; intros _; try (destruct (handleMigrationByID _ _ _ _) as [r mc0]);
        rewrite authWrap_admitted, Hadm in Ea; injection Ea as <- <-; [done..| |done|done|done|done].
      fold (given_key rq). fold (admitted s rq). by rewrite Hadm. }
    destruct (is_api e) eqn:Hi; [naive_solver|]. clear Hapi.
    assert (Hpre : HasPrefix (rq_path rq) "/api/v1/" = false).
    { destruct (HasPrefix (rq_path rq) "/api/v1/") eqn:Hp; [|done]. rewrite (route_api _ _ Hp Er) in Hi. done. }
    destruct e; try done; cbn in Ea; injection Ea as <- <-; naive_solver.
  - intros Hadm e' [= <-]. rewrite <- Ea. clear Ea. unfold run.
    destruct e; try done; try (rewrite !authWrap_admitted, Hadm; done).
    cbn [sv_coordinator SetAPIKey]. destruct (handleMigrationByID _ _ _ _) as [r mc0]. fold (given_key rq). fold (admitted s rq).
    by rewrite authWrap_admitted, Hadm.
Qed.

(** The other nodes do not give a key: while one is set, their devices are missing from the list. *)
Lemma key_hides_devices (s : server) (m : machine) (net : peer) (node : NodeInfo) url :
  sv_apiKey s ≠ "" →
  (let r := authWrap (sv_apiKey s) "" "" (handleDevices (Some (sv_api s)) (sv_cluster s) "1" "1000") in
   net node GET url = Some (status r, default JNull (body r))) →
  url = "/api/v1/devices?page=1&per_page=1000" → fetchRemoteDevices net node = [].
Proof.
  intros Hk Hn ->. unfold fetchRemoteDevices. unfold authWrap in Hn. rewrite (bool_decide_false (sv_apiKey s = "")) in Hn by done.
  cbn zeta in Hn. rewrite (bool_decide_true ("" = "")), (bool_decide_false ("" = sv_apiKey s)) in Hn by done. by rewrite Hn.
Qed.

End Server.

(** ** Examples *)

#[local] Instance utc : Zone := format_utc.
Definition a_machine : machine := mkMachine 0 60 9 (mkMem 1 2 3) sample_peer [].
Definition a_server (key : string) : server := mkServer (Some true) None (sample_api ["d"]) None key ["index.html"].
Definition a_request (m : method) (path key : string) : http_request := mkHttp m path key "" "" "".

Lemma api_guarded_witness :
  let rq := a_request POST "/api/v1/devices/d/disconnect" "wrong" in
  (ServeHTTP id (a_server "secret") a_machine rq).1 = Reply (error_reply 401 "unauthorized") ∧
  ServeHTTP id (a_server "") a_machine rq = run id (SetAPIKey (a_server "") "") a_machine rq EDeviceByID.
Proof.
  intros rq. split.
  - pose proof (api_guarded id (a_server "secret") a_machine rq) as Hg.
    destruct (ServeHTTP id (a_server "secret") a_machine rq) as [a mc] eqn:E. destruct Hg as [Hg _].
    destruct (Hg eq_refl) as [_ [Ha|[Ha|[[p Ha]|[Hp _]]]]]; [exact Ha|..]; cbn [fst].
    + subst a. vm_compute in E. discriminate E.
    + subst a. vm_compute in E. discriminate E.
    + vm_compute in Hp. discriminate Hp.
  - pose proof (api_guarded id (a_server "") a_machine rq) as Hg.
    destruct (ServeHTTP id (a_server "") a_machine rq) as [a mc]. destruct Hg as [_ Hg]. apply (Hg eq_refl EDeviceByID). vm_compute. reflexivity.
Defined.

(** A broker that [main] has started lets everybody disconnect its devices: it sets no key, whatever the
    environment says. *)
Lemma started_api_open {db} `{Storage.Store db} `{Broker.Env} `{Offline.MessageJSON} `{Sessions.SessionJSON} `{Retain.RetainedJSON} `{Wills.WillJSON}
    (w : Settings.world) (e : Settings.environment) su : Settings.main w e = inr su →
  ∃ r mc, ServeHTTP id (SetAPIKey (a_server "") (Settings.su_apiKey su)) a_machine (a_request POST "/api/v1/devices/d/disconnect" "") = (Reply r, mc) ∧
    disconnects r = Some "d".
Proof. intros Hm. rewrite (Settings.main_no_key w e su Hm). eexists _, _. split; [vm_compute; reflexivity|reflexivity]. Qed.

Example route_examples :
  route "/api/v1/devices" = Run EDevices ∧ route "/api/v1/devices/d" = Run EDeviceByID ∧ route "/admin" = Moved "/admin/" ∧
  route "/admin/cluster" = Run EAdmin ∧ route "/api//v1/stats" = Moved "/api/v1/stats" ∧ route "/api/v1/clients" = NotFound ∧
  route "/api/v1/../../metrics" = Moved "/metrics" ∧ route "/api/v1/topics" = NotFound.
Proof. split_and!; vm_compute; reflexivity. Qed.

End Routes.
