(* ===== verification/AdminLocales.v ===== *)
(** * The texts of the admin pages ([web/admin/src/locales])

    The two message catalogues and the keys that the pages ask for. A page asks with a key
    [section.name] and, for some, named parameters that the text holds as [{name}]. *)
From S2P Require Import Prelude Json.

Module AdminLocales.

(** [locales/en.ts] *)
Definition en : list (string * list (string * string)) :=
  [("nav",
    [("dashboard", "Dashboard");
     ("devices", "Devices");
     ("cluster", "Cluster");
     ("metrics", "Metrics")]);
   ("common",
    [("node", "Node");
     ("search", "Search");
     ("refresh", "Refresh");
     ("confirm", "OK");
     ("cancel", "Cancel");
     ("online", "Online");
     ("offline", "Offline");
     ("none", "None");
     ("operations", "Actions");
     ("status", "Status");
     ("progress", "Progress")]);
   ("dashboard",
    [("onlineDevices", "Online Devices (Cluster)");
     ("activeSubscriptions", "Active Subscriptions (Cluster)");
     ("retainedMessages", "Retained Messages");
     ("clusterNodes", "Cluster Nodes");
     ("nodeOverview", "Node Overview");
     ("connections", "Connections");
     ("subscriptions", "Subscriptions");
     ("retained", "Retained");
     ("connectionsTrend", "Connections Trend (Cluster)");
     ("memoryTrend", "Memory Usage Trend");
     ("goroutineTrend", "Goroutine Trend");
     ("subscriptionsTrend", "Subscriptions Trend (Cluster)");
     ("memory", "Memory")]);
   ("devices",
    [("searchPlaceholder", "Search Device ID");
     ("deviceId", "Device ID");
     ("nodeLocation", "Node");
     ("subscribedTopics", "Subscribed Topics");
     ("ipAddress", "IP Address");
     ("protocolVersion", "Protocol");
     ("connectTime", "Connected At");
     ("disconnect", "Disconnect");
     ("confirmDisconnect", "Disconnect this device?");
     ("totalDevices", "{count} device(s) total");
     ("deviceDetail", "Device Detail: {id}");
     ("username", "Username");
     ("keepAlive", "KeepAlive");
     ("sessionInfo", "Session Info");
     ("subscription", "Subscriptions");
     ("disconnected", "Disconnected {id}");
     ("disconnectFailed", "Disconnect failed");
     ("loadFailed", "Failed to load devices, polling rate reduced");
     ("loadDetailFailed", "Failed to load detail");
     ("connectionRestored", "Device list connection restored");
     ("topic", "Topic")]);
   ("cluster",
    [("thisNode", "This Node");
     ("address", "Address");
     ("mqttPort", "MQTT Port");
     ("httpPort", "HTTP Port");
     ("gossip", "Gossip");
     ("openAdmin", "Open Admin →");
     ("migrationTasks", "Migration Tasks");
     ("id", "ID");
     ("device", "Device");
     ("sourceNode", "Source Node");
     ("targetNode", "Target Node");
     ("cancelMigration", "Cancel this migration?");
     ("cancelled", "Migration cancelled");
     ("cancelFailed", "Cancel failed");
     ("loadNodesFailed", "Failed to load nodes");
     ("noMigrations", "No migration tasks")]);
   ("metrics",
    [("uptime", "Uptime");
     ("gcPause", "GC Total Pause");
     ("memoryAlloc", "Memory Alloc");
     ("memorySys", "Memory Sys");
     ("goroutineCount", "Goroutines");
     ("gcPauseTime", "GC Pause Time")])].

(** [locales/zh.ts] *)
Definition zh : list (string * list (string * string)) :=
  [("nav",
    [("dashboard", "仪表盘");
     ("devices", "设备管理");
     ("cluster", "集群监控");
     ("metrics", "系统指标")]);
   ("common",
    [("node", "节点");
     ("search", "搜索");
     ("refresh", "刷新");
     ("confirm", "确定");
     ("cancel", "取消");
     ("online", "在线");
     ("offline", "离线");
     ("none", "无");
     ("operations", "操作");
     ("status", "状态");
     ("progress", "进度")]);
   ("dashboard",
    [("onlineDevices", "在线设备（集群）");
     ("activeSubscriptions", "活跃订阅（集群）");
     ("retainedMessages", "保留消息");
     ("clusterNodes", "集群节点");
     ("nodeOverview", "各节点概况");
     ("connections", "连接数");
     ("subscriptions", "订阅数");
     ("retained", "保留消息");
     ("connectionsTrend", "连接数趋势（集群）");
     ("memoryTrend", "内存使用趋势");
     ("goroutineTrend", "Goroutine 趋势");
     ("subscriptionsTrend", "订阅数趋势（集群）");
     ("memory", "内存")]);
   ("devices",
    [("searchPlaceholder", "搜索设备ID");
     ("deviceId", "设备ID");
     ("nodeLocation", "所在节点");
     ("subscribedTopics", "订阅Topic");
     ("ipAddress", "IP地址");
     ("protocolVersion", "协议版本");
     ("connectTime", "连接时间");
     ("disconnect", "断开");
     ("confirmDisconnect", "确定要断开此设备？");
     ("totalDevices", "共 {count} 个设备");
     ("deviceDetail", "设备详情: {id}");
     ("username", "用户名");
     ("keepAlive", "KeepAlive");
     ("sessionInfo", "会话信息");
     ("subscription", "订阅");
     ("disconnected", "已断开设备 {id}");
     ("disconnectFailed", "断开失败");
     ("loadFailed", "加载设备列表失败，已自动降低刷新频率");
     ("loadDetailFailed", "加载详情失败");
     ("connectionRestored", "设备列表连接已恢复");
     ("topic", "Topic")]);
   ("cluster",
    [("thisNode", "本节点");
     ("address", "地址");
     ("mqttPort", "MQTT端口");
     ("httpPort", "HTTP端口");
     ("gossip", "Gossip");
     ("openAdmin", "打开管理界面 →");
     ("migrationTasks", "迁移任务");
     ("id", "ID");
     ("device", "设备");
     ("sourceNode", "源节点");
     ("targetNode", "目标节点");
     ("cancelMigration", "确定取消此迁移？");
     ("cancelled", "已取消迁移");
     ("cancelFailed", "取消失败");
     ("loadNodesFailed", "加载节点失败");
     ("noMigrations", "暂无迁移任务")]);
   ("metrics",
    [("uptime", "运行时间");
     ("gcPause", "GC 总暂停");
     ("memoryAlloc", "内存分配 (Alloc)");
     ("memorySys", "内存总量 (Sys)");
     ("goroutineCount", "Goroutine 数量");
     ("gcPauseTime", "GC 暂停时间")])].

(** The keys of the [t(...)] calls, page by page. *)
Definition keys_MainLayout : list string :=
  ["nav.dashboard"; "nav.devices"; "nav.cluster"; "nav.metrics"; "common.node"].
Definition keys_Dashboard : list string :=
  ["dashboard.nodeOverview"; "common.node"; "dashboard.connections"; "dashboard.subscriptions";
   "dashboard.retained"; "dashboard.connectionsTrend"; "dashboard.memoryTrend";
   "dashboard.goroutineTrend"; "dashboard.subscriptionsTrend"; "dashboard.onlineDevices";
   "dashboard.activeSubscriptions"; "dashboard.retainedMessages"; "dashboard.clusterNodes";
   "dashboard.memory"].
Definition keys_Devices : list string :=
  ["devices.searchPlaceholder"; "common.search"; "common.refresh"; "devices.deviceId";
   "devices.nodeLocation"; "devices.subscribedTopics"; "common.none"; "devices.ipAddress";
   "devices.protocolVersion"; "devices.connectTime"; "common.operations"; "devices.confirmDisconnect";
   "common.confirm"; "common.cancel"; "devices.disconnect"; "devices.totalDevices";
   "devices.deviceDetail"; "devices.username"; "devices.keepAlive"; "common.status"; "common.online";
   "common.offline"; "devices.sessionInfo"; "devices.subscription"; "devices.topic";
   "devices.connectionRestored"; "devices.loadFailed"; "devices.disconnected";
   "devices.disconnectFailed"; "devices.loadDetailFailed"].
Definition keys_Cluster : list string :=
  ["cluster.thisNode"; "common.online"; "cluster.address"; "cluster.mqttPort"; "cluster.httpPort";
   "cluster.gossip"; "cluster.openAdmin"; "cluster.migrationTasks"; "cluster.id"; "cluster.device";
   "cluster.sourceNode"; "cluster.targetNode"; "common.status"; "common.progress";
   "common.operations"; "cluster.cancelMigration"; "common.cancel"; "cluster.noMigrations";
   "cluster.loadNodesFailed"; "cluster.cancelled"; "cluster.cancelFailed"].
Definition keys_Metrics : list string :=
  ["metrics.uptime"; "metrics.gcPause"; "metrics.memoryAlloc"; "metrics.memorySys";
   "metrics.goroutineCount"; "metrics.gcPauseTime"].
Definition used_keys : list string := keys_MainLayout ++ keys_Dashboard ++ keys_Devices ++ keys_Cluster ++ keys_Metrics.

(** The parameters that a page passes with a key. *)
Definition params_of (key : string) : list string :=
  if bool_decide (key = "devices.totalDevices") then ["count"]
  else if bool_decide (key = "devices.deviceDetail") then ["id"]
  else if bool_decide (key = "devices.disconnected") then ["id"]
  else [].

(** [locales/index.ts]: the catalogue of a locale, Chinese for any other. *)
Definition savedLocale (stored : option string) : string :=
  match stored with Some s => if bool_decide (s = "") then "zh" else s | None => "zh" end.
Definition fallbackLocale : string := "zh".
Definition messages : list (string * list (string * list (string * string))) := [("zh", zh); ("en", en)].

(** The text of a key in a catalogue. *)
Definition text (cat : list (string * list (string * string))) (key : string) : option string :=
  match SplitN2 "." key with
  | [sec; name] => match assoc sec cat with Some kv => assoc name kv | None => None end
  | _ => None
  end.

(** The text of a key for a locale, with the fallback of [createI18n]. *)
Definition message (locale key : string) : option string :=
  match assoc locale messages with
  | Some cat => match text cat key with Some s => Some s | None => text zh key end
  | None => text zh key
  end.

(** All keys of a catalogue. *)
Definition all_keys (cat : list (string * list (string * string))) : list string :=
  cat ≫= λ sec, (λ kv, sec.1 +:+ "." +:+ kv.1) <$> sec.2.

(** The names between braces in a text. *)
Fixpoint placeholders_from (l : list ascii) (open : option (list ascii)) : list string :=
  match l with
  | [] => []
  | c :: l =>
      match open with
      | None => placeholders_from l (if Ascii.eqb c "{" then Some [] else None)
      | Some acc =>
          if Ascii.eqb c "}" then String.string_of_list_ascii (rev acc) :: placeholders_from l None
          else placeholders_from l (Some (c :: acc))
      end
  end.
Definition placeholders (s : string) : list string := placeholders_from (String.list_ascii_of_string s) None.

(** Both catalogues define every text that a page asks for, with exactly the parameters that
    the page passes, under the same keys and no key twice: no page shows a bare key or an unfilled
    parameter in either language, whatever locale the browser has stored. *)
Theorem locales_complete (stored : option string) (key : string) :
  key ∈ used_keys →
  (∃ s, message (savedLocale stored) key = Some s ∧ placeholders s = params_of key) ∧
  (∃ s, text en key = Some s ∧ placeholders s = params_of key) ∧
  all_keys en = all_keys zh ∧ NoDup (all_keys en).
Proof.
  intros Hk.
  assert (∀ cat, forallb (λ k, match text cat k with
            | Some s => bool_decide (placeholders s = params_of k) | None => false end) used_keys = true →
          ∃ s, text cat key = Some s ∧ placeholders s = params_of key) as Hcat.
  { intros cat Hc. rewrite forallb_forall in Hc. specialize (Hc key). rewrite <- list_elem_of_In in Hc.
    specialize (Hc Hk). destruct (text cat key) as [s|]; [|done]. exists s. split; [done|].
    by apply bool_decide_eq_true in Hc. }
  destruct (Hcat en) as (se & He & Hpe); [by vm_compute|].
  destruct (Hcat zh) as (sz & Hz & Hpz); [by vm_compute|].
  split; [|split; [eauto|split; [by vm_compute|]]].
  - unfold message. destruct (assoc (savedLocale stored) messages) as [cat|] eqn:Hm; [|eauto].
    unfold messages, assoc in Hm. destruct (String.eqb _ "zh"); [simplify_eq; rewrite Hz; eauto|].
    destruct (String.eqb _ "en"); [simplify_eq; rewrite He; eauto|done].
  - apply (bool_decide_eq_true_1 (NoDup (all_keys en))). by vm_compute.
Qed.

Lemma locales_complete_witness : ∃ s, text en "devices.disconnected" = Some s ∧ placeholders s = ["id"].
Proof.
  destruct (locales_complete None "devices.disconnected") as (_ & Hs & _); [|exact Hs].
  by apply (bool_decide_eq_true_1 ("devices.disconnected" ∈ used_keys)); vm_compute.
Defined.

End AdminLocales.
