(* ===== verification/AdminApi.v ===== *)
(** * The admin pages' view of the HTTP API ([web/admin/src/api])

    The functions that fetch, as programs over [net], the answer of the browser's HTTP client to a
    request, and the TypeScript interfaces that their results are declared with. [axios] is how a
    reply of the server reaches the page, so that the functions can be run against the handlers of
    [HttpApi]; the theorems say for which calls the server keeps the interface the page declares. *)
From S2P Require Import Prelude Json Storage Topic Subscriptions Delivery Offline OfflineFacts Sessions Retain Wills Packets Broker BrokerFacts Connections Migration Ring HttpApi.
Import HttpApi.

Module AdminApi.

(** ** [client.ts] *)

Definition baseURL : string := "/api/v1".
Definition timeout : Z := 10000.

Record request := mkRequest { req_method : method; req_url : string; req_params : list (string * Z) }.

Definition client_get (path : string) (params : list (string * Z)) : request :=
  mkRequest GET (baseURL +:+ path) params.
Definition client_post (path : string) : request := mkRequest POST (baseURL +:+ path) [].

(** A reply as the client hands it to the page: a body for a status of the 200s, an exception
    for any other. *)
Definition axios (r : reply) : outcome js :=
  if (200 <=? status r) && (status r <? 300) then Resolved (default (JStr "") (body r))
  else Rejected ("Request failed with status code " +:+ pretty (status r)).

(** ** Interfaces *)

Definition DeviceSummary_fields : list (string * bool * shape) :=
  [field "client_id" SString; field "username" SString; field "remote_addr" SString;
   field "protocol_version" SNumber; field "connected_at" SString; field "keep_alive" SNumber;
   field "subscriptions" (SArray SString); optional "node_id" SString].
Definition DeviceSummary : shape := SInterface DeviceSummary_fields.

Definition DeviceListResponse : shape :=
  SInterface [field "devices" (SArray DeviceSummary); field "total" SNumber; field "page" SNumber;
              field "per_page" SNumber; field "node_id" SString].

Definition ClusterDeviceListResponse : shape :=
  SInterface [field "devices" (SArray DeviceSummary); field "total" SNumber; field "self" SString].

Definition DeviceDetail : shape :=
  SInterface (DeviceSummary_fields ++
    [field "connected" SBoolean;
     optional "session" (SInterface [field "clean_start" SBoolean; field "expiry_interval" SNumber;
                                     field "subscriptions" (SRecord SNumber)])]).

Definition Migration : shape :=
  SInterface [field "id" SString; field "device_id" SString; field "source_node" SString;
              field "target_node" SString; field "status" SString; field "progress" SNumber;
              field "started_at" SString].

Definition NodeInfo : shape :=
  SInterface [field "id" SString; field "host" SString; field "gossipPort" SNumber;
              field "transportPort" SNumber; field "mqttPort" SNumber; field "httpPort" SNumber;
              field "role" SString].
Definition NodesResponse : shape := SInterface [field "nodes" (SArray NodeInfo); field "self" SString].

Definition Stats : shape :=
  SInterface [field "node_id" SString; field "connected_clients" SNumber;
              field "active_subscriptions" SNumber; field "retained_messages" SNumber;
              field "cluster_nodes" SNumber; field "uptime_seconds" SNumber; field "goroutines" SNumber;
              field "memory_alloc_bytes" SNumber; field "memory_sys_bytes" SNumber;
              field "gc_pause_total_ns" SNumber].

Definition ClusterNodeStats : shape :=
  SInterface [field "node_id" SString; field "connections" SNumber; field "subscriptions" SNumber;
              field "retained" SNumber].
Definition ClusterStats : shape :=
  SInterface [field "nodes" (SArray ClusterNodeStats); field "total_connections" SNumber;
              field "total_subscriptions" SNumber; field "self" SString].

(** ** The functions *)

Section Fetch.
Context (net : request → outcome js).

Definition fetchDevices (page perPage : Z) : outcome js :=
  net (client_get "/devices" [("page", page); ("per_page", perPage)]).
Definition fetchClusterDevices : outcome js := net (client_get "/cluster/devices" []).
Definition fetchDevice (id : string) : outcome js := net (client_get ("/devices/" +:+ id) []).
Definition disconnectDevice (id : string) : outcome unit :=
  _ ← net (client_post ("/devices/" +:+ id +:+ "/disconnect")); Resolved tt.

Definition fetchMigrations : outcome js :=
  data ← net (client_get "/cluster/migrations" []);
  v ← prop data "migrations";
  Resolved (js_or v (JArr [])).
Definition cancelMigration (id : string) : outcome unit :=
  _ ← net (client_post ("/cluster/migrations/" +:+ id +:+ "/cancel")); Resolved tt.

Definition fetchNodes : outcome js := net (client_get "/nodes" []).
Definition fetchStats : outcome js := net (client_get "/stats" []).
Definition fetchClusterStats : outcome js := net (client_get "/cluster/stats" []).

End Fetch.

(** ** The contract *)

Lemma item_shape (i : clusterDeviceItem) :
  has_shape DeviceSummary (item_json i) = bool_decide (is_Some (it_Subscriptions i)).
Proof.
  destruct i as [c u r p t k [l|] n]; cbn -[fmap forallb]; [|done].
  rewrite forallb_fmap, forallb_all by done. done.
Qed.

Lemma stats_shape (s : nodeStats) : has_shape ClusterNodeStats (stats_json s) = true.
Proof. done. Qed.

Lemma array_shape {A} s (f : A → js) (l : list A) :
  has_shape (SArray s) (JArr (f <$> l)) = forallb (λ x, has_shape s (f x)) l.
Proof. apply forallb_fmap. Qed.

Lemma forallb_ext {A} (p q : A → bool) l : (∀ x, p x = q x) → forallb p l = forallb q l.
Proof. intros H. induction l as [|x l IH]; cbn; [done|]. by rewrite H, IH. Qed.

(** What the page gets for a call, as a value. *)
Definition conforms (s : shape) (r : outcome js) : bool :=
  match r with Resolved v => has_shape s v | Rejected _ => false end.

(** The items of a device list. *)
Definition cluster_items (a : BrokerAPI) (cl : option ClusterAPI) (netw : peer) (arrival : list Ring.NodeInfo)
    : list clusterDeviceItem :=
  let loc := collectLocalDevices a (self_id cl) in
  match cl with
  | None => loc
  | Some _ => merge_sort item_le (foldl (λ all n, all ++ fetchRemoteDevices netw n) loc arrival)
  end.

(** C20: what the server sends keeps the interfaces of the pages for the statistics of a node and
    of the cluster, and for the device list exactly when every device has a subscription (a
    device without one is sent with [null] for its list); it never keeps the interface for a list
    of nodes that is not empty, since no node is sent with a [role]. *)
Theorem api_contract (a : BrokerAPI) (cl : option ClusterAPI) (netw : peer) (arrival : list Ring.NodeInfo)
    (uptime goroutines : Z) (mem : MemStats) :
  conforms Stats (fetchStats (λ _, axios (handleStats (Some a) cl uptime goroutines mem))) = true ∧
  conforms ClusterStats (fetchClusterStats (λ _, axios (handleClusterStats a cl netw arrival))) = true ∧
  conforms ClusterDeviceListResponse
    (fetchClusterDevices (λ _, axios (handleClusterDevices a cl netw arrival))) =
    forallb (λ i, bool_decide (is_Some (it_Subscriptions i))) (cluster_items a cl netw arrival) ∧
  conforms NodesResponse (fetchNodes (λ _, axios (handleNodes cl))) =
    bool_decide (match cl with Some c => Members c | None => [] end = []).
Proof.
  split_and!.
  - done.
  - unfold fetchClusterStats, handleClusterStats. destruct (match cl with None => _ | Some _ => _ end) as [[all cs] ss].
    unfold axios, json_reply, conforms, ClusterStats. cbn -[fmap forallb ClusterNodeStats].
    rewrite forallb_fmap, forallb_all by done. done.
  - unfold fetchClusterDevices. assert (∃ l, l = cluster_items a cl netw arrival ∧
      handleClusterDevices a cl netw arrival = json_reply 200 (devices_body l (self_id cl))) as (l & <- & ->).
    { unfold handleClusterDevices, cluster_items. destruct cl; by eexists. }
    unfold axios, json_reply, conforms, devices_body. cbn -[fmap forallb DeviceSummary item_json].
    rewrite forallb_fmap, (forallb_ext _ _ _ item_shape). by rewrite !andb_true_r.
  - unfold fetchNodes, handleNodes. destruct cl as [c|]; [|done].
    unfold axios, json_reply, conforms. cbn -[fmap forallb NodeInfo node_json]. rewrite forallb_fmap.
    destruct (Members c) as [|n l]; [done|]. cbn -[NodeInfo node_json].
    replace (has_shape NodeInfo (node_json n)) with false; [done|].
    unfold node_json. repeat case_match; by cbn.
Qed.

(** The migrations page is always empty: the server sends the list of migrations itself and
    the page reads a field [migrations] of it, so the page gets the empty list whatever
    migrations the coordinator holds (and an exception, which it shows as empty too, when there is
    no coordinator). *)
Theorem migrations_always_empty `{Zone} (coordinator : option Migration.MigrationCoordinator) :
  fetchMigrations (λ _, axios (handleMigrations coordinator GET)) =
  match coordinator with
  | Some _ => Resolved (JArr [])
  | None => Rejected "Request failed with status code 503"
  end.
Proof. by destruct coordinator. Qed.

End AdminApi.
