(* ===== verification/AdminViews.v ===== *)
(** * The admin pages ([web/admin/src/composables], [views], [layouts], [router])

    The state that each page keeps and the handlers that change it. What the browser does to a
    page (a timer fires, a request ends, the page is left) is an event; a page is a function from
    events to states, [None] for an event that cannot happen in a state. Requests overlap, so a
    page counts those under way and they end in any order. What the pages show of their state is
    in [AdminTemplates]. *)
From S2P Require Import Prelude Json Doubles.

Module AdminViews.

(** ** Timers of the browser *)

Record browser := mkBrowser { live : gmap nat Z; next_id : nat }.
Definition no_timers : browser := mkBrowser ∅ 1.
Definition setInterval (b : browser) (ms : Z) : nat * browser :=
  (next_id b, mkBrowser (<[next_id b := ms]> (live b)) (S (next_id b))).
Definition clearInterval (b : browser) (id : nat) : browser := mkBrowser (delete id (live b)) (next_id b).

(** ** [useTimeSeriesBuffer.ts] *)

(** [a.slice(k)]. *)
Definition js_slice {A} (l : list A) (k : Z) : list A :=
  if k <? 0 then drop (Z.to_nat (Z.max 0 (len l + k))) l else drop (Z.to_nat k) l.

Definition push {A} (maxPoints : Z) (points : list A) (point : A) : list A :=
  js_slice points (- (maxPoints - 1)) ++ [point].
Definition clear {A} (points : list A) : list A := [].

(** ** [usePolling.ts] *)

Inductive phase := Created | Shown | Gone.

Record polling (T : Type) := mkPolling {
  data : option T;
  error : option string;
  loading : bool;
  timer : option nat;
  timers : browser;
  pending : nat;
  at_phase : phase
}.
Arguments mkPolling {T} _ _ _ _ _ _ _.
Arguments data {T} _.
Arguments error {T} _.
Arguments loading {T} _.
Arguments timer {T} _.
Arguments timers {T} _.
Arguments pending {T} _.
Arguments at_phase {T} _.

Inductive pevent (T : Type) :=
  | Mount
  | Tick (id : nat)
  | Refresh
  | Settle (r : outcome T)
  | Unmount.
Arguments Mount {T}.
Arguments Tick {T} id.
Arguments Refresh {T}.
Arguments Settle {T} r.
Arguments Unmount {T}.

Definition usePolling {T} : polling T := mkPolling None None true None no_timers 0 Created.

(** [refresh] up to its [await]: a request is under way. *)
Definition refresh_start {T} (s : polling T) : polling T :=
  mkPolling (data s) (error s) (loading s) (timer s) (timers s) (S (pending s)) (at_phase s).

(** [e.message || 'Request failed']. *)
Definition message_of (m : string) : string := if bool_decide (m = "") then "Request failed" else m.

(** The rest of [refresh]. *)
Definition refresh_end {T} (s : polling T) (r : outcome T) : polling T :=
  match r with
  | Resolved v => mkPolling (Some v) None false (timer s) (timers s) (pred (pending s)) (at_phase s)
  | Rejected m => mkPolling (data s) (Some (message_of m)) false (timer s) (timers s) (pred (pending s)) (at_phase s)
  end.

Definition pstep {T} (intervalMs : Z) (s : polling T) (e : pevent T) : option (polling T) :=
  match e, at_phase s with
  | Mount, Created =>
      let s := refresh_start s in
      let '(id, b) := setInterval (timers s) intervalMs in
      Some (mkPolling (data s) (error s) (loading s) (Some id) b (pending s) Shown)
  | Tick id, _ => match live (timers s) !! id with Some _ => Some (refresh_start s) | None => None end
  | Refresh, Shown => Some (refresh_start s)
  | Settle r, _ => match pending s with O => None | S _ => Some (refresh_end s r) end
  | Unmount, Shown =>
      Some (mkPolling (data s) (error s) (loading s) (timer s)
              (match timer s with Some id => clearInterval (timers s) id | None => timers s end) (pending s) Gone)
  | _, _ => None
  end.

Definition prun {T} (ms : Z) (es : list (pevent T)) : option (polling T) :=
  foldl (λ o e, o ≫= λ s, pstep ms s e) (Some usePolling) es.

(** ** [Devices.vue] *)

Record DeviceRow := mkRow {
  client_id : string;
  remote_addr : string;
  protocol_version : Z;
  connected_at : string;
  node_id : option string;
  subscriptions : option (list string)
}.
Record DevicesResponse := mkDevs { res_devices : option (list DeviceRow); res_self : string }.

Inductive toast := ToastSuccess (key : string) (params : list (string * string)) | ToastError (key : string).

Record devices_page := mkPage {
  searchText : string;
  devices : list DeviceRow;
  dev_loading : bool;
  clusterMode : bool;
  currentNodeId : string;
  pollInterval : Z;
  pollTimer : nat;
  consecutiveErrors : Z;
  dev_timers : browser;
  requests : nat;
  toasts : list toast;
  left_page : bool
}.

(** [loadDevices] up to its [await]. *)
Definition load_start (p : devices_page) : devices_page :=
  mkPage (searchText p) (devices p) true (clusterMode p) (currentNodeId p) (pollInterval p) (pollTimer p)
    (consecutiveErrors p) (dev_timers p) (S (requests p)) (toasts p) (left_page p).

(** The set of the nodes that devices name. *)
Definition nodeIds (l : list DeviceRow) : gset string :=
  list_to_set (filter (λ n, n ≠ "") (omap node_id l)).

(** [clearInterval(pollTimer); pollInterval = ms; pollTimer = setInterval(loadDevices, ms)]. *)
Definition restart (p : devices_page) (ms errors : Z) (t : toast) : devices_page :=
  let '(id, b) := setInterval (clearInterval (dev_timers p) (pollTimer p)) ms in
  mkPage (searchText p) (devices p) (dev_loading p) (clusterMode p) (currentNodeId p) ms id errors b (requests p)
    (toasts p ++ [t]) (left_page p).

Definition load_ok (p : devices_page) (r : DevicesResponse) : devices_page :=
  let l := default [] (res_devices r) in
  let p := mkPage (searchText p) l (dev_loading p) (bool_decide (1 < size (nodeIds l))%nat) (res_self r)
             (pollInterval p) (pollTimer p) (consecutiveErrors p) (dev_timers p) (requests p) (toasts p)
             (left_page p) in
  if 0 <? consecutiveErrors p then restart p 5000 0 (ToastSuccess "devices.connectionRestored" []) else p.

Definition load_failed (p : devices_page) : devices_page :=
  let n := consecutiveErrors p + 1 in
  if n =? 1 then restart p (Z.min (pollInterval p * 2) 30000) n (ToastError "devices.loadFailed")
  else mkPage (searchText p) (devices p) (dev_loading p) (clusterMode p) (currentNodeId p) (pollInterval p)
         (pollTimer p) n (dev_timers p) (requests p) (toasts p) (left_page p).

(** The rest of [loadDevices], with its [finally]. *)
Definition load_end (p : devices_page) (r : outcome DevicesResponse) : devices_page :=
  let p := match r with Resolved v => load_ok p v | Rejected _ => load_failed p end in
  mkPage (searchText p) (devices p) false (clusterMode p) (currentNodeId p) (pollInterval p) (pollTimer p)
    (consecutiveErrors p) (dev_timers p) (pred (requests p)) (toasts p) (left_page p).

Definition handleRefresh (p : devices_page) : devices_page :=
  load_start (mkPage "" (devices p) (dev_loading p) (clusterMode p) (currentNodeId p) (pollInterval p) (pollTimer p)
    (consecutiveErrors p) (dev_timers p) (requests p) (toasts p) (left_page p)).

Definition add_toast (p : devices_page) (t : toast) : devices_page :=
  mkPage (searchText p) (devices p) (dev_loading p) (clusterMode p) (currentNodeId p) (pollInterval p) (pollTimer p)
    (consecutiveErrors p) (dev_timers p) (requests p) (toasts p ++ [t]) (left_page p).

(** The end of [handleDisconnect]. *)
Definition handleDisconnect (p : devices_page) (id : string) (r : outcome unit) : devices_page :=
  match r with
  | Resolved _ => load_start (add_toast p (ToastSuccess "devices.disconnected" [("id", id)]))
  | Rejected _ => add_toast p (ToastError "devices.disconnectFailed")
  end.

(** A device with its session, as the drawer shows it. *)
Record SessionRow := mkSessionRow {
  clean_start : bool;
  expiry_interval : Z;
  session_subscriptions : option (list (string * Z))
}.
Record DeviceDetailRow := mkDetail {
  dd_client_id : string;
  dd_username : string;
  dd_remote_addr : string;
  dd_protocol_version : Z;
  dd_connected_at : string;
  dd_keep_alive : Z;
  dd_connected : bool;
  dd_session : option SessionRow
}.

(** The drawer with the details of one device. *)
Record drawer (D : Type) := mkDrawer {
  drawerVisible : bool;
  selectedId : string;
  deviceDetail : option D;
  detailLoading : bool
}.
Arguments mkDrawer {D} _ _ _ _.
Arguments selectedId {D} _.
Arguments deviceDetail {D} _.
Arguments drawerVisible {D} _.
Arguments detailLoading {D} _.

Definition showDetail_start {D} (d : drawer D) (id : string) : drawer D :=
  mkDrawer true id (deviceDetail d) true.
(** The rest of [showDetail], with its [catch], which pops up a message on the page, and its [finally]. *)
Definition showDetail_catch {D} (p : devices_page) (r : outcome D) : devices_page :=
  match r with Resolved _ => p | Rejected _ => add_toast p (ToastError "devices.loadDetailFailed") end.
Definition showDetail_end {D} (p : devices_page) (d : drawer D) (r : outcome D) : devices_page * drawer D :=
  (showDetail_catch p r,
   mkDrawer (drawerVisible d) (selectedId d) (match r with Resolved v => Some v | Rejected _ => deviceDetail d end) false).

(** The page when it is opened: a timer of five seconds, and the first load under way. *)
Definition open_devices : devices_page :=
  let '(id, b) := setInterval no_timers 5000 in
  load_start (mkPage "" [] false false "" 5000 id 0 b 0 [] false).

Inductive devent :=
  | DTick (id : nat)
  | DSearch
  | DRefresh
  | DDisconnected (id : string) (r : outcome unit)
  | DDetailed (d : drawer DeviceDetailRow) (r : outcome DeviceDetailRow)
  | DLoaded (r : outcome DevicesResponse)
  | DLeave.

Definition dstep (p : devices_page) (e : devent) : option devices_page :=
  match e with
  | DTick id => match live (dev_timers p) !! id with Some _ => Some (load_start p) | None => None end
  | DSearch => if left_page p then None else Some (load_start p)
  | DRefresh => if left_page p then None else Some (handleRefresh p)
  | DDisconnected id r => Some (handleDisconnect p id r)
  | DDetailed d r => Some (showDetail_end p d r).1
  | DLoaded r => match requests p with O => None | S _ => Some (load_end p r) end
  | DLeave =>
      if left_page p then None
      else Some (mkPage (searchText p) (devices p) (dev_loading p) (clusterMode p) (currentNodeId p)
                   (pollInterval p) (pollTimer p) (consecutiveErrors p)
                   (clearInterval (dev_timers p) (pollTimer p)) (requests p) (toasts p) true)
  end.

Definition drun (es : list devent) : option devices_page :=
  foldl (λ o e, o ≫= λ p, dstep p e) (Some open_devices) es.

Fixpoint includes (s q : string) : bool :=
  HasPrefix s q || match s with EmptyString => false | String _ s => includes s q end.

(** [filteredDevices], over [toLowerCase]. *)
Definition filteredDevices (toLowerCase : string → string) (p : devices_page) : list DeviceRow :=
  if bool_decide (searchText p = "") then devices p
  else
    let q := toLowerCase (searchText p) in
    filter (λ d, includes (toLowerCase (client_id d)) q ||
                 existsb (λ t, includes (toLowerCase t) q) (default [] (subscriptions d)) = true) (devices p).

Definition formatProtocol (v : Z) : string :=
  if v =? 3 then "v3.1" else if v =? 4 then "v3.1.1" else if v =? 5 then "v5.0" else "v" +:+ pretty v.

(** [subscriptionList]: the entries of the session of the device, if any. *)
Definition subscriptionList (d : drawer DeviceDetailRow) : list (string * Z) :=
  match deviceDetail d with
  | None => []
  | Some v => match dd_session v with None => [] | Some s => default [] (session_subscriptions s) end
  end.

(** ** [Cluster.vue] *)

(** An [httpPort] that is absent is 0: the page only tests whether it is truthy. *)
Record NodeRow := mkNodeRow {
  nr_id : string;
  nr_host : string;
  nr_mqttPort : Z;
  nr_httpPort : Z;
  nr_gossipPort : Z
}.

Record MigrationRow := mkMigRow {
  mr_id : string;
  mr_device_id : string;
  mr_source_node : string;
  mr_target_node : string;
  mr_status : string;
  mr_progress : Z
}.

Record cluster_page (M : Type) := mkClusterPage {
  nodes : list NodeRow;
  selfId : string;
  migrations : list M;
  migLoading : bool;
  cl_toasts : list toast
}.
Arguments mkClusterPage {M} _ _ _ _ _.
Arguments nodes {M} _.
Arguments selfId {M} _.
Arguments migrations {M} _.
Arguments migLoading {M} _.
Arguments cl_toasts {M} _.

Definition open_cluster {M} : cluster_page M := mkClusterPage [] "" [] false [].

(** The address that [openNodeAdmin] opens. *)
Definition openNodeAdmin (n : NodeRow) : string :=
  "http://" +:+ nr_host n +:+ ":" +:+ pretty (nr_httpPort n) +:+ "/admin/".

Definition statusTagType (status : string) : string :=
  default "info" (assoc status
    [("running", "primary"); ("completed", "success"); ("failed", "danger"); ("cancelled", "warning")]).

Definition loadNodes {M} (p : cluster_page M) (r : outcome (option (list NodeRow) * string)) : cluster_page M :=
  match r with
  | Resolved (ns, self) => mkClusterPage (default [] ns) self (migrations p) (migLoading p) (cl_toasts p)
  | Rejected _ => mkClusterPage (nodes p) (selfId p) (migrations p) (migLoading p)
                    (cl_toasts p ++ [ToastError "cluster.loadNodesFailed"])
  end.

Definition loadMigrations_start {M} (p : cluster_page M) : cluster_page M :=
  mkClusterPage (nodes p) (selfId p) (migrations p) true (cl_toasts p).
Definition loadMigrations_end {M} (p : cluster_page M) (r : outcome (list M)) : cluster_page M :=
  mkClusterPage (nodes p) (selfId p) (match r with Resolved l => l | Rejected _ => [] end) false (cl_toasts p).

Definition handleCancel {M} (p : cluster_page M) (r : outcome unit) : cluster_page M :=
  match r with
  | Resolved _ =>
      loadMigrations_start (mkClusterPage (nodes p) (selfId p) (migrations p) (migLoading p)
        (cl_toasts p ++ [ToastSuccess "cluster.cancelled" []]))
  | Rejected _ => mkClusterPage (nodes p) (selfId p) (migrations p) (migLoading p)
                    (cl_toasts p ++ [ToastError "cluster.cancelFailed"])
  end.

(** ** [Dashboard.vue] *)

Record stats_row := mkStatsRow {
  connected_clients : Z;
  active_subscriptions : Z;
  retained_messages : Z;
  cluster_nodes : Z;
  uptime_seconds : Z;
  goroutines : Z;
  memory_alloc_bytes : Z;
  memory_sys_bytes : Z;
  gc_pause_total_ns : Z;
  st_node_id : string
}.

Record point := mkPoint { pt_time : string; pt_clients : Z; pt_subs : Z; pt_memory : Z; pt_goroutines : Z }.

Record NodeStatsRow := mkNodeStats { ns_node_id : string; ns_connections : Z; ns_subscriptions : Z; ns_retained : Z }.

Record dashboard := mkDash {
  clusterNodes : list NodeStatsRow;
  selfNodeId : string;
  totalConnections : Z;
  totalSubscriptions : Z;
  points : list point
}.

Definition open_dashboard : dashboard := mkDash [] "" 0 0 [].

Definition loadClusterStats (d : dashboard) (r : outcome (option (list NodeStatsRow) * string * Z * Z)) : dashboard :=
  match r with
  | Resolved (ns, self, conns, subs) => mkDash (default [] ns) self conns subs (points d)
  | Rejected _ => d
  end.

Definition num_or (a b : Z) : Z := if a =? 0 then b else a.

(** [Math.round(bytes / 1024 / 1024)]: dividing by a power of two is exact, and a half is
    rounded up. *)
Definition mega (bytes : Z) : Z := (bytes + 524288) / 1048576.

(** The watcher of the polled statistics. *)
Definition on_stats (d : dashboard) (time : string) (val : option stats_row) : dashboard :=
  match val with
  | None => d
  | Some v =>
      mkDash (clusterNodes d) (selfNodeId d) (totalConnections d) (totalSubscriptions d)
        (push 60 (points d)
           (mkPoint time (num_or (totalConnections d) (connected_clients v))
              (num_or (totalSubscriptions d) (active_subscriptions v)) (mega (memory_alloc_bytes v)) (goroutines v)))
  end.

Definition statCards (d : dashboard) (val : option stats_row) : list (string * Z) :=
  match val with
  | None => []
  | Some s =>
      [("dashboard.onlineDevices", num_or (totalConnections d) (connected_clients s));
       ("dashboard.activeSubscriptions", num_or (totalSubscriptions d) (active_subscriptions s));
       ("dashboard.retainedMessages", retained_messages s);
       ("dashboard.clusterNodes", num_or (len (clusterNodes d)) (cluster_nodes s))]
  end.

(** A chart: the times on its axis, its unit, and its one series with a name (a text of the
    catalogue or a word) and values. *)
Inductive label := LKey (key : string) | LWord (w : string).
Record chart (B : Type) := mkChart { ch_times : list string; ch_unit : string; ch_name : label; ch_values : list B }.
Arguments mkChart {B} _ _ _ _.
Arguments ch_times {B} _.
Arguments ch_values {B} _.
Arguments ch_name {B} _.
Arguments ch_unit {B} _.

Definition makeLineOption (l : list point) (name : label) (field : point → Z) (unit_ : string) : chart Z :=
  mkChart (pt_time <$> l) unit_ name (field <$> l).
Definition connectionsChartOption (d : dashboard) : chart Z :=
  makeLineOption (points d) (LKey "dashboard.connections") pt_clients "".
Definition memoryChartOption (d : dashboard) : chart Z :=
  makeLineOption (points d) (LKey "dashboard.memory") pt_memory "MB".
Definition goroutineChartOption (d : dashboard) : chart Z :=
  makeLineOption (points d) (LWord "Goroutines") pt_goroutines "".
Definition subsChartOption (d : dashboard) : chart Z :=
  makeLineOption (points d) (LKey "dashboard.subscriptions") pt_subs "".

(** ** [Metrics.vue] *)

Definition uptime_parts (s : Z) : Z * Z * Z * Z := (s / 86400, s mod 86400 / 3600, s mod 3600 / 60, s mod 60).

Definition uptimeDisplay (val : option stats_row) : string :=
  match val with
  | None => "-"
  | Some v =>
      let '(d, h, m, sec) := uptime_parts (uptime_seconds v) in
      if 0 <? d then pretty d +:+ "d " +:+ pretty h +:+ "h " +:+ pretty m +:+ "m"
      else if 0 <? h then pretty h +:+ "h " +:+ pretty m +:+ "m"
      else pretty m +:+ "m " +:+ pretty sec +:+ "s"
  end.

Import Doubles.

(** [Math.round(v * 10) / 10] and [Math.round(v * 100) / 100] of the watcher. *)
Definition mb (bytes : Z) : number :=
  div (Math_round (mul (div (div (of_Z bytes) (of_Z 1024)) (of_Z 1024)) (of_Z 10))) (of_Z 10).
Definition gc_ms (ns : Z) : number :=
  div (Math_round (mul (div (of_Z ns) (of_Z 1000000)) (of_Z 100))) (of_Z 100).

Record metric := mkMetric {
  mt_time : string;
  alloc_mb : number;
  sys_mb : number;
  mt_goroutines : Z;
  gc_pause_ms : number
}.

Definition on_metrics (points : list metric) (time : string) (val : option stats_row) : list metric :=
  match val with
  | None => points
  | Some v =>
      push 60 points (mkMetric time (mb (memory_alloc_bytes v)) (mb (memory_sys_bytes v)) (goroutines v)
                        (gc_ms (gc_pause_total_ns v)))
  end.

Definition latestGoroutines (val : option stats_row) : string :=
  match val with None => "-" | Some v => pretty (goroutines v) end.
Definition latestGcPause (val : option stats_row) : string :=
  match val with
  | None => "-"
  | Some v => toFixed1 (div (of_Z (gc_pause_total_ns v)) (of_Z 1000000)) +:+ "ms"
  end.

Definition makeAreaOption {B} (l : list metric) (name : string) (field : metric → B) (unit_ : string) : chart B :=
  mkChart (mt_time <$> l) unit_ (LWord name) (field <$> l).
Definition allocChartOption (l : list metric) : chart number := makeAreaOption l "Alloc" alloc_mb "MB".
Definition sysChartOption (l : list metric) : chart number := makeAreaOption l "Sys" sys_mb "MB".
Definition goroutinesChartOption (l : list metric) : chart Z := makeAreaOption l "Goroutines" mt_goroutines "".
Definition gcChartOption (l : list metric) : chart number := makeAreaOption l "GC Pause" gc_pause_ms "ms".

(** ** [MainLayout.vue] and [router/index.ts] *)

Record layout := mkLayout { isCollapsed : bool; nodeId : string; locale : string; stored_locale : option string }.

Definition toggle (l : layout) : layout := mkLayout (negb (isCollapsed l)) (nodeId l) (locale l) (stored_locale l).
Definition switchLang (l : layout) (lang : string) : layout := mkLayout (isCollapsed l) (nodeId l) lang (Some lang).
Definition layout_mounted (l : layout) (r : outcome stats_row) : layout :=
  match r with
  | Resolved s => mkLayout (isCollapsed l) (st_node_id s) (locale l) (stored_locale l)
  | Rejected _ => l
  end.

(** The key of a page's title; other paths show the name of the product. *)
Definition pageTitle (path : string) : option string :=
  assoc path [("/", "nav.dashboard"); ("/devices", "nav.devices"); ("/cluster", "nav.cluster"); ("/metrics", "nav.metrics")].

Inductive view := Dashboard | Devices | Cluster | Metrics.
Definition routes : list (string * view) :=
  [("", Dashboard); ("devices", Devices); ("cluster", Cluster); ("metrics", Metrics)].

(** ** Facts *)

Lemma push_window {A} (n : Z) (l : list A) (x : A) : 2 ≤ n →
  push n (drop (length l - Z.to_nat n) l) x = drop (length (l ++ [x]) - Z.to_nat n) (l ++ [x]).
Proof.
  intros Hn. unfold push, js_slice. rewrite (proj2 (Z.ltb_lt _ _)) by lia.
  rewrite length_app. cbn [length]. rewrite drop_app_le by lia. f_equal. rewrite drop_drop. f_equal.
  unfold len. rewrite length_drop. lia.
Qed.

(** The buffer of a chart is a sliding window: after any sequence of points it holds exactly
    the last [maxPoints] of them, in order, for every size of at least two (the pages use sixty);
    with a size of one it never drops a point and grows without bound. *)
Theorem buffer_window {A} (maxPoints : Z) (ps : list A) :
  (2 ≤ maxPoints →
   foldl (push maxPoints) [] ps = drop (length ps - Z.to_nat maxPoints) ps ∧
   len (foldl (push maxPoints) [] ps) ≤ maxPoints) ∧
  (maxPoints = 1 → foldl (push maxPoints) [] ps = ps).
Proof.
  split.
  - intros Hn. assert (foldl (push maxPoints) [] ps = drop (length ps - Z.to_nat maxPoints) ps) as ->.
    { induction ps as [|x ps IH] using rev_ind; [done|]. rewrite foldl_app. cbn. rewrite IH. by apply push_window. }
    split; [done|]. unfold len. rewrite length_drop. lia.
  - intros ->. induction ps as [|x ps IH] using rev_ind; [done|]. rewrite foldl_app. cbn. by rewrite IH.
Qed.

Lemma buffer_window_witness : foldl (push 3) [] [1; 2; 3; 4; 5] = [3; 4; 5] ∧ foldl (push 1) [] [1; 2; 3] = [1; 2; 3].
Proof.
  split.
  - destruct (buffer_window 3 [1; 2; 3; 4; 5]) as [Hw _]. destruct Hw as [Hw _]; [lia|exact Hw].
  - destruct (buffer_window 1 [1; 2; 3]) as [_ Hw]. apply Hw. reflexivity.
Defined.

(** What a page should show after some events: the last value that came, the error of the last
    request if it failed, and the loading mark until a request has ended. *)
Definition last_data {T} (es : list (pevent T)) : option T :=
  foldl (λ o e, match e with Settle (Resolved v) => Some v | _ => o end) None es.
Definition last_error {T} (es : list (pevent T)) : option string :=
  foldl (λ o e, match e with Settle (Resolved _) => None | Settle (Rejected m) => Some (message_of m) | _ => o end) None es.
Definition settled {T} (es : list (pevent T)) : bool :=
  existsb (λ e, match e with Settle _ => true | _ => false end) es.

Definition timer_ok {T} (ms : Z) (s : polling T) : Prop :=
  match at_phase s with
  | Shown => ∃ id, timer s = Some id ∧ live (timers s) = {[id := ms]}
  | _ => live (timers s) = ∅
  end.

(** Polling shows what has come: in every state that a page can reach, its data are those of
    the last request that succeeded, its error is that of the last request if it failed, it is
    loading until the first request has ended; and exactly one timer runs while the page is shown
    and none before or after. *)
Theorem usePolling_exact {T} (ms : Z) (es : list (pevent T)) (s : polling T) :
  prun ms es = Some s →
  data s = last_data es ∧ error s = last_error es ∧ loading s = negb (settled es) ∧ timer_ok ms s.
Proof.
  unfold prun, last_data, last_error, settled. revert s.
  induction es as [|e es IH] using rev_ind; intros s; [by intros [= <-]|].
  rewrite !foldl_app, existsb_app. cbn.
  intros (s0 & Hs0 & Hst)%bind_Some. specialize (IH s0 Hs0) as (Hd & He & Hl & Ht).
  unfold pstep in Hst. destruct e as [|id| |[v|m]|]; cbn in Hst |- *;
    repeat case_match; simplify_eq/=; rewrite ?Hd, ?He, ?Hl, ?orb_false_r, ?orb_true_r; (split_and!; [try done..|]).
  all: unfold timer_ok in *; cbn in *; try done.
  all: match goal with H : at_phase _ = _, Ht : _ |- _ => rewrite H in Ht end.
  - exists (next_id (timers s0)). split; [done|]. by rewrite Ht.
  - destruct Ht as (id & Hid & ->). simplify_eq. by rewrite delete_singleton_eq.
  - destruct Ht as (id & Hid & _). congruence.
Qed.

Lemma usePolling_exact_witness :
  ∃ s, prun 5000 [Mount; Settle (Resolved 7); Tick 1; Settle (Rejected "")] = Some s ∧ data s = Some 7 ∧
    error s = Some "Request failed" ∧ loading s = false.
Proof.
  eexists. split; [reflexivity|].
  destruct (usePolling_exact 5000 [Mount; Settle (Resolved 7); Tick 1; Settle (Rejected "")] _ eq_refl)
    as (Hd & He & Hl & _).
  split; [exact Hd|split; [exact He|exact Hl]].
Defined.

(** The failed loads since the last load that succeeded. *)
Definition failures (es : list devent) : Z :=
  foldl (λ n e, match e with DLoaded (Resolved _) => 0 | DLoaded (Rejected _) => n + 1 | _ => n end) 0 es.

Definition page_ok (p : devices_page) (n : Z) : Prop :=
  0 ≤ n ∧ consecutiveErrors p = n ∧ pollInterval p = (if n =? 0 then 5000 else 10000) ∧
  (left_page p = false → live (dev_timers p) = {[pollTimer p := pollInterval p]}).

Lemma restart_live p ms n t : live (dev_timers p) = {[pollTimer p := pollInterval p]} →
  live (dev_timers (restart p ms n t)) = {[pollTimer (restart p ms n t) := ms]}.
Proof. intros Hl. cbn. by rewrite Hl, delete_singleton_eq. Qed.

Lemma load_failed_ok p n : page_ok p n → page_ok (load_failed p) (n + 1).
Proof.
  intros (H0 & He & Hi & Hl). unfold load_failed. rewrite He.
  destruct (Z.eqb_spec (n + 1) 1) as [Hn|Hn].
  - replace n with 0 in * by lia. cbn in Hi. rewrite Hi. split_and!; [lia|done|done|].
    intros Hp. apply restart_live. rewrite Hi in Hl |- *. by apply Hl.
  - rewrite (proj2 (Z.eqb_neq n 0)) in Hi by lia. split_and!; [lia|done| |done]. cbn.
    by rewrite (proj2 (Z.eqb_neq (n + 1) 0)) by lia.
Qed.

Lemma load_ok_ok p n r : page_ok p n → page_ok (load_ok p r) 0.
Proof.
  intros (H0 & He & Hi & Hl). unfold load_ok. cbn -[restart].
  destruct (Z.ltb_spec 0 (consecutiveErrors p)) as [Hn|Hn].
  - split_and!; [done..|]. intros Hp. by apply restart_live, Hl.
  - assert (n = 0) as -> by lia. split_and!; [done|done|done|exact Hl].
Qed.

(** C22: the device page polls with one timer: while the page is open there is exactly one timer,
    the one it holds; its period is five seconds after a load that succeeded and ten seconds
    after one or more that failed (so the limit of thirty seconds is never reached), and the count
    of errors is that of the failed loads since the last one that succeeded. *)
Theorem devices_one_timer (es : list devent) (p : devices_page) :
  drun es = Some p →
  consecutiveErrors p = failures es ∧ pollInterval p = (if failures es =? 0 then 5000 else 10000) ∧
  (left_page p = false → live (dev_timers p) = {[pollTimer p := pollInterval p]}).
Proof.
  intros Hr. enough (page_ok p (failures es)) as (_ & ? & ? & ?) by done.
  revert p Hr. unfold drun, failures. induction es as [|e es IH] using rev_ind; intros p.
  { by intros [= <-]. }
  rewrite !foldl_app. cbn. intros (p0 & Hp0 & Hst)%bind_Some. specialize (IH p0 Hp0).
  unfold dstep in Hst. destruct e as [id| | |id r|d r|[v|m]|].
  - case_match; by simplify_eq.
  - case_match; by simplify_eq.
  - case_match; by simplify_eq.
  - simplify_eq. by destruct r.
  - simplify_eq. by destruct r.
  - case_match; simplify_eq. exact (load_ok_ok p0 _ v IH).
  - case_match; simplify_eq. exact (load_failed_ok p0 _ IH).
  - case_match; simplify_eq. destruct IH as (? & ? & ? & _). done.
Qed.

Lemma devices_one_timer_witness :
  ∃ p, drun [DLoaded (Rejected "timeout"); DTick 2; DLoaded (Rejected "timeout")] = Some p ∧
    consecutiveErrors p = 2 ∧ pollInterval p = 10000 ∧ live (dev_timers p) = {[2%nat := 10000]}.
Proof.
  eexists. split; [reflexivity|].
  destruct (devices_one_timer [DLoaded (Rejected "timeout"); DTick 2; DLoaded (Rejected "timeout")] _ eq_refl)
    as (Hc & Hi & Hl).
  split; [exact Hc|split; [exact Hi|apply Hl; reflexivity]].
Defined.

(** Leaving the page while a load is under way leaks a timer: when that load fails the page,
    already left, starts a new timer that nothing will ever stop. *)
Theorem devices_timer_leak :
  ∃ p, drun [DLeave; DLoaded (Rejected "Network Error")] = Some p ∧ left_page p = true ∧
    live (dev_timers p) = {[pollTimer p := 10000]}.
Proof. eexists. split; [reflexivity|]. split; reflexivity. Qed.

(** The parts of an uptime add up to it, each within its range. *)
Lemma uptime_exact (s : Z) : 0 ≤ s →
  let '(d, h, m, sec) := uptime_parts s in
  s = d * 86400 + h * 3600 + m * 60 + sec ∧ 0 ≤ d ∧ 0 ≤ h < 24 ∧ 0 ≤ m < 60 ∧ 0 ≤ sec < 60.
Proof. intros Hs. cbn. Z.to_euclidean_division_equations. lia. Qed.

Lemma includes_spec (s q : string) : includes s q = true ↔ ∃ a b, s = a +:+ q +:+ b.
Proof.
  induction s as [|c s IH]; cbn [includes]; rewrite orb_true_iff.
  - split.
    + intros [Hp|]; [|done]. exists "", "". apply HasPrefix_true in Hp. destruct q; [done|by inversion Hp].
    + intros ([|x a] & b & Hx); [|done]. left. destruct q; [done|by inversion Hx].
  - rewrite IH. split.
    + intros [Hp|(a & b & ->)]; [exists "", (TrimPrefix (String c s) q); by apply HasPrefix_true|].
      by exists (String c a), b.
    + intros ([|x a] & b & Hx); [left; rewrite Hx; apply (HasPrefix_app q b)|].
      right. inversion Hx; subst. eauto.
Qed.

(** Two details asked for one after the other and answered the other way round leave the drawer
    of the second device with the details of the first. *)
Lemma showDetail_race (p : devices_page) :
  let d := showDetail_start (showDetail_start (mkDrawer false "" None false) "a") "b" in
  let '(p, d) := showDetail_end p d (Resolved "details of b") in
  let d := (showDetail_end p d (Resolved "details of a")).2 in
  selectedId d = "b" ∧ deviceDetail d = Some "details of a".
Proof. done. Qed.

End AdminViews.
