(* ===== verification/AdminPages.v ===== *)
(** * The polled pages as a whole

    [Dashboard.vue], [Metrics.vue] and [Cluster.vue] with their composables: the polling of
    [usePolling.ts], the buffer of [useTimeSeriesBuffer.ts], the watcher that Vue runs for every new
    value while the page is shown, and the requests under way. The development server of
    [vite.config.ts] is here too. *)
From S2P Require Import Prelude Json Doubles AdminViews.
Import AdminViews.

Module AdminPages.

(** ** [useTimeSeriesBuffer.ts] *)

Record buffer (A : Type) := mkBuffer { maxPoints : Z; buf_points : list A }.
Arguments mkBuffer {A} _ _.
Arguments maxPoints {A} _.
Arguments buf_points {A} _.

Definition useTimeSeriesBuffer {A} (maxPoints : Z) : buffer A := mkBuffer maxPoints [].
Definition buffer_push {A} (b : buffer A) (p : A) : buffer A := mkBuffer (maxPoints b) (push (maxPoints b) (buf_points b) p).
Definition buffer_clear {A} (b : buffer A) : buffer A := mkBuffer (maxPoints b) (clear (buf_points b)).

(** ** A page that polls the statistics and watches them *)

Record polled (A : Type) := mkPolled { pg_polling : polling stats_row; pg_state : A }.
Arguments mkPolled {A} _ _.
Arguments pg_polling {A} _.
Arguments pg_state {A} _.

(** [usePolling(fetchStats, 5000)] of both pages. *)
Definition poll_ms : Z := 5000.

(** The value that an event assigns to the polled data. *)
Definition fetched (e : pevent stats_row) : option stats_row :=
  match e with Settle (Resolved v) => Some v | _ => None end.

(** A step of the polling, and the watcher when the data have changed. A page that was left has no
    watchers any more. *)
Definition wstep {A} (watch : A → string → stats_row → A) (p : polled A) (time : string) (e : pevent stats_row)
    : option (polled A) :=
  s ← pstep poll_ms (pg_polling p) e;
  Some (mkPolled s
          (match fetched e, at_phase s with
           | Some v, Shown => watch (pg_state p) time v
           | _, _ => pg_state p
           end)).

(** ** [Dashboard.vue] *)

(** The page with the number of its [fetchClusterStats] requests under way. *)
Definition dash_page : Type := polled (dashboard * nat).
Definition cluster_answer : Type := outcome (option (list NodeStatsRow) * string * Z * Z).

Inductive dash_event :=
  | DashPoll (time : string) (e : pevent stats_row)
  | DashCluster (r : cluster_answer).

Definition dash_setup : dash_page := mkPolled usePolling (open_dashboard, 1%nat).
Definition dash_watch (s : dashboard * nat) (time : string) (v : stats_row) : dashboard * nat :=
  (on_stats s.1 time (Some v), S s.2).

Definition dash_step (p : dash_page) (e : dash_event) : option dash_page :=
  match e with
  | DashPoll time e => wstep dash_watch p time e
  | DashCluster r =>
      match (pg_state p).2 with
      | O => None
      | S n => Some (mkPolled (pg_polling p) (loadClusterStats (pg_state p).1 r, n))
      end
  end.
Definition dash_run (es : list dash_event) : option dash_page := foldl (λ o e, o ≫= λ p, dash_step p e) (Some dash_setup) es.

(** ** [Metrics.vue] *)

Definition metrics_page : Type := polled (buffer metric).
Definition metrics_setup : metrics_page := mkPolled usePolling (useTimeSeriesBuffer 60).
Definition metric_of (time : string) (v : stats_row) : metric :=
  mkMetric time (mb (memory_alloc_bytes v)) (mb (memory_sys_bytes v)) (goroutines v) (gc_ms (gc_pause_total_ns v)).
Definition metrics_watch (b : buffer metric) (time : string) (v : stats_row) : buffer metric := buffer_push b (metric_of time v).
Definition metrics_run (es : list (string * pevent stats_row)) : option metrics_page :=
  foldl (λ o e, o ≫= λ p, wstep metrics_watch p e.1 e.2) (Some metrics_setup) es.

(** ** [Cluster.vue] *)

(** The page with its requests under way: for the nodes, for the migrations and to cancel. *)
Record cluster_view := mkClusterView {
  cv_page : cluster_page MigrationRow;
  cv_nodes : nat;
  cv_migrations : nat;
  cv_cancels : nat;
  cv_mounted : bool
}.

Inductive cluster_event :=
  | CMount
  | CNodes (r : outcome (option (list NodeRow) * string))
  | CMigrations (r : outcome (list MigrationRow))
  | CCancel
  | CCancelled (r : outcome unit).

Definition cluster_setup : cluster_view := mkClusterView open_cluster 0 0 0 false.
Definition cluster_step (c : cluster_view) (e : cluster_event) : option cluster_view :=
  match e with
  | CMount =>
      if cv_mounted c then None
      else Some (mkClusterView (loadMigrations_start (cv_page c)) (S (cv_nodes c)) (S (cv_migrations c)) (cv_cancels c) true)
  | CNodes r =>
      match cv_nodes c with
      | O => None
      | S n => Some (mkClusterView (loadNodes (cv_page c) r) n (cv_migrations c) (cv_cancels c) (cv_mounted c))
      end
  | CMigrations r =>
      match cv_migrations c with
      | O => None
      | S n => Some (mkClusterView (loadMigrations_end (cv_page c) r) (cv_nodes c) n (cv_cancels c) (cv_mounted c))
      end
  | CCancel =>
      if cv_mounted c then Some (mkClusterView (cv_page c) (cv_nodes c) (cv_migrations c) (S (cv_cancels c)) true) else None
  | CCancelled r =>
      match cv_cancels c with
      | O => None
      | S n =>
          Some (mkClusterView (handleCancel (cv_page c) r) (cv_nodes c)
                  (match r with Resolved _ => S (cv_migrations c) | Rejected _ => cv_migrations c end) n (cv_mounted c))
      end
  end.
Definition cluster_run (es : list cluster_event) : option cluster_view :=
  foldl (λ o e, o ≫= λ c, cluster_step c e) (Some cluster_setup) es.

(** ** [vite.config.ts] *)

(** Where the development server sends a request: to the target of the first proxy whose prefix the path
    has, or to its own files. *)
Definition dev_port : Z := 5173.
Definition dev_proxy : list (string * string) := [("/api", "http://localhost:8080")].
Definition dev_target (path : string) : option string := snd <$> find (λ kv, HasPrefix path kv.1) dev_proxy.

(** ** What the pages show *)

(** What the events of a list contribute, each after those before it. *)
Fixpoint readings {E P} (reading : list E → E → list P) (pre es : list E) : list P :=
  match es with
  | [] => []
  | e :: es => reading pre e ++ readings reading (pre ++ [e]) es
  end.

Lemma readings_snoc {E P} (r : list E → E → list P) es e : ∀ pre, readings r pre (es ++ [e]) = readings r pre es ++ r (pre ++ es) e.
Proof.
  induction es as [|x es IH]; intros pre; cbn; [by rewrite !app_nil_r|]. rewrite IH, <- !app_assoc. done.
Qed.

(** The page was left. *)
Definition is_unmount (e : pevent stats_row) : bool := match e with Unmount => true | _ => false end.
Definition gone (es : list (pevent stats_row)) : bool := existsb is_unmount es.

Lemma prun_snoc {T} ms (es : list (pevent T)) e s :
  prun ms (es ++ [e]) = Some s → ∃ s0, prun ms es = Some s0 ∧ pstep ms s0 e = Some s.
Proof. unfold prun. rewrite foldl_app. cbn. by intros (s0 & ? & ?)%bind_Some; eauto. Qed.

(** A request is under way or a timer runs only after the page was mounted; it is gone once it was left. *)
Lemma prun_phase ms es s : prun ms es = Some s →
  (at_phase s = Created → pending s = O ∧ live (timers s) = ∅) ∧ (gone es = true ↔ at_phase s = Gone).
Proof.
  revert s. induction es as [|e es IH] using rev_ind; [by intros s [= <-]|].
  intros s (s0 & H0 & Hs)%prun_snoc. destruct (IH s0 H0) as [IH1 IH2]. unfold gone in *. rewrite existsb_app, orb_true_iff.
  unfold pstep in Hs. destruct e as [|id| |r|]; cbn in *.
  - destruct (at_phase s0) eqn:E; simplify_eq/=. naive_solver.
  - destruct (live (timers s0) !! id) eqn:El; simplify_eq/=. split; [|naive_solver].
    intros Hc. destruct (IH1 Hc) as [_ Hl]. by rewrite Hl, lookup_empty in El.
  - destruct (at_phase s0) eqn:E; simplify_eq/=. rewrite E. naive_solver.
  - destruct (pending s0) eqn:Ep; simplify_eq/=. destruct r; cbn; (split; [|naive_solver]); intros Hc; destruct (IH1 Hc); lia.
  - destruct (at_phase s0) eqn:E; simplify_eq/=. naive_solver.
Qed.

(** The watcher runs for the data that come before the page is left. *)
Lemma wstep_watch {A} (watch : A → string → stats_row → A) es p p' time e :
  prun poll_ms es = Some (pg_polling p) → wstep watch p time e = Some p' →
  prun poll_ms (es ++ [e]) = Some (pg_polling p') ∧
  pg_state p' = match fetched e with Some v => if gone es then pg_state p else watch (pg_state p) time v | None => pg_state p end.
Proof.
  intros Hp (s & Hs & [= <-])%bind_Some. cbn. split; [unfold prun in *; rewrite foldl_app, Hp; exact Hs|].
  destruct (fetched e) as [v|] eqn:Ef; [|done]. destruct (prun_phase _ _ _ Hp) as [Hc Hg].
  destruct e as [|?| |[v'|]|]; simplify_eq/=. destruct (pending (pg_polling p)) eqn:Epend; simplify_eq/=.
  destruct (at_phase (pg_polling p)) eqn:E.
  - destruct (Hc eq_refl). congruence.
  - destruct (gone es) eqn:Eg; [naive_solver|done].
  - destruct (gone es) eqn:Eg; [done|naive_solver].
Qed.

(** *** The dashboard *)

Definition polls (es : list dash_event) : list (pevent stats_row) := omap (λ e, match e with DashPoll _ e => Some e | _ => None end) es.
Definition answers (es : list dash_event) : list cluster_answer := omap (λ e, match e with DashCluster r => Some r | _ => None end) es.

Lemma polls_app es es' : polls (es ++ es') = polls es ++ polls es'.
Proof. apply omap_app. Qed.
Lemma answers_app es es' : answers (es ++ es') = answers es ++ answers es'.
Proof. apply omap_app. Qed.

(** The totals of the cluster as the last answer gave them. *)
Definition totals (es : list dash_event) : Z * Z :=
  foldl (λ t r, match r with Resolved (_, _, conns, subs) => (conns, subs) | Rejected _ => t end) (0, 0) (answers es).

Definition dash_reading (pre : list dash_event) (e : dash_event) : list point :=
  match e with
  | DashPoll time (Settle (Resolved v)) =>
      if gone (polls pre) then []
      else [mkPoint time (num_or (totals pre).1 (connected_clients v)) (num_or (totals pre).2 (active_subscriptions v))
              (mega (memory_alloc_bytes v)) (goroutines v)]
  | _ => []
  end.

(** The last sixty of a list. *)
Definition last_sixty {A} (l : list A) : list A := drop (length l - 60) l.

Lemma push_sixty {A} (l : list A) x : push 60 (last_sixty l) x = last_sixty (l ++ [x]).
Proof. unfold last_sixty. by apply (push_window 60). Qed.

Lemma dash_ok es p : dash_run es = Some p →
  prun poll_ms (polls es) = Some (pg_polling p) ∧
  points (pg_state p).1 = last_sixty (readings dash_reading [] es) ∧
  (totalConnections (pg_state p).1, totalSubscriptions (pg_state p).1) = totals es ∧
  ((pg_state p).2 + length (answers es) = S (length (readings dash_reading [] es)))%nat.
Proof.
  revert p. induction es as [|e es IH] using rev_ind; [by intros p [= <-]|].
  intros p. unfold dash_run. rewrite foldl_app. intros (p0 & H0 & Hst)%bind_Some. destruct (IH p0 H0) as (Hp & Hpts & Htot & Hn).
  rewrite readings_snoc. cbn [app]. unfold totals. rewrite polls_app, answers_app, foldl_app, length_app. fold (totals es).
  destruct e as [time e|r]; cbn [dash_step] in Hst.
  - change (polls [DashPoll time e]) with [e]. change (answers [DashPoll time e]) with (@nil cluster_answer).
    destruct (wstep_watch dash_watch _ _ _ _ _ Hp Hst) as [Hp' Hs]. rewrite Hs. split; [done|]. clear Hp' Hs Hst.
    destruct e as [|id| |[v|m]|]; cbn; rewrite ?app_nil_r, ?Nat.add_0_r; try done. destruct (gone _); rewrite ?app_nil_r; [done|].
    unfold dash_watch. cbn. rewrite Hpts, push_sixty, length_app, <- Htot. cbn. split_and!; [done|done|lia].
  - change (polls [DashCluster r]) with (@nil (pevent stats_row)). change (answers [DashCluster r]) with [r].
    destruct (pg_state p0) as [d [|n]]; simplify_eq/=. rewrite !app_nil_r, <- Htot. split; [done|].
    destruct r as [[[[ns self] conns] subs]|]; cbn; split_and!; try done; lia.
Qed.

(** *** The metrics *)

Definition metric_reading (pre : list (string * pevent stats_row)) (e : string * pevent stats_row) : list metric :=
  match fetched e.2 with
  | Some v => if gone pre.*2 then [] else [metric_of e.1 v]
  | None => []
  end.

Lemma metrics_ok es p : metrics_run es = Some p →
  prun poll_ms es.*2 = Some (pg_polling p) ∧ pg_state p = mkBuffer 60 (last_sixty (readings metric_reading [] es)).
Proof.
  revert p. induction es as [|[time e] es IH] using rev_ind; [by intros p [= <-]|].
  intros p. unfold metrics_run. rewrite foldl_app. intros (p0 & H0 & Hst)%bind_Some. destruct (IH p0 H0) as (Hp & Hb). cbn in Hst.
  destruct (wstep_watch metrics_watch _ _ _ _ _ Hp Hst) as [Hp' Hs]. rewrite fmap_app. split; [exact Hp'|].
  rewrite Hs, Hb, readings_snoc. set (rs := readings metric_reading [] es). unfold metric_reading. cbn -[gone]. destruct (fetched e); [|by rewrite app_nil_r].
  destruct (gone _); [by rewrite app_nil_r|]. unfold metrics_watch, buffer_push. cbn. by rewrite push_sixty.
Qed.

(** *** The cluster *)

Definition shown_migrations (es : list cluster_event) : list MigrationRow :=
  foldl (λ l e, match e with CMigrations (Resolved l) => l | CMigrations (Rejected _) => [] | _ => l end) [] es.
Definition shown_nodes (es : list cluster_event) : list NodeRow * string :=
  foldl (λ x e, match e with CNodes (Resolved (ns, self)) => (default [] ns, self) | _ => x end) ([], "") es.

Lemma cluster_ok es c : cluster_run es = Some c →
  migrations (cv_page c) = shown_migrations es ∧ (nodes (cv_page c), selfId (cv_page c)) = shown_nodes es ∧
  (cv_migrations c = O → migLoading (cv_page c) = false).
Proof.
  revert c. unfold shown_migrations, shown_nodes. induction es as [|e es IH] using rev_ind; [by intros c [= <-]|].
  intros c. unfold cluster_run. rewrite foldl_app. intros (c0 & H0 & Hst)%bind_Some. destruct (IH c0 H0) as (Hm & Hn & Hl).
  rewrite !foldl_app. cbn. destruct e as [|[[ns self]|]|r| |r]; cbn in Hst |- *; repeat case_match; simplify_eq/=; split_and!; try done; try congruence.
Qed.

(** C21: The pages show what has come. In every state that the dashboard can reach, its charts hold the
    last sixty readings, one for each answer of the statistics that came before the page was left, in
    order, with the totals of the cluster where the last answer about the cluster gave them and the
    numbers of the node otherwise; every reading has asked for the cluster once more; the statistics
    shown are the last that came, and one timer of five seconds runs exactly while the page is shown. The
    charts of the metrics hold the last sixty readings likewise. The page of the cluster shows the nodes
    and the migrations of the last answers (no migrations after a failure), and is not loading when no
    request for them is under way. *)
Theorem pages_exact :
  (∀ es p, dash_run es = Some p →
     points (pg_state p).1 = last_sixty (readings dash_reading [] es) ∧
     ((pg_state p).2 + length (answers es) = S (length (readings dash_reading [] es)))%nat ∧
     data (pg_polling p) = last_data (polls es) ∧ error (pg_polling p) = last_error (polls es) ∧
     timer_ok poll_ms (pg_polling p)) ∧
  (∀ es p, metrics_run es = Some p →
     buf_points (pg_state p) = last_sixty (readings metric_reading [] es) ∧
     data (pg_polling p) = last_data es.*2 ∧ timer_ok poll_ms (pg_polling p)) ∧
  (∀ es c, cluster_run es = Some c →
     migrations (cv_page c) = shown_migrations es ∧ (nodes (cv_page c), selfId (cv_page c)) = shown_nodes es ∧
     (cv_migrations c = O → migLoading (cv_page c) = false)).
Proof.
  split_and!.
  - intros es p (Hp & Hpts & _ & Hn)%dash_ok. destruct (usePolling_exact _ _ _ Hp) as (? & ? & _ & ?). done.
  - intros es p (Hp & ->)%metrics_ok. destruct (usePolling_exact _ _ _ Hp) as (? & _ & _ & ?). done.
  - apply cluster_ok.
Qed.

Definition some_stats (n : Z) : stats_row := mkStatsRow n 1 0 1 60 9 2097152 4194304 1000000 "n1".

Definition some_events : list dash_event :=
  [DashPoll "9:00" Mount; DashPoll "9:01" (Settle (Resolved (some_stats 4))); DashCluster (Resolved (None, "n1", 7, 0));
   DashPoll "9:02" (Tick 1); DashPoll "9:02" (Settle (Resolved (some_stats 5))); DashPoll "9:03" (Tick 1); DashPoll "9:03" Unmount;
   DashPoll "9:04" (Settle (Resolved (some_stats 6)))].

Lemma pages_exact_witness :
  ∃ p, dash_run some_events = Some p ∧
    points (pg_state p).1 = [mkPoint "9:01" 4 1 2 9; mkPoint "9:02" 7 1 2 9] ∧ timer_ok poll_ms (pg_polling p).
Proof.
  destruct (dash_run some_events) as [p|] eqn:E; [|vm_compute in E; discriminate E]. exists p. split; [reflexivity|].
  pose proof (proj1 pages_exact some_events p E) as (Hp & _ & _ & _ & Ht). rewrite Hp. split; [vm_compute; reflexivity|exact Ht].
Defined.

(** The development server sends the requests of the pages to port 8080, where a broker with the default
    settings does not serve its API. *)
Lemma dev_server_target path : dev_target ("/api/v1" +:+ path) = Some "http://localhost:8080".
Proof. unfold dev_target. cbn. done. Qed.

End AdminPages.
