(* ===== verification/AdminTemplates.v ===== *)
(** * What the admin pages show ([web/admin/src/views], [layouts]: the templates)

    A template is a function from the state of its page to a tree of elements. The tree keeps the
    texts (of the catalogues, or words of the template), the attributes that depend on the state,
    and the handlers, as the action they stand for; styles, sizes and icons are left out. A table
    is its header cells and a row of cells per record. *)
From S2P Require Import Prelude Json Doubles AdminLocales AdminViews AdminPages.
Import AdminLocales AdminViews AdminPages.

Module AdminTemplates.

Inductive attr (A : Type) :=
  | Bind (name value : string)
  | BindT (name key : string) (params : list (string * string))
  | Flag (name : string) (b : bool)
  | On (event : string) (a : A).
Arguments Bind {A} name value.
Arguments BindT {A} name key params.
Arguments Flag {A} name b.
Arguments On {A} event a.

Inductive el (A : Type) :=
  | Txt (s : string)
  | T (key : string) (params : list (string * string))
  | El (tag : string) (attrs : list (attr A)) (kids : list (el A)).
Arguments Txt {A} s.
Arguments T {A} key params.
Arguments El {A} tag attrs kids.

Definition t {A} (key : string) : el A := T key [].
Definition when {B} (b : bool) (l : list B) : list B := if b then l else [].

(** [el-table]: columns, each with its header and the cell of a record. *)
Definition table {A R} (attrs : list (attr A)) (row_attrs : R → list (attr A))
    (columns : list (el A * (R → list (el A)))) (rows : list R) : el A :=
  El "el-table" attrs
    (El "tr" [] ((λ c, El "th" [] [c.1]) <$> columns) ::
     ((λ r, El "tr" (row_attrs r) ((λ c, El "td" [] (c.2 r)) <$> columns)) <$> rows)).

Definition item {A} (key : string) (kids : list (el A)) : el A := El "el-descriptions-item" [BindT "label" key []] kids.
Definition tag_type (b : bool) (yes no : string) : string := if b then yes else no.
Definition bool_text (b : bool) : string := if b then "true" else "false".
(** A reference that is not set is shown as nothing. *)
Definition opt_text (o : option string) : string := default "" o.

(** ** [Devices.vue] *)

Inductive devices_action :=
  | ASetSearch
  | ALoad
  | ARefresh
  | AShow (id : string)
  | ADisconnect (id : string).

Section Devices.
Context (toLowerCase formatTime : string → string).

Definition search_bar (p : devices_page) : list (el devices_action) :=
  [El "el-input" [Bind "v-model" (searchText p); BindT "placeholder" "devices.searchPlaceholder" [];
                  On "input" ASetSearch; On "clear" ALoad; On "keyup.enter" ALoad] [];
   El "el-button" [Bind "type" "primary"; On "click" ALoad] [t "common.search"];
   El "el-button" [On "click" ARefresh] [t "common.refresh"]].

Definition topics_cell (r : DeviceRow) : list (el devices_action) :=
  match subscriptions r with
  | Some (_ :: _ as l) => (λ tp, El "el-tag" [Bind "type" "warning"] [Txt tp]) <$> l
  | _ => [El "span" [] [t "common.none"]]
  end.

Definition node_cell (self : string) (r : DeviceRow) : list (el devices_action) :=
  [El "el-tag" [Bind "type" (tag_type (bool_decide (node_id r = Some self)) "success" "info")] [Txt (opt_text (node_id r))]].

Definition disconnect_cell (r : DeviceRow) : list (el devices_action) :=
  [El "el-popconfirm" [BindT "title" "devices.confirmDisconnect" []; BindT "confirm-button-text" "common.confirm" [];
                       BindT "cancel-button-text" "common.cancel" []; On "confirm" (ADisconnect (client_id r))]
     [El "el-button" [Bind "type" "danger"] [t "devices.disconnect"]]].

Definition device_columns (p : devices_page) : list (el devices_action * (DeviceRow → list (el devices_action))) :=
  [(t "devices.deviceId", λ r, [El "span" [] [Txt (client_id r)]])] ++
  when (clusterMode p) [(t "devices.nodeLocation", node_cell (currentNodeId p))] ++
  [(t "devices.subscribedTopics", topics_cell);
   (t "devices.ipAddress", λ r, [Txt (remote_addr r)]);
   (t "devices.protocolVersion", λ r, [Txt (formatProtocol (protocol_version r))]);
   (t "devices.connectTime", λ r, [Txt (formatTime (connected_at r))]);
   (t "common.operations", disconnect_cell)].

Definition session_block (d : drawer DeviceDetailRow) (s : SessionRow) : el devices_action :=
  El "div" []
    [El "h4" [] [t "devices.sessionInfo"];
     El "el-descriptions" []
       [El "el-descriptions-item" [Bind "label" "Clean Start"] [Txt (bool_text (clean_start s))];
        El "el-descriptions-item" [Bind "label" "过期时间"] [Txt (pretty (expiry_interval s) +:+ "s")]];
     El "h4" [] [t "devices.subscription"];
     table [] (λ _, []) [(t "devices.topic", λ r, [Txt r.1]); (Txt "QoS", λ r, [Txt (pretty r.2)])]
       (subscriptionList d)].

Definition detail_block (d : drawer DeviceDetailRow) (v : DeviceDetailRow) : el devices_action :=
  El "div" [Flag "v-loading" (detailLoading d)]
    ([El "el-descriptions" []
        [item "devices.deviceId" [Txt (dd_client_id v)];
         item "devices.username" [Txt (dd_username v)];
         item "devices.ipAddress" [Txt (dd_remote_addr v)];
         item "devices.protocolVersion" [Txt (formatProtocol (dd_protocol_version v))];
         item "devices.connectTime" [Txt (formatTime (dd_connected_at v))];
         item "devices.keepAlive" [Txt (pretty (dd_keep_alive v) +:+ "s")];
         item "common.status"
           [El "el-tag" [Bind "type" (tag_type (dd_connected v) "success" "danger")]
              [t (if dd_connected v then "common.online" else "common.offline")]]]] ++
     match dd_session v with Some s => [session_block d s] | None => [] end).

Definition devices_template (p : devices_page) (d : drawer DeviceDetailRow) : el devices_action :=
  let rows := filteredDevices toLowerCase p in
  El "div" []
    [El "el-card" []
       (search_bar p ++
        [table [Flag "v-loading" (dev_loading p)] (λ r, [On "row-click" (AShow (client_id r))]) (device_columns p) rows;
         El "div" [] [T "devices.totalDevices" [("count", pretty (len rows))]]]);
     El "el-drawer" [Flag "v-model" (drawerVisible d); BindT "title" "devices.deviceDetail" [("id", selectedId d)]]
       (match deviceDetail d with Some v => [detail_block d v] | None => [] end)].

End Devices.

(** ** [Cluster.vue] *)

Inductive cluster_action := AOpenAdmin (url : string) | ACancel (id : string).

Definition node_card {M} (p : cluster_page M) (n : NodeRow) : el cluster_action :=
  let own := bool_decide (nr_id n = selfId p) in
  El "el-card" []
    ([El "el-tag" [Bind "type" (tag_type own "success" "info")] [t (if own then "cluster.thisNode" else "common.online")];
      El "span" [] [Txt (nr_id n)];
      El "el-descriptions" []
        [item "cluster.address" [Txt (nr_host n)];
         item "cluster.mqttPort" [Txt (pretty (nr_mqttPort n))];
         item "cluster.httpPort" [Txt (if nr_httpPort n =? 0 then "-" else pretty (nr_httpPort n))];
         item "cluster.gossip" [Txt (pretty (nr_gossipPort n))]]] ++
     when (negb (nr_httpPort n =? 0) && negb own)
       [El "el-button" [Bind "type" "primary"; On "click" (AOpenAdmin (openNodeAdmin n))] [t "cluster.openAdmin"]]).

Definition cancel_cell (r : MigrationRow) : list (el cluster_action) :=
  [El "el-popconfirm" [BindT "title" "cluster.cancelMigration" []; On "confirm" (ACancel (mr_id r))]
     [El "el-button" [Bind "type" "warning"; Flag "disabled" (negb (bool_decide (mr_status r = "running")))]
        [t "common.cancel"]]].

Definition migration_columns : list (el cluster_action * (MigrationRow → list (el cluster_action))) :=
  [(t "cluster.id", λ r, [Txt (mr_id r)]);
   (t "cluster.device", λ r, [Txt (mr_device_id r)]);
   (t "cluster.sourceNode", λ r, [Txt (mr_source_node r)]);
   (t "cluster.targetNode", λ r, [Txt (mr_target_node r)]);
   (t "common.status", λ r, [El "el-tag" [Bind "type" (statusTagType (mr_status r))] [Txt (mr_status r)]]);
   (t "common.progress", λ r, [El "el-progress" [Bind "percentage" (pretty (mr_progress r))] []]);
   (t "common.operations", cancel_cell)].

Definition cluster_template (p : cluster_page MigrationRow) : el cluster_action :=
  El "div" []
    [El "el-row" [] (node_card p <$> nodes p);
     El "el-card" [BindT "header" "cluster.migrationTasks" []]
       (table [Flag "v-loading" (migLoading p)] (λ _, []) migration_columns (migrations p) ::
        when (negb (migLoading p) && (len (migrations p) =? 0))
          [El "el-empty" [BindT "description" "cluster.noMigrations" []] []])].

(** ** [Dashboard.vue] and [Metrics.vue], which have no handlers *)

Definition chart_card {A} (key option_ : string) : el A :=
  El "el-card" [BindT "header" key []] [El "v-chart" [Bind "option" option_] []].
Definition error_alert {A} (err : option string) : list (el A) :=
  match err with
  | Some e => when (negb (bool_decide (e = ""))) [El "el-alert" [Bind "title" e; Bind "type" "error"] []]
  | None => []
  end.

Definition node_stats_columns {A} (self : string) : list (el A * (NodeStatsRow → list (el A))) :=
  [(t "common.node",
    λ r, [El "el-tag" [Bind "type" (tag_type (bool_decide (ns_node_id r = self)) "success" "info")] [Txt (ns_node_id r)]]);
   (t "dashboard.connections", λ r, [Txt (pretty (ns_connections r))]);
   (t "dashboard.subscriptions", λ r, [Txt (pretty (ns_subscriptions r))]);
   (t "dashboard.retained", λ r, [Txt (pretty (ns_retained r))])].

Definition dashboard_template {A} (d : dashboard) (stats : option stats_row) (err : option string) : el A :=
  El "div" []
    ([El "el-row" [] ((λ c, El "el-card" [] [El "div" [] [Txt (pretty c.2)]; El "div" [] [t c.1]]) <$> statCards d stats)] ++
     when (1 <? len (clusterNodes d))
       [El "el-card" [] [t "dashboard.nodeOverview";
                         table [] (λ _, []) (node_stats_columns (selfNodeId d)) (clusterNodes d)]] ++
     [chart_card "dashboard.connectionsTrend" "connectionsChartOption";
      chart_card "dashboard.memoryTrend" "memoryChartOption";
      chart_card "dashboard.goroutineTrend" "goroutineChartOption";
      chart_card "dashboard.subscriptionsTrend" "subsChartOption"] ++
     error_alert err).

Definition metrics_template {A} (stats : option stats_row) (err : option string) : el A :=
  El "div" []
    ([El "el-card" [] [Txt (uptimeDisplay stats); t "metrics.uptime"];
      El "el-card" [] [Txt (latestGoroutines stats); Txt "Goroutines"];
      El "el-card" [] [Txt (latestGcPause stats); t "metrics.gcPause"];
      chart_card "metrics.memoryAlloc" "allocChartOption"; chart_card "metrics.memorySys" "sysChartOption";
      chart_card "metrics.goroutineCount" "goroutineChartOption"; chart_card "metrics.gcPauseTime" "gcChartOption"] ++
     error_alert err).

(** ** [MainLayout.vue] *)

Inductive layout_action := AToggle | ALang (lang : string) | ANavigate (path : string).

Definition menu_item (path key : string) : el layout_action :=
  El "el-menu-item" [Bind "index" path; On "click" (ANavigate path)] [t key].

Definition page_title (path : string) : el layout_action :=
  match pageTitle path with Some k => t k | None => Txt "DMQTT" end.

Definition lang_button (l : layout) (lang word : string) : el layout_action :=
  El "el-button" [Bind "type" (tag_type (bool_decide (locale l = lang)) "primary" "default"); On "click" (ALang lang)] [Txt word].

Definition layout_template (l : layout) (path : string) (page : el layout_action) : el layout_action :=
  El "el-container" []
    [El "el-aside" [Bind "width" (if isCollapsed l then "64px" else "200px")]
       [El "span" [] [Txt (if isCollapsed l then "D" else "DMQTT")];
        El "el-menu" [Bind "default-active" path; Flag "collapse" (isCollapsed l)]
          [menu_item "/" "nav.dashboard"; menu_item "/devices" "nav.devices";
           menu_item "/cluster" "nav.cluster"; menu_item "/metrics" "nav.metrics"]];
     El "el-container" []
       [El "el-header" []
          ([El "el-icon" [On "click" AToggle] [El (if isCollapsed l then "Expand" else "Fold") [] []];
            El "span" [] [page_title path];
            El "el-button-group" [] [lang_button l "zh" "中文"; lang_button l "en" "EN"]] ++
           when (negb (bool_decide (nodeId l = "")))
             [El "el-tag" [Bind "type" "success"] [t "common.node"; Txt (": " +:+ nodeId l)]]);
        El "el-main" [] [page]]].

(** ** Texts *)

Definition attr_key {A} (a : attr A) : option (string * list string) :=
  match a with BindT _ key params => Some (key, params.*1) | _ => None end.

(** The texts that a tree asks for, each with the names of the parameters it passes. *)
Fixpoint keys {A} (e : el A) : list (string * list string) :=
  match e with
  | Txt _ => []
  | T key params => [(key, params.*1)]
  | El _ attrs kids => omap attr_key attrs ++ flat_map keys kids
  end.

(** Both catalogues have the text, with just these parameters. *)
Definition in_catalogue (cat : list (string * list (string * string))) (kp : string * list string) : bool :=
  match text cat kp.1 with Some s => bool_decide (placeholders s = kp.2) | None => false end.
Definition translated (kp : string * list string) : bool := in_catalogue en kp && in_catalogue zh kp.

Definition good {A} (e : el A) : Prop := Forall (λ kp, translated kp = true) (keys e).
Definition good_attr {A} (a : attr A) : Prop := from_option (λ kp, translated kp = true) True (attr_key a).

Lemma good_Txt {A} s : good (A := A) (Txt s).
Proof. constructor. Qed.
Lemma good_T {A} key params : translated (key, params.*1) = true → good (A := A) (T key params).
Proof. intros H. by repeat constructor. Qed.
Lemma good_El {A} tag (attrs : list (attr A)) kids : Forall good_attr attrs → Forall good kids → good (El tag attrs kids).
Proof.
  intros Ha Hk. unfold good. cbn. apply Forall_app. split.
  - induction Ha as [|a attrs Hx Ha IH]; [constructor|]. cbn. unfold good_attr in Hx.
    destruct (attr_key a); [constructor|]; done.
  - induction Hk as [|e kids He Hk IH]; [constructor|]. cbn. by apply Forall_app.
Qed.
Lemma good_Bind {A} name v : good_attr (A := A) (Bind name v).
Proof. done. Qed.
Lemma good_Flag {A} name b : good_attr (A := A) (Flag name b).
Proof. done. Qed.
Lemma good_On {A} ev (a : A) : good_attr (On ev a).
Proof. done. Qed.
Lemma good_BindT {A} name key params : translated (key, params.*1) = true → good_attr (A := A) (BindT name key params).
Proof. done. Qed.

Lemma Forall_when {B} (P : B → Prop) b l : Forall P l → Forall P (when b l).
Proof. intros H. by destruct b. Qed.
Lemma good_fmap {A R} (f : R → el A) l : (∀ r, good (f r)) → Forall good (f <$> l).
Proof. intros H. apply Forall_fmap, Forall_true. done. Qed.
Lemma good_table {A R} (attrs : list (attr A)) row_attrs columns (rows : list R) :
  Forall good_attr attrs → (∀ r, Forall good_attr (row_attrs r)) →
  Forall (λ c : el A * (R → list (el A)), good c.1 ∧ ∀ r, Forall good (c.2 r)) columns →
  good (table attrs row_attrs columns rows).
Proof.
  intros Ha Hr Hc. rewrite Forall_and in Hc. destruct Hc as [H1 H2]. apply good_El; [done|]. constructor.
  - apply good_El; [constructor|]. apply Forall_fmap. eapply Forall_impl; [exact H1|]. intros c Hg.
    apply good_El; [constructor|]. by repeat constructor.
  - apply good_fmap. intros r. apply good_El; [done|]. apply Forall_fmap. eapply Forall_impl; [exact H2|].
    intros c Hg. apply good_El; [constructor|]. apply Hg.
Qed.

(** Walk through a tree: its structure by the lemmas, its texts by looking them up. *)
Ltac view_step :=
  lazymatch goal with
  | |- translated _ = true => vm_compute; reflexivity
  | |- good (Txt _) => apply good_Txt
  | |- good (T _ _) => apply good_T
  | |- good (fst _) => progress cbn [fst]
  | |- good (table _ _ _ _) => apply good_table
  | |- good (El _ _ _) => apply good_El
  | |- good_attr (Bind _ _) => apply good_Bind
  | |- good_attr (Flag _ _) => apply good_Flag
  | |- good_attr (On _ _) => apply good_On
  | |- good_attr (BindT _ _ _) => apply good_BindT
  | |- Forall _ [] => constructor
  | |- Forall _ (_ :: _) => constructor
  | |- Forall _ (_ ++ _) => apply Forall_app_2
  | |- Forall _ (when _ _) => apply Forall_when
  | |- Forall good (_ <$> _) => apply good_fmap
  | |- _ ∧ _ => split
  | |- ∀ _, _ => intro; cbn
  end.
Ltac view := repeat view_step.

Lemma devices_good lc ft p d : good (devices_template lc ft p d).
Proof.
  unfold devices_template, search_bar, device_columns, disconnect_cell, node_cell, t. view.
  - unfold topics_cell, t. destruct (subscriptions r) as [[|tp l]|]; view.
  - destruct (deviceDetail d) as [v|]; unfold detail_block, item, t; view.
    + destruct (dd_connected v); view.
    + destruct (dd_session v) as [s|]; unfold session_block, t; view.
Qed.

Lemma cluster_good p : good (cluster_template p).
Proof.
  unfold cluster_template, node_card, migration_columns, cancel_cell, item, t. view.
  by case_bool_decide; vm_compute.
Qed.

Lemma error_good {A} err : Forall (good (A := A)) (error_alert err).
Proof. unfold error_alert. destruct err; view. Qed.

Lemma stat_cards_good {A} d stats (f : string * Z → el A) :
  (∀ c, translated (c.1, []) = true → good (f c)) → Forall good (f <$> statCards d stats).
Proof. intros Hf. apply Forall_fmap. destruct stats; repeat constructor; apply Hf; vm_compute; reflexivity. Qed.

Lemma dashboard_good {A} d stats err : good (A := A) (dashboard_template d stats err).
Proof.
  unfold dashboard_template, chart_card, node_stats_columns, t. apply good_El; [constructor|].
  apply Forall_app_2; [|view; apply error_good]. constructor; [|constructor].
  apply good_El; [constructor|]. apply stat_cards_good. intros c Hc. view. exact Hc.
Qed.

Lemma metrics_good {A} stats err : good (A := A) (metrics_template stats err).
Proof. unfold metrics_template, chart_card, t. view. apply error_good. Qed.

Lemma layout_good l path page : good page → good (layout_template l path page).
Proof.
  intros Hp. unfold layout_template, menu_item, lang_button, page_title, pageTitle, t. view; [|done].
  cbn. repeat case_match; simplify_eq; view.
Qed.

(** The messages that pop up. *)
Definition toast_key (x : toast) : string * list string :=
  match x with ToastSuccess key params => (key, params.*1) | ToastError key => (key, []) end.
Definition good_toast (x : toast) : Prop := translated (toast_key x) = true.

Lemma good_success key params : translated (key, params.*1) = true → good_toast (ToastSuccess key params).
Proof. done. Qed.
Lemma good_error key : translated (key, []) = true → good_toast (ToastError key).
Proof. done. Qed.

Lemma restart_toasts p ms n x : toasts (restart p ms n x) = toasts p ++ [x].
Proof. done. Qed.

Lemma dstep_toasts p e p' : dstep p e = Some p' → Forall good_toast (toasts p) → Forall good_toast (toasts p').
Proof.
  intros Hs Hp.
  assert (∀ x, good_toast x → Forall good_toast (toasts p ++ [x])) as Hadd.
  { intros x Hx. apply Forall_app_2; [done|by repeat constructor]. }
  destruct e as [id| | |id r|d r|r|]; cbn in Hs; repeat case_match; simplify_eq; try done.
  - destruct r; cbn; apply Hadd; vm_compute; reflexivity.
  - destruct r; cbn; [done|]. apply Hadd. vm_compute. reflexivity.
  - unfold load_end. cbn -[load_ok load_failed]. destruct r as [v|m].
    + unfold load_ok. cbn. destruct (0 <? consecutiveErrors p); [|done]. apply Hadd. vm_compute. reflexivity.
    + unfold load_failed. destruct (consecutiveErrors p + 1 =? 1); [|done]. apply Hadd. vm_compute. reflexivity.
Qed.

Lemma drun_toasts es p : drun es = Some p → Forall good_toast (toasts p).
Proof.
  revert p. unfold drun. induction es as [|e es IH] using rev_ind; intros p.
  { intros [= <-]. constructor. }
  rewrite foldl_app. cbn. intros (p0 & Hp0 & Hs)%bind_Some. eapply dstep_toasts; eauto.
Qed.

Lemma cluster_run_toasts es v : cluster_run es = Some v → Forall good_toast (cl_toasts (cv_page v)).
Proof.
  revert v. unfold cluster_run. induction es as [|e es IH] using rev_ind; intros v.
  { intros [= <-]. constructor. }
  rewrite foldl_app. cbn. intros (v0 & Hv0 & Hs)%bind_Some. specialize (IH v0 Hv0).
  assert (∀ x, good_toast x → Forall good_toast (cl_toasts (cv_page v0) ++ [x])) as Hadd.
  { intros x Hx. apply Forall_app_2; [done|by repeat constructor]. }
  unfold cluster_step in Hs. destruct e as [|r|r| |r]; cbn in Hs; case_match; simplify_eq; try done; cbn.
  - destruct r as [[ns self]|]; [done|]. cbn. apply Hadd. vm_compute. reflexivity.
  - destruct r; cbn; apply Hadd; vm_compute; reflexivity.
Qed.



(** ** Actions *)

Definition is_disabled {A} (e : el A) : bool :=
  match e with
  | El _ attrs _ => existsb (λ a, match a with Flag "disabled" b => b | _ => false end) attrs
  | _ => false
  end.
Definition attr_action {A} (a : attr A) : option A := match a with On _ x => Some x | _ => None end.

(** The actions that a user can take on a tree. A disabled element takes none, and a confirmation
    whose button is disabled never opens. *)
Fixpoint actions {A} (e : el A) : list A :=
  match e with
  | El _ attrs kids =>
      (if is_disabled e || existsb is_disabled kids then [] else omap attr_action attrs) ++ flat_map actions kids
  | _ => []
  end.

Lemma flat_map_fmap {A B C} (f : A → B) (g : B → list C) l : flat_map g (f <$> l) = flat_map (λ x, g (f x)) l.
Proof. induction l as [|x l IH]; [done|]. cbn. by rewrite <- IH. Qed.
Lemma flat_map_nil {A B} (f : A → list B) l : (∀ x, f x = []) → flat_map f l = [].
Proof. intros H. induction l as [|x l IH]; [done|]. cbn. by rewrite H, IH. Qed.
Lemma flat_map_filter {A B} (P : A → Prop) `{∀ x, Decision (P x)} (f : A → list B) (g : A → B) l :
  (∀ x, f x = if decide (P x) then [g x] else []) → flat_map f l = g <$> filter P l.
Proof.
  intros Hf. induction l as [|x l IH]; [done|]. cbn [flat_map]. rewrite Hf, IH, filter_cons. by case_decide.
Qed.
Lemma existsb_disabled_fmap {A R} (f : R → el A) l : (∀ r, is_disabled (f r) = false) →
  existsb is_disabled (f <$> l) = false.
Proof. intros H. induction l as [|x l IH]; [done|]. rewrite fmap_cons. cbn [existsb]. by rewrite H, IH. Qed.

(** A table takes the actions of its rows, and of the cells of each row. *)
Lemma actions_table {A R} (attrs : list (attr A)) row_attrs columns (rows : list R) :
  omap attr_action attrs = [] → (∀ r : R, is_disabled (El "tr" (row_attrs r) []) = false) →
  (∀ c : el A * (R → list (el A)), c ∈ columns → actions c.1 = []) →
  actions (table attrs row_attrs columns rows) =
  flat_map (λ r, omap attr_action (row_attrs r) ++ flat_map (λ c, actions (El "td" [] (c.2 r))) columns) rows.
Proof.
  intros Ha Hr Hc. unfold table. cbn [actions flat_map]. rewrite Ha.
  assert (∀ b : bool, (if b then [] else @nil A) = []) as Hif by by intros [].
  rewrite Hif. cbn [app].
  replace (flat_map actions ((λ c : el A * (R → list (el A)), El "th" [] [c.1]) <$> columns)) with (@nil A); cycle 1.
  { rewrite flat_map_fmap. symmetry. induction columns as [|c cs IH]; [done|]. cbn.
    rewrite Hif, Hc by set_solver. cbn. apply IH. intros c' Hc'. apply Hc. set_solver. }
  rewrite Hif. cbn [app]. rewrite flat_map_fmap. induction rows as [|r rows IH]; [done|]. cbn [flat_map].
  rewrite IH. f_equal. cbn [actions]. 
  match goal with |- context [is_disabled (El "tr" ?a ?k)] =>
    change (is_disabled (El "tr" a k)) with (is_disabled (El "tr" a [])) end.
  rewrite Hr, existsb_disabled_fmap by done. cbn [orb]. f_equal. by rewrite flat_map_fmap.
Qed.

Lemma if_nil {A} (b : bool) : (if b then [] else @nil A) = [].
Proof. by destruct b. Qed.

Lemma detail_actions ft d :
  flat_map actions (match deviceDetail d with Some v => [detail_block ft d v] | None => [] end) = [].
Proof.
  destruct (deviceDetail d) as [v|]; [|done]. unfold detail_block. cbn -[session_block]. rewrite if_nil. cbn -[session_block].
  destruct (dd_session v) as [s|]; [|done]. unfold session_block. cbn -[table]. rewrite !if_nil, actions_table; [|done..|].
  - cbn. rewrite !app_nil_r. by apply flat_map_nil.
  - intros c Hc. repeat (apply elem_of_cons in Hc as [->|Hc]; [done|]). by apply not_elem_of_nil in Hc.
Qed.

Lemma topics_actions r : actions (El "td" [] (topics_cell r)) = [].
Proof.
  unfold topics_cell. destruct (subscriptions r) as [[|tp l]|]; [done| |done].
  cbn -[fmap]. rewrite if_nil. cbn -[fmap]. rewrite flat_map_fmap. by apply flat_map_nil.
Qed.

Lemma cells_actions ft p r :
  flat_map (λ c, actions (El "td" [] (c.2 r))) (device_columns ft p) = [ADisconnect (client_id r)].
Proof.
  unfold device_columns. destruct (clusterMode p); cbn [when app flat_map fst snd]; rewrite topics_actions; done.
Qed.

Lemma columns_plain ft p c : c ∈ device_columns ft p → actions c.1 = [].
Proof.
  unfold device_columns. destruct (clusterMode p); cbn [when app]; intros Hc;
    repeat (apply elem_of_cons in Hc as [->|Hc]; [done|]); by apply not_elem_of_nil in Hc.
Qed.

Lemma node_card_actions (c : cluster_page MigrationRow) n :
  actions (node_card c n) =
  if decide (nr_httpPort n ≠ 0 ∧ nr_id n ≠ selfId c) then [AOpenAdmin (openNodeAdmin n)] else [].
Proof.
  unfold node_card. destruct (Z.eqb_spec (nr_httpPort n) 0) as [Hp|Hp]; case_bool_decide as Ho; cbn;
    (case_decide; [try naive_solver|try naive_solver]); done.
Qed.

Lemma cancel_actions r :
  flat_map (λ c, actions (El "td" [] (c.2 r))) migration_columns =
  if decide (mr_status r = "running") then [ACancel (mr_id r)] else [].
Proof.
  unfold migration_columns. cbn. case_bool_decide; case_decide; done.
Qed.

Lemma cluster_actions (c : cluster_page MigrationRow) :
  actions (cluster_template c) =
    ((λ n, AOpenAdmin (openNodeAdmin n)) <$> filter (λ n, nr_httpPort n ≠ 0 ∧ nr_id n ≠ selfId c) (nodes c)) ++
    ((λ r, ACancel (mr_id r)) <$> filter (λ r, mr_status r = "running") (migrations c)).
Proof.
  unfold cluster_template. cbn -[table node_card fmap].
  rewrite !if_nil, actions_table; [|done|done|].
  - cbn [app]. rewrite flat_map_fmap, (flat_map_filter _ _ _ _ (node_card_actions c)). f_equal.
    replace (flat_map actions (when _ _)) with (@nil cluster_action) by (unfold when; by case_match).
    rewrite !app_nil_r. apply (flat_map_filter (λ r, mr_status r = "running")). intros r. cbn [app omap list_omap].
    apply cancel_actions.
  - intros x Hx. unfold migration_columns in Hx.
    repeat (apply elem_of_cons in Hx as [->|Hx]; [done|]). by apply not_elem_of_nil in Hx.
Qed.

(** C25: the pages offer the right actions: the device page offers, for each device that the
    search leaves and in the order of the list, to show it and to disconnect it, besides searching
    and refreshing; the cluster page offers to open the pages of exactly the other nodes that have
    an HTTP port, and to cancel exactly the migrations that are running. *)
Theorem offered_actions (lc ft : string → string) (p : devices_page) (d : drawer DeviceDetailRow)
    (c : cluster_page MigrationRow) :
  actions (devices_template lc ft p d) =
    [ASetSearch; ALoad; ALoad; ALoad; ARefresh] ++
    flat_map (λ r, [AShow (client_id r); ADisconnect (client_id r)]) (filteredDevices lc p) ∧
  actions (cluster_template c) =
    ((λ n, AOpenAdmin (openNodeAdmin n)) <$> filter (λ n, nr_httpPort n ≠ 0 ∧ nr_id n ≠ selfId c) (nodes c)) ++
    ((λ r, ACancel (mr_id r)) <$> filter (λ r, mr_status r = "running") (migrations c)).
Proof.
  split.
  - unfold devices_template. cbn -[table device_columns detail_block].
    rewrite actions_table; [|done|done|apply columns_plain].
    rewrite !if_nil, detail_actions. cbn [app]. rewrite !app_nil_r.
    do 5 f_equal. induction (filteredDevices lc p) as [|r l IH]; [done|]. cbn [flat_map].
    by rewrite cells_actions, IH.
  - apply cluster_actions.
Qed.

End AdminTemplates.
