(* ===== verification/AdminSite.v ===== *)
(** * The admin pages and the server together

    The site that the server embeds, the router of the pages and the menu of their layout
    ([embed.go], [vite.config.ts], [router/index.ts], [MainLayout.vue]), and what an action of a page
    does at the handlers of the API: each theorem runs a page's request through the client's
    functions to the handler that answers it. *)
From S2P Require Import Prelude Json Doubles Storage Topic Subscriptions Delivery Offline OfflineFacts Sessions Retain Wills Packets Broker BrokerFacts Connections Migration Ring AuditLog HttpApi Routes AdminLocales AdminApi AdminViews AdminTemplates.
Import HttpApi AdminApi AdminViews AdminTemplates.

Module AdminSite.

(** ** The site *)

(** The directory [admin] that is embedded. *)
Definition admin_files : list string :=
  ["index.html"; "assets/Cluster-DzQ5N19g.js"; "assets/Dashboard-DrNfsVYa.js"; "assets/Devices-DiRGSuw6.js";
   "assets/Metrics-DM8Tw_pK.js"; "assets/index-BWB6CGt2.js"; "assets/index-EQTwsGvA.css";
   "assets/useTimeSeriesBuffer-DhHgpwHS.js"].

(** [base] of [vite.config.ts], and the argument of [createWebHistory]. *)
Definition vite_base : string := "/admin/".
Definition history_base : string := "/admin/".

(** The view that the router shows for a path below the base. *)
Definition resolve (path : string) : option view :=
  match path with
  | String "/" rest => assoc rest routes
  | _ => None
  end.

(** The address that the browser asks the server for when a path is opened directly. *)
Definition address (path : string) : string := history_base +:+ TrimPrefix path "/".

Lemma opens_In files f : f ∈ files → opens files f = true.
Proof.
  intros Hf. apply existsb_exists. exists f. split; [by apply list_elem_of_In|]. by rewrite bool_decide_true.
Qed.

Lemma adminHandler_path files path :
  adminHandler files ("/admin/" +:+ path) =
  if bool_decide (path = "") then fileServer files "" else
  if opens files path then fileServer files path else SFile "index.html".
Proof.
  unfold adminHandler. rewrite TrimPrefix_app. case_bool_decide as Hp.
  - subst path. destruct (opens files "index.html"); done.
  - destruct (opens files path); [|done]. by rewrite TrimPrefix_app.
Qed.

Lemma layout_actions l at_path :
  actions (layout_template l at_path (El "router-view" [] [])) =
  [ANavigate "/"; ANavigate "/devices"; ANavigate "/cluster"; ANavigate "/metrics"; AToggle; ALang "zh"; ALang "en"].
Proof.
  unfold layout_template, lang_button, page_title, t.
  destruct (pageTitle at_path); destruct (bool_decide (nodeId l = "")); done.
Qed.

(** Every address of the site leads to a page: each entry of the menu, in every state of the
    layout, is a path that the router shows a view for and that has a title, and asking the
    server for it directly gives the start page, which holds the router; the same holds of every
    path that no embedded file or directory has. Every other embedded file is served as itself. *)
Theorem site_navigation (l : layout) (at_path path : string) :
  (ANavigate path ∈ actions (layout_template l at_path (El "router-view" [] [])) →
   is_Some (resolve path) ∧ is_Some (pageTitle path) ∧ adminHandler admin_files (address path) = SFile "index.html") ∧
  (path ≠ "" → opens admin_files path = false → adminHandler admin_files (history_base +:+ path) = SFile "index.html") ∧
  (path ∈ admin_files → path ≠ "index.html" → adminHandler admin_files (vite_base +:+ path) = SFile path).
Proof.
  split_and!.
  - intros Hin.
    assert (path ∈ ["/"; "/devices"; "/cluster"; "/metrics"]) as Hp.
    { rewrite layout_actions in Hin.
      repeat (apply elem_of_cons in Hin as [Hin|Hin]; [simplify_eq; set_solver|]). by apply not_elem_of_nil in Hin. }
    repeat (apply elem_of_cons in Hp as [->|Hp]; [by vm_compute; eauto|]). by apply not_elem_of_nil in Hp.
  - intros Hne Ho. unfold history_base. rewrite adminHandler_path, bool_decide_false, Ho by done. done.
  - intros Hf Hne. unfold vite_base. rewrite adminHandler_path.
    assert (path ≠ "") as Hp by (intros ->; by apply (bool_decide_eq_true_2 ("" ∈ admin_files)) in Hf).
    rewrite bool_decide_false, opens_In by done. unfold fileServer.
    by rewrite !bool_decide_false, bool_decide_true by done.
Qed.

Lemma site_navigation_witness :
  (∃ v, resolve "/cluster" = Some v) ∧
  adminHandler admin_files "/admin/cluster" = SFile "index.html" ∧
  adminHandler admin_files "/admin/no/such/page" = SFile "index.html" ∧
  adminHandler admin_files "/admin/assets/index-EQTwsGvA.css" = SFile "assets/index-EQTwsGvA.css".
Proof.
  destruct (site_navigation (mkLayout false "n1" "en" None) "/" "/cluster") as (Hnav & _ & _).
  destruct Hnav as (Hr & _ & Hh); [rewrite layout_actions; set_solver|].
  split; [exact Hr|]. split; [exact Hh|]. split.
  - destruct (site_navigation (mkLayout false "n1" "en" None) "/" "no/such/page") as (_ & Hno & _).
    apply Hno; [done|]. vm_compute. reflexivity.
  - destruct (site_navigation (mkLayout false "n1" "en" None) "/" "assets/index-EQTwsGvA.css") as (_ & _ & Hf).
    apply Hf; [|done]. apply (bool_decide_eq_true_1 ("assets/index-EQTwsGvA.css" ∈ admin_files)). vm_compute. reflexivity.
Defined.

(** ** Disconnecting a device from its page *)

(** *** From the address that a page asks for to the path that the server reads *)

(** The printable characters that an address carries to the server as they are: the browser may escape
    some of them, and the server undoes it. *)
Definition plain_char (c : Ascii.ascii) : bool :=
  let n := Ascii.N_of_ascii c in
  (33 <=? n)%N && (n <=? 126)%N && negb (existsb (Ascii.eqb c) ["/"; "\"; "?"; "#"; "%"]%char).
Definition plain_segment (s : string) : bool :=
  negb (AuditLog.is_dot s) && negb (bool_decide (s = "..")) && forallb plain_char (String.list_ascii_of_string s).

Definition path_of (segments : list string) : string := "/" +:+ Join "/" segments.

(** What the URL parsers of the browser and of [net/http] make of the address of a request: the path
    that the server reads, or nothing when it refuses the address. Of the URL standard only this is used:
    plain segments are kept, the query and the fragment are not part of the path, and the browser
    resolves the segments [.] and [..]. *)
Class Addresses := {
  request_path : string → option string;
  path_plain segments : segments ≠ [] → forallb plain_segment segments = true →
    request_path (path_of segments) = Some (path_of segments);
  path_cut segments c rest : segments ≠ [] → forallb plain_segment segments = true → c = "?"%char ∨ c = "#"%char →
    request_path (path_of segments +:+ String c rest) = Some (path_of segments);
  path_dot l1 l2 : l2 ≠ [] → forallb plain_segment (l1 ++ l2) = true →
    request_path (path_of (l1 ++ "." :: l2)) = Some (path_of (l1 ++ l2));
  path_dots l1 x l2 : l2 ≠ [] → forallb plain_segment (l1 ++ x :: l2) = true →
    request_path (path_of (l1 ++ x :: ".." :: l2)) = Some (path_of (l1 ++ l2))
}.

Lemma plain_segment_normal s : plain_segment s = true → AuditLog.normal s.
Proof.
  unfold plain_segment, AuditLog.is_dot. intros H. apply andb_true_iff in H as [H _]. apply andb_true_iff in H as [H1 H2].
  apply negb_true_iff in H1 as [H1 H3]%orb_false_iff. apply negb_true_iff in H2.
  split_and!; by eapply bool_decide_eq_false_1.
Qed.

Lemma plain_segment_free s c : plain_segment s = true → plain_char c = false → Contains s c = false.
Proof.
  unfold plain_segment. intros H Hc. apply andb_true_iff in H as [_ H]. induction s as [|a s IH]; [done|].
  cbn in H. apply andb_true_iff in H as [Ha H]. cbn. rewrite IH by exact H. rewrite orb_false_r.
  apply Ascii.eqb_neq. intros ->. by rewrite Ha in Hc.
Qed.

Lemma plain_slash_free segments : forallb plain_segment segments = true → Forall (λ p, Contains p "/" = false) segments.
Proof.
  intros H. apply Forall_forall. intros p Hp. apply plain_segment_free; [|reflexivity].
  rewrite forallb_forall in H. by apply H, list_elem_of_In.
Qed.

Lemma HasPrefix_slash segments : HasPrefix (path_of segments) "/" = true.
Proof. apply HasPrefix_app. Qed.

Lemma Split_path segments : segments ≠ [] → Forall (λ p, Contains p "/" = false) segments →
  Split "/" (path_of segments) = "" :: segments.
Proof. intros Hne Hs. unfold path_of.
  change (Split "/" ("/" +:+ Join "/" segments)) with ("" :: Split "/" (Join "/" segments)). by rewrite Split_Join. Qed.

(** Cleaning a path runs over its segments. *)
Lemma Clean_path segments : segments ≠ [] → Forall (λ p, Contains p "/" = false) segments →
  AuditLog.Clean (path_of segments) = path_of (rev (foldl (AuditLog.clean_step true) [] segments)).
Proof.
  intros Hne Hs. unfold AuditLog.Clean. rewrite bool_decide_false by done.
  assert (HasPrefix (path_of segments) "/" = true) as -> by apply HasPrefix_slash. cbv zeta iota. by rewrite Split_path.
Qed.

Lemma clean_plain segments : forallb plain_segment segments = true → ∀ out,
  foldl (AuditLog.clean_step true) out segments = rev segments ++ out.
Proof.
  induction segments as [|s l IH]; intros H out; [done|]. cbn in H. apply andb_true_iff in H as [Hs Hl].
  cbn [foldl]. destruct (plain_segment_normal _ Hs) as (H1 & H2 & H3). unfold AuditLog.clean_step at 2, AuditLog.is_dot.
  rewrite !bool_decide_false by done. cbn [orb]. rewrite IH by done. cbn [rev]. by rewrite <- app_assoc.
Qed.

Lemma Clean_plain segments : segments ≠ [] → forallb plain_segment segments = true →
  AuditLog.Clean (path_of segments) = path_of segments.
Proof.
  intros Hne Hs. rewrite Clean_path by (done || by apply plain_slash_free).
  by rewrite clean_plain, app_nil_r, rev_involutive.
Qed.

Lemma ends_with_slash_app a c : Routes.ends_with_slash (a +:+ String c "") = Ascii.eqb c "/".
Proof.
  unfold Routes.ends_with_slash. assert (Hl : String.list_ascii_of_string (a +:+ String c "") = String.list_ascii_of_string a ++ [c]).
  { induction a as [|b a IH]; [done|]. cbn. by rewrite <- IH. }
  by rewrite Hl, rev_app_distr.
Qed.

Lemma string_last x : x ≠ "" → ∃ a c, x = a +:+ String c "".
Proof.
  induction x as [|c x IH]; [done|]. intros _. destruct x as [|d x]; [by exists "", c|].
  destruct IH as (a & e & E); [done|]. exists (String c a), e. by rewrite E.
Qed.

Lemma Join_last l a c : ∃ b, Join "/" (l ++ [a +:+ String c ""]) = b +:+ String c "".
Proof.
  induction l as [|y l [b IH]]; [by exists a|]. exists (y +:+ String "/" b). cbn [app].
  destruct (l ++ [a +:+ String c ""]) as [|z r] eqn:E; [by destruct l|].
  change (Join "/" (y :: z :: r)) with (y +:+ String "/" (Join "/" (z :: r))). rewrite IH. by rewrite append_assoc.
Qed.

Lemma path_end segments : segments ≠ [] → forallb plain_segment segments = true →
  Routes.ends_with_slash (path_of segments) = false.
Proof.
  intros Hne Hs. destruct (exists_last Hne) as (l & x & ->).
  rewrite forallb_app in Hs. apply andb_true_iff in Hs as [_ Hs]. cbn in Hs. rewrite andb_true_r in Hs.
  destruct (string_last x) as (a & c & ->); [by apply plain_segment_normal|].
  destruct (Join_last l a c) as [b Hb]. unfold path_of. rewrite Hb, <- append_assoc, ends_with_slash_app.
  pose proof (plain_segment_free _ "/" Hs eq_refl) as Hc. rewrite Contains_app in Hc. apply orb_false_iff in Hc as [_ Hc].
  cbn in Hc. by rewrite orb_false_r in Hc.
Qed.

(** The multiplexer leaves a plain path as it is. *)
Lemma cleanPath_plain segments : segments ≠ [] → forallb plain_segment segments = true →
  Routes.cleanPath (path_of segments) = path_of segments.
Proof.
  intros Hne Hs. unfold Routes.cleanPath. rewrite bool_decide_false by done.
  rewrite HasPrefix_slash. cbv zeta iota.
  by rewrite path_end, Clean_plain by done.
Qed.

Lemma exact_device x : x ≠ "" → Routes.exact ("/api/v1/devices/" +:+ x) = None.
Proof.
  intros Hx. destruct x as [|c x]; [done|]. unfold Routes.exact, Routes.patterns. cbn [find fst].
  by rewrite !bool_decide_false by (intros Hk; cbn in Hk; discriminate Hk).
Qed.

(** Every plain path below [/api/v1/devices/] is for one handler. *)
Lemma route_device segments : segments ≠ [] → forallb plain_segment segments = true →
  Routes.route (path_of ("api" :: "v1" :: "devices" :: segments)) = Routes.Run Routes.EDeviceByID.
Proof.
  intros Hne Hs. unfold Routes.route. cbv zeta. rewrite cleanPath_plain by done.
  replace (path_of ("api" :: "v1" :: "devices" :: segments)) with ("/api/v1/devices/" +:+ Join "/" segments) by (by destruct segments).
  assert (Hj : Join "/" segments ≠ "").
  { destruct segments as [|x l]; [done|]. cbn in Hs. apply andb_true_iff in Hs as [Hx _].
    destruct (plain_segment_normal _ Hx) as [Hn _]. destruct x; [done|]. by destruct l. }
  rewrite exact_device, append_assoc, exact_device by (done || by destruct (Join "/" segments)).
  rewrite bool_decide_true by done. destruct (Join "/" segments); [done|reflexivity].
Qed.

(** *** The request and its answer *)

Section Disconnect.
Context `{Zone, Addresses} (escape : string → string) (s : Routes.server) (m : Routes.machine).

(** The server of the page's requests; the pages give no API key. *)
Definition page_request (r : request) (path : string) : Routes.http_request :=
  Routes.mkHttp (req_method r) path "" "" "" "".
Definition device_server (r : request) : option Routes.answer :=
  path ← request_path (req_url r); Some (Routes.ServeHTTP escape s m (page_request r path)).1.

(** The device that an answer disconnects. *)
Definition disconnected (a : Routes.answer) : option string :=
  match a with Routes.Reply r => disconnects r | _ => None end.

(** What the page gets: a refused address is a 400, and a redirection is followed with a GET (it leads to a
    clean path, which is not redirected again). *)
Definition failed (code : Z) : outcome js := axios (bare_reply code).
Definition answered (a : Routes.answer) : outcome js :=
  match a with
  | Routes.Reply r => axios r
  | Routes.Site _ | Routes.Metrics => Resolved (JStr "")
  | Routes.Redirect _ | Routes.Missing => failed 404
  end.
Definition device_net (r : request) : outcome js :=
  match device_server r with
  | None => failed 400
  | Some (Routes.Redirect p) =>
      answered (Routes.ServeHTTP escape s m (Routes.mkHttp GET p "" "" "" "")).1
  | Some a => answered a
  end.

(** The request that [disconnectDevice] makes. *)
Definition disconnect_request (id : string) : request := client_post ("/devices/" +:+ id +:+ "/disconnect").

Lemma disconnect_url id : req_url (disconnect_request id) = path_of ["api"; "v1"; "devices"; id; "disconnect"].
Proof. done. Qed.

(** The handler of the devices answers, unless a key is set. *)
Lemma device_server_plain r segments : segments ≠ [] → forallb plain_segment segments = true →
  request_path (req_url r) = Some (path_of ("api" :: "v1" :: "devices" :: segments)) →
  device_server r = Some (Routes.Reply (if bool_decide (Routes.sv_apiKey s = "") then
    handleDeviceByID escape (Some (Routes.sv_api s)) (Routes.sv_cluster s) (Routes.mc_peers m) (req_method r)
      (path_of ("api" :: "v1" :: "devices" :: segments)) "" ""
    else error_reply 401 "unauthorized")).
Proof.
  intros Hne Hs Hp. unfold device_server. rewrite Hp. cbn [mbind option_bind]. unfold Routes.ServeHTTP, page_request.
  cbn [Routes.rq_path]. rewrite route_device by done. cbn [Routes.run fst Routes.rq_key Routes.rq_query_key Routes.rq_method
    Routes.rq_path Routes.rq_page Routes.rq_per_page]. unfold authWrap. cbv zeta. rewrite (bool_decide_true ("" = "")) by done.
  case_bool_decide as Hk; [done|]. cbn [negb]. by rewrite bool_decide_false by (intros E; apply Hk; by rewrite <- E).
Qed.

Lemma net_plain r segments : segments ≠ [] → forallb plain_segment segments = true →
  request_path (req_url r) = Some (path_of ("api" :: "v1" :: "devices" :: segments)) →
  device_net r = axios (if bool_decide (Routes.sv_apiKey s = "") then
    handleDeviceByID escape (Some (Routes.sv_api s)) (Routes.sv_cluster s) (Routes.mc_peers m) (req_method r)
      (path_of ("api" :: "v1" :: "devices" :: segments)) "" ""
    else error_reply 401 "unauthorized").
Proof. intros Hne Hs Hp. unfold device_net. by rewrite (device_server_plain r segments). Qed.

Lemma plain_parts (id : string) : plain_segment id = true →
  forallb plain_segment ["api"; "v1"; "devices"; id; "disconnect"] = true.
Proof. intros Hid. cbn [forallb]. rewrite Hid. reflexivity. Qed.

Lemma disconnect_path id : plain_segment id = true →
  request_path (req_url (disconnect_request id)) = Some (path_of ["api"; "v1"; "devices"; id; "disconnect"]).
Proof. intros Hid. rewrite disconnect_url. by apply path_plain, plain_parts. Qed.

Lemma handle_connected a cl peers id p pp : plain_segment id = true → is_Some (GetClientInfo a id) →
  handleDeviceByID escape (Some a) cl peers POST (path_of ["api"; "v1"; "devices"; id; "disconnect"]) p pp =
  mkReply 200 (Some (JObj [("status", JStr "disconnected")])) (Some id).
Proof.
  intros Hid [info Hi]. unfold handleDeviceByID.
  change (path_of ["api"; "v1"; "devices"; id; "disconnect"]) with ("/api/v1/devices/" +:+ (id +:+ String "/" "disconnect")).
  rewrite TrimPrefix_app, SplitN2_app by (by apply plain_segment_free). cbn [List.hd].
  rewrite bool_decide_false by (by apply plain_segment_normal). by rewrite Hi.
Qed.

Lemma auth_disconnects key header query r id : disconnects (authWrap key header query r) = Some id → disconnects r = Some id.
Proof. unfold authWrap. case_bool_decide; [done|]. by case_bool_decide. Qed.

Lemma migration_disconnects now mc meth path : disconnects (handleMigrationByID now mc meth path).1 = None.
Proof.
  unfold handleMigrationByID. destruct mc as [mc|]; [|done]. cbv zeta. destruct meth; [|  |done].
  - by destruct (Migration.Coord_Get _ _).
  - destruct (is_action _ _); [|done]. by destruct (Migration.Coord_Cancel _ _ _) as [[] ?].
Qed.

(** Whatever the server answers, it disconnects at most the device that the first part of the path names. *)
Lemma served_disconnects rq id : disconnected (Routes.ServeHTTP escape s m rq).1 = Some id →
  id = List.hd "" (SplitN2 "/" (TrimPrefix (Routes.rq_path rq) "/api/v1/devices/")).
Proof.
  unfold Routes.ServeHTTP. destruct (Routes.route _) as [e|p'|]; [|done..].
  destruct e; cbn [Routes.run fst disconnected]; try done; intros Hd.
  - by destruct (Routes.sv_ready s) as [[]|].
  - apply auth_disconnects in Hd. unfold handleClusterDevices in Hd. by destruct (Routes.sv_cluster s).
  - apply auth_disconnects in Hd. unfold handleClusterStats in Hd. by destruct (match Routes.sv_cluster s with Some _ => _ | None => _ end) as [[] ].
  - apply auth_disconnects in Hd. unfold handleMigrations in Hd. destruct (Routes.sv_coordinator s); [|done]. by destruct (Routes.rq_method rq).
  - destruct (handleMigrationByID _ _ _ _) as [r mc] eqn:E. cbn [fst disconnected] in Hd. apply auth_disconnects in Hd.
    pose proof (migration_disconnects (Routes.mc_now m) (Routes.sv_coordinator s) (Routes.rq_method rq) (Routes.rq_path rq)) as Hm.
    rewrite E in Hm. cbn [fst] in Hm. by rewrite Hm in Hd.
  - by apply auth_disconnects in Hd.
  - apply auth_disconnects, handleDeviceByID_disconnects in Hd. done.
  - by apply auth_disconnects in Hd.
  - by apply auth_disconnects in Hd.
Qed.

(** C23: confirming the disconnection of a device on its page disconnects it. The request goes from the
    address that the page writes, through the URL parsers, the routes and the API key of the server, to
    the handler; it is stated for the identifiers that the page, which does not escape them, can write
    into an address: not empty, not [.] or [..], and of printable ASCII characters other than [/], [\],
    [?], [#] and [%]. While no key is set (the program sets none), the server disconnects the connected
    device of that name, the page says so and loads the list again. While a key is set, which the pages do
    not give, nothing is disconnected and the page says that it failed. And no request at all, of a page or
    of anybody, disconnects a device whose identifier has a slash. *)
Theorem ui_disconnects (p : devices_page) (id : string) :
  let answer := device_server (disconnect_request id) in
  let p' := handleDisconnect p id (disconnectDevice device_net id) in
  (plain_segment id = true → Routes.sv_apiKey s = "" → is_Some (GetClientInfo (Routes.sv_api s) id) →
   answer ≫= disconnected = Some id ∧
   toasts p' = toasts p ++ [ToastSuccess "devices.disconnected" [("id", id)]] ∧ requests p' = S (requests p)) ∧
  (plain_segment id = true → Routes.sv_apiKey s ≠ "" →
   answer ≫= disconnected = None ∧
   toasts p' = toasts p ++ [ToastError "devices.disconnectFailed"] ∧ requests p' = requests p) ∧
  (Contains id "/" = true → ∀ rq, disconnected (Routes.ServeHTTP escape s m rq).1 ≠ Some id).
Proof.
  assert (Hs : plain_segment id = true → forallb plain_segment [id; "disconnect"] = true) by (intros Hid; cbn; by rewrite Hid).
  cbv zeta. split_and!.
  - intros Hid Hk Hi. unfold disconnectDevice. fold (disconnect_request id).
    rewrite (device_server_plain _ [id; "disconnect"]), (net_plain _ [id; "disconnect"]) by auto using disconnect_path.
    rewrite bool_decide_true by done. by rewrite handle_connected.
  - intros Hid Hk. unfold disconnectDevice. fold (disconnect_request id).
    rewrite (device_server_plain _ [id; "disconnect"]), (net_plain _ [id; "disconnect"]) by auto using disconnect_path.
    by rewrite bool_decide_false.
  - intros Hc rq Hd. apply served_disconnects in Hd. subst id. by rewrite SplitN2_head in Hc.
Qed.

(** What the page writes for other identifiers names another path: after a question mark or a number sign
    nothing of it reaches the server, and a device of that name is not disconnected. *)
Lemma cut_not_disconnected (p : devices_page) (id rest : string) (c : Ascii.ascii) :
  plain_segment id = true → c = "?"%char ∨ c = "#"%char → Routes.sv_apiKey s = "" →
  let p' := handleDisconnect p (id +:+ String c rest) (disconnectDevice device_net (id +:+ String c rest)) in
  device_server (disconnect_request (id +:+ String c rest)) = Some (Routes.Reply (bare_reply 405)) ∧
  toasts p' = toasts p ++ [ToastError "devices.disconnectFailed"].
Proof.
  intros Hid Hc Hk. unfold disconnectDevice. fold (disconnect_request (id +:+ String c rest)).
  assert (Hp : request_path (req_url (disconnect_request (id +:+ String c rest))) = Some (path_of ["api"; "v1"; "devices"; id])).
  { assert (Hu : req_url (disconnect_request (id +:+ String c rest)) =
                 path_of ["api"; "v1"; "devices"; id] +:+ String c (rest +:+ "/disconnect")).
    { change (path_of ["api"; "v1"; "devices"; id]) with ("/api/v1/devices/" +:+ id).
      change (req_url (disconnect_request (id +:+ String c rest))) with ("/api/v1/devices/" +:+ ((id +:+ String c rest) +:+ "/disconnect")).
      by rewrite !append_assoc. }
    rewrite Hu. apply path_cut; [done| |done]. cbn [forallb]. by rewrite Hid. }
  assert (Hs : forallb plain_segment [id] = true) by (cbn; by rewrite Hid).
  rewrite (device_server_plain _ [id]), (net_plain _ [id]) by done. rewrite bool_decide_true by done.
  assert (Hr : handleDeviceByID escape (Some (Routes.sv_api s)) (Routes.sv_cluster s) (Routes.mc_peers m) POST
                 (path_of ["api"; "v1"; "devices"; id]) "" "" = bare_reply 405).
  { unfold handleDeviceByID. change (path_of ["api"; "v1"; "devices"; id]) with ("/api/v1/devices/" +:+ id).
    rewrite TrimPrefix_app, SplitN2_Contains by (by apply plain_segment_free). cbn [List.hd].
    by rewrite bool_decide_false by (by apply plain_segment_normal). }
  cbn [disconnect_request client_post req_method]. by rewrite Hr.
Qed.

(** It may name another device: confirming the disconnection of [x/disconnect?y] disconnects [x], and the
    page says that it disconnected the one that it asked for. *)
Lemma disconnects_another (p : devices_page) (id rest : string) :
  plain_segment id = true → Routes.sv_apiKey s = "" → is_Some (GetClientInfo (Routes.sv_api s) id) →
  let shown := id +:+ "/disconnect?" +:+ rest in
  device_server (disconnect_request shown) ≫= disconnected = Some id ∧
  toasts (handleDisconnect p shown (disconnectDevice device_net shown)) =
    toasts p ++ [ToastSuccess "devices.disconnected" [("id", shown)]].
Proof.
  intros Hid Hk Hi shown. unfold disconnectDevice. fold (disconnect_request shown).
  assert (Hp : request_path (req_url (disconnect_request shown)) = Some (path_of ["api"; "v1"; "devices"; id; "disconnect"])).
  { assert (Hu : req_url (disconnect_request shown) =
                 path_of ["api"; "v1"; "devices"; id; "disconnect"] +:+ String "?" (rest +:+ "/disconnect")).
    { change (path_of ["api"; "v1"; "devices"; id; "disconnect"]) with ("/api/v1/devices/" +:+ (id +:+ "/disconnect")).
      change (req_url (disconnect_request shown)) with ("/api/v1/devices/" +:+ (shown +:+ "/disconnect")).
      unfold shown. by rewrite !append_assoc. }
    rewrite Hu. apply path_cut; [done|by apply plain_parts|by left]. }
  assert (Hs : forallb plain_segment [id; "disconnect"] = true) by (cbn; by rewrite Hid).
  rewrite (device_server_plain _ [id; "disconnect"]), (net_plain _ [id; "disconnect"]) by done.
  rewrite bool_decide_true by done. by rewrite handle_connected.
Qed.

(** A device named [..] is not found, and the request for one named [.] is refused. *)
Lemma dots_not_disconnected : Routes.sv_apiKey s = "" →
  device_server (disconnect_request "..") = Some Routes.Missing ∧
  device_server (disconnect_request ".") = Some (Routes.Reply (bare_reply 405)).
Proof.
  intros Hk. split.
  - unfold device_server. rewrite disconnect_url, (path_dots ["api"; "v1"] "devices" ["disconnect"]) by done. reflexivity.
  - rewrite (device_server_plain _ ["disconnect"]); [by rewrite bool_decide_true|done|reflexivity|].
    rewrite disconnect_url. by apply (path_dot ["api"; "v1"; "devices"] ["disconnect"]).
Qed.

End Disconnect.

(** *** Addresses as the standard has them, without escapes *)

Fixpoint cut_address (u : string) : string :=
  match u with
  | EmptyString => EmptyString
  | String c u => if Ascii.eqb c "?" || Ascii.eqb c "#" then EmptyString else String c (cut_address u)
  end.

Lemma cut_free u : Contains u "?" = false → Contains u "#" = false → cut_address u = u.
Proof.
  induction u as [|c u IH]; [done|]. cbn -[Ascii.eqb]. intros [H1 H2]%orb_false_iff [H3 H4]%orb_false_iff.
  rewrite H1, H3. cbn -[Ascii.eqb]. by rewrite IH.
Qed.

Lemma cut_app u c rest : Contains u "?" = false → Contains u "#" = false → c = "?"%char ∨ c = "#"%char →
  cut_address (u +:+ String c rest) = u.
Proof.
  intros H1 H2 Hc. induction u as [|a u IH]; cbn -[Ascii.eqb]; [by destruct Hc as [->| ->]|].
  change (String a u +:+ String c rest) with (String a (u +:+ String c rest)). cbn -[Ascii.eqb] in H1, H2 |- *. apply orb_false_iff in H1 as [H1 H3], H2 as [H2 H4].
  rewrite H1, H2. cbn [orb]. f_equal. by apply IH.
Qed.

Lemma path_free segments c : Forall (λ p, Contains p c = false) segments → c ≠ "/"%char → Contains (path_of segments) c = false.
Proof.
  intros Hs Hc. apply Ascii.eqb_neq in Hc. unfold path_of. change ("/" +:+ Join "/" segments) with (String "/" (Join "/" segments)).
  cbn -[Join Ascii.eqb]. rewrite Ascii.eqb_sym, Hc. cbn [orb]. induction Hs as [|x l Hx Hl IH]; [done|]. destruct l as [|y l]; [done|].
  change (Join "/" (x :: y :: l)) with (x +:+ String "/" (Join "/" (y :: l))). rewrite Contains_app, Hx. cbn -[Join Ascii.eqb].
  by rewrite Ascii.eqb_sym, Hc.
Qed.

Lemma segments_free segments c : forallb plain_segment segments = true → plain_char c = false → Forall (λ p, Contains p c = false) segments.
Proof.
  intros H Hc. apply Forall_forall. intros p Hp. apply plain_segment_free; [|done].
  rewrite forallb_forall in H. by apply H, list_elem_of_In.
Qed.

#[global] Program Instance plain_addresses : Addresses := {| request_path u := Some (AuditLog.Clean (cut_address u)) |}.
Next Obligation.
  cbv beta. intros l Hne Hs. rewrite cut_free by (apply path_free; [by apply segments_free|done]). by rewrite Clean_plain.
Qed.
Next Obligation.
  cbv beta. intros l c rest Hne Hs Hc. rewrite cut_app by (done || (apply path_free; [by apply segments_free|done])). by rewrite Clean_plain.
Qed.
Next Obligation.
  cbv beta. intros l1 l2 Hne Hs. pose proof Hs as Hs'. rewrite forallb_app in Hs'. apply andb_true_iff in Hs' as [Hs1 Hs2].
  assert (Hfree : ∀ c, plain_char c = false → c ≠ "."%char → Forall (λ p, Contains p c = false) (l1 ++ "." :: l2)).
  { intros c Hc Hd. apply Forall_app. split; [by apply segments_free|]. constructor; [|by apply segments_free].
    cbn -[Ascii.eqb]. rewrite (proj2 (Ascii.eqb_neq _ _)); [done|congruence]. }
  rewrite cut_free by (apply path_free; [by apply Hfree|done]).
  rewrite Clean_path by first [by destruct l1|by apply Hfree].
  rewrite foldl_app, (clean_plain l1) by done. cbn [foldl]. change (AuditLog.clean_step true ?o ".") with o.
  rewrite clean_plain by done. by rewrite app_nil_r, rev_app_distr, !rev_involutive.
Qed.
Next Obligation.
  cbv beta. intros l1 x l2 Hne Hs. rewrite forallb_app in Hs. cbn [forallb] in Hs. apply andb_true_iff in Hs as [Hs1 [Hx Hs2]%andb_true_iff].
  assert (Hfree : ∀ c, plain_char c = false → c ≠ "."%char → Forall (λ p, Contains p c = false) (l1 ++ x :: ".." :: l2)).
  { intros c Hc Hd. apply Forall_app. split; [by apply segments_free|]. constructor; [by apply plain_segment_free|].
    constructor; [|by apply segments_free].
    cbn -[Ascii.eqb]. rewrite !(proj2 (Ascii.eqb_neq _ _)); [done|congruence]. }
  rewrite cut_free by (apply path_free; [by apply Hfree|done]).
  rewrite Clean_path by first [by destruct l1|by apply Hfree].
  change (l1 ++ x :: ".." :: l2) with (l1 ++ [x] ++ ".." :: l2). rewrite app_assoc, foldl_app, (clean_plain (l1 ++ [x])) by
    (rewrite forallb_app, Hs1; cbn; by rewrite Hx).
  rewrite rev_app_distr. cbn [rev app foldl].
  assert (Hstep : AuditLog.clean_step true (x :: rev l1 ++ []) ".." = rev l1).
  { unfold AuditLog.clean_step. change (AuditLog.is_dot "..") with false. cbv iota.
    rewrite bool_decide_true, bool_decide_false by (done || by apply plain_segment_normal). by rewrite app_nil_r. }
  rewrite Hstep, clean_plain by done. by rewrite rev_app_distr, !rev_involutive.
Qed.

#[local] Instance utc : Zone := Routes.utc.
Definition web (ids : list string) (key : string) : Routes.server := Routes.mkServer (Some true) None (sample_api ids) None key ["index.html"].

Lemma ui_disconnects_witness :
  let a := Routes.a_machine in
  device_server id (web ["d"; "d/e"] "") a (disconnect_request "d") ≫= disconnected = Some "d" ∧
  device_server id (web ["d"] "secret") a (disconnect_request "d") ≫= disconnected = None ∧
  disconnected (Routes.ServeHTTP id (web ["d"; "d/e"] "") a (Routes.a_request POST "/api/v1/devices/d/e/disconnect" "")).1 ≠ Some "d/e".
Proof.
  intros a. split_and!.
  - destruct (ui_disconnects id (web ["d"; "d/e"] "") Routes.a_machine open_devices "d") as (Hd & _).
    apply Hd; [reflexivity|reflexivity|vm_compute; by eexists].
  - destruct (ui_disconnects id (web ["d"] "secret") Routes.a_machine open_devices "d") as (_ & Hd & _).
    apply Hd; [reflexivity|discriminate].
  - destruct (ui_disconnects id (web ["d"; "d/e"] "") Routes.a_machine open_devices "d/e") as (_ & _ & Hd).
    apply Hd. reflexivity.
Defined.

(** ** Cancelling a migration from its page *)

(** A row of the table of migrations, with what the page reads of a record. *)
Definition str_field (v : js) (k : string) : string :=
  match prop v k with Resolved (JStr s) => s | _ => "" end.
Definition migration_row (v : js) : MigrationRow :=
  mkMigRow (str_field v "id") (str_field v "device_id") (str_field v "source_node") (str_field v "target_node")
    (str_field v "status") (match prop v "progress" with Resolved (JNum n) => n | _ => 0 end).
Definition migration_rows (r : outcome js) : outcome (list MigrationRow) :=
  match r with Resolved (JArr l) => Resolved (migration_row <$> l) | Resolved _ => Resolved [] | Rejected e => Rejected e end.

(** No migration can be cancelled from the page: whatever the coordinator holds, the page that has
    loaded the migrations from the server offers no cancellation. *)
Lemma no_cancel_offered `{Zone} (coordinator : option Migration.MigrationCoordinator) (c : cluster_page MigrationRow)
    (id : string) :
  ACancel id ∉ actions (cluster_template (loadMigrations_end c
    (migration_rows (fetchMigrations (λ _, axios (handleMigrations coordinator GET)))))).
Proof.
  rewrite cluster_actions. intros [Hin|Hin]%elem_of_app.
  - apply list_elem_of_fmap in Hin as (n & Hn & _). done.
  - destruct coordinator; by apply not_elem_of_nil in Hin.
Qed.

End AdminSite.
